(** * The MMC/SD card driver over an SDIO host (drivers/mmcsd/mmcsd_sdio.c)

    A shallow embedding of the card state machine of the driver: register
    decoding, the transfer-readiness poll, the CMD6 switch helper, the four
    block transfer routines, the block-device read/write loops and the raw
    command pass-through.

    The SDIO host controller is an external collaborator.  It is modelled
    as an oracle that answers every call from the history of the calls
    made so far, so a statement quantified over the oracle holds for every
    host and every card behind it.  The history doubles as the record of
    what the driver put on the bus.

    Integers of an explicit width in the source (uint8_t, uint16_t,
    uint32_t) wrap, and so do the clock ticks (clock_t).  Of the integers
    of a platform width, those that carry a block count or a sector number
    through the loops of mmcsd_read and mmcsd_write, back from the
    multi-block routines and through mmcsd_iocmd (int, unsigned int,
    size_t, ssize_t, blkcnt_t) wrap at the widths the build gives these
    types.  A status (OK or a negated errno) is taken to fit its int and a
    block address its off_t; a byte length or a time-out handed to the
    host is the number its expression stands for.  Data buffers and their
    contents are not part of the model: only the length handed to the host
    is kept. *)

From Stdlib Require Import ZArith List Bool Lia.
Import ListNotations.
Local Open Scope Z_scope.

(** ** Machine integers *)

Definition to_u8 (x : Z) : Z := x mod 256.
Definition to_u16 (x : Z) : Z := x mod 65536.
Definition to_u32 (x : Z) : Z := x mod 4294967296.

(** ** Constants of the missing headers *)

Definition OK : Z := 0.

(** Modelled from the spec: errno.h is not part of the sources; the error
    kinds NoDevice, InvalidState, Timeout, IoError and the permission error
    carry the usual numbers. *)
Definition EPERM : Z := 1.
Definition EIO : Z := 5.
Definition ENODEV : Z := 19.
Definition EINVAL : Z := 22.
Definition ETIMEDOUT : Z := 110.

(** Modelled from the spec: mmcsd.h is not part of the sources; the card
    type is a tagged value Unknown / MMC / SDv1 / SDv2 with an orthogonal
    block-addressed flag, kept as the bit set the code tests. *)
Definition MMCSD_CARDTYPE_UNKNOWN : Z := 0.
Definition MMCSD_CARDTYPE_MMC : Z := 1.
Definition MMCSD_CARDTYPE_SDV1 : Z := 2.
Definition MMCSD_CARDTYPE_SDV2 : Z := 4.
Definition MMCSD_CARDTYPE_BLOCK : Z := 8.

Definition IS_MMC (t : Z) : bool := negb (Z.land t MMCSD_CARDTYPE_MMC =? 0).
Definition IS_SD (t : Z) : bool :=
  negb (Z.land t (Z.lor MMCSD_CARDTYPE_SDV1 MMCSD_CARDTYPE_SDV2) =? 0).
Definition IS_BLOCK (t : Z) : bool := negb (Z.land t MMCSD_CARDTYPE_BLOCK =? 0).

(** Modelled from the spec: mmcsd_sdio.h is not part of the sources; the
    card state sits in bits 9:12 of R1, with the state numbers of the SD
    specification (TRAN = 4, RCV = 6, PRG = 7). *)
Definition MMCSD_R1_STATE_SHIFT : Z := 9.
Definition MMCSD_R1_STATE_MASK : Z := Z.shiftl 15 MMCSD_R1_STATE_SHIFT.
Definition MMCSD_R1_STATE_STBY : Z := Z.shiftl 3 MMCSD_R1_STATE_SHIFT.
Definition MMCSD_R1_STATE_TRAN : Z := Z.shiftl 4 MMCSD_R1_STATE_SHIFT.
Definition MMCSD_R1_STATE_RCV : Z := Z.shiftl 6 MMCSD_R1_STATE_SHIFT.
Definition MMCSD_R1_STATE_PRG : Z := Z.shiftl 7 MMCSD_R1_STATE_SHIFT.
Definition IS_STATE (v s : Z) : bool := Z.land (to_u32 v) MMCSD_R1_STATE_MASK =? s.

(** Modelled from the spec: the error bits of R1 (R1_ERRORMASK) and the
    CARD_IS_LOCKED bit, declared in the missing mmcsd_sdio.h. *)
Definition MMCSD_R1_ERRORMASK : Z := 0xfdffe008.
Definition MMCSD_R1_CARDISLOCKED : Z := Z.shiftl 1 25.

(** Modelled from the spec: the CMD6 argument layout of 4.7 (mode in bits
    25:24, index in bits 23:16, value in bits 15:8), the macros of the
    missing mmcsd_sdio.h and mmcsd_extcsd.h. *)
Definition MMC_CMD6_MODE_WRITE_BYTE : Z := 3.
Definition EXT_CSD_PART_CONF : Z := 179.
Definition MMC_CMD6_MODE (m : Z) : Z := Z.shiftl (Z.land m 3) 24.
Definition MMC_CMD6_INDEX (i : Z) : Z := Z.shiftl (Z.land i 255) 16.
Definition MMC_CMD6_VALUE (v : Z) : Z := Z.shiftl (Z.land v 255) 8.

(** Modelled from the spec: the partition table of the missing mmcsd.h,
    in the order of g_partname (user, boot0, boot1, rpmb, gp1..gp4). *)
Definition MMCSD_PART_RPMB : Z := 3.
Definition MMCSD_PART_COUNT : Z := 8.
Definition MMCSD_CSD_CSIZE_THRESHOLD : Z := 0xfff.

(** Modelled from the spec: the command index is the low six bits of an
    opcode (MMCSD_CMDIDX_MASK of the missing nuttx/sdio.h). *)
Definition MMCSD_CMDIDX_MASK : Z := 0x3f.

(** Modelled from the spec: the capability bits and wait events of the
    missing nuttx/sdio.h; only that they are distinct bits matters. *)
Definition SDIO_CAPS_DMASUPPORTED : Z := 0x02.
Definition SDIO_CAPS_DMABEFOREWRITE : Z := 0x04.
Definition SDIOWAIT_TRANSFERDONE : Z := 0x04.
Definition SDIOWAIT_TIMEOUT : Z := 0x08.
Definition SDIOWAIT_ERROR : Z := 0x10.
Definition SDIOWAIT_WRCOMPLETE : Z := 0x20.

(** Lines 92-107. *)
Definition MMCSD_BLOCK_RDATADELAY : Z := 100.
Definition MMCSD_IDLE_DELAY : Z := 100000.
Definition MMCSD_CAPACITY (b s : Z) : Z :=
  if 10 <=? s then Z.shiftl b (s - 10) else Z.shiftr b (10 - s).

(** ** Build configuration *)

(** Modelled from the spec: the Kconfig options the file tests, and the
    facts of the platform headers, which are not part of the sources:
    INT_MAX and SSIZE_MAX of limits.h, TICK_PER_SEC and the widths of the
    unsigned types clock_t and blkcnt_t. *)
Record config := {
  CONFIG_MMCSD_MMCSUPPORT : bool;
  CONFIG_SDIO_DMA : bool;
  CONFIG_ARCH_HAVE_SDIO_PREFLIGHT : bool;
  CONFIG_MMCSD_SDIOWAIT_WRCOMPLETE : bool;
  CONFIG_MMCSD_CHECK_READY_STATUS_WITHOUT_SLEEP : bool;
  CONFIG_BOARD_COREDUMP_BLKDEV : bool;
  CONFIG_SDIO_MUXBUS : bool;
  CONFIG_MMCSD_MULTIBLOCK_LIMIT : Z;
  CONFIG_MMCSD_BLOCK_WDATADELAY : Z;
  INT_MAX : Z;
  SSIZE_MAX : Z;
  TICK_PER_SEC : Z;
  CLOCK_T_BITS : Z;
  BLKCNT_T_BITS : Z
}.

(** A value of type clock_t. *)
Definition to_clock (cfg : config) (x : Z) : Z := x mod 2 ^ CLOCK_T_BITS cfg.

(** A value of the signed type whose largest value is [max], in two's
    complement, and of the unsigned type of the same width. *)
Definition wrap_signed (max x : Z) : Z :=
  (x + (max + 1)) mod (2 * (max + 1)) - (max + 1).
Definition wrap_unsigned (max x : Z) : Z := x mod (2 * (max + 1)).

(** Values of type int, unsigned int, ssize_t, size_t and blkcnt_t. *)
Definition to_int (cfg : config) (x : Z) : Z := wrap_signed (INT_MAX cfg) x.
Definition to_uint (cfg : config) (x : Z) : Z := wrap_unsigned (INT_MAX cfg) x.
Definition to_ssize (cfg : config) (x : Z) : Z := wrap_signed (SSIZE_MAX cfg) x.
Definition to_size (cfg : config) (x : Z) : Z := wrap_unsigned (SSIZE_MAX cfg) x.
Definition to_blkcnt (cfg : config) (x : Z) : Z := x mod 2 ^ BLKCNT_T_BITS cfg.

(** Lines 97-105. *)
Definition MMCSD_BLOCK_WDATADELAY (cfg : config) : Z :=
  CONFIG_MMCSD_BLOCK_WDATADELAY cfg.
Definition MMCSD_MULTIBLOCK_LIMIT (cfg : config) : Z :=
  if CONFIG_MMCSD_MULTIBLOCK_LIMIT cfg =? 0 then SSIZE_MAX cfg
  else CONFIG_MMCSD_MULTIBLOCK_LIMIT cfg.

(** ** The host interface *)

Inductive sdio_cmd :=
| MMCSD_CMD0 | MMCSD_CMD6 | MMC_CMD8 | MMCSD_CMD12 | MMCSD_CMD13
| MMCSD_CMD16 | MMCSD_CMD17 | MMCSD_CMD18 | MMCSD_CMD23 | MMCSD_CMD24
| MMCSD_CMD25 | SD_CMD55 | SD_ACMD23 | MMCSD_CMD56RD | MMCSD_CMD56WR.

(** Every call the driver makes on the host controller or the platform. *)
Inductive call :=
| SDIO_PRESENT
| SDIO_WRPROTECTED
| SDIO_SENDCMD (cmd : sdio_cmd) (arg : Z)
| SDIO_WAITRESPONSE (cmd : sdio_cmd)
| SDIO_RECVR1 (cmd : sdio_cmd)
| SDIO_BLOCKSETUP (blocklen nblocks : Z)
| SDIO_WAITENABLE (eventset timeout : Z)
| SDIO_RECVSETUP (nbytes : Z)
| SDIO_SENDSETUP (nbytes : Z)
| SDIO_DMAPREFLIGHT (nbytes : Z)
| SDIO_DMARECVSETUP (nbytes : Z)
| SDIO_DMASENDSETUP (nbytes : Z)
| SDIO_EVENTWAIT
| SDIO_CANCEL
| SDIO_GOTEXTCSD
| dma_align_manager_init (len : Z)
| dma_align_manager_finish
| clock_systime_ticks
| nxsig_usleep (usec : Z)
| up_udelay (usec : Z)
| sched_yield
| up_interrupt_context
| sched_idletask
| nxmutex_lock
| nxmutex_unlock
| SDIO_LOCK (lock : bool).

(** The host answers a call from the history of calls, newest first, the
    call being answered at its head: [sdio_ret] is the value returned,
    [sdio_resp] the response word stored through the pointer argument. *)
Record sdio_dev_s := {
  sdio_ret : list call -> Z;
  sdio_resp : list call -> Z
}.

(** ** Slot state *)

(** Modelled from the spec: struct mmcsd_state_s is declared in the missing
    mmcsd.h; these are the fields the code below reads and writes, the
    slot state of 3; [part i] is part[i].nblocks. *)
Record mmcsd_state_s := {
  dev : sdio_dev_s;
  caps : Z;
  type : Z;
  rca : Z;
  wrbusy : bool;
  wrprotect : bool;
  locked : bool;
  dsrimp : bool;
  cmd23support : bool;
  selblocklen : Z;
  blockshift : Z;
  blocksize : Z;
  partnum : Z;
  part : nat -> Z
}.

Definition set_wrbusy (b : bool) (p : mmcsd_state_s) : mmcsd_state_s :=
  {| dev := dev p; caps := caps p; type := type p; rca := rca p;
     wrbusy := b; wrprotect := wrprotect p; locked := locked p;
     dsrimp := dsrimp p; cmd23support := cmd23support p;
     selblocklen := selblocklen p; blockshift := blockshift p;
     blocksize := blocksize p; partnum := partnum p; part := part p |}.

Definition set_wrprotect (b : bool) (p : mmcsd_state_s) : mmcsd_state_s :=
  {| dev := dev p; caps := caps p; type := type p; rca := rca p;
     wrbusy := wrbusy p; wrprotect := b; locked := locked p;
     dsrimp := dsrimp p; cmd23support := cmd23support p;
     selblocklen := selblocklen p; blockshift := blockshift p;
     blocksize := blocksize p; partnum := partnum p; part := part p |}.

Definition set_locked (b : bool) (p : mmcsd_state_s) : mmcsd_state_s :=
  {| dev := dev p; caps := caps p; type := type p; rca := rca p;
     wrbusy := wrbusy p; wrprotect := wrprotect p; locked := b;
     dsrimp := dsrimp p; cmd23support := cmd23support p;
     selblocklen := selblocklen p; blockshift := blockshift p;
     blocksize := blocksize p; partnum := partnum p; part := part p |}.

Definition set_dsrimp (b : bool) (p : mmcsd_state_s) : mmcsd_state_s :=
  {| dev := dev p; caps := caps p; type := type p; rca := rca p;
     wrbusy := wrbusy p; wrprotect := wrprotect p; locked := locked p;
     dsrimp := b; cmd23support := cmd23support p;
     selblocklen := selblocklen p; blockshift := blockshift p;
     blocksize := blocksize p; partnum := partnum p; part := part p |}.

Definition set_selblocklen (v : Z) (p : mmcsd_state_s) : mmcsd_state_s :=
  {| dev := dev p; caps := caps p; type := type p; rca := rca p;
     wrbusy := wrbusy p; wrprotect := wrprotect p; locked := locked p;
     dsrimp := dsrimp p; cmd23support := cmd23support p;
     selblocklen := v; blockshift := blockshift p;
     blocksize := blocksize p; partnum := partnum p; part := part p |}.

Definition set_blockshift (v : Z) (p : mmcsd_state_s) : mmcsd_state_s :=
  {| dev := dev p; caps := caps p; type := type p; rca := rca p;
     wrbusy := wrbusy p; wrprotect := wrprotect p; locked := locked p;
     dsrimp := dsrimp p; cmd23support := cmd23support p;
     selblocklen := selblocklen p; blockshift := v;
     blocksize := blocksize p; partnum := partnum p; part := part p |}.

Definition set_blocksize (v : Z) (p : mmcsd_state_s) : mmcsd_state_s :=
  {| dev := dev p; caps := caps p; type := type p; rca := rca p;
     wrbusy := wrbusy p; wrprotect := wrprotect p; locked := locked p;
     dsrimp := dsrimp p; cmd23support := cmd23support p;
     selblocklen := selblocklen p; blockshift := blockshift p;
     blocksize := v; partnum := partnum p; part := part p |}.

Definition set_partnum (v : Z) (p : mmcsd_state_s) : mmcsd_state_s :=
  {| dev := dev p; caps := caps p; type := type p; rca := rca p;
     wrbusy := wrbusy p; wrprotect := wrprotect p; locked := locked p;
     dsrimp := dsrimp p; cmd23support := cmd23support p;
     selblocklen := selblocklen p; blockshift := blockshift p;
     blocksize := blocksize p; partnum := v; part := part p |}.

Definition set_part (v : nat -> Z) (p : mmcsd_state_s) : mmcsd_state_s :=
  {| dev := dev p; caps := caps p; type := type p; rca := rca p;
     wrbusy := wrbusy p; wrprotect := wrprotect p; locked := locked p;
     dsrimp := dsrimp p; cmd23support := cmd23support p;
     selblocklen := selblocklen p; blockshift := blockshift p;
     blocksize := blocksize p; partnum := partnum p; part := v |}.

(** part[i].nblocks, read and written. *)
Definition nblocks_of (p : mmcsd_state_s) (i : nat) : Z := part p i.

Definition set_nblocks (i : nat) (v : Z) (p : mmcsd_state_s) : mmcsd_state_s :=
  set_part (fun j => if Nat.eqb j i then v else part p j) p.

(** ** The driver monad: slot state, call history, and running out of
    loop fuel *)

Record world := { priv : mmcsd_state_s; calls : list call }.

Definition M (A : Type) : Type := world -> world * option A.

Definition Ret {A : Type} (a : A) : M A := fun w => (w, Some a).

Definition bind {A B : Type} (m : M A) (k : A -> M B) : M B :=
  fun w => match m w with
           | (w1, Some a) => k a w1
           | (w1, None) => (w1, None)
           end.

Definition out_of_fuel {A : Type} : M A := fun w => (w, None).

Notation "x <- m ;; k" := (bind m (fun x => k))
  (at level 61, m at next level, right associativity).
Notation "m ;; k" := (bind m (fun _ => k))
  (at level 61, right associativity).

Definition get_priv : M mmcsd_state_s := fun w => (w, Some (priv w)).

(** The world after a store to the slot state, and after one more call. *)
Definition setpriv (f : mmcsd_state_s -> mmcsd_state_s) (w : world) : world :=
  {| priv := f (priv w); calls := calls w |}.

Definition logcall (c : call) (w : world) : world :=
  {| priv := priv w; calls := c :: calls w |}.

Definition modify (f : mmcsd_state_s -> mmcsd_state_s) : M unit :=
  fun w => (setpriv f w, Some tt).

(** A call on the host: logged, then answered by the oracle. *)
Definition host (c : call) : M Z :=
  fun w => (logcall c w, Some (sdio_ret (dev (priv w)) (c :: calls w))).

(** The response word of the call just made. *)
Definition response : M Z :=
  fun w => (w, Some (sdio_resp (dev (priv w)) (calls w))).

Definition host_ (c : call) : M unit := host c ;; Ret tt.

(** ** Register decoding *)

(** csd[i], a uint32_t. *)
Definition csd_word (csd : list Z) (i : nat) : Z := to_u32 (nth i csd 0).

Section Driver.

Variable cfg : config.

(** mmcsd_decode_csd, lines 563-922 without the debug-only decoding.  The
    left shifts of part[0].nblocks stay below 2^27 and are not wrapped;
    blocksize is at most 1 << 15. *)
Definition mmcsd_decode_csd (priv : mmcsd_state_s) (csd : list Z)
  : mmcsd_state_s :=
  let priv := set_dsrimp (negb (Z.land (Z.shiftr (csd_word csd 1) 12) 1 =? 0)) priv in
  let readbllen := Z.land (Z.shiftr (csd_word csd 1) 16) 0x0f in
  let priv :=
    if IS_BLOCK (type priv) then
      if CONFIG_MMCSD_MMCSUPPORT cfg && IS_MMC (type priv) then
        let csize := to_u16 (Z.lor (Z.shiftl (Z.land (csd_word csd 1) 0x03ff) 2)
                                   (Z.land (Z.shiftr (csd_word csd 2) 30) 3)) in
        let csizemult := to_u8 (Z.land (Z.shiftr (csd_word csd 2) 15) 7) in
        let priv := set_blockshift readbllen priv in
        let priv := set_blocksize (Z.shiftl 1 readbllen) priv in
        let priv :=
          if negb (csize =? MMCSD_CSD_CSIZE_THRESHOLD) then
            set_nblocks 0 (to_u32 ((to_u32 csize + 1) *
                                   Z.shiftl 1 (csizemult + 2))) priv
          else priv in
        if 512 <? blocksize priv then
          let priv :=
            if negb (csize =? MMCSD_CSD_CSIZE_THRESHOLD) then
              set_nblocks 0 (Z.shiftl (nblocks_of priv 0) (blockshift priv - 9)) priv
            else priv in
          let priv := set_blocksize 512 priv in
          set_blockshift 9 priv
        else priv
      else
        let csize := to_u32 (Z.lor (Z.shiftl (Z.land (csd_word csd 1) 0x3f) 16)
                                   (Z.shiftr (csd_word csd 2) 16)) in
        let priv := set_blockshift 9 priv in
        let priv := set_blocksize (Z.shiftl 1 9) priv in
        set_nblocks 0 (to_u32 (Z.shiftl (to_u32 (csize + 1)) (19 - blockshift priv))) priv
    else
      let csize := to_u16 (Z.lor (Z.shiftl (Z.land (csd_word csd 1) 0x03ff) 2)
                                 (Z.land (Z.shiftr (csd_word csd 2) 30) 3)) in
      let csizemult := to_u8 (Z.land (Z.shiftr (csd_word csd 2) 15) 7) in
      let priv := set_nblocks 0 (to_u32 ((to_u32 csize + 1) *
                                         Z.shiftl 1 (csizemult + 2))) priv in
      let priv := set_blockshift readbllen priv in
      let priv := set_blocksize (Z.shiftl 1 readbllen) priv in
      if 512 <? blocksize priv then
        let priv := set_nblocks 0 (Z.shiftl (nblocks_of priv 0) (blockshift priv - 9)) priv in
        let priv := set_blocksize 512 priv in
        set_blockshift 9 priv
      else priv in
  let permwriteprotect := negb (Z.land (Z.shiftr (csd_word csd 3) 13) 1 =? 0) in
  let tmpwriteprotect := negb (Z.land (Z.shiftr (csd_word csd 3) 12) 1 =? 0) in
  set_wrprotect (permwriteprotect || tmpwriteprotect) priv.

(** ** Command and response helpers *)

(** mmcsd_sendcmdpoll, lines 329-351; the argument is a uint32_t. *)
Definition mmcsd_sendcmdpoll (cmd : sdio_cmd) (arg : Z) : M Z :=
  ret <- host (SDIO_SENDCMD cmd (to_u32 arg)) ;;
  if ret =? OK then host (SDIO_WAITRESPONSE cmd) else Ret ret.

(** SDIO_RECVR1(priv->dev, cmd, &r1): the status, and the word stored in
    the uint32_t r1. *)
Definition recvr1 (cmd : sdio_cmd) : M (Z * Z) :=
  ret <- host (SDIO_RECVR1 cmd) ;;
  r1 <- response ;;
  Ret (ret, to_u32 r1).

(** mmcsd_recv_r1, lines 406-431. *)
Definition mmcsd_recv_r1 (cmd : sdio_cmd) : M Z :=
  rr <- recvr1 cmd ;;
  let ret := fst rr in
  let r1 := snd rr in
  if ret =? OK then
    if negb (Z.land r1 MMCSD_R1_ERRORMASK =? 0) then
      modify (set_locked (negb (Z.land r1 MMCSD_R1_CARDISLOCKED =? 0))) ;;
      Ret (- EIO)
    else Ret ret
  else Ret ret.

(** mmcsd_get_r1, lines 1130-1170: the status and the R1 word, the word
    meaningful only when the status is OK. *)
Definition mmcsd_get_r1 : M (Z * Z) :=
  p <- get_priv ;;
  mmcsd_sendcmdpoll MMCSD_CMD13 (Z.shiftl (to_u32 (rca p)) 16) ;;
  rr <- recvr1 MMCSD_CMD13 ;;
  let ret := fst rr in
  let local_r1 := snd rr in
  if ret =? OK then
    if negb (Z.land local_r1 MMCSD_R1_ERRORMASK =? 0) then
      modify (set_locked (negb (Z.land local_r1 MMCSD_R1_CARDISLOCKED =? 0))) ;;
      Ret (- EIO, local_r1)
    else Ret (ret, local_r1)
  else Ret (ret, local_r1).

(** mmcsd_verifystate, lines 1180-1205. *)
Definition mmcsd_verifystate (state : Z) : M Z :=
  rr <- mmcsd_get_r1 ;;
  if negb (fst rr =? OK) then Ret (fst rr)
  else if IS_STATE (snd rr) state then
    modify (set_wrbusy false) ;; Ret OK
  else Ret (- EINVAL).

(** ** Transfer helpers *)

(** mmcsd_wrprotected, lines 1219-1228; || does not call the host once
    a flag is set. *)
Definition mmcsd_wrprotected : M bool :=
  p <- get_priv ;;
  if wrprotect p || locked p then Ret true
  else v <- host SDIO_WRPROTECTED ;; Ret (negb (v =? 0)).

(** mmcsd_eventwait, lines 1239-1266; sdio_eventset_t is a uint8_t. *)
Definition mmcsd_eventwait (failevents : Z) : M Z :=
  ev <- host SDIO_EVENTWAIT ;;
  let wkupevent := to_u8 ev in
  if negb (Z.land wkupevent failevents =? 0) then
    Ret (if negb (Z.land wkupevent SDIOWAIT_TIMEOUT =? 0)
         then - ETIMEDOUT else - EIO)
  else Ret OK.

(** MMCSD_USLEEP, lines 109-124. *)
Definition MMCSD_USLEEP (usec : Z) : M unit :=
  if CONFIG_BOARD_COREDUMP_BLKDEV cfg then
    i <- host up_interrupt_context ;;
    if negb (i =? 0) then host_ (up_udelay usec) else host_ (nxsig_usleep usec)
  else host_ (nxsig_usleep usec).

(** Lines 1366-1372 of mmcsd_transferready: do not hog the CPU. *)
Definition transferready_pause : M unit :=
  if CONFIG_MMCSD_CHECK_READY_STATUS_WITHOUT_SLEEP cfg
  then host_ sched_yield else MMCSD_USLEEP 1000.

(** Lines 1313-1319 of mmcsd_transferready: the wait for the write-complete
    event, its status only logged. *)
Definition transferready_wrcomplete : M unit :=
  if CONFIG_MMCSD_SDIOWAIT_WRCOMPLETE cfg
  then mmcsd_eventwait (Z.lor SDIOWAIT_TIMEOUT SDIOWAIT_ERROR) ;; Ret tt
  else Ret tt.

(** The do-while loop of mmcsd_transferready, lines 1323-1382; [fuel]
    bounds the number of polls. *)
Fixpoint transferready_poll (fuel : nat) (starttime : Z) : M Z :=
  match fuel with
  | O => out_of_fuel
  | S fuel' =>
    rr <- mmcsd_get_r1 ;;
    let ret := fst rr in
    let r1 := snd rr in
    if negb (ret =? OK) then Ret ret
    else if IS_STATE r1 MMCSD_R1_STATE_TRAN then
      modify (set_wrbusy false) ;; Ret OK
    else if negb (IS_STATE r1 MMCSD_R1_STATE_PRG) &&
            negb (IS_STATE r1 MMCSD_R1_STATE_RCV) then
      Ret (- EINVAL)
    else
      transferready_pause ;;
      now <- host clock_systime_ticks ;;
      let elapsed := to_clock cfg (to_clock cfg now - starttime) in
      if elapsed <? TICK_PER_SEC cfg then transferready_poll fuel' starttime
      else Ret (- ETIMEDOUT)
  end.

(** mmcsd_transferready, lines 1278-1383. *)
Definition mmcsd_transferready (fuel : nat) : M Z :=
  p <- get_priv ;;
  absent <- (if type p =? MMCSD_CARDTYPE_UNKNOWN then Ret true
             else v <- host SDIO_PRESENT ;; Ret (v =? 0)) ;;
  if (absent : bool) then Ret (- ENODEV)
  else if negb (wrbusy p) then Ret OK
  else
    transferready_wrcomplete ;;
    starttime <- host clock_systime_ticks ;;
    transferready_poll fuel (to_clock cfg starttime).

(** mmcsd_switch, lines 1076-1120. *)
Definition mmcsd_switch (fuel : nat) (arg : Z) : M Z :=
  ret <- mmcsd_transferready fuel ;;
  if negb (ret =? OK) then Ret ret
  else
    mmcsd_sendcmdpoll MMCSD_CMD6 arg ;;
    modify (set_wrbusy true) ;;
    mmcsd_recv_r1 MMCSD_CMD6.

(** mmcsd_stoptransmission, lines 1394-1408. *)
Definition mmcsd_stoptransmission : M Z :=
  mmcsd_sendcmdpoll MMCSD_CMD12 0 ;;
  mmcsd_recv_r1 MMCSD_CMD12.

(** mmcsd_setblocklen, lines 1419-1446; blocklen is a uint32_t. *)
Definition mmcsd_setblocklen (blocklen : Z) : M Z :=
  p <- get_priv ;;
  if negb (selblocklen p =? to_u32 blocklen) then
    mmcsd_sendcmdpoll MMCSD_CMD16 blocklen ;;
    ret <- mmcsd_recv_r1 MMCSD_CMD16 ;;
    if ret =? OK then modify (set_selblocklen (to_u32 blocklen)) ;; Ret ret
    else Ret ret
  else Ret OK.

(** mmcsd_setblockcount, lines 1457-1470. *)
Definition mmcsd_setblockcount (nblocks : Z) : M Z :=
  mmcsd_sendcmdpoll MMCSD_CMD23 nblocks ;;
  mmcsd_recv_r1 MMCSD_CMD23.

(** ** Blocks of code the transfer routines repeat verbatim *)

Definition SDIOWAIT_DATA : Z :=
  Z.lor (Z.lor SDIOWAIT_TRANSFERDONE SDIOWAIT_TIMEOUT) SDIOWAIT_ERROR.
Definition SDIOWAIT_FAIL : Z := Z.lor SDIOWAIT_TIMEOUT SDIOWAIT_ERROR.

(** The partition switch at the head of each transfer routine, lines
    1505-1517, 1693-1705, 1905-1917 and 2125-2137; [part] is the index
    part - priv->part. *)
Definition mmcsd_partswitch (fuel : nat) (part : Z) : M Z :=
  p <- get_priv ;;
  if negb (partnum p =? part) then
    ret <- mmcsd_switch fuel
             (Z.lor (Z.lor (MMC_CMD6_MODE MMC_CMD6_MODE_WRITE_BYTE)
                           (MMC_CMD6_INDEX EXT_CSD_PART_CONF))
                    (MMC_CMD6_VALUE part)) ;;
    if negb (ret =? OK) then Ret ret
    else modify (set_partnum part) ;; Ret OK
  else Ret OK.

(** CONFIG_SDIO_DMA and (priv->caps & SDIO_CAPS_DMASUPPORTED) != 0. *)
Definition dma_supported : M bool :=
  p <- get_priv ;;
  Ret (CONFIG_SDIO_DMA cfg && negb (Z.land (caps p) SDIO_CAPS_DMASUPPORTED =? 0)).

(** The DMA preflight and bounce-buffer set-up, lines 1519-1546,
    1707-1734, 1919-1949, 2139-2168, 3444-3472 and 3619-3643: OK to go on,
    anything else is returned at once. *)
Definition dma_preflight (nbytes : Z) : M Z :=
  dma <- dma_supported ;;
  if dma && CONFIG_ARCH_HAVE_SDIO_PREFLIGHT cfg then
    ret <- host (SDIO_DMAPREFLIGHT nbytes) ;;
    if negb (ret =? OK) then host (dma_align_manager_init nbytes)
    else Ret OK
  else Ret OK.

(** The code at the __exit label, then return ret. *)
Definition mmcsd_exit (ret : Z) : M Z :=
  dma <- dma_supported ;;
  (if dma then host_ dma_align_manager_finish else Ret tt) ;;
  Ret ret.

(** Lines 1593-1608 and the like: DMA or programmed receive. *)
Definition recv_setup (nbytes : Z) : M Z :=
  dma <- dma_supported ;;
  if dma then
    ret <- host (SDIO_DMARECVSETUP nbytes) ;;
    if negb (ret =? OK) then host_ SDIO_CANCEL ;; Ret ret else Ret OK
  else host_ (SDIO_RECVSETUP nbytes) ;; Ret OK.

(** Lines 2013-2028 and the like: DMA or programmed send. *)
Definition send_setup (nbytes : Z) : M Z :=
  dma <- dma_supported ;;
  if dma then
    ret <- host (SDIO_DMASENDSETUP nbytes) ;;
    if negb (ret =? OK) then host_ SDIO_CANCEL ;; Ret ret else Ret OK
  else host_ (SDIO_SENDSETUP nbytes) ;; Ret OK.

(** Lines 1566-1573, 1755-1762, 1969-1976 and 2189-2196. *)
Definition data_offset (p : mmcsd_state_s) (startblock : Z) : Z :=
  if IS_BLOCK (type p) then startblock
  else Z.shiftl startblock (blockshift p).

(** ** Single and multiple block transfers *)

(** mmcsd_readsingle from the event wait on, lines 1625-1656. *)
Definition mmcsd_readsingle_wait : M Z :=
  ret <- mmcsd_eventwait SDIOWAIT_FAIL ;;
  if negb (ret =? OK) then mmcsd_exit ret
  else mmcsd_exit 1.

(** mmcsd_readsingle after the partition switch, lines 1519-1656. *)
Definition mmcsd_readsingle_xfer (fuel : nat) (startblock : Z) : M Z :=
  p <- get_priv ;;
  ret <- dma_preflight (blocksize p) ;;
  if negb (ret =? OK) then Ret ret else
  ret <- mmcsd_transferready fuel ;;
  if negb (ret =? OK) then mmcsd_exit ret else
  p <- get_priv ;;
  let offset := data_offset p startblock in
  ret <- mmcsd_setblocklen (blocksize p) ;;
  if negb (ret =? OK) then mmcsd_exit ret else
  p <- get_priv ;;
  host_ (SDIO_BLOCKSETUP (blocksize p) 1) ;;
  host_ (SDIO_WAITENABLE SDIOWAIT_DATA MMCSD_BLOCK_RDATADELAY) ;;
  ret <- recv_setup (blocksize p) ;;
  if negb (ret =? OK) then mmcsd_exit ret else
  mmcsd_sendcmdpoll MMCSD_CMD17 offset ;;
  ret <- mmcsd_recv_r1 MMCSD_CMD17 ;;
  if negb (ret =? OK) then host_ SDIO_CANCEL ;; mmcsd_exit ret else
  mmcsd_readsingle_wait.

(** mmcsd_readsingle, lines 1481-1656. *)
Definition mmcsd_readsingle (fuel : nat) (part startblock : Z) : M Z :=
  p <- get_priv ;;
  if locked p then Ret (- EPERM) else
  ret <- mmcsd_partswitch fuel part ;;
  if negb (ret =? OK) then Ret ret else
  mmcsd_readsingle_xfer fuel startblock.

(** mmcsd_readmultiple from the event wait on, lines 1825-1866; the count
    goes back through the int ret (ret = nblocks, line 1856). *)
Definition mmcsd_readmultiple_wait (nblocks : Z) : M Z :=
  ret <- mmcsd_eventwait SDIOWAIT_FAIL ;;
  if negb (ret =? OK) then mmcsd_exit ret else
  p <- get_priv ;;
  (if IS_SD (type p) && negb (cmd23support p)
   then mmcsd_stoptransmission ;; Ret tt
   else Ret tt) ;;
  mmcsd_exit (to_int cfg nblocks).

(** mmcsd_readmultiple after the partition switch, lines 1707-1866. *)
Definition mmcsd_readmultiple_xfer (fuel : nat) (nbytes startblock nblocks : Z)
  : M Z :=
  ret <- dma_preflight nbytes ;;
  if negb (ret =? OK) then Ret ret else
  ret <- mmcsd_transferready fuel ;;
  if negb (ret =? OK) then mmcsd_exit ret else
  p <- get_priv ;;
  let offset := data_offset p startblock in
  ret <- mmcsd_setblocklen (blocksize p) ;;
  if negb (ret =? OK) then mmcsd_exit ret else
  p <- get_priv ;;
  host_ (SDIO_BLOCKSETUP (blocksize p) nblocks) ;;
  host_ (SDIO_WAITENABLE SDIOWAIT_DATA (nblocks * MMCSD_BLOCK_RDATADELAY)) ;;
  ret <- recv_setup nbytes ;;
  if negb (ret =? OK) then mmcsd_exit ret else
  p <- get_priv ;;
  ret <- (if (CONFIG_MMCSD_MMCSUPPORT cfg && IS_MMC (type p))
             || (IS_SD (type p) && cmd23support p)
          then mmcsd_setblockcount nblocks else Ret OK) ;;
  if negb (ret =? OK) then mmcsd_exit ret else
  mmcsd_sendcmdpoll MMCSD_CMD18 offset ;;
  ret <- mmcsd_recv_r1 MMCSD_CMD18 ;;
  if negb (ret =? OK) then host_ SDIO_CANCEL ;; mmcsd_exit ret else
  mmcsd_readmultiple_wait nblocks.

(** mmcsd_readmultiple, lines 1667-1866. *)
Definition mmcsd_readmultiple (fuel : nat) (part startblock nblocks : Z)
  : M Z :=
  p <- get_priv ;;
  let nbytes := Z.shiftl nblocks (blockshift p) in
  if locked p then Ret (- EPERM) else
  ret <- mmcsd_partswitch fuel part ;;
  if negb (ret =? OK) then Ret ret else
  mmcsd_readmultiple_xfer fuel nbytes startblock nblocks.

(** mmcsd_writesingle from the event wait on, lines 2046-2081. *)
Definition mmcsd_writesingle_wait : M Z :=
  ret <- mmcsd_eventwait SDIOWAIT_FAIL ;;
  if negb (ret =? OK) then mmcsd_exit ret else
  modify (set_wrbusy true) ;;
  (if CONFIG_MMCSD_SDIOWAIT_WRCOMPLETE cfg
   then host_ (SDIO_WAITENABLE (Z.lor SDIOWAIT_WRCOMPLETE SDIOWAIT_TIMEOUT)
                               (MMCSD_BLOCK_WDATADELAY cfg))
   else Ret tt) ;;
  mmcsd_exit 1.

(** mmcsd_writesingle after the partition switch, lines 1919-2081. *)
Definition mmcsd_writesingle_xfer (fuel : nat) (startblock : Z) : M Z :=
  p <- get_priv ;;
  ret <- dma_preflight (blocksize p) ;;
  if negb (ret =? OK) then Ret ret else
  ret <- mmcsd_transferready fuel ;;
  if negb (ret =? OK) then mmcsd_exit ret else
  p <- get_priv ;;
  let offset := data_offset p startblock in
  ret <- mmcsd_setblocklen (blocksize p) ;;
  if negb (ret =? OK) then mmcsd_exit ret else
  p <- get_priv ;;
  ret <- (if Z.land (caps p) SDIO_CAPS_DMABEFOREWRITE =? 0
          then mmcsd_sendcmdpoll MMCSD_CMD24 offset ;;
               mmcsd_recv_r1 MMCSD_CMD24
          else Ret OK) ;;
  if negb (ret =? OK) then mmcsd_exit ret else
  p <- get_priv ;;
  host_ (SDIO_BLOCKSETUP (blocksize p) 1) ;;
  host_ (SDIO_WAITENABLE SDIOWAIT_DATA (MMCSD_BLOCK_WDATADELAY cfg)) ;;
  ret <- send_setup (blocksize p) ;;
  if negb (ret =? OK) then mmcsd_exit ret else
  p <- get_priv ;;
  ret <- (if negb (Z.land (caps p) SDIO_CAPS_DMABEFOREWRITE =? 0)
          then mmcsd_sendcmdpoll MMCSD_CMD24 offset ;;
               ret <- mmcsd_recv_r1 MMCSD_CMD24 ;;
               if negb (ret =? OK) then host_ SDIO_CANCEL ;; Ret ret
               else Ret OK
          else Ret OK) ;;
  if negb (ret =? OK) then mmcsd_exit ret else
  mmcsd_writesingle_wait.

(** mmcsd_writesingle, lines 1877-2081. *)
Definition mmcsd_writesingle (fuel : nat) (part startblock : Z) : M Z :=
  wp <- mmcsd_wrprotected ;;
  if (wp : bool) then Ret (- EPERM) else
  ret <- mmcsd_partswitch fuel part ;;
  if negb (ret =? OK) then Ret ret else
  mmcsd_writesingle_xfer fuel startblock.

(** The end of mmcsd_writemultiple, lines 2368-2392; the count goes back
    through the int ret (ret = nblocks, line 2382). *)
Definition mmcsd_writemultiple_done (nblocks : Z) : M Z :=
  modify (set_wrbusy true) ;;
  (if CONFIG_MMCSD_SDIOWAIT_WRCOMPLETE cfg
   then host_ (SDIO_WAITENABLE (Z.lor SDIOWAIT_WRCOMPLETE SDIOWAIT_TIMEOUT)
                               (nblocks * MMCSD_BLOCK_WDATADELAY cfg))
   else Ret tt) ;;
  mmcsd_exit (to_int cfg nblocks).

(** mmcsd_writemultiple from the event wait on, lines 2328-2392. *)
Definition mmcsd_writemultiple_wait (nblocks : Z) : M Z :=
  evret <- mmcsd_eventwait SDIOWAIT_FAIL ;;
  p <- get_priv ;;
  if IS_SD (type p) && negb (cmd23support p) then
    ret <- mmcsd_stoptransmission ;;
    if negb (evret =? OK) then mmcsd_exit evret
    else if negb (ret =? OK) then mmcsd_exit ret
    else mmcsd_writemultiple_done nblocks
  else
    if negb (evret =? OK) then mmcsd_exit evret
    else mmcsd_writemultiple_done nblocks.

(** mmcsd_writemultiple after the partition switch, lines 2139-2392. *)
Definition mmcsd_writemultiple_xfer (fuel : nat) (nbytes startblock nblocks : Z)
  : M Z :=
  ret <- dma_preflight nbytes ;;
  if negb (ret =? OK) then Ret ret else
  ret <- mmcsd_transferready fuel ;;
  if negb (ret =? OK) then mmcsd_exit ret else
  p <- get_priv ;;
  let offset := data_offset p startblock in
  ret <- mmcsd_setblocklen (blocksize p) ;;
  if negb (ret =? OK) then mmcsd_exit ret else
  p <- get_priv ;;
  ret <- (if IS_SD (type p) then
            mmcsd_sendcmdpoll SD_CMD55 (Z.shiftl (to_u32 (rca p)) 16) ;;
            ret <- mmcsd_recv_r1 SD_CMD55 ;;
            if negb (ret =? OK) then Ret ret else
            mmcsd_sendcmdpoll SD_ACMD23 nblocks ;;
            mmcsd_recv_r1 SD_ACMD23
          else Ret OK) ;;
  if negb (ret =? OK) then mmcsd_exit ret else
  p <- get_priv ;;
  ret <- (if CONFIG_MMCSD_MMCSUPPORT cfg && IS_MMC (type p) then
            mmcsd_setblockcount
              (if partnum p =? MMCSD_PART_RPMB
               then Z.lor (Z.shiftl 1 31) nblocks else nblocks)
          else if IS_SD (type p) && cmd23support p then
            mmcsd_setblockcount nblocks
          else Ret OK) ;;
  if negb (ret =? OK) then mmcsd_exit ret else
  p <- get_priv ;;
  ret <- (if Z.land (caps p) SDIO_CAPS_DMABEFOREWRITE =? 0
          then mmcsd_sendcmdpoll MMCSD_CMD25 offset ;;
               mmcsd_recv_r1 MMCSD_CMD25
          else Ret OK) ;;
  if negb (ret =? OK) then mmcsd_exit ret else
  p <- get_priv ;;
  host_ (SDIO_BLOCKSETUP (blocksize p) nblocks) ;;
  host_ (SDIO_WAITENABLE SDIOWAIT_DATA (nblocks * MMCSD_BLOCK_WDATADELAY cfg)) ;;
  ret <- send_setup nbytes ;;
  if negb (ret =? OK) then mmcsd_exit ret else
  p <- get_priv ;;
  ret <- (if negb (Z.land (caps p) SDIO_CAPS_DMABEFOREWRITE =? 0)
          then mmcsd_sendcmdpoll MMCSD_CMD25 offset ;;
               ret <- mmcsd_recv_r1 MMCSD_CMD25 ;;
               if negb (ret =? OK) then host_ SDIO_CANCEL ;; Ret ret
               else Ret OK
          else Ret OK) ;;
  if negb (ret =? OK) then mmcsd_exit ret else
  mmcsd_writemultiple_wait nblocks.

(** mmcsd_writemultiple, lines 2094-2392. *)
Definition mmcsd_writemultiple (fuel : nat) (part startblock nblocks : Z)
  : M Z :=
  p <- get_priv ;;
  let nbytes := Z.shiftl nblocks (blockshift p) in
  wp <- mmcsd_wrprotected ;;
  if (wp : bool) then Ret (- EPERM) else
  ret <- mmcsd_partswitch fuel part ;;
  if negb (ret =? OK) then Ret ret else
  mmcsd_writemultiple_xfer fuel nbytes startblock nblocks.

(** ** The block-device methods *)

(** mmcsd_lock, lines 269-299. *)
Definition mmcsd_lock : M Z :=
  i <- host up_interrupt_context ;;
  if negb (i =? 0) then Ret OK else
  t <- host sched_idletask ;;
  if negb (t =? 0) then Ret OK else
  ret <- host nxmutex_lock ;;
  if ret <? 0 then Ret ret else
  (if CONFIG_SDIO_MUXBUS cfg then host_ (SDIO_LOCK true) else Ret tt) ;;
  Ret ret.

(** mmcsd_unlock, lines 301-315. *)
Definition mmcsd_unlock : M unit :=
  i <- host up_interrupt_context ;;
  if negb (i =? 0) then Ret tt else
  t <- host sched_idletask ;;
  if negb (t =? 0) then Ret tt else
  (if CONFIG_SDIO_MUXBUS cfg then host_ (SDIO_LOCK false) else Ret tt) ;;
  host_ nxmutex_unlock.

(** The body of the for loop of mmcsd_read, lines 2498-2520; sector and
    endsector are size_t, nread is a ssize_t: the difference of the two
    is converted to it, and back to the size_t nblocks of
    mmcsd_readmultiple. *)
Definition mmcsd_read_chunk (fuel : nat) (part sector endsector : Z) : M Z :=
  if MMCSD_MULTIBLOCK_LIMIT cfg =? 1 then
    mmcsd_readsingle fuel part sector
  else
    let nread := to_ssize cfg (endsector - sector) in
    let nread := if MMCSD_MULTIBLOCK_LIMIT cfg <? nread
                 then MMCSD_MULTIBLOCK_LIMIT cfg else nread in
    if nread =? 1 then mmcsd_readsingle fuel part sector
    else mmcsd_readmultiple fuel part sector (to_size cfg nread).

(** The for loop of mmcsd_read, lines 2496-2530, on the size_t sector and
    endsector; sector += nread wraps as a size_t.  [iter] bounds the
    number of rounds: a loop that does not end within it is out of
    fuel. *)
Fixpoint mmcsd_read_loop (iter fuel : nat) (part sector endsector ret : Z)
  : M Z :=
  if sector <? endsector then
    match iter with
    | O => out_of_fuel
    | S iter' =>
      nread <- mmcsd_read_chunk fuel part sector endsector ;;
      if nread <? 0 then Ret nread
      else mmcsd_read_loop iter' fuel part (to_size cfg (sector + nread))
             endsector ret
    end
  else Ret ret.

(** mmcsd_read, lines 2469-2538: startsector is a blkcnt_t and nsectors an
    unsigned int; their sum is taken in blkcnt_t (no narrower than
    unsigned int) and stored in the size_t endsector, startsector in the
    size_t sector and nsectors in the ssize_t ret.  A loop that advances
    by at least one sector a round ends within endsector - sector
    rounds. *)
Definition mmcsd_read (fuel : nat) (part startsector nsectors : Z) : M Z :=
  if 0 <? nsectors then
    ret <- mmcsd_lock ;;
    if ret <? 0 then Ret ret else
    let endsector := to_size cfg (to_blkcnt cfg (startsector + nsectors)) in
    let sector := to_size cfg startsector in
    ret <- mmcsd_read_loop (Z.to_nat (endsector - sector)) fuel part sector
             endsector (to_ssize cfg nsectors) ;;
    mmcsd_unlock ;;
    Ret ret
  else Ret (to_ssize cfg nsectors).

(** The body of the for loop of mmcsd_write, lines 2579-2601, with the
    types of the loop of mmcsd_read: nwrite is a ssize_t. *)
Definition mmcsd_write_chunk (fuel : nat) (part sector endsector : Z) : M Z :=
  if MMCSD_MULTIBLOCK_LIMIT cfg =? 1 then
    mmcsd_writesingle fuel part sector
  else
    let nwrite := to_ssize cfg (endsector - sector) in
    let nwrite := if MMCSD_MULTIBLOCK_LIMIT cfg <? nwrite
                  then MMCSD_MULTIBLOCK_LIMIT cfg else nwrite in
    if nwrite =? 1 then mmcsd_writesingle fuel part sector
    else mmcsd_writemultiple fuel part sector (to_size cfg nwrite).

(** The for loop of mmcsd_write, lines 2577-2611, bounded as the loop of
    mmcsd_read; sector += nwrite wraps as a size_t. *)
Fixpoint mmcsd_write_loop (iter fuel : nat) (part sector endsector ret : Z)
  : M Z :=
  if sector <? endsector then
    match iter with
    | O => out_of_fuel
    | S iter' =>
      nwrite <- mmcsd_write_chunk fuel part sector endsector ;;
      if nwrite <? 0 then Ret nwrite
      else mmcsd_write_loop iter' fuel part (to_size cfg (sector + nwrite))
             endsector ret
    end
  else Ret ret.

(** mmcsd_write, lines 2549-2619, with the types of mmcsd_read. *)
Definition mmcsd_write (fuel : nat) (part startsector nsectors : Z) : M Z :=
  if 0 <? nsectors then
    ret <- mmcsd_lock ;;
    if ret <? 0 then Ret ret else
    let endsector := to_size cfg (to_blkcnt cfg (startsector + nsectors)) in
    let sector := to_size cfg startsector in
    ret <- mmcsd_write_loop (Z.to_nat (endsector - sector)) fuel part sector
             endsector (to_ssize cfg nsectors) ;;
    mmcsd_unlock ;;
    Ret ret
  else Ret (to_ssize cfg nsectors).

(** ** The raw command pass-through *)

(** mmcsd_read_extcsd, lines 3269-3408. *)
Definition mmcsd_read_extcsd (fuel : nat) : M Z :=
  p <- get_priv ;;
  if locked p then Ret (- EPERM) else
  dma <- dma_supported ;;
  ret <- (if dma && CONFIG_ARCH_HAVE_SDIO_PREFLIGHT cfg then
            ret <- host (SDIO_DMAPREFLIGHT 512) ;;
            if negb (ret =? OK) then Ret ret
            else host (dma_align_manager_init 512)
          else Ret OK) ;;
  if negb (ret =? OK) then Ret ret else
  ret <- mmcsd_transferready fuel ;;
  if negb (ret =? OK) then mmcsd_exit ret else
  ret <- mmcsd_setblocklen 512 ;;
  if negb (ret =? OK) then mmcsd_exit ret else
  host_ (SDIO_BLOCKSETUP 512 1) ;;
  host_ (SDIO_WAITENABLE SDIOWAIT_DATA MMCSD_BLOCK_RDATADELAY) ;;
  ret <- recv_setup 512 ;;
  if negb (ret =? OK) then mmcsd_exit ret else
  mmcsd_sendcmdpoll MMC_CMD8 0 ;;
  ret <- mmcsd_recv_r1 MMC_CMD8 ;;
  if negb (ret =? OK) then host_ SDIO_CANCEL ;; mmcsd_exit ret else
  ret <- mmcsd_eventwait SDIOWAIT_FAIL ;;
  if negb (ret =? OK) then mmcsd_exit ret else
  host_ SDIO_GOTEXTCSD ;;
  mmcsd_exit OK.

(** mmcsd_general_cmd_write, lines 3420-3587. *)
Definition mmcsd_general_cmd_write (fuel : nat) (startblock : Z) : M Z :=
  wp <- mmcsd_wrprotected ;;
  if (wp : bool) then Ret (- EPERM) else
  p <- get_priv ;;
  ret <- dma_preflight (blocksize p) ;;
  if negb (ret =? OK) then Ret ret else
  ret <- mmcsd_transferready fuel ;;
  if negb (ret =? OK) then mmcsd_exit ret else
  p <- get_priv ;;
  ret <- mmcsd_setblocklen (blocksize p) ;;
  if negb (ret =? OK) then mmcsd_exit ret else
  p <- get_priv ;;
  ret <- (if Z.land (caps p) SDIO_CAPS_DMABEFOREWRITE =? 0
          then mmcsd_sendcmdpoll MMCSD_CMD56WR startblock ;;
               mmcsd_recv_r1 MMCSD_CMD56WR
          else Ret OK) ;;
  if negb (ret =? OK) then mmcsd_exit ret else
  p <- get_priv ;;
  host_ (SDIO_BLOCKSETUP (blocksize p) 1) ;;
  host_ (SDIO_WAITENABLE SDIOWAIT_DATA (MMCSD_BLOCK_WDATADELAY cfg)) ;;
  ret <- send_setup (blocksize p) ;;
  if negb (ret =? OK) then mmcsd_exit ret else
  p <- get_priv ;;
  ret <- (if negb (Z.land (caps p) SDIO_CAPS_DMABEFOREWRITE =? 0)
          then mmcsd_sendcmdpoll MMCSD_CMD56WR startblock ;;
               ret <- mmcsd_recv_r1 MMCSD_CMD56WR ;;
               if negb (ret =? OK) then host_ SDIO_CANCEL ;; Ret ret
               else Ret OK
          else Ret OK) ;;
  if negb (ret =? OK) then mmcsd_exit ret else
  ret <- mmcsd_eventwait SDIOWAIT_FAIL ;;
  if negb (ret =? OK) then mmcsd_exit ret else
  modify (set_wrbusy true) ;;
  (if CONFIG_MMCSD_SDIOWAIT_WRCOMPLETE cfg
   then host_ (SDIO_WAITENABLE (Z.lor SDIOWAIT_WRCOMPLETE SDIOWAIT_TIMEOUT)
                               (MMCSD_BLOCK_WDATADELAY cfg))
   else Ret tt) ;;
  mmcsd_exit OK.

(** mmcsd_general_cmd_read up to the __exit label, lines 3645-3726: the
    value the variable ret holds on reaching the label. *)
Definition mmcsd_general_cmd_read_ret (fuel : nat) (startblock : Z) : M Z :=
  ret <- mmcsd_transferready fuel ;;
  if negb (ret =? OK) then Ret ret else
  p <- get_priv ;;
  ret <- mmcsd_setblocklen (blocksize p) ;;
  if negb (ret =? OK) then Ret ret else
  p <- get_priv ;;
  host_ (SDIO_BLOCKSETUP (blocksize p) 1) ;;
  host_ (SDIO_WAITENABLE SDIOWAIT_DATA MMCSD_BLOCK_RDATADELAY) ;;
  ret <- recv_setup (blocksize p) ;;
  if negb (ret =? OK) then Ret ret else
  mmcsd_sendcmdpoll MMCSD_CMD56RD startblock ;;
  ret <- mmcsd_recv_r1 MMCSD_CMD56RD ;;
  if negb (ret =? OK) then host_ SDIO_CANCEL ;; Ret ret else
  ret <- mmcsd_eventwait SDIOWAIT_FAIL ;;
  if negb (ret =? OK) then Ret ret else
  Ret OK.

(** mmcsd_general_cmd_read, lines 3597-3737; the last statement is
    return OK. *)
Definition mmcsd_general_cmd_read (fuel : nat) (startblock : Z) : M Z :=
  p <- get_priv ;;
  if locked p then Ret (- EPERM) else
  ret <- dma_preflight (blocksize p) ;;
  if negb (ret =? OK) then Ret ret else
  ret <- mmcsd_general_cmd_read_ret fuel startblock ;;
  dma <- dma_supported ;;
  (if dma then host_ dma_align_manager_finish else Ret tt) ;;
  Ret OK.

(** struct mmc_ioc_cmd of the missing nuttx/mmcsd.h, the fields
    mmcsd_iocmd reads; the data and response pointers are not modelled.
    Modelled from the spec: blocks is an unsigned int. *)
Record mmc_ioc_cmd := {
  write_flag : Z;
  opcode : Z;
  arg : Z;
  blocks : Z
}.

(** mmcsd_iocmd, lines 3747-3878; ret != ic_ptr->blocks compares the int
    ret with an unsigned int, that is as unsigned ints. *)
Definition mmcsd_iocmd (fuel : nat) (part : Z) (ic_ptr : mmc_ioc_cmd) : M Z :=
  let opcode := Z.land (to_u32 (opcode ic_ptr)) MMCSD_CMDIDX_MASK in
  let blocks := to_uint cfg (blocks ic_ptr) in
  if opcode =? 0 then
    mmcsd_sendcmdpoll MMCSD_CMD0 (arg ic_ptr) ;;
    MMCSD_USLEEP MMCSD_IDLE_DELAY ;;
    Ret OK
  else if opcode =? 2 then Ret OK
  else if opcode =? 6 then mmcsd_switch fuel (arg ic_ptr)
  else if (opcode =? 8) && CONFIG_MMCSD_MMCSUPPORT cfg then
    mmcsd_read_extcsd fuel
  else if opcode =? 13 then
    rr <- mmcsd_get_r1 ;; Ret (fst rr)
  else if (opcode =? 18) && negb (MMCSD_MULTIBLOCK_LIMIT cfg =? 1) then
    if 0 <? blocks then
      ret <- mmcsd_readmultiple fuel part (arg ic_ptr) blocks ;;
      if negb (to_uint cfg ret =? blocks) then Ret ret else Ret OK
    else Ret OK
  else if (opcode =? 23) && negb (MMCSD_MULTIBLOCK_LIMIT cfg =? 1) then
    mmcsd_setblockcount (if negb (blocks =? 0) then blocks else arg ic_ptr)
  else if (opcode =? 25) && negb (MMCSD_MULTIBLOCK_LIMIT cfg =? 1) then
    if 0 <? blocks then
      ret <- mmcsd_writemultiple fuel part (arg ic_ptr) blocks ;;
      if negb (to_uint cfg ret =? blocks) then Ret ret else Ret OK
    else Ret OK
  else if opcode =? 56 then
    if negb (write_flag ic_ptr =? 0) then
      mmcsd_general_cmd_write fuel (arg ic_ptr)
    else
      mmcsd_general_cmd_read fuel (arg ic_ptr)
  else Ret (- EINVAL).

End Driver.

(** ** The words of the spec, as definitions to compare the code with *)

(** C_SIZE of a block-addressed SD card: ((csd[1] & 0x3f) << 16) | (csd[2] >> 16). *)
Definition csd_sdblock_csize (csd : list Z) : Z :=
  Z.lor (Z.shiftl (Z.land (csd_word csd 1) 0x3f) 16) (Z.shiftr (csd_word csd 2) 16).

(** C_SIZE, C_SIZE_MULT and READ_BL_LEN of the other CSD layouts. *)
Definition csd_csize (csd : list Z) : Z :=
  Z.lor (Z.shiftl (Z.land (csd_word csd 1) 0x03ff) 2)
        (Z.land (Z.shiftr (csd_word csd 2) 30) 3).
Definition csd_csizemult (csd : list Z) : Z :=
  Z.land (Z.shiftr (csd_word csd 2) 15) 7.
Definition csd_readbllen (csd : list Z) : Z :=
  Z.land (Z.shiftr (csd_word csd 1) 16) 0x0f.

(** ** What is observed of a run *)

(** The calls the spec speaks of: the block set-up and the switch, stop
    and data commands. *)
Definition is_obs (c : call) : bool :=
  match c with
  | SDIO_BLOCKSETUP _ _ => true
  | SDIO_SENDCMD cmd _ =>
      match cmd with
      | MMCSD_CMD6 | MMCSD_CMD12 | MMCSD_CMD17 | MMCSD_CMD18
      | MMCSD_CMD24 | MMCSD_CMD25 => true
      | _ => false
      end
  | _ => false
  end.

(** The observed calls of a run, oldest first. *)
Definition trace (w : world) : list call := rev (filter is_obs (calls w)).

(** The fields of the slot no transfer helper writes. *)
Record frame (p p' : mmcsd_state_s) : Prop := {
  frame_dev : dev p' = dev p;
  frame_caps : caps p' = caps p;
  frame_type : type p' = type p;
  frame_rca : rca p' = rca p;
  frame_cmd23support : cmd23support p' = cmd23support p;
  frame_blockshift : blockshift p' = blockshift p;
  frame_blocksize : blocksize p' = blocksize p;
  frame_partnum : partnum p' = partnum p
}.

(** The calls that return a status: OK or a negated errno. *)
Definition status_call (c : call) : bool :=
  match c with
  | SDIO_SENDCMD _ _ | SDIO_WAITRESPONSE _ | SDIO_RECVR1 _
  | SDIO_DMAPREFLIGHT _ | SDIO_DMARECVSETUP _ | SDIO_DMASENDSETUP _
  | dma_align_manager_init _ | nxmutex_lock => true
  | _ => false
  end.

(** A host that keeps to the convention. *)
Definition errno_host (d : sdio_dev_s) : Prop :=
  forall (c : call) (tr : list call),
    status_call c = true -> sdio_ret d (c :: tr) <= 0.

(** A piece of a run that leaves the frame alone and adds [new] to the
    trace. *)
Definition emits (w w' : world) (new : list call) : Prop :=
  frame (priv w) (priv w') /\ trace w' = trace w ++ new.

(** A result that is a status of the host or of the driver. *)
Definition status (w : world) (r : option Z) : Prop :=
  exists v, r = Some v /\ (errno_host (dev (priv w)) -> v <= 0).

(** A result that is a status whenever the run did not go out of fuel. *)
Definition status_opt (w : world) (r : option Z) : Prop :=
  forall v, r = Some v -> errno_host (dev (priv w)) -> v <= 0.

(** The frame but for partnum, which the partition switch writes. *)
Definition same_card (p p' : mmcsd_state_s) : Prop :=
  frame p (set_partnum (partnum p) p').

(** The CMD6 argument of the partition switch, as the code builds it. *)
Definition part_switch_arg (part : Z) : Z :=
  to_u32 (Z.lor (Z.lor (MMC_CMD6_MODE MMC_CMD6_MODE_WRITE_BYTE)
                       (MMC_CMD6_INDEX EXT_CSD_PART_CONF))
                (MMC_CMD6_VALUE part)).

(** A result that is a failure: a nonzero status, or out of fuel. *)
Definition failed (w : world) (r : option Z) : Prop :=
  forall v, r = Some v -> v <> 0 /\ (errno_host (dev (priv w)) -> v < 0).

Definition is_prefix {A : Type} (a b : list A) : Prop := exists c, b = a ++ c.

(** The outcome of the transfer part of a routine: the observed calls
    [full] and the block count [n] when it succeeds, a beginning of
    [full] and a failure otherwise. *)
Definition xfer_outcome (w w' : world) (r : option Z) (full : list call) (n : Z)
  : Prop :=
  frame (priv w) (priv w') /\
  exists body, trace w' = trace w ++ body /\
    ((body = full /\ r = Some n) \/ (is_prefix body full /\ failed w r)).

(** The command word of a data command for [startblock]. *)
Definition data_arg (p : mmcsd_state_s) (startblock : Z) : Z :=
  to_u32 (data_offset p startblock).

Definition readsingle_calls (p : mmcsd_state_s) (startblock : Z) : list call :=
  [SDIO_BLOCKSETUP (blocksize p) 1;
   SDIO_SENDCMD MMCSD_CMD17 (data_arg p startblock)].

Definition stop_needed (p : mmcsd_state_s) : bool :=
  IS_SD (type p) && negb (cmd23support p).

Definition stop_calls (p : mmcsd_state_s) : list call :=
  if stop_needed p then [SDIO_SENDCMD MMCSD_CMD12 0] else [].

Definition readmultiple_calls (p : mmcsd_state_s) (startblock nblocks : Z)
  : list call :=
  [SDIO_BLOCKSETUP (blocksize p) nblocks;
   SDIO_SENDCMD MMCSD_CMD18 (data_arg p startblock)] ++ stop_calls p.

Definition write_calls (p : mmcsd_state_s) (cmd : sdio_cmd)
           (startblock nblocks : Z) : list call :=
  if Z.land (caps p) SDIO_CAPS_DMABEFOREWRITE =? 0
  then [SDIO_SENDCMD cmd (data_arg p startblock);
        SDIO_BLOCKSETUP (blocksize p) nblocks]
  else [SDIO_BLOCKSETUP (blocksize p) nblocks;
        SDIO_SENDCMD cmd (data_arg p startblock)].

Definition writesingle_calls (p : mmcsd_state_s) (startblock : Z) : list call :=
  write_calls p MMCSD_CMD24 startblock 1.

Definition writemultiple_calls (p : mmcsd_state_s) (startblock nblocks : Z)
  : list call :=
  write_calls p MMCSD_CMD25 startblock nblocks ++ stop_calls p.

(** ** The four transfer routines under one name *)

Inductive transfer :=
| ReadSingle (startblock : Z)
| ReadMultiple (startblock nblocks : Z)
| WriteSingle (startblock : Z)
| WriteMultiple (startblock nblocks : Z).

Definition run_transfer (cfg : config) (fuel : nat) (part : Z) (t : transfer)
  : M Z :=
  match t with
  | ReadSingle sb => mmcsd_readsingle cfg fuel part sb
  | ReadMultiple sb n => mmcsd_readmultiple cfg fuel part sb n
  | WriteSingle sb => mmcsd_writesingle cfg fuel part sb
  | WriteMultiple sb n => mmcsd_writemultiple cfg fuel part sb n
  end.

Definition transfer_start (t : transfer) : Z :=
  match t with
  | ReadSingle sb | ReadMultiple sb _ | WriteSingle sb | WriteMultiple sb _ => sb
  end.

Definition transfer_count (t : transfer) : Z :=
  match t with
  | ReadSingle _ | WriteSingle _ => 1
  | ReadMultiple _ n | WriteMultiple _ n => n
  end.

(** What a routine returns when it succeeds: 1, or the block count as
    the int it goes back through. *)
Definition transfer_result (cfg : config) (t : transfer) : Z :=
  match t with
  | ReadSingle _ | WriteSingle _ => 1
  | ReadMultiple _ n | WriteMultiple _ n => to_int cfg n
  end.

Definition transfer_cmd (t : transfer) : sdio_cmd :=
  match t with
  | ReadSingle _ => MMCSD_CMD17
  | ReadMultiple _ _ => MMCSD_CMD18
  | WriteSingle _ => MMCSD_CMD24
  | WriteMultiple _ _ => MMCSD_CMD25
  end.

(** The observed calls of a transfer that succeeds. *)
Definition transfer_calls (p : mmcsd_state_s) (t : transfer) : list call :=
  match t with
  | ReadSingle sb => readsingle_calls p sb
  | ReadMultiple sb n => readmultiple_calls p sb n
  | WriteSingle sb => writesingle_calls p sb
  | WriteMultiple sb n => writemultiple_calls p sb n
  end.

(** The check a routine opens with: true when it refuses with -EPERM. *)
Definition transfer_gate (t : transfer) : M bool :=
  match t with
  | ReadSingle _ | ReadMultiple _ _ => p <- get_priv ;; Ret (locked p)
  | WriteSingle _ | WriteMultiple _ _ => mmcsd_wrprotected
  end.

Definition is_data_cmd (cmd : sdio_cmd) : bool :=
  match cmd with
  | MMCSD_CMD17 | MMCSD_CMD18 | MMCSD_CMD24 | MMCSD_CMD25 => true
  | _ => false
  end.

(** The routine after its partition switch; [p0] is the slot on entry,
    from which the multi-block routines take nbytes. *)
Definition transfer_xfer (cfg : config) (fuel : nat) (p0 : mmcsd_state_s)
           (t : transfer) : M Z :=
  match t with
  | ReadSingle sb => mmcsd_readsingle_xfer cfg fuel sb
  | ReadMultiple sb n =>
      mmcsd_readmultiple_xfer cfg fuel (Z.shiftl n (blockshift p0)) sb n
  | WriteSingle sb => mmcsd_writesingle_xfer cfg fuel sb
  | WriteMultiple sb n =>
      mmcsd_writemultiple_xfer cfg fuel (Z.shiftl n (blockshift p0)) sb n
  end.

(** MODE, INDEX and VALUE fields of the switch argument, spelled out. *)
Definition part_switch_word (part : Z) : Z :=
  3 * 2 ^ 24 + 179 * 2 ^ 16 + part * 2 ^ 8.

(** What a run of a transfer routine adds to the trace: the switch
    command [sw], if any, then the calls [body] of the transfer. *)
Definition transfer_outcome (cfg : config) (part : Z) (t : transfer)
           (w w' : world) (r : option Z) (sw body : list call) : Prop :=
  same_card (priv w) (priv w') /\
  trace w' = trace w ++ sw ++ body /\
  ((sw = [] /\ (body = [] \/ partnum (priv w) = part)) \/
   (sw = [SDIO_SENDCMD MMCSD_CMD6 (part_switch_arg part)] /\
    partnum (priv w) <> part)) /\
  ((partnum (priv w') = partnum (priv w) /\ (body = [] \/ partnum (priv w) = part)) \/
   (partnum (priv w') = part /\ sw <> [])) /\
  ((body = transfer_calls (priv w) t /\ r = Some (transfer_result cfg t) /\
    partnum (priv w') = part) \/
   (is_prefix body (transfer_calls (priv w) t) /\ failed w r)).

(** ** Chunks of a request, in the words of the spec *)

(** The block set-ups and data commands among the observed calls. *)
Definition is_xfer (c : call) : bool :=
  match c with
  | SDIO_BLOCKSETUP _ _ => true
  | SDIO_SENDCMD cmd _ => is_data_cmd cmd
  | _ => false
  end.

Definition is_data_call (c : call) : bool :=
  match c with
  | SDIO_SENDCMD cmd _ => is_data_cmd cmd
  | _ => false
  end.

Definition xfers (l : list call) : list call := filter is_xfer l.

(** Successive chunks (first sector, size) of size min(remaining, limit);
    [k] bounds their number. *)
Fixpoint chunks (k : nat) (sector remaining limit : Z) : list (Z * Z) :=
  match k with
  | O => []
  | S k' =>
    if 0 <? remaining then
      let n := Z.min remaining limit in
      (sector, n) :: chunks k' (sector + n) (remaining - n) limit
    else []
  end.

Definition read_chunks (startsector nsectors limit : Z) : list (Z * Z) :=
  chunks (Z.to_nat nsectors) startsector nsectors limit.

(** A request whose sectors and count fit the types of the loops of
    mmcsd_read and mmcsd_write: the sector numbers up to the end of the
    request are values of blkcnt_t and of size_t, the count is a value of
    ssize_t, and the largest chunk is a value of int. *)
Definition request_fits (cfg : config) (startsector nsectors : Z) : Prop :=
  0 <= startsector /\
  startsector + nsectors < 2 ^ BLKCNT_T_BITS cfg /\
  startsector + nsectors <= 2 * SSIZE_MAX cfg + 1 /\
  nsectors <= SSIZE_MAX cfg /\
  Z.min nsectors (MMCSD_MULTIBLOCK_LIMIT cfg) <= INT_MAX cfg.

(** What a chunk puts on the bus: one block through CMD17, more through
    CMD18. *)
Definition chunk_calls (p : mmcsd_state_s) (ch : Z * Z) : list call :=
  [SDIO_BLOCKSETUP (blocksize p) (snd ch);
   SDIO_SENDCMD (if snd ch =? 1 then MMCSD_CMD17 else MMCSD_CMD18)
                (data_arg p (fst ch))].

(** The routine that the loop of mmcsd_read runs for a chunk. *)
Definition chunk_transfer (ch : Z * Z) : transfer :=
  if snd ch =? 1 then ReadSingle (fst ch) else ReadMultiple (fst ch) (snd ch).

(** The block set-ups and data commands of a read that runs to its end. *)
Definition read_calls (cfg : config) (p : mmcsd_state_s)
           (startsector nsectors : Z) : list call :=
  flat_map (chunk_calls p)
           (read_chunks startsector nsectors (MMCSD_MULTIBLOCK_LIMIT cfg)).

(** ** The data phase of a multi-block routine, in the call history *)

Definition is_wait (c : call) : bool :=
  match c with
  | SDIO_EVENTWAIT => true
  | _ => false
  end.

(** What mmcsd_eventwait returns on the host of [w] when it runs after the
    calls [before], newest first. *)
Definition wait_result (w : world) (before : list call) : option Z :=
  snd (mmcsd_eventwait SDIOWAIT_FAIL {| priv := priv w; calls := before |}).

(** Calls none of which is a [P]. *)
Definition free_of (P : call -> bool) (l : list call) : Prop :=
  existsb P l = false.

(** Calls, newest first, in two phases: no data command in the older
    phase, no wait in the newer. *)
Definition phased (l : list call) : Prop :=
  exists B A, l = B ++ A /\ free_of is_wait B /\ free_of is_data_call A.

(** What decides whether the STOP command is needed, and the host. *)
Definition card_obs (p : mmcsd_state_s) : sdio_dev_s * Z * bool :=
  (dev p, type p, cmd23support p).

(** A piece of code that leaves the card alone and adds calls that
    satisfy [Q] to the history. *)
Definition adds {A : Type} (Q : list call -> Prop) (m : M A) : Prop :=
  forall (w w' : world) (r : option A), m w = (w', r) ->
    card_obs (priv w') = card_obs (priv w) /\
    exists new, calls w' = new ++ calls w /\ Q new.

(** A routine that either ends having added calls that satisfy [Q], or
    adds such calls and ends as its tail [T] does. *)
Definition leads (Q : list call -> Prop) (T m : M Z) : Prop :=
  forall (w w' : world) (r : option Z), m w = (w', r) ->
    (exists new, calls w' = new ++ calls w /\ Q new) \/
    (exists w1 new, calls w1 = new ++ calls w /\ Q new /\
       card_obs (priv w1) = card_obs (priv w) /\ T w1 = (w', r)).

(** ** The contract of transfer_ready, in the words of the spec *)

(** The ticks since [start] that the clock shows when read in [w]. *)
Definition elapsed (cfg : config) (start : Z) (w : world) : Z :=
  to_clock cfg
    (to_clock cfg (sdio_ret (dev (priv w)) (clock_systime_ticks :: calls w))
     - start).

(** The polls of the card status from the world [w] on, the clock having
    shown [start] before the first: they end in [w'] with the status [v]. *)
Inductive polls (cfg : config) (start : Z) : world -> world -> Z -> Prop :=
| polls_error (w w1 : world) (ret r1 : Z) :
    mmcsd_get_r1 w = (w1, Some (ret, r1)) -> ret <> OK ->
    polls cfg start w w1 ret
| polls_tran (w w1 : world) (r1 : Z) :
    mmcsd_get_r1 w = (w1, Some (OK, r1)) ->
    IS_STATE r1 MMCSD_R1_STATE_TRAN = true ->
    polls cfg start w (setpriv (set_wrbusy false) w1) OK
| polls_other (w w1 : world) (r1 : Z) :
    mmcsd_get_r1 w = (w1, Some (OK, r1)) ->
    IS_STATE r1 MMCSD_R1_STATE_TRAN = false ->
    IS_STATE r1 MMCSD_R1_STATE_PRG = false ->
    IS_STATE r1 MMCSD_R1_STATE_RCV = false ->
    polls cfg start w w1 (- EINVAL)
| polls_timeout (w w1 w2 : world) (r1 : Z) :
    mmcsd_get_r1 w = (w1, Some (OK, r1)) ->
    IS_STATE r1 MMCSD_R1_STATE_TRAN = false ->
    IS_STATE r1 MMCSD_R1_STATE_PRG || IS_STATE r1 MMCSD_R1_STATE_RCV = true ->
    transferready_pause cfg w1 = (w2, Some tt) ->
    TICK_PER_SEC cfg <= elapsed cfg start w2 ->
    polls cfg start w (logcall clock_systime_ticks w2) (- ETIMEDOUT)
| polls_retry (w w1 w2 w' : world) (r1 v : Z) :
    mmcsd_get_r1 w = (w1, Some (OK, r1)) ->
    IS_STATE r1 MMCSD_R1_STATE_TRAN = false ->
    IS_STATE r1 MMCSD_R1_STATE_PRG || IS_STATE r1 MMCSD_R1_STATE_RCV = true ->
    transferready_pause cfg w1 = (w2, Some tt) ->
    elapsed cfg start w2 < TICK_PER_SEC cfg ->
    polls cfg start (logcall clock_systime_ticks w2) w' v ->
    polls cfg start w w' v.

(** The host's answer to SDIO_PRESENT in [w]. *)
Definition present (w : world) : Z :=
  sdio_ret (dev (priv w)) (SDIO_PRESENT :: calls w).

(** transfer_ready from the world [w] ends in [w'] with the status [v]. *)
Inductive transfer_ready (cfg : config) : world -> world -> Z -> Prop :=
| ready_unknown (w : world) :
    type (priv w) = MMCSD_CARDTYPE_UNKNOWN ->
    transfer_ready cfg w w (- ENODEV)
| ready_absent (w : world) :
    type (priv w) <> MMCSD_CARDTYPE_UNKNOWN -> present w = 0 ->
    transfer_ready cfg w (logcall SDIO_PRESENT w) (- ENODEV)
| ready_idle (w : world) :
    type (priv w) <> MMCSD_CARDTYPE_UNKNOWN -> present w <> 0 ->
    wrbusy (priv w) = false ->
    transfer_ready cfg w (logcall SDIO_PRESENT w) OK
| ready_polled (w w1 w' : world) (v : Z) :
    type (priv w) <> MMCSD_CARDTYPE_UNKNOWN -> present w <> 0 ->
    wrbusy (priv w) = true ->
    transferready_wrcomplete cfg (logcall SDIO_PRESENT w) = (w1, Some tt) ->
    polls cfg
          (to_clock cfg (sdio_ret (dev (priv w1)) (clock_systime_ticks :: calls w1)))
          (logcall clock_systime_ticks w1) w' v ->
    transfer_ready cfg w w' v.

(** ** Concrete slots, hosts and registers for the examples *)

Module Scenario.

Definition cfg0 : config :=
  {| CONFIG_MMCSD_MMCSUPPORT := true;
     CONFIG_SDIO_DMA := false;
     CONFIG_ARCH_HAVE_SDIO_PREFLIGHT := false;
     CONFIG_MMCSD_SDIOWAIT_WRCOMPLETE := false;
     CONFIG_MMCSD_CHECK_READY_STATUS_WITHOUT_SLEEP := false;
     CONFIG_BOARD_COREDUMP_BLKDEV := false;
     CONFIG_SDIO_MUXBUS := false;
     CONFIG_MMCSD_MULTIBLOCK_LIMIT := 2;
     CONFIG_MMCSD_BLOCK_WDATADELAY := 260;
     INT_MAX := 2147483647;
     SSIZE_MAX := 2147483647;
     TICK_PER_SEC := 100;
     CLOCK_T_BITS := 32;
     BLKCNT_T_BITS := 32 |}.

(** A host on which every call succeeds and every response word is 0. *)
Definition dev_ok : sdio_dev_s :=
  {| sdio_ret := fun _ => 0; sdio_resp := fun _ => 0 |}.

(** An empty slot. *)
Definition slot_empty : mmcsd_state_s :=
  {| dev := dev_ok; caps := 0; type := MMCSD_CARDTYPE_UNKNOWN; rca := 0;
     wrbusy := false; wrprotect := false; locked := false; dsrimp := false;
     cmd23support := false; selblocklen := 0; blockshift := 0;
     blocksize := 0; partnum := 0; part := fun _ => 0 |}.

(** The slot after an SDv2 block-addressed (SDHC) card was identified. *)
Definition slot_sdhc : mmcsd_state_s :=
  {| dev := dev_ok; caps := 0;
     type := Z.lor MMCSD_CARDTYPE_SDV2 MMCSD_CARDTYPE_BLOCK; rca := 0x1234;
     wrbusy := false; wrprotect := false; locked := false; dsrimp := false;
     cmd23support := false; selblocklen := 0; blockshift := 0;
     blocksize := 0; partnum := 0; part := fun _ => 0 |}.

(** The slot after a byte-addressed SDv1 card was identified. *)
Definition slot_sdv1 : mmcsd_state_s :=
  {| dev := dev_ok; caps := 0; type := MMCSD_CARDTYPE_SDV1; rca := 0x1234;
     wrbusy := false; wrprotect := false; locked := false; dsrimp := false;
     cmd23support := false; selblocklen := 0; blockshift := 0;
     blocksize := 0; partnum := 0; part := fun _ => 0 |}.

(** A version 2 CSD with C_SIZE = 0x1DB7. *)
Definition csd_1db7 : list Z := [0x400e0032; 0x5b590000; 0x1db77f80; 0x0a404000].

(** A byte-addressed CSD with READ_BL_LEN = 10, C_SIZE = 4095 and
    C_SIZE_MULT = 7 (a 2 GB card), and one with READ_BL_LEN = 8. *)
Definition csd_2gb : list Z := [0x002e0032; 0x5b5a83ff; 0xffff8000 + 0x7f80; 0x0a404000].
Definition csd_bl8 : list Z := [0x002e0032; 0x5b5883ff; 0xffff8000 + 0x7f80; 0x0a404000].

(** A host with a card in the slot that is always in the transfer state:
    every call succeeds, no wait ends on a failure event. *)
Definition dev_ready : sdio_dev_s :=
  {| sdio_ret := fun tr => match tr with
                           | SDIO_PRESENT :: _ => 1
                           | _ => 0
                           end;
     sdio_resp := fun tr => match tr with
                            | SDIO_RECVR1 MMCSD_CMD13 :: _ => MMCSD_R1_STATE_TRAN
                            | _ => 0
                            end |}.

(** A byte-addressed SD card without CMD23, decoded and idle. *)
Definition world_sd_byte : world :=
  {| priv := {| dev := dev_ready; caps := 0; type := MMCSD_CARDTYPE_SDV1;
                rca := 0x1234; wrbusy := false; wrprotect := false;
                locked := false; dsrimp := false; cmd23support := false;
                selblocklen := 0; blockshift := 9; blocksize := 512;
                partnum := 0; part := fun _ => 4194304 |};
     calls := [] |}.

(** A block-addressed eMMC with the user partition selected. *)
Definition world_emmc : world :=
  {| priv := {| dev := dev_ready; caps := 0;
                type := Z.lor MMCSD_CARDTYPE_MMC MMCSD_CARDTYPE_BLOCK;
                rca := 1; wrbusy := false; wrprotect := false;
                locked := false; dsrimp := false; cmd23support := false;
                selblocklen := 512; blockshift := 9; blocksize := 512;
                partnum := 0; part := fun _ => 15466496 |};
     calls := [] |}.

(** The same card, locked. *)
Definition world_emmc_locked : world :=
  {| priv := set_locked true (priv world_emmc); calls := [] |}.

(** A host on which the R1 status of CMD12 times out. *)
Definition dev_stop_fails : sdio_dev_s :=
  {| sdio_ret := fun tr => match tr with
                           | SDIO_PRESENT :: _ => 1
                           | SDIO_RECVR1 MMCSD_CMD12 :: _ => - ETIMEDOUT
                           | _ => 0
                           end;
     sdio_resp := sdio_resp dev_ready |}.

(** A host on which every wait ends on the error event, and the R1 status
    of CMD12 times out as well. *)
Definition dev_data_fails : sdio_dev_s :=
  {| sdio_ret := fun tr => match tr with
                           | SDIO_PRESENT :: _ => 1
                           | SDIO_EVENTWAIT :: _ => SDIOWAIT_ERROR
                           | SDIO_RECVR1 MMCSD_CMD12 :: _ => - ETIMEDOUT
                           | _ => 0
                           end;
     sdio_resp := sdio_resp dev_ready |}.

(** A host on which the R1 status of CMD6 times out. *)
Definition dev_switch_fails : sdio_dev_s :=
  {| sdio_ret := fun tr => match tr with
                           | SDIO_PRESENT :: _ => 1
                           | SDIO_RECVR1 MMCSD_CMD6 :: _ => - ETIMEDOUT
                           | _ => 0
                           end;
     sdio_resp := sdio_resp dev_ready |}.

(** The slot of [w] on the host [d]. *)
Definition with_dev (d : sdio_dev_s) (w : world) : world :=
  let p := priv w in
  {| priv := {| dev := d; caps := caps p; type := type p; rca := rca p;
                wrbusy := wrbusy p; wrprotect := wrprotect p;
                locked := locked p; dsrimp := dsrimp p;
                cmd23support := cmd23support p; selblocklen := selblocklen p;
                blockshift := blockshift p; blocksize := blocksize p;
                partnum := partnum p; part := part p |};
     calls := calls w |}.

(** A host whose card is programming at the first CMD13 and in the
    transfer state from the second on, and whose clock counts the calls. *)
Definition is_status_poll (c : call) : bool :=
  match c with
  | SDIO_RECVR1 MMCSD_CMD13 => true
  | _ => false
  end.

Definition dev_busy : sdio_dev_s :=
  {| sdio_ret := fun tr => match tr with
                           | SDIO_PRESENT :: _ => 1
                           | clock_systime_ticks :: rest => Z.of_nat (length rest)
                           | _ => 0
                           end;
     sdio_resp := fun tr => match tr with
                            | SDIO_RECVR1 MMCSD_CMD13 :: rest =>
                                if existsb is_status_poll rest
                                then MMCSD_R1_STATE_TRAN else MMCSD_R1_STATE_PRG
                            | _ => 0
                            end |}.

(** The SD card just after a write. *)
Definition world_sd_busy : world :=
  setpriv (set_wrbusy true) (with_dev dev_busy world_sd_byte).

(** The empty slot, nothing called yet. *)
Definition world_empty : world := {| priv := slot_empty; calls := [] |}.

Definition world_sd_data_fails : world := with_dev dev_data_fails world_sd_byte.
Definition world_sd_stop_fails : world := with_dev dev_stop_fails world_sd_byte.
Definition world_emmc_switch_fails : world := with_dev dev_switch_fails world_emmc.

(** The calls of a write of 4 blocks at block 8 of that card up to the
    wait of the data phase, newest first, and those of a read. *)
Definition write_until_wait : list call :=
  [SDIO_SENDSETUP 2048; SDIO_WAITENABLE 28 1040; SDIO_BLOCKSETUP 512 4;
   SDIO_RECVR1 MMCSD_CMD25; SDIO_WAITRESPONSE MMCSD_CMD25;
   SDIO_SENDCMD MMCSD_CMD25 4096;
   SDIO_RECVR1 SD_ACMD23; SDIO_WAITRESPONSE SD_ACMD23; SDIO_SENDCMD SD_ACMD23 4;
   SDIO_RECVR1 SD_CMD55; SDIO_WAITRESPONSE SD_CMD55;
   SDIO_SENDCMD SD_CMD55 305397760;
   SDIO_RECVR1 MMCSD_CMD16; SDIO_WAITRESPONSE MMCSD_CMD16;
   SDIO_SENDCMD MMCSD_CMD16 512; SDIO_PRESENT; SDIO_WRPROTECTED].

Definition read_until_wait : list call :=
  [SDIO_RECVR1 MMCSD_CMD18; SDIO_WAITRESPONSE MMCSD_CMD18;
   SDIO_SENDCMD MMCSD_CMD18 4096;
   SDIO_RECVSETUP 2048; SDIO_WAITENABLE 28 400; SDIO_BLOCKSETUP 512 4;
   SDIO_RECVR1 MMCSD_CMD16; SDIO_WAITRESPONSE MMCSD_CMD16;
   SDIO_SENDCMD MMCSD_CMD16 512; SDIO_PRESENT].

End Scenario.

(** * More of the driver *)

(** ** The extended CSD *)

(** Modelled from the spec: the byte offsets of the EXT_CSD fields and the
    PARTITIONING_EN bit, the macros of the missing mmcsd_extcsd.h, with
    the numbers of the eMMC standard; and the indexes of the boot and
    general-purpose partitions in part[], in the order of g_partname. *)
Definition MMCSD_EXTCSD_GP_SIZE_MULT : Z := 143.
Definition MMCSD_EXTCSD_PARTITION_SETTING_COMPLETED : Z := 155.
Definition MMCSD_EXTCSD_PARTITION_SUPPORT : Z := 160.
Definition MMCSD_EXTCSD_RPMB_SIZE_MULT : Z := 168.
Definition MMCSD_EXTCSD_HC_WP_GRP_SIZE : Z := 221.
Definition MMCSD_EXTCSD_HC_ERASE_GRP_SIZE : Z := 224.
Definition MMCSD_EXTCSD_BOOT_SIZE_MULT : Z := 226.
Definition MMCSD_PART_SUPPORT_PART_EN : Z := 1.
Definition MMCSD_PART_BOOT0 : nat := 1.
Definition MMCSD_PART_BOOT1 : nat := 2.
Definition MMCSD_PART_GENP0 : nat := 4.

(** Lines 66-68. *)
Definition MCSD_SZ_512 : Z := 0x00000200.
Definition MCSD_SZ_128K : Z := 0x00020000.
Definition MCSD_SZ_512K : Z := 0x00080000.

(** extcsd[i], a uint8_t. *)
Definition extcsd_byte (extcsd : list Z) (i : Z) : Z :=
  to_u8 (nth (Z.to_nat i) extcsd 0).

(** The three bytes of GP_SIZE_MULT of general-purpose partition [idx]. *)
Definition gp_size_mult (extcsd : list Z) (idx : Z) : Z :=
  Z.shiftl (extcsd_byte extcsd (MMCSD_EXTCSD_GP_SIZE_MULT + idx * 3 + 2)) 16 +
  Z.shiftl (extcsd_byte extcsd (MMCSD_EXTCSD_GP_SIZE_MULT + idx * 3 + 1)) 8 +
  extcsd_byte extcsd (MMCSD_EXTCSD_GP_SIZE_MULT + idx * 3).

(** The for loop of mmcsd_decode_extcsd, lines 3060-3087, from [idx] on
    for [n] rounds: a partition of size zero is skipped (continue), and
    the loop is left (break) at the first partition of a size that is not
    zero when PARTITION_SETTING_COMPLETED is zero. *)
Fixpoint decode_extcsd_gp (n : nat) (idx : nat) (extcsd : list Z)
         (hc_erase_grp_sz hc_wp_grp_sz : Z) (priv : mmcsd_state_s)
  : mmcsd_state_s :=
  match n with
  | O => priv
  | S n' =>
    let i := Z.of_nat idx in
    if (extcsd_byte extcsd (MMCSD_EXTCSD_GP_SIZE_MULT + i * 3) =? 0) &&
       (extcsd_byte extcsd (MMCSD_EXTCSD_GP_SIZE_MULT + i * 3 + 1) =? 0) &&
       (extcsd_byte extcsd (MMCSD_EXTCSD_GP_SIZE_MULT + i * 3 + 2) =? 0)
    then decode_extcsd_gp n' (S idx) extcsd hc_erase_grp_sz hc_wp_grp_sz priv
    else if extcsd_byte extcsd MMCSD_EXTCSD_PARTITION_SETTING_COMPLETED =? 0
    then priv
    else
      decode_extcsd_gp n' (S idx) extcsd hc_erase_grp_sz hc_wp_grp_sz
        (set_nblocks (MMCSD_PART_GENP0 + idx)
           (gp_size_mult extcsd i * hc_erase_grp_sz * hc_wp_grp_sz
            * MCSD_SZ_512K / MCSD_SZ_512) priv)
  end.

(** mmcsd_decode_extcsd, lines 3026-3089.  The arithmetic is that of the
    source in unbounded integers: it is the C value as long as
    extcsd[215] << 24 fits an int and the product of a general-purpose
    size fits an int and, times 512K, an unsigned long. *)
Definition mmcsd_decode_extcsd (priv : mmcsd_state_s) (extcsd : list Z)
  : mmcsd_state_s :=
  let priv :=
    set_nblocks 0
      (Z.lor (Z.lor (Z.lor (Z.shiftl (extcsd_byte extcsd 215) 24)
                           (Z.shiftl (extcsd_byte extcsd 214) 16))
                    (Z.shiftl (extcsd_byte extcsd 213) 8))
             (extcsd_byte extcsd 212)) priv in
  if negb (Z.land (extcsd_byte extcsd MMCSD_EXTCSD_PARTITION_SUPPORT)
                  MMCSD_PART_SUPPORT_PART_EN =? 0) then
    let priv :=
      set_nblocks MMCSD_PART_BOOT0
        (extcsd_byte extcsd MMCSD_EXTCSD_BOOT_SIZE_MULT * MCSD_SZ_128K
         / MCSD_SZ_512) priv in
    let priv :=
      set_nblocks MMCSD_PART_BOOT1
        (extcsd_byte extcsd MMCSD_EXTCSD_BOOT_SIZE_MULT * MCSD_SZ_128K
         / MCSD_SZ_512) priv in
    let priv :=
      set_nblocks (Z.to_nat MMCSD_PART_RPMB)
        (extcsd_byte extcsd MMCSD_EXTCSD_RPMB_SIZE_MULT * MCSD_SZ_128K
         / MCSD_SZ_512) priv in
    let hc_erase_grp_sz := extcsd_byte extcsd MMCSD_EXTCSD_HC_ERASE_GRP_SIZE in
    let hc_wp_grp_sz := extcsd_byte extcsd MMCSD_EXTCSD_HC_WP_GRP_SIZE in
    decode_extcsd_gp 4 0 extcsd hc_erase_grp_sz hc_wp_grp_sz priv
  else priv.

(** The multiplier of general-purpose partition [idx] is zero. *)
Definition gp_unset (extcsd : list Z) (idx : nat) : bool :=
  (extcsd_byte extcsd (MMCSD_EXTCSD_GP_SIZE_MULT + Z.of_nat idx * 3) =? 0) &&
  (extcsd_byte extcsd (MMCSD_EXTCSD_GP_SIZE_MULT + Z.of_nat idx * 3 + 1) =? 0) &&
  (extcsd_byte extcsd (MMCSD_EXTCSD_GP_SIZE_MULT + Z.of_nat idx * 3 + 2) =? 0).

(** SEC_COUNT, the little-endian 32-bit value of bytes 212 to 215. *)
Definition extcsd_sec_count (extcsd : list Z) : Z :=
  extcsd_byte extcsd 212 + 256 * extcsd_byte extcsd 213 +
  65536 * extcsd_byte extcsd 214 + 16777216 * extcsd_byte extcsd 215.

(** ** The block-device methods beside read and write *)

(** Modelled from the spec: the fields of struct mmcsd_state_s, declared in
    the missing mmcsd.h, that the methods below use beside those of
    [mmcsd_state_s]: the count of open references, a uint8_t (lines
    70-74), the media-changed flag and the bus widths of the SCR. *)
Record mmcsd_more_s := {
  crefs : Z;
  mediachanged : bool;
  buswidth : Z
}.

Definition set_crefs (v : Z) (x : mmcsd_more_s) : mmcsd_more_s :=
  {| crefs := v; mediachanged := mediachanged x; buswidth := buswidth x |}.

Definition set_mediachanged (b : bool) (x : mmcsd_more_s) : mmcsd_more_s :=
  {| crefs := crefs x; mediachanged := b; buswidth := buswidth x |}.

Definition set_buswidth (v : Z) (x : mmcsd_more_s) : mmcsd_more_s :=
  {| crefs := crefs x; mediachanged := mediachanged x; buswidth := v |}.

Definition set_cmd23support (b : bool) (p : mmcsd_state_s) : mmcsd_state_s :=
  {| dev := dev p; caps := caps p; type := type p; rca := rca p;
     wrbusy := wrbusy p; wrprotect := wrprotect p; locked := locked p;
     dsrimp := dsrimp p; cmd23support := b;
     selblocklen := selblocklen p; blockshift := blockshift p;
     blocksize := blocksize p; partnum := partnum p; part := part p |}.

(** Line 74. *)
Definition MAX_CREFS : Z := 0xff.

(** mmcsd_open, lines 2402-2425; the DEBUGASSERT is crefs < MAX_CREFS. *)
Definition mmcsd_open (cfg : config) (x : mmcsd_more_s) : M (mmcsd_more_s * Z) :=
  ret <- mmcsd_lock cfg ;;
  if ret <? 0 then Ret (x, ret) else
  let x := set_crefs (to_u8 (crefs x + 1)) x in
  mmcsd_unlock cfg ;;
  Ret (x, OK).

(** mmcsd_close, lines 2435-2458; the DEBUGASSERT is crefs > 0. *)
Definition mmcsd_close (cfg : config) (x : mmcsd_more_s) : M (mmcsd_more_s * Z) :=
  ret <- mmcsd_lock cfg ;;
  if ret <? 0 then Ret (x, ret) else
  let x := set_crefs (to_u8 (crefs x - 1)) x in
  mmcsd_unlock cfg ;;
  Ret (x, OK).

(** struct geometry of the missing nuttx/fs/fs.h, the fields mmcsd_geometry
    writes. *)
Record geometry := {
  geo_available : bool;
  geo_mediachanged : bool;
  geo_writeenabled : bool;
  geo_nsectors : Z;
  geo_sectorsize : Z
}.

(** The structure after the memset to zero of line 2639. *)
Definition geometry_zero : geometry :=
  {| geo_available := false; geo_mediachanged := false;
     geo_writeenabled := false; geo_nsectors := 0; geo_sectorsize := 0 |}.

(** mmcsd_geometry, lines 2628-2683, for partition [part]: [geo] is what
    the pointer geometry points to, None when it is NULL; the result is the
    other fields of the slot, the structure as the call leaves it, and the
    value returned. *)
Definition mmcsd_geometry (cfg : config) (x : mmcsd_more_s) (part : nat)
           (geo : option geometry)
  : M (mmcsd_more_s * option geometry * Z) :=
  match geo with
  | None => Ret (x, None, - EINVAL)
  | Some _ =>
    ret <- mmcsd_lock cfg ;;
    if ret <? 0 then Ret (x, Some geometry_zero, ret) else
    p <- get_priv ;;
    res <- (if type p =? MMCSD_CARDTYPE_UNKNOWN
            then Ret (x, Some geometry_zero, - ENODEV)
            else
              wp <- mmcsd_wrprotected ;;
              p <- get_priv ;;
              Ret (set_mediachanged false x,
                   Some {| geo_available := true;
                           geo_mediachanged := mediachanged x;
                           geo_writeenabled := negb wp;
                           geo_nsectors := nblocks_of p part;
                           geo_sectorsize := blocksize p |},
                   OK)) ;;
    mmcsd_unlock cfg ;;
    Ret res
  end.

(** mmcsd_decode_scr, lines 1001-1066 without the debug-only decoding;
    [big_endian] is CONFIG_ENDIAN_BIG, scr[0] a uint32_t. *)
Definition mmcsd_decode_scr (big_endian : bool) (x : mmcsd_more_s)
           (priv : mmcsd_state_s) (scr : list Z)
  : mmcsd_more_s * mmcsd_state_s :=
  let scr0 := to_u32 (nth 0 scr 0) in
  if big_endian then
    (set_buswidth (Z.land (Z.shiftr scr0 16) 15) x,
     set_cmd23support (negb (Z.land (Z.shiftr scr0 1) 1 =? 0)) priv)
  else
    (set_buswidth (Z.land (Z.shiftr scr0 8) 15) x,
     set_cmd23support (negb (Z.land (Z.shiftr scr0 25) 1 =? 0)) priv).

(** The first word of the SCR as the CPU holds it when the card sent the
    bytes [b0], [b1], [b2], [b3] in this order: bits 63:56 of the register
    first. *)
Definition scr_word (big_endian : bool) (b0 b1 b2 b3 : Z) : Z :=
  if big_endian
  then Z.lor (Z.lor (Z.lor (Z.shiftl b0 24) (Z.shiftl b1 16)) (Z.shiftl b2 8)) b3
  else Z.lor (Z.lor (Z.lor (Z.shiftl b3 24) (Z.shiftl b2 16)) (Z.shiftl b1 8)) b0.

(** ** Batches of raw commands *)

(** Modelled from the spec: the cap on a batch, MMC_IOC_MAX_CMDS of the
    missing nuttx/mmcsd.h; and struct mmc_ioc_multi_cmd, a count followed
    by the array of commands. *)
Definition MMC_IOC_MAX_CMDS : Z := 255.

Record mmc_ioc_multi_cmd := {
  num_of_cmds : Z;
  cmds : nat -> mmc_ioc_cmd
}.

(** The for loop of mmcsd_multi_iocmd, lines 3905-3913, from index [i] on
    for [n] rounds. *)
Fixpoint multi_iocmd_loop (cfg : config) (n : nat) (fuel : nat) (part : Z)
         (imc_ptr : mmc_ioc_multi_cmd) (i : nat) : M Z :=
  match n with
  | O => Ret OK
  | S n' =>
    ret <- mmcsd_iocmd cfg fuel part (cmds imc_ptr i) ;;
    if negb (ret =? OK) then Ret ret
    else multi_iocmd_loop cfg n' fuel part imc_ptr (S i)
  end.

(** mmcsd_multi_iocmd, lines 3888-3915. *)
Definition mmcsd_multi_iocmd (cfg : config) (fuel : nat) (part : Z)
           (imc_ptr : mmc_ioc_multi_cmd) : M Z :=
  if MMC_IOC_MAX_CMDS <? num_of_cmds imc_ptr then Ret (- EINVAL)
  else multi_iocmd_loop cfg (Z.to_nat (num_of_cmds imc_ptr)) fuel part imc_ptr O.

(** The world in which command [k] of a batch starts when the commands
    before it are run one after the other from [w]. *)
Fixpoint batch_world (cfg : config) (fuel : nat) (part : Z)
         (imc_ptr : mmc_ioc_multi_cmd) (k : nat) (w : world) : world :=
  match k with
  | O => w
  | S k' => fst (mmcsd_iocmd cfg fuel part (cmds imc_ptr k')
                   (batch_world cfg fuel part imc_ptr k' w))
  end.

(** The opcode indices mmcsd_iocmd has a case for. *)
Definition iocmd_indices : list Z := [0; 2; 6; 8; 13; 18; 23; 25; 56].

(** ** The mutex of the slot *)

Definition is_mutex (c : call) : bool :=
  match c with
  | nxmutex_lock | nxmutex_unlock => true
  | _ => false
  end.

(** The calls on the mutex of a run, oldest first. *)
Definition mutex_calls (w : world) : list call :=
  filter is_mutex (rev (calls w)).

(** A host on which the driver runs in a thread that is not the idle
    task: the two tests of mmcsd_lock and mmcsd_unlock answer no. *)
Definition thread_context (d : sdio_dev_s) : Prop :=
  forall tr : list call,
    sdio_ret d (up_interrupt_context :: tr) = 0 /\
    sdio_ret d (sched_idletask :: tr) = 0.

(** A piece of code that leaves alone what [obs] sees of the world. *)
Definition keeps {X A : Type} (obs : world -> X) (m : M A) : Prop :=
  forall (w w' : world) (r : option A), m w = (w', r) -> obs w' = obs w.

(** The calls on the mutex and the host. *)
Definition mutex_obs (w : world) : list call * sdio_dev_s :=
  (mutex_calls w, dev (priv w)).

(** The mutex and the host with the block length selected on the card
    and the block size. *)
Definition slot_obs (w : world) : list call * sdio_dev_s * Z * Z :=
  (mutex_calls w, dev (priv w), selblocklen (priv w), blocksize (priv w)).

(** A piece of code that leaves the mutex and the host alone. *)
Abbreviation quiet := (keeps mutex_obs).

(** What a method may do to the mutex: take and release it once, or fail
    to take it and return the negative result of nxmutex_lock. *)
Definition balanced (w w' : world) (v : Z) : Prop :=
  dev (priv w') = dev (priv w) /\
  (mutex_calls w' = mutex_calls w ++ [nxmutex_lock; nxmutex_unlock] \/
   (mutex_calls w' = mutex_calls w ++ [nxmutex_lock] /\ v < 0)).

(** ** Chunks of a write *)

(** The routine that the loop of mmcsd_write runs for a chunk. *)
Definition write_chunk_transfer (ch : Z * Z) : transfer :=
  if snd ch =? 1 then WriteSingle (fst ch) else WriteMultiple (fst ch) (snd ch).

(** What a chunk of a write puts on the bus: the block set-up and CMD24
    for one block or CMD25 for more, in the order the host asks for. *)
Definition write_chunk_calls (p : mmcsd_state_s) (ch : Z * Z) : list call :=
  write_calls p (if snd ch =? 1 then MMCSD_CMD24 else MMCSD_CMD25)
              (fst ch) (snd ch).

(** The block set-ups and data commands of a write that runs to its end. *)
Definition written_calls (cfg : config) (p : mmcsd_state_s)
           (startsector nsectors : Z) : list call :=
  flat_map (write_chunk_calls p)
           (read_chunks startsector nsectors (MMCSD_MULTIBLOCK_LIMIT cfg)).

(** ** More hosts and slots for the examples *)

Module Examples.

(** A host on which the R1 status of CMD16 times out. *)
Definition dev_cmd16_fails : sdio_dev_s :=
  {| sdio_ret := fun tr => match tr with
                           | SDIO_PRESENT :: _ => 1
                           | SDIO_RECVR1 MMCSD_CMD16 :: _ => - ETIMEDOUT
                           | _ => 0
                           end;
     sdio_resp := sdio_resp Scenario.dev_ready |}.

Definition world_sd_cmd16_fails : world :=
  Scenario.with_dev dev_cmd16_fails Scenario.world_sd_byte.

(** A host that reports the write-protect switch of the slot closed. *)
Definition dev_switch_closed : sdio_dev_s :=
  {| sdio_ret := fun tr => match tr with
                           | SDIO_PRESENT :: _ => 1
                           | SDIO_WRPROTECTED :: _ => 1
                           | _ => 0
                           end;
     sdio_resp := sdio_resp Scenario.dev_ready |}.

Definition world_sd_switch_closed : world :=
  Scenario.with_dev dev_switch_closed Scenario.world_sd_byte.

(** A host on which the R1 status of CMD17 times out: of a read of five
    sectors in chunks of two, the third chunk fails. *)
Definition dev_cmd17_fails : sdio_dev_s :=
  {| sdio_ret := fun tr => match tr with
                           | SDIO_PRESENT :: _ => 1
                           | SDIO_RECVR1 MMCSD_CMD17 :: _ => - ETIMEDOUT
                           | _ => 0
                           end;
     sdio_resp := sdio_resp Scenario.dev_ready |}.

Definition world_sd_third_fails : world :=
  Scenario.with_dev dev_cmd17_fails Scenario.world_sd_byte.

(** An EXT_CSD: SEC_COUNT = 0x00EC0000, partitioning enabled and
    completed, boot partitions of 32 * 128 KiB, an RPMB of 4 * 128 KiB and
    a first general-purpose partition of 2 * 16 * 1 * 512 KiB. *)
Definition extcsd_fields : list (nat * Z) :=
  [(214%nat, 0xEC); (160%nat, 1); (226%nat, 32); (168%nat, 4);
   (224%nat, 1); (221%nat, 16); (143%nat, 2); (155%nat, 1)].

Definition extcsd_emmc : list Z :=
  map (fun i => match find (fun f => Nat.eqb (fst f) i) extcsd_fields with
                | Some f => snd f
                | None => 0
                end) (seq 0 512).

(** The same register with PARTITION_SETTING_COMPLETED zero. *)
Definition extcsd_unfinished : list Z :=
  map (fun i => match find (fun f => Nat.eqb (fst f) i) extcsd_fields with
                | Some f => if Nat.eqb (fst f) 155 then 0 else snd f
                | None => 0
                end) (seq 0 512).

(** A CSD of a block-addressed eMMC of more than 2 GB: C_SIZE = 0xFFF. *)
Definition csd_emmc : list Z :=
  [0xd00f0032; 0x0f5903ff; 0xffffffe7; 0x8a404000].

(** The other fields of a slot whose card was changed and that one
    handle has open. *)
Definition slot_changed : mmcsd_more_s :=
  {| crefs := 1; mediachanged := true; buswidth := 5 |}.

(** The SD card after a write, on a host that reports it back in the
    transfer state at the first poll. *)
Definition world_sd_written : world :=
  setpriv (set_wrbusy true) Scenario.world_sd_byte.

(** A batch of a status request, an opcode the driver has no case for and
    a reset. *)
Definition batch_bad_second : mmc_ioc_multi_cmd :=
  {| num_of_cmds := 3;
     cmds := fun i =>
       match i with
       | O => {| write_flag := 0; opcode := 13; arg := 0; blocks := 0 |}
       | S O => {| write_flag := 0; opcode := 7; arg := 0; blocks := 0 |}
       | _ => {| write_flag := 0; opcode := 0; arg := 0; blocks := 0 |}
       end |}.

End Examples.
(** * Properties *)

(** ** Arithmetic of the register fields *)

Lemma to_u32_range (x : Z) : 0 <= to_u32 x < 4294967296.
Proof. unfold to_u32. apply Z.mod_pos_bound. lia. Qed.

Lemma to_u32_small (x : Z) : 0 <= x < 4294967296 -> to_u32 x = x.
Proof. intros H. unfold to_u32. apply Z.mod_small. exact H. Qed.

Lemma wrap_signed_small (max x : Z) :
  - (max + 1) <= x <= max -> wrap_signed max x = x.
Proof.
  intros H. unfold wrap_signed. rewrite Z.mod_small by lia. lia.
Qed.

Lemma wrap_unsigned_small (max x : Z) :
  0 <= x <= 2 * max + 1 -> wrap_unsigned max x = x.
Proof. intros H. unfold wrap_unsigned. apply Z.mod_small. lia. Qed.

(** To a signed type and back to the unsigned type of its width. *)
Lemma wrap_unsigned_signed (max x : Z) :
  wrap_unsigned max (wrap_signed max x) = wrap_unsigned max x.
Proof.
  unfold wrap_unsigned, wrap_signed.
  rewrite Zminus_mod_idemp_l. f_equal. lia.
Qed.

Lemma wrap_unsigned_idem (max x : Z) :
  wrap_unsigned max (wrap_unsigned max x) = wrap_unsigned max x.
Proof. unfold wrap_unsigned. apply Zmod_mod. Qed.

(** A value that wraps to a signed type is the value or is negative when
    it is a value of the unsigned type of that width. *)
Lemma wrap_signed_unsigned_range (max x : Z) :
  0 <= x <= 2 * max + 1 -> wrap_signed max x = x \/ wrap_signed max x < 0.
Proof.
  intros H. destruct (Z.le_gt_cases x max) as [Hle | Hgt].
  - left. apply wrap_signed_small. lia.
  - right. unfold wrap_signed.
    replace (x + (max + 1)) with (x - (max + 1) + 1 * (2 * (max + 1))) by lia.
    rewrite Z.mod_add by lia. rewrite Z.mod_small by lia. lia.
Qed.

Lemma to_u16_small (x : Z) : 0 <= x < 65536 -> to_u16 x = x.
Proof. intros H. unfold to_u16. apply Z.mod_small. exact H. Qed.

Lemma to_u8_small (x : Z) : 0 <= x < 256 -> to_u8 x = x.
Proof. intros H. unfold to_u8. apply Z.mod_small. exact H. Qed.

Lemma land_ones_range (x : Z) (n : Z) :
  0 <= n -> 0 <= Z.land x (Z.ones n) < 2 ^ n.
Proof.
  intros Hn. rewrite Z.land_ones by exact Hn.
  apply Z.mod_pos_bound. apply Z.pow_pos_nonneg; lia.
Qed.

Lemma lor_range (n a b : Z) :
  0 <= n -> 0 <= a < 2 ^ n -> 0 <= b < 2 ^ n -> 0 <= Z.lor a b < 2 ^ n.
Proof.
  intros Hn Ha Hb. split.
  - apply Z.lor_nonneg. lia.
  - destruct (Z.eq_dec (Z.lor a b) 0) as [E | E].
    + rewrite E. apply Z.pow_pos_nonneg; lia.
    + assert (Hpos : 0 < Z.lor a b).
      { assert (0 <= Z.lor a b) by (apply Z.lor_nonneg; lia). lia. }
      assert (Hn0 : 0 < n).
      { destruct (Z.eq_dec n 0) as [-> | Hn0]; [| lia].
        change (2 ^ 0) with 1 in Ha, Hb.
        assert (a = 0) by lia. assert (b = 0) by lia. subst. now elim E. }
      apply Z.log2_lt_pow2; [exact Hpos |].
      rewrite Z.log2_lor by lia.
      apply Z.max_lub_lt.
      * destruct (Z.eq_dec a 0) as [-> | Na]; [simpl; lia |].
        apply Z.log2_lt_pow2; lia.
      * destruct (Z.eq_dec b 0) as [-> | Nb]; [simpl; lia |].
        apply Z.log2_lt_pow2; lia.
Qed.

Lemma shiftr_u32_range (x k : Z) :
  0 <= k <= 32 -> 0 <= Z.shiftr (to_u32 x) k < 2 ^ (32 - k).
Proof.
  intros Hk. pose proof (to_u32_range x) as Hx.
  rewrite Z.shiftr_div_pow2 by lia. split.
  - apply Z.div_pos; [lia | apply Z.pow_pos_nonneg; lia].
  - apply Z.div_lt_upper_bound; [apply Z.pow_pos_nonneg; lia |].
    rewrite <- Z.pow_add_r by lia.
    replace (k + (32 - k)) with 32 by lia. change (2 ^ 32) with 4294967296. lia.
Qed.

Lemma csd_sdblock_csize_range (csd : list Z) :
  0 <= csd_sdblock_csize csd < 4194304.
Proof.
  unfold csd_sdblock_csize. change 4194304 with (2 ^ 22).
  apply lor_range; [lia | |].
  - change 0x3f with (Z.ones 6).
    pose proof (land_ones_range (csd_word csd 1) 6 ltac:(lia)) as H.
    rewrite Z.shiftl_mul_pow2 by lia.
    change (2 ^ 6) with 64 in H. change (2 ^ 16) with 65536.
    change (2 ^ 22) with 4194304. lia.
  - pose proof (shiftr_u32_range (nth 2 csd 0) 16 ltac:(lia)) as H.
    unfold csd_word. change (2 ^ (32 - 16)) with 65536 in H.
    change (2 ^ 22) with 4194304. lia.
Qed.

Lemma csd_csize_range (csd : list Z) : 0 <= csd_csize csd < 4096.
Proof.
  unfold csd_csize. change 4096 with (2 ^ 12).
  apply lor_range; [lia | |].
  - change 0x03ff with (Z.ones 10).
    pose proof (land_ones_range (csd_word csd 1) 10 ltac:(lia)) as H.
    rewrite Z.shiftl_mul_pow2 by lia.
    change (2 ^ 10) with 1024 in H. change (2 ^ 2) with 4.
    change (2 ^ 12) with 4096. lia.
  - change 3 with (Z.ones 2).
    pose proof (land_ones_range (Z.shiftr (csd_word csd 2) 30) 2 ltac:(lia)) as H.
    change (2 ^ 2) with 4 in H. change (2 ^ 12) with 4096. lia.
Qed.

Lemma csd_csizemult_range (csd : list Z) : 0 <= csd_csizemult csd < 8.
Proof.
  unfold csd_csizemult. change 7 with (Z.ones 3).
  apply (land_ones_range _ 3). lia.
Qed.

Lemma csd_readbllen_range (csd : list Z) : 0 <= csd_readbllen csd < 16.
Proof.
  unfold csd_readbllen. change 0x0f with (Z.ones 4).
  apply (land_ones_range _ 4). lia.
Qed.

Lemma pow2_le_mono (a b : Z) : 0 <= a <= b -> 2 ^ a <= 2 ^ b.
Proof. intros H. apply Z.pow_le_mono_r; lia. Qed.

(** The block count of the byte-addressed layouts fits 32 bits. *)
Lemma csd_nblocks_fits (csd : list Z) :
  0 <= (csd_csize csd + 1) * 2 ^ (csd_csizemult csd + 2) < 4294967296.
Proof.
  pose proof (csd_csize_range csd) as Hc.
  pose proof (csd_csizemult_range csd) as Hm.
  assert (H1 : 0 < 2 ^ (csd_csizemult csd + 2)) by (apply Z.pow_pos_nonneg; lia).
  assert (H2 : 2 ^ (csd_csizemult csd + 2) <= 2 ^ 9) by (apply pow2_le_mono; lia).
  change (2 ^ 9) with 512 in H2. nia.
Qed.

Ltac csd_fold :=
  repeat match goal with
  | |- context [Z.lor (Z.shiftl (Z.land (csd_word ?c 1) 0x3f) 16)
                      (Z.shiftr (csd_word ?c 2) 16)] =>
      change (Z.lor (Z.shiftl (Z.land (csd_word c 1) 0x3f) 16)
                    (Z.shiftr (csd_word c 2) 16)) with (csd_sdblock_csize c)
  | |- context [Z.lor (Z.shiftl (Z.land (csd_word ?c 1) 0x03ff) 2)
                      (Z.land (Z.shiftr (csd_word ?c 2) 30) 3)] =>
      change (Z.lor (Z.shiftl (Z.land (csd_word c 1) 0x03ff) 2)
                    (Z.land (Z.shiftr (csd_word c 2) 30) 3)) with (csd_csize c)
  | |- context [Z.land (Z.shiftr (csd_word ?c 2) 15) 7] =>
      change (Z.land (Z.shiftr (csd_word c 2) 15) 7) with (csd_csizemult c)
  | |- context [Z.land (Z.shiftr (csd_word ?c 1) 16) 0x0f] =>
      change (Z.land (Z.shiftr (csd_word c 1) 16) 0x0f) with (csd_readbllen c)
  end.

(** What mmcsd_decode_csd leaves in the slot for a block-addressed SD card. *)
Lemma decode_csd_sdblock (cfg : config) (priv : mmcsd_state_s) (csd : list Z) :
  IS_BLOCK (type priv) = true ->
  CONFIG_MMCSD_MMCSUPPORT cfg && IS_MMC (type priv) = false ->
  let priv' := mmcsd_decode_csd cfg priv csd in
  nblocks_of priv' 0 = to_u32 (Z.shiftl (csd_sdblock_csize csd + 1) 10) /\
  blocksize priv' = 512 /\ blockshift priv' = 9.
Proof.
  intros Hb Hm. unfold mmcsd_decode_csd.
  cbn [type set_dsrimp]. rewrite Hb, Hm.
  cbn [nblocks_of set_nblocks set_part part blocksize blockshift set_blocksize
       set_blockshift set_wrprotect Nat.eqb].
  csd_fold.
  pose proof (csd_sdblock_csize_range csd) as Hc.
  rewrite (to_u32_small (csd_sdblock_csize csd)) by lia.
  rewrite (to_u32_small (csd_sdblock_csize csd + 1)) by lia.
  repeat split; reflexivity.
Qed.

Lemma shiftl_1_pow2 (r : Z) : 0 <= r -> Z.shiftl 1 r = 2 ^ r.
Proof. intros H. rewrite Z.shiftl_mul_pow2 by exact H. lia. Qed.

Lemma pow2_gt_512 (r : Z) : 0 <= r -> (512 <? 2 ^ r) = (9 <? r).
Proof.
  intros Hr. destruct (Z.ltb_spec 9 r) as [H | H].
  - apply Z.ltb_lt. change 512 with (2 ^ 9). apply Z.pow_lt_mono_r; lia.
  - apply Z.ltb_ge. change 512 with (2 ^ 9). apply pow2_le_mono. lia.
Qed.

(** What mmcsd_decode_csd leaves in the slot for every other card: the
    byte-addressed layouts and block-addressed MMC. *)
Lemma decode_csd_native (cfg : config) (priv : mmcsd_state_s) (csd : list Z) :
  IS_BLOCK (type priv) && negb (CONFIG_MMCSD_MMCSUPPORT cfg && IS_MMC (type priv)) = false ->
  let priv' := mmcsd_decode_csd cfg priv csd in
  let r := csd_readbllen csd in
  let n := (csd_csize csd + 1) * 2 ^ (csd_csizemult csd + 2) in
  let from_csd := negb (IS_BLOCK (type priv)) || negb (csd_csize csd =? MMCSD_CSD_CSIZE_THRESHOLD) in
  blocksize priv' = (if 9 <? r then 512 else 2 ^ r) /\
  blockshift priv' = (if 9 <? r then 9 else r) /\
  nblocks_of priv' 0 =
    (if from_csd then (if 9 <? r then n * 2 ^ (r - 9) else n)
     else nblocks_of priv 0).
Proof.
  intros Hsd priv' r n from_csd. subst priv' r n from_csd.
  pose proof (csd_csize_range csd) as Hc.
  pose proof (csd_csizemult_range csd) as Hm.
  pose proof (csd_readbllen_range csd) as Hr.
  pose proof (csd_nblocks_fits csd) as Hn.
  unfold mmcsd_decode_csd. cbn [type set_dsrimp].
  destruct (IS_BLOCK (type priv)) eqn:Hb; cbn [andb negb orb] in *.
  - apply negb_false_iff in Hsd. rewrite Hsd.
    csd_fold.
    rewrite (to_u16_small (csd_csize csd)) by lia.
    rewrite (to_u8_small (csd_csizemult csd)) by lia.
    rewrite (to_u32_small (csd_csize csd)) by lia.
    rewrite !shiftl_1_pow2 by lia.
    rewrite (to_u32_small _ Hn).
    destruct (csd_csize csd =? MMCSD_CSD_CSIZE_THRESHOLD) eqn:Ht; cbn [negb];
      cbn [blocksize blockshift set_blocksize set_blockshift set_nblocks set_part
           set_wrprotect nblocks_of part Nat.eqb];
      rewrite pow2_gt_512 by lia;
      destruct (9 <? csd_readbllen csd) eqn:H9;
      cbn [blocksize blockshift set_blocksize set_blockshift set_nblocks set_part
           set_wrprotect nblocks_of part Nat.eqb];
      repeat split; try reflexivity.
    rewrite Z.shiftl_mul_pow2 by (apply Z.ltb_lt in H9; lia). reflexivity.
  - csd_fold.
    rewrite (to_u16_small (csd_csize csd)) by lia.
    rewrite (to_u8_small (csd_csizemult csd)) by lia.
    rewrite (to_u32_small (csd_csize csd)) by lia.
    rewrite !shiftl_1_pow2 by lia.
    rewrite (to_u32_small _ Hn).
    cbn [blocksize blockshift set_blocksize set_blockshift set_nblocks set_part
         set_wrprotect nblocks_of part Nat.eqb].
    rewrite pow2_gt_512 by lia.
    destruct (9 <? csd_readbllen csd) eqn:H9;
      cbn [blocksize blockshift set_blocksize set_blockshift set_nblocks set_part
           set_wrprotect nblocks_of part Nat.eqb];
      repeat split; try reflexivity.
    rewrite Z.shiftl_mul_pow2 by (apply Z.ltb_lt in H9; lia). reflexivity.
Qed.

(** ** C5: capacity of a block-addressed SD card *)

(** C5, as amended.  For a block-addressed SD card the decoder takes
    C_SIZE = ((csd[1] & 0x3f) << 16) | (csd[2] >> 16) and leaves
    nblocks = (C_SIZE + 1) << 10 computed in 32 bits (exact unless
    C_SIZE = 0x3FFFFF), blocksize = 512 and blockshift = 9; for
    C_SIZE = 0x1DB7 this is nblocks = 7790592 and a capacity of 3804 MiB
    (3804 * 1024 KiB by MMCSD_CAPACITY). *)
Theorem C5_sdblock_geometry (cfg : config) (priv : mmcsd_state_s) (csd : list Z) :
  IS_BLOCK (type priv) = true ->
  IS_MMC (type priv) = false ->
  let priv' := mmcsd_decode_csd cfg priv csd in
  let csize := csd_sdblock_csize csd in
  nblocks_of priv' 0 = to_u32 (Z.shiftl (csize + 1) 10) /\
  (csize <> 0x3FFFFF -> nblocks_of priv' 0 = Z.shiftl (csize + 1) 10) /\
  blocksize priv' = 512 /\ blockshift priv' = 9 /\
  (csize = 0x1DB7 ->
   nblocks_of priv' 0 = 7790592 /\
   MMCSD_CAPACITY (nblocks_of priv' 0) (blockshift priv') = 3804 * 1024).
Proof.
  intros Hb Hm priv' csize.
  assert (Hm' : CONFIG_MMCSD_MMCSUPPORT cfg && IS_MMC (type priv) = false)
    by (rewrite Hm; apply andb_false_r).
  destruct (decode_csd_sdblock cfg priv csd Hb Hm') as (Hn & Hs & Hsh).
  fold priv' in Hn, Hs, Hsh. fold csize in Hn.
  pose proof (csd_sdblock_csize_range csd) as Hc. fold csize in Hc.
  split; [exact Hn |]. split; [| split; [exact Hs | split; [exact Hsh |]]].
  - intros Hne. rewrite Hn. apply to_u32_small.
    rewrite Z.shiftl_mul_pow2 by lia. change (2 ^ 10) with 1024. lia.
  - intros E. rewrite Hn, Hsh, E. split; reflexivity.
Qed.

Lemma C5_sdblock_geometry_witness :
  csd_sdblock_csize Scenario.csd_1db7 = 0x1DB7 /\
  nblocks_of (mmcsd_decode_csd Scenario.cfg0 Scenario.slot_sdhc Scenario.csd_1db7) 0 = 7790592 /\
  blocksize (mmcsd_decode_csd Scenario.cfg0 Scenario.slot_sdhc Scenario.csd_1db7) = 512.
Proof.
  pose proof (C5_sdblock_geometry Scenario.cfg0 Scenario.slot_sdhc Scenario.csd_1db7
                eq_refl eq_refl) as H.
  cbv zeta in H. destruct H as (_ & _ & Hs & _ & Hex).
  split; [reflexivity |]. split; [| exact Hs].
  apply Hex. reflexivity.
Defined.

(** C5 as stated fails: the CSD with C_SIZE = 0x1DB7 does not decode to
    31490048 blocks (that count belongs to C_SIZE = 0x781F). *)
Lemma C5_counterexample :
  csd_sdblock_csize Scenario.csd_1db7 = 0x1DB7 /\
  IS_BLOCK (type Scenario.slot_sdhc) = true /\
  IS_SD (type Scenario.slot_sdhc) = true /\
  nblocks_of (mmcsd_decode_csd Scenario.cfg0 Scenario.slot_sdhc Scenario.csd_1db7) 0
    <> 31490048.
Proof. repeat split; vm_compute; congruence. Qed.

(** ** C6: block size after decoding *)

(** C6.  What mmcsd_decode_csd leaves in the slot: blocksize = 512 and
    blockshift = 9 for every block-addressed SD card and for every other
    card whose READ_BL_LEN is at least 9.  A READ_BL_LEN below 9 is kept
    as it is (blocksize = 2^READ_BL_LEN, blockshift = READ_BL_LEN), where
    the comment of lines 751-757 expects 512 and 9 in all cases: the test
    of line 759 is blocksize > 512 only.  When READ_BL_LEN exceeds 9 the
    block count taken from the CSD is multiplied by 2^(READ_BL_LEN - 9);
    the count of a block-addressed MMC card with C_SIZE = 0xFFF is not
    taken from the CSD and is left alone. *)
Theorem C6_block_size_normalised (cfg : config) (priv : mmcsd_state_s) (csd : list Z) :
  let priv' := mmcsd_decode_csd cfg priv csd in
  let sdblock := IS_BLOCK (type priv) &&
                 negb (CONFIG_MMCSD_MMCSUPPORT cfg && IS_MMC (type priv)) in
  let r := csd_readbllen csd in
  let n := (csd_csize csd + 1) * 2 ^ (csd_csizemult csd + 2) in
  (sdblock = true \/ 9 <= r -> blocksize priv' = 512 /\ blockshift priv' = 9) /\
  (sdblock = false -> r < 9 -> blocksize priv' = 2 ^ r /\ blockshift priv' = r) /\
  (sdblock = false -> 9 < r ->
   (IS_BLOCK (type priv) = false \/ csd_csize csd <> MMCSD_CSD_CSIZE_THRESHOLD ->
    nblocks_of priv' 0 = n * 2 ^ (r - 9)) /\
   (IS_BLOCK (type priv) = true -> csd_csize csd = MMCSD_CSD_CSIZE_THRESHOLD ->
    nblocks_of priv' 0 = nblocks_of priv 0)).
Proof.
  intros priv' sdblock r n.
  destruct sdblock eqn:Hsd; subst sdblock.
  - apply andb_true_iff in Hsd. destruct Hsd as (Hb & Hm).
    apply negb_true_iff in Hm.
    destruct (decode_csd_sdblock cfg priv csd Hb Hm) as (_ & Hs & Hsh).
    split; [intros _; split; assumption |].
    split; intros; discriminate.
  - destruct (decode_csd_native cfg priv csd Hsd) as (Hs & Hsh & Hn).
    fold priv' in Hs, Hsh, Hn. fold r in Hs, Hsh, Hn. fold n in Hn.
    split; [| split].
    + intros [H | H]; [discriminate |].
      destruct (Z.eq_dec r 9) as [E | E].
      * rewrite Hs, Hsh, E. split; reflexivity.
      * assert (H9 : (9 <? r) = true) by (apply Z.ltb_lt; lia).
        rewrite Hs, Hsh, H9. split; reflexivity.
    + intros _ Hlt.
      assert (H9 : (9 <? r) = false) by (apply Z.ltb_ge; lia).
      rewrite Hs, Hsh, H9. split; reflexivity.
    + intros _ Hgt.
      assert (H9 : (9 <? r) = true) by (apply Z.ltb_lt; lia).
      rewrite H9 in Hn. split.
      * intros [Hb | Hc].
        -- rewrite Hb in Hn. exact Hn.
        -- apply Z.eqb_neq in Hc. rewrite Hc, orb_true_r in Hn. exact Hn.
      * intros Hb Hc. apply Z.eqb_eq in Hc. rewrite Hb, Hc in Hn. exact Hn.
Qed.

Lemma C6_block_size_normalised_witness :
  (csd_readbllen Scenario.csd_2gb = 10 /\
   blocksize (mmcsd_decode_csd Scenario.cfg0 Scenario.slot_sdv1 Scenario.csd_2gb) = 512 /\
   blockshift (mmcsd_decode_csd Scenario.cfg0 Scenario.slot_sdv1 Scenario.csd_2gb) = 9 /\
   nblocks_of (mmcsd_decode_csd Scenario.cfg0 Scenario.slot_sdv1 Scenario.csd_2gb) 0
     = 4096 * 512 * 2) /\
  (csd_readbllen Scenario.csd_bl8 = 8 /\
   blocksize (mmcsd_decode_csd Scenario.cfg0 Scenario.slot_sdv1 Scenario.csd_bl8) = 256 /\
   blockshift (mmcsd_decode_csd Scenario.cfg0 Scenario.slot_sdv1 Scenario.csd_bl8) = 8).
Proof.
  split.
  - pose proof (C6_block_size_normalised Scenario.cfg0 Scenario.slot_sdv1
                  Scenario.csd_2gb) as H.
    cbv zeta in H. destruct H as (H1 & _ & H3).
    split; [reflexivity |].
    destruct H1 as (Hs & Hsh); [right; vm_compute; congruence |].
    split; [exact Hs |]. split; [exact Hsh |].
    destruct H3 as (Hn & _); [reflexivity | reflexivity |].
    rewrite Hn by (left; reflexivity). reflexivity.
  - pose proof (C6_block_size_normalised Scenario.cfg0 Scenario.slot_sdv1
                  Scenario.csd_bl8) as H.
    cbv zeta in H. destruct H as (_ & H2 & _).
    split; [reflexivity |].
    exact (H2 eq_refl eq_refl).
Defined.

(** ** Running the driver monad *)

Lemma trace_logcall (c : call) (w : world) :
  trace (logcall c w) = trace w ++ (if is_obs c then [c] else []).
Proof.
  unfold trace, logcall. cbn [calls filter].
  destruct (is_obs c); cbn [rev]; [reflexivity | now rewrite app_nil_r].
Qed.

Lemma trace_setpriv (f : mmcsd_state_s -> mmcsd_state_s) (w : world) :
  trace (setpriv f w) = trace w.
Proof. reflexivity. Qed.

Lemma priv_logcall (c : call) (w : world) : priv (logcall c w) = priv w.
Proof. reflexivity. Qed.

Lemma priv_setpriv (f : mmcsd_state_s -> mmcsd_state_s) (w : world) :
  priv (setpriv f w) = f (priv w).
Proof. reflexivity. Qed.

Lemma calls_logcall (c : call) (w : world) : calls (logcall c w) = c :: calls w.
Proof. reflexivity. Qed.

Lemma calls_setpriv (f : mmcsd_state_s -> mmcsd_state_s) (w : world) :
  calls (setpriv f w) = calls w.
Proof. reflexivity. Qed.

Lemma frame_refl (p : mmcsd_state_s) : frame p p.
Proof. constructor; reflexivity. Qed.

Lemma frame_trans (p q r : mmcsd_state_s) : frame p q -> frame q r -> frame p r.
Proof.
  intros [] []. constructor; congruence.
Qed.

Lemma frame_set_locked (b : bool) (p : mmcsd_state_s) : frame p (set_locked b p).
Proof. constructor; reflexivity. Qed.

Lemma frame_set_wrbusy (b : bool) (p : mmcsd_state_s) : frame p (set_wrbusy b p).
Proof. constructor; reflexivity. Qed.

Lemma frame_set_selblocklen (v : Z) (p : mmcsd_state_s) : frame p (set_selblocklen v p).
Proof. constructor; reflexivity. Qed.

Create HintDb frame.

#[local] Hint Resolve frame_refl frame_set_locked frame_set_wrbusy
  frame_set_selblocklen : frame.

Lemma frame_eq (p q : mmcsd_state_s) : q = p -> frame p q.
Proof. intros ->. apply frame_refl. Qed.

(** One step of symbolic execution on a hypothesis [H : m w = (w', r)]. *)
Ltac mred H :=
  cbv beta iota zeta delta [bind Ret host host_ modify get_priv response out_of_fuel fst snd] in H;
  cbn [andb orb negb] in H;
  try change (OK =? OK) with true in H;
  cbn [negb] in H.

Ltac mleaf H :=
  lazymatch type of H with
  | (_, _) = (_, _) => inversion H; subst; clear H
  end.

(** The innermost scrutinee of a term that is stuck on a match. *)
Ltac scrut X :=
  lazymatch X with
  | (match ?Y with _ => _ end) => scrut Y
  | _ => constr:(X)
  end.

Ltac mif H :=
  lazymatch type of H with
  | ?L = _ =>
      let Y := scrut L in
      lazymatch Y with
      | (if ?b then _ else _) _ => destruct b eqn:?
      | _ => lazymatch type of Y with bool => destruct Y eqn:? end
      end
  end.

Ltac wsimp :=
  rewrite ?priv_setpriv, ?priv_logcall, ?trace_setpriv, ?trace_logcall,
          ?calls_logcall, ?calls_setpriv;
  cbn [is_obs]; rewrite ?app_nil_r.

Lemma emits_refl (w : world) : emits w w [].
Proof. split; [apply frame_refl | now rewrite app_nil_r]. Qed.

Lemma emits_trans (w w1 w2 : world) (a b : list call) :
  emits w w1 a -> emits w1 w2 b -> emits w w2 (a ++ b).
Proof.
  intros [F1 T1] [F2 T2]. split.
  - eapply frame_trans; eassumption.
  - rewrite T2, T1. now rewrite app_assoc.
Qed.

Lemma emits_logcall (c : call) (w : world) :
  emits w (logcall c w) (if is_obs c then [c] else []).
Proof. split; [apply frame_refl | apply trace_logcall]. Qed.

Lemma emits_quiet_trans (w w1 w2 : world) (b : list call) :
  emits w w1 [] -> emits w1 w2 b -> emits w w2 b.
Proof. intros H1 H2. exact (emits_trans _ _ _ _ _ H1 H2). Qed.

Lemma emits_trans_quiet (w w1 w2 : world) (a : list call) :
  emits w w1 a -> emits w1 w2 [] -> emits w w2 a.
Proof.
  intros H1 H2. pose proof (emits_trans _ _ _ _ _ H1 H2) as H.
  now rewrite app_nil_r in H.
Qed.

Lemma emits_dev (w w' : world) (new : list call) :
  emits w w' new -> dev (priv w') = dev (priv w).
Proof. intros [[] _]. assumption. Qed.

Lemma status_frame (w w' : world) (r : option Z) :
  dev (priv w') = dev (priv w) -> status w' r -> status w r.
Proof. intros E (v & -> & H). exists v. split; [reflexivity |]. now rewrite <- E. Qed.

Ltac errno_tac :=
  let He := fresh "He" in
  intros He;
  first [ apply He; reflexivity
        | unfold OK, EIO, EPERM, ENODEV, EINVAL, ETIMEDOUT; lia ].

(** Finish a leaf whose world is the start world under logged calls and
    stores that keep the frame. *)
Ltac leaf_emits :=
  split; [ wsimp; auto with frame | wsimp; try reflexivity ].

(** Split on the helper call at the head of [H], using its lemma. *)
Ltac mcall H spec :=
  lazymatch type of H with
  | (match ?X with _ => _ end) = _ =>
      let Y := scrut X in
      let w1 := fresh "w" in
      let o := fresh "o" in
      let E := fresh "E" in
      destruct Y as [w1 o] eqn:E; apply spec in E
  end.

Section HelperSpecs.

Variable cfg : config.

Lemma sendcmdpoll_spec (cmd : sdio_cmd) (arg : Z) (w w' : world) (r : option Z) :
  mmcsd_sendcmdpoll cmd arg w = (w', r) ->
  priv w' = priv w /\
  emits w w' (if is_obs (SDIO_SENDCMD cmd (to_u32 arg))
              then [SDIO_SENDCMD cmd (to_u32 arg)] else []) /\
  status w r.
Proof.
  unfold mmcsd_sendcmdpoll. intros H. mred H. mif H; mred H; mleaf H.
  - split; [reflexivity |]. split; [leaf_emits |].
    eexists; split; [reflexivity | errno_tac].
  - split; [reflexivity |]. split; [leaf_emits |].
    eexists; split; [reflexivity | errno_tac].
Qed.

Lemma recv_r1_spec (cmd : sdio_cmd) (w w' : world) (r : option Z) :
  mmcsd_recv_r1 cmd w = (w', r) -> emits w w' [] /\ status w r.
Proof.
  unfold mmcsd_recv_r1, recvr1. intros H. mred H.
  mif H; [mif H |]; mred H; mleaf H;
    (split; [leaf_emits | eexists; split; [reflexivity | errno_tac]]).
Qed.

Lemma eventwait_spec (failevents : Z) (w w' : world) (r : option Z) :
  mmcsd_eventwait failevents w = (w', r) ->
  priv w' = priv w /\ emits w w' [] /\ exists v, r = Some v /\ v <= 0.
Proof.
  unfold mmcsd_eventwait. intros H. mred H. mif H; mred H; mleaf H;
    (split; [reflexivity | split; [leaf_emits |]]);
    eexists; (split; [reflexivity |]).
  - match goal with |- (if ?b then _ else _) <= 0 => destruct b end;
      unfold ETIMEDOUT, EIO; lia.
  - unfold OK. lia.
Qed.

Lemma get_r1_spec (w w' : world) (r : option (Z * Z)) :
  mmcsd_get_r1 w = (w', r) ->
  emits w w' [] /\
  exists v r1, r = Some (v, r1) /\ (errno_host (dev (priv w)) -> v <= 0).
Proof.
  unfold mmcsd_get_r1, recvr1. intros H. mred H.
  mcall H sendcmdpoll_spec. destruct E as (Ep & Ee & v0 & -> & _).
  cbn [is_obs] in Ee. mred H.
  assert (Ed : dev (priv w0) = dev (priv w)) by (now rewrite Ep).
  mif H; [mif H |]; mred H; mleaf H;
    (split; [eapply emits_quiet_trans; [exact Ee | leaf_emits] |]);
    do 2 eexists; (split; [reflexivity |]); rewrite <- Ed; errno_tac.
Qed.

Lemma usleep_spec (usec : Z) (w w' : world) (r : option unit) :
  MMCSD_USLEEP cfg usec w = (w', r) -> emits w w' [] /\ r = Some tt.
Proof.
  unfold MMCSD_USLEEP. intros H.
  destruct (CONFIG_BOARD_COREDUMP_BLKDEV cfg); mred H;
    [mif H; mred H |]; mleaf H; (split; [leaf_emits | reflexivity]).
Qed.

Lemma transferready_poll_spec (fuel : nat) (starttime : Z) (w w' : world)
      (r : option Z) :
  transferready_poll cfg fuel starttime w = (w', r) ->
  emits w w' [] /\ status_opt w r.
Proof.
  revert w. induction fuel as [| fuel IH]; intros w H.
  - cbn [transferready_poll] in H. mred H. mleaf H.
    split; [apply emits_refl | intros v Hv; discriminate].
  - cbn [transferready_poll] in H. mred H.
    mcall H get_r1_spec. destruct E as (Ee & v & r1 & -> & Hv).
    pose proof (emits_dev _ _ _ Ee) as Ed.
    mred H. mif H; [mred H; mleaf H |].
    { split; [exact Ee |]. intros v' Hv' He. inversion Hv'; subst. auto. }
    mif H; [mred H; mleaf H |].
    { split; [eapply emits_trans_quiet; [exact Ee | leaf_emits] |].
      intros v' Hv' _. inversion Hv'; subst. unfold OK. lia. }
    mif H; [mred H; mleaf H |].
    { split; [exact Ee |]. intros v' Hv' _. inversion Hv'; subst.
      unfold EINVAL. lia. }
    assert (Hs : exists w2, emits w0 w2 [] /\
              (if to_clock cfg
                    (to_clock cfg
                       (sdio_ret (dev (priv w2)) (clock_systime_ticks :: calls w2))
                     - starttime) <? TICK_PER_SEC cfg
               then transferready_poll cfg fuel starttime
               else Ret (- ETIMEDOUT)) (logcall clock_systime_ticks w2) = (w', r)).
    { unfold transferready_pause in H.
      destruct (CONFIG_MMCSD_CHECK_READY_STATUS_WITHOUT_SLEEP cfg).
      - mred H. eexists. split; [| exact H]. leaf_emits.
      - mred H. mcall H usleep_spec. destruct E as (Eu & ->). mred H.
        eexists. split; [exact Eu | exact H]. }
    destruct Hs as (w2 & E2 & H2). clear H.
    pose proof (emits_dev _ _ _ E2) as Ed2.
    mif H2.
    + apply IH in H2. destruct H2 as (E3 & S3).
      split.
      * eapply emits_quiet_trans; [exact Ee |].
        eapply emits_quiet_trans; [exact E2 |].
        eapply emits_quiet_trans; [| exact E3]. leaf_emits.
      * intros v' Hv' He. apply (S3 v' Hv').
        rewrite priv_logcall, Ed2, Ed. exact He.
    + mred H2. mleaf H2. split.
      * eapply emits_quiet_trans; [exact Ee |].
        eapply emits_quiet_trans; [exact E2 |]. leaf_emits.
      * intros v' Hv' _. inversion Hv'; subst. unfold ETIMEDOUT. lia.
Qed.

Lemma transferready_spec (fuel : nat) (w w' : world) (r : option Z) :
  mmcsd_transferready cfg fuel w = (w', r) ->
  emits w w' [] /\ status_opt w r.
Proof.
  unfold mmcsd_transferready. intros H. mred H.
  assert (Hs : exists w1 (absent : bool), emits w w1 [] /\
            (if absent then Ret (- ENODEV)
             else if negb (wrbusy (priv w)) then Ret OK
             else transferready_wrcomplete cfg ;;
                  starttime <- host clock_systime_ticks ;;
                  transferready_poll cfg fuel (to_clock cfg starttime)) w1
            = (w', r)).
  { destruct (type (priv w) =? MMCSD_CARDTYPE_UNKNOWN); mred H.
    - exists w, true. split; [apply emits_refl | exact H].
    - eexists _, _. split; [| exact H]. leaf_emits. }
  destruct Hs as (w1 & absent & E1 & H1). clear H.
  pose proof (emits_dev _ _ _ E1) as Ed1.
  destruct absent; [mred H1; mleaf H1 |].
  { split; [exact E1 |]. intros v Hv _. inversion Hv; subst. unfold ENODEV. lia. }
  mif H1; [mred H1; mleaf H1 |].
  { split; [exact E1 |]. intros v Hv _. inversion Hv; subst. unfold OK. lia. }
  assert (Hs : exists w2, emits w1 w2 [] /\
            transferready_poll cfg fuel
              (to_clock cfg
                 (sdio_ret (dev (priv w2)) (clock_systime_ticks :: calls w2)))
              (logcall clock_systime_ticks w2) = (w', r)).
  { unfold transferready_wrcomplete in H1.
    destruct (CONFIG_MMCSD_SDIOWAIT_WRCOMPLETE cfg); mred H1.
    - mcall H1 eventwait_spec. destruct E as (_ & Ee & v & -> & _). mred H1.
      eexists. split; [exact Ee | exact H1].
    - eexists. split; [apply emits_refl | exact H1]. }
  destruct Hs as (w2 & E2 & H2). clear H1.
  pose proof (emits_dev _ _ _ E2) as Ed2.
  apply transferready_poll_spec in H2. destruct H2 as (E3 & S3). split.
  - eapply emits_quiet_trans; [exact E1 |].
    eapply emits_quiet_trans; [exact E2 |].
    eapply emits_quiet_trans; [| exact E3]. leaf_emits.
  - intros v Hv He. apply (S3 v Hv). rewrite priv_logcall, Ed2, Ed1. exact He.
Qed.

Lemma status_of_opt (w : world) (v : Z) : status_opt w (Some v) -> status w (Some v).
Proof. intros H. exists v. split; [reflexivity | apply H; reflexivity]. Qed.

Lemma status_to_opt (w : world) (r : option Z) : status w r -> status_opt w r.
Proof. intros (v & -> & H) v' Hv' He. inversion Hv'; subst. auto. Qed.

Lemma status_opt_frame (w w' : world) (r : option Z) :
  dev (priv w') = dev (priv w) -> status_opt w' r -> status_opt w r.
Proof. intros E H v Hv He. apply (H v Hv). now rewrite E. Qed.

Lemma stoptransmission_spec (w w' : world) (r : option Z) :
  mmcsd_stoptransmission w = (w', r) ->
  emits w w' [SDIO_SENDCMD MMCSD_CMD12 0] /\ status w r.
Proof.
  unfold mmcsd_stoptransmission. intros H. mred H.
  mcall H sendcmdpoll_spec. destruct E as (_ & Ee & v & -> & _).
  cbn [is_obs] in Ee. change (to_u32 0) with 0 in Ee. mred H.
  apply recv_r1_spec in H. destruct H as (E2 & S2). split.
  - eapply emits_trans_quiet; eassumption.
  - eapply status_frame; [| exact S2]. eapply emits_dev; exact Ee.
Qed.

Lemma setblocklen_spec (blocklen : Z) (w w' : world) (r : option Z) :
  mmcsd_setblocklen blocklen w = (w', r) -> emits w w' [] /\ status w r.
Proof.
  unfold mmcsd_setblocklen. intros H. mred H. mif H.
  - mred H. mcall H sendcmdpoll_spec. destruct E as (_ & Ee & v & -> & _).
    cbn [is_obs] in Ee. mred H.
    mcall H recv_r1_spec. destruct E as (E2 & S2).
    pose proof (emits_dev _ _ _ Ee) as Ed.
    destruct S2 as (v2 & -> & Hv2). mred H. mif H; mred H; mleaf H.
    + split.
      * eapply emits_quiet_trans; [exact Ee |].
        eapply emits_quiet_trans; [exact E2 |]. leaf_emits.
      * eexists; split; [reflexivity |]. now rewrite <- Ed.
    + split.
      * eapply emits_quiet_trans; eassumption.
      * eexists; split; [reflexivity |]. now rewrite <- Ed.
  - mred H. mleaf H. split; [apply emits_refl |].
    eexists; split; [reflexivity | errno_tac].
Qed.

Lemma setblockcount_spec (nblocks : Z) (w w' : world) (r : option Z) :
  mmcsd_setblockcount nblocks w = (w', r) -> emits w w' [] /\ status w r.
Proof.
  unfold mmcsd_setblockcount. intros H. mred H.
  mcall H sendcmdpoll_spec. destruct E as (_ & Ee & v & -> & _).
  cbn [is_obs] in Ee. mred H.
  apply recv_r1_spec in H. destruct H as (E2 & S2). split.
  - eapply emits_quiet_trans; eassumption.
  - eapply status_frame; [| exact S2]. eapply emits_dev; exact Ee.
Qed.

Lemma switch_spec (fuel : nat) (arg : Z) (w w' : world) (r : option Z) :
  mmcsd_switch cfg fuel arg w = (w', r) ->
  status_opt w r /\
  ((emits w w' [] /\ r <> Some OK) \/
   (emits w w' [SDIO_SENDCMD MMCSD_CMD6 (to_u32 arg)] /\ exists v, r = Some v)).
Proof.
  unfold mmcsd_switch. intros H. mred H.
  mcall H transferready_spec. destruct E as (E1 & S1).
  pose proof (emits_dev _ _ _ E1) as Ed1.
  destruct o as [v |]; mred H; [| mleaf H].
  2:{ split; [exact S1 |]. left. split; [exact E1 | discriminate]. }
  mif H; mred H.
  - mleaf H. split; [exact S1 |]. left. split; [exact E1 |].
    intros Hv. inversion Hv; subst. discriminate.
  - mcall H sendcmdpoll_spec. destruct E as (_ & Ee & v0 & -> & _).
    cbn [is_obs] in Ee. mred H.
    pose proof (emits_dev _ _ _ Ee) as Ed2.
    apply recv_r1_spec in H. destruct H as (E3 & S3).
    assert (S3' : status w r).
    { eapply status_frame; [| exact S3]. rewrite priv_setpriv. cbn [set_wrbusy dev].
      now rewrite Ed2. }
    split; [apply status_to_opt; exact S3' |]. right. split.
    + eapply emits_quiet_trans; [exact E1 |].
      eapply emits_trans_quiet; [exact Ee |].
      eapply emits_quiet_trans; [| exact E3]. leaf_emits.
    + destruct S3' as (v1 & -> & _). eauto.
Qed.

Lemma frame_same_card (p p' : mmcsd_state_s) : frame p p' -> same_card p p'.
Proof. intros []. constructor; cbn; congruence. Qed.

Lemma same_card_frame (p q r : mmcsd_state_s) :
  same_card p q -> frame q r -> same_card p r.
Proof. intros [] []. constructor; cbn in *; congruence. Qed.

Lemma same_card_set_partnum (p q : mmcsd_state_s) (v : Z) :
  same_card p q -> same_card p (set_partnum v q).
Proof. intros []. constructor; cbn in *; congruence. Qed.

Lemma same_card_dev (p q : mmcsd_state_s) : same_card p q -> dev q = dev p.
Proof. intros []. cbn in *. assumption. Qed.

Lemma partswitch_spec (fuel : nat) (part : Z) (w w' : world) (r : option Z) :
  mmcsd_partswitch cfg fuel part w = (w', r) ->
  same_card (priv w) (priv w') /\ status_opt w r /\
  ((partnum (priv w) = part /\ w' = w /\ r = Some OK) \/
   (partnum (priv w) <> part /\ trace w' = trace w /\
    partnum (priv w') = partnum (priv w) /\ r <> Some OK) \/
   (partnum (priv w) <> part /\
    trace w' = trace w ++ [SDIO_SENDCMD MMCSD_CMD6 (part_switch_arg part)] /\
    ((r = Some OK /\ partnum (priv w') = part) \/
     (r <> Some OK /\ (exists v, r = Some v) /\
      partnum (priv w') = partnum (priv w))))).
Proof.
  unfold mmcsd_partswitch. intros H. mred H. mif H.
  - apply negb_true_iff, Z.eqb_neq in Heqb.
    mred H. mcall H switch_spec. destruct E as (S1 & E1).
    fold (part_switch_arg part) in E1.
    assert (Hf : frame (priv w) (priv w0)) by (destruct E1 as [[[] _] | [[] _]]; assumption).
    destruct o as [v |]; mred H; [| mleaf H].
    2:{ split; [apply frame_same_card; exact Hf |]. split; [exact S1 |].
        right. left. destruct E1 as [(Ee & _) | (_ & v & Hv)]; [| discriminate].
        destruct Ee as [F T]. rewrite app_nil_r in T.
        repeat split; try assumption; try discriminate. apply F. }
    mif H; mred H; mleaf H.
    + split; [apply frame_same_card; exact Hf |]. split; [exact S1 |].
      assert (Hne : Some v <> Some OK).
      { intros Hv. inversion Hv; subst. discriminate. }
      destruct E1 as [(Ee & _) | (Ee & _)]; destruct Ee as [F T].
      * right. left. rewrite app_nil_r in T.
        repeat split; try assumption. apply F.
      * right. right. split; [assumption |]. split; [exact T |]. right.
        split; [exact Hne |]. split; [eauto | apply F].
    + apply negb_false_iff, Z.eqb_eq in Heqb0. subst v.
      split; [apply same_card_set_partnum, frame_same_card; exact Hf |].
      split; [exact S1 |].
      destruct E1 as [(_ & Hne) | (Ee & _)]; [now elim Hne |].
      destruct Ee as [F T]. right. right. split; [assumption |].
      split; [rewrite trace_setpriv; exact T |]. left. split; reflexivity.
  - apply negb_false_iff, Z.eqb_eq in Heqb. mred H. mleaf H.
    split; [apply frame_same_card, frame_refl |].
    split; [intros v Hv _; inversion Hv; subst; unfold OK; lia |].
    left. repeat split; assumption.
Qed.

Lemma dma_supported_spec (w w' : world) (r : option bool) :
  dma_supported cfg w = (w', r) -> w' = w /\ exists b, r = Some b.
Proof. unfold dma_supported. intros H. mred H. mleaf H. eauto. Qed.

Lemma dma_preflight_spec (nbytes : Z) (w w' : world) (r : option Z) :
  dma_preflight cfg nbytes w = (w', r) -> emits w w' [] /\ status w r.
Proof.
  unfold dma_preflight, dma_supported. intros H. mred H.
  mif H; mred H; [mif H; mred H |]; mleaf H;
    (split; [leaf_emits | eexists; split; [reflexivity | errno_tac]]).
Qed.

Lemma exit_spec (ret : Z) (w w' : world) (r : option Z) :
  mmcsd_exit cfg ret w = (w', r) -> emits w w' [] /\ r = Some ret.
Proof.
  unfold mmcsd_exit, dma_supported. intros H. mred H.
  mif H; mred H; mleaf H; (split; [leaf_emits | reflexivity]).
Qed.

Lemma recv_setup_spec (nbytes : Z) (w w' : world) (r : option Z) :
  recv_setup cfg nbytes w = (w', r) -> emits w w' [] /\ status w r.
Proof.
  unfold recv_setup, dma_supported. intros H. mred H.
  mif H; mred H; [mif H; mred H |]; mleaf H;
    (split; [leaf_emits | eexists; split; [reflexivity | errno_tac]]).
Qed.

Lemma send_setup_spec (nbytes : Z) (w w' : world) (r : option Z) :
  send_setup cfg nbytes w = (w', r) -> emits w w' [] /\ status w r.
Proof.
  unfold send_setup, dma_supported. intros H. mred H.
  mif H; mred H; [mif H; mred H |]; mleaf H;
    (split; [leaf_emits | eexists; split; [reflexivity | errno_tac]]).
Qed.

Lemma wrprotected_spec (w w' : world) (r : option bool) :
  mmcsd_wrprotected w = (w', r) -> emits w w' [] /\ exists b, r = Some b.
Proof.
  unfold mmcsd_wrprotected. intros H. mred H.
  mif H; mred H; mleaf H; (split; [leaf_emits | eauto]).
Qed.

End HelperSpecs.

(** ** The transfer routines, call by call *)

Lemma emits_logcall' (w w1 : world) (a : list call) (c : call) :
  emits w w1 a -> emits w (logcall c w1) (a ++ if is_obs c then [c] else []).
Proof. intros H. eapply emits_trans; [exact H | apply emits_logcall]. Qed.

Lemma emits_set_wrbusy (w w1 : world) (a : list call) (b : bool) :
  emits w w1 a -> emits w (setpriv (set_wrbusy b) w1) a.
Proof.
  intros H. eapply emits_trans_quiet; [exact H |].
  split; [rewrite priv_setpriv; apply frame_set_wrbusy | now rewrite trace_setpriv, app_nil_r].
Qed.

Ltac emits_here :=
  repeat first [ apply emits_refl
               | eapply emits_logcall'
               | eapply emits_set_wrbusy ].

Lemma status_emits (w W0 : world) (l : list call) (o : option Z) :
  emits w W0 l -> status W0 o -> status w o.
Proof. intros E. apply status_frame. eapply emits_dev; exact E. Qed.

Lemma status_opt_emits (w W0 : world) (l : list call) (o : option Z) :
  emits w W0 l -> status_opt W0 o -> status_opt w o.
Proof. intros E. apply status_opt_frame. eapply emits_dev; exact E. Qed.

Lemma data_offset_frame (p q : mmcsd_state_s) (startblock : Z) :
  frame p q -> data_offset q startblock = data_offset p startblock.
Proof.
  intros F. unfold data_offset.
  now rewrite (frame_type _ _ F), (frame_blockshift _ _ F).
Qed.

(** Bring the reads of the slot in [H] back to the start world of [Acc]. *)
Ltac reframe Acc H :=
  rewrite ?priv_logcall, ?priv_setpriv in H;
  cbn [blocksize blockshift type caps cmd23support rca dev partnum
       set_wrbusy set_locked set_selblocklen] in H;
  let F := constr:(proj1 Acc) in
  rewrite ?(frame_blocksize _ _ F), ?(frame_type _ _ F), ?(frame_caps _ _ F),
          ?(frame_cmd23support _ _ F), ?(frame_rca _ _ F),
          ?(frame_partnum _ _ F), ?(data_offset_frame _ _ _ F) in H.

(** Extend [Acc : emits w wc acc] over the calls logged since [wc] and
    over the helper run [E : emits W0 wn l /\ S]; [S] is rebased on [w]. *)
Ltac advance Acc E :=
  let Ee := fresh "Ee" in
  let S := fresh "S" in
  destruct E as (Ee & S);
  lazymatch type of Ee with
  | emits ?W0 ?wn ?l1 =>
    lazymatch type of Acc with
    | emits ?w ?wc ?acc =>
      let Hm := fresh "Hm" in
      eassert (Hm : emits wc W0 _) by emits_here;
      let Hw := fresh "Hw" in
      pose proof (emits_trans _ _ _ _ _ Acc Hm) as Hw;
      first [ apply (status_emits _ _ _ _ Hw) in S
            | apply (status_opt_emits _ _ _ _ Hw) in S
            | idtac ];
      let Acc' := fresh "Acc" in
      pose proof (emits_trans _ _ _ _ _ Hw Ee) as Acc';
      clear Acc Hm Hw Ee; rename Acc' into Acc;
      cbn [is_obs app] in Acc; rewrite ?app_nil_r in Acc;
      lazymatch type of S with
      | status _ _ =>
          let v := fresh "v" in
          let Hv := fresh "Hv" in
          destruct S as (v & -> & Hv)
      | status_opt _ ?o =>
          let v := fresh "v" in
          destruct o as [v |]; [apply status_of_opt in S |]
      | _ => idtac
      end
    end
  end.

Lemma sendcmdpoll_spec' (cmd : sdio_cmd) (arg : Z) (w w' : world) (r : option Z) :
  mmcsd_sendcmdpoll cmd arg w = (w', r) ->
  emits w w' (if is_obs (SDIO_SENDCMD cmd (to_u32 arg))
              then [SDIO_SENDCMD cmd (to_u32 arg)] else []) /\
  status w r.
Proof. intros H. apply sendcmdpoll_spec in H. tauto. Qed.

Lemma eventwait_spec' (failevents : Z) (w w' : world) (r : option Z) :
  mmcsd_eventwait failevents w = (w', r) -> emits w w' [] /\ status w r.
Proof.
  intros H. apply eventwait_spec in H. destruct H as (_ & E & v & -> & Hv).
  split; [exact E |]. exists v. auto.
Qed.

Lemma failed_status (w : world) (v : Z) :
  negb (v =? OK) = true -> status w (Some v) -> failed w (Some v).
Proof.
  intros Hne (v' & Hv' & Hle) v0 Hv0. inversion Hv'; inversion Hv0; subst.
  apply negb_true_iff, Z.eqb_neq in Hne. unfold OK in Hne.
  split; [exact Hne |]. intros He. specialize (Hle He). lia.
Qed.

Lemma failed_none (w : world) : failed w None.
Proof. intros v Hv. discriminate. Qed.

Lemma outcome_fail (w w' : world) (r : option Z) (body full : list call) (n : Z) :
  emits w w' body -> failed w r -> is_prefix body full ->
  xfer_outcome w w' r full n.
Proof.
  intros [F T] Hf Hp. split; [exact F |]. exists body. split; [exact T |].
  right. split; assumption.
Qed.

Lemma outcome_ok (w w' : world) (full : list call) (n : Z) :
  emits w w' full -> xfer_outcome w w' (Some n) full n.
Proof.
  intros [F T]. split; [exact F |]. exists full. split; [exact T |].
  left. split; reflexivity.
Qed.

(** Unfold the expected calls in the goal and decide their tests by the
    equations the run has left in the context. *)
Ltac resolve_goal :=
  unfold readsingle_calls, readmultiple_calls, writesingle_calls,
         writemultiple_calls, write_calls, data_arg;
  repeat match goal with
         | E : ?c = true |- context [?c] => rewrite E
         | E : ?c = false |- context [?c] => rewrite E
         end;
  cbn [andb orb negb app].

Ltac resolve_stop :=
  unfold stop_calls, stop_needed;
  repeat match goal with
         | E : ?c = true |- context [?c] => rewrite E
         | E : ?c = false |- context [?c] => rewrite E
         end;
  cbn [andb orb negb app]; rewrite ?app_nil_r.

Ltac prefix_tac :=
  resolve_goal;
  first [ eexists; cbn [app]; reflexivity
        | exists []; rewrite app_nil_r; reflexivity
        | resolve_stop; eexists; cbn [app]; reflexivity
        | resolve_stop; exists []; rewrite app_nil_r; reflexivity
        | resolve_stop; eexists; rewrite <- app_assoc; cbn [app]; reflexivity ].

Ltac some_status :=
  first [ assumption
        | eexists; split; [reflexivity | assumption]
        | apply status_of_opt; assumption ].

Section Transfers.

Variable cfg : config.

(** A failure leaving through the __exit label. *)
Lemma outcome_exit (w wc W0 w' : world) (r : option Z) (v : Z)
      (body l full : list call) (n : Z) :
  emits w wc body -> emits wc W0 l -> l = [] ->
  mmcsd_exit cfg v W0 = (w', r) ->
  negb (v =? OK) = true -> status w (Some v) -> is_prefix body full ->
  xfer_outcome w w' r full n.
Proof.
  intros Acc Hm -> H Hne S Hp. apply exit_spec in H. destruct H as (Ee & ->).
  eapply outcome_fail; [| apply failed_status; eassumption | exact Hp].
  eapply emits_trans_quiet; [| exact Ee].
  eapply emits_trans_quiet; eassumption.
Qed.

(** A success leaving through the __exit label. *)
Lemma outcome_exit_ok (w wc W0 w' : world) (r : option Z) (n : Z)
      (body l full : list call) :
  emits w wc body -> emits wc W0 l -> l = [] ->
  mmcsd_exit cfg n W0 = (w', r) -> body = full ->
  xfer_outcome w w' r full n.
Proof.
  intros Acc Hm -> H <-. apply exit_spec in H. destruct H as (Ee & ->).
  apply outcome_ok.
  eapply emits_trans_quiet; [| exact Ee].
  eapply emits_trans_quiet; eassumption.
Qed.

Ltac ret_fail Acc H :=
  mleaf H;
  eapply outcome_fail;
  [ exact Acc | apply failed_status; [assumption | some_status] | prefix_tac ].

Ltac fuel_fail Acc H :=
  mleaf H;
  eapply outcome_fail; [ exact Acc | apply failed_none | prefix_tac ].

Ltac exit_fail Acc H :=
  lazymatch type of H with
  | mmcsd_exit _ ?v ?W0 = _ =>
    lazymatch type of Acc with
    | emits ?w ?wc ?body =>
      eapply (outcome_exit w wc W0 _ _ v body);
      [ exact Acc | emits_here | reflexivity | exact H | assumption
      | some_status | prefix_tac ]
    end
  end.

Ltac exit_ok Acc H :=
  lazymatch type of H with
  | mmcsd_exit _ ?v ?W0 = _ =>
    lazymatch type of Acc with
    | emits ?w ?wc ?body =>
      eapply (outcome_exit_ok w wc W0 _ _ v body);
      [ exact Acc | emits_here | reflexivity | exact H
      | resolve_goal; resolve_stop; reflexivity ]
    end
  end.

(** The lemma of the helper call [H] is stuck on. *)
Ltac call_spec H :=
  lazymatch type of H with
  | ?L = _ =>
    let Y := scrut L in
    lazymatch Y with
    | dma_preflight _ _ _ => mcall H dma_preflight_spec
    | mmcsd_transferready _ _ _ => mcall H transferready_spec
    | mmcsd_setblocklen _ _ => mcall H setblocklen_spec
    | mmcsd_setblockcount _ _ => mcall H setblockcount_spec
    | recv_setup _ _ _ => mcall H recv_setup_spec
    | send_setup _ _ _ => mcall H send_setup_spec
    | mmcsd_sendcmdpoll _ _ _ => mcall H sendcmdpoll_spec'
    | mmcsd_recv_r1 _ _ => mcall H recv_r1_spec
    | mmcsd_eventwait _ _ => mcall H eventwait_spec'
    | mmcsd_stoptransmission _ => mcall H stoptransmission_spec
    end
  end.

(** One step of a transfer routine; [fin] closes the goal when [H] has
    reached the part of the routine proved apart. *)
Ltac use_eqns H :=
  repeat match goal with
         | E : ?c = ?v |- _ =>
           lazymatch v with true => idtac | false => idtac end;
           lazymatch c with true => fail | false => fail | _ => idtac end;
           lazymatch type of H with context [c] => rewrite E in H end
         end.

Ltac xstep Acc H fin :=
  mred H; reframe Acc H; use_eqns H; mred H;
  lazymatch type of H with
  | (_, _) = (_, _) => first [ ret_fail Acc H | fuel_fail Acc H ]
  | mmcsd_exit _ _ _ = _ => first [ exit_fail Acc H | exit_ok Acc H ]
  | _ =>
    first [ call_spec H;
            lazymatch goal with E : emits _ _ _ /\ _ |- _ => advance Acc E end
          | mif H
          | fin Acc H ]
  end.

Ltac no_fin Acc H := fail.

Lemma readsingle_wait_spec (w wc w' : world) (r : option Z) (l : list call) :
  emits w wc l ->
  mmcsd_readsingle_wait cfg wc = (w', r) ->
  xfer_outcome w w' r l 1.
Proof.
  intros Acc H. unfold mmcsd_readsingle_wait in H.
  repeat xstep Acc H no_fin.
Qed.

Ltac fin_readsingle Acc H :=
  resolve_goal;
  lazymatch type of Acc with
  | emits ?w ?wc ?l => exact (readsingle_wait_spec w wc _ _ l Acc H)
  end.

Lemma readsingle_xfer_spec (fuel : nat) (startblock : Z) (w w' : world)
      (r : option Z) :
  mmcsd_readsingle_xfer cfg fuel startblock w = (w', r) ->
  xfer_outcome w w' r (readsingle_calls (priv w) startblock) 1.
Proof.
  intros H. unfold mmcsd_readsingle_xfer in H.
  pose proof (emits_refl w) as Acc.
  repeat xstep Acc H fin_readsingle.
Qed.

Lemma readmultiple_wait_spec (w wc w' : world) (r : option Z) (l : list call)
      (nblocks : Z) :
  emits w wc l ->
  mmcsd_readmultiple_wait cfg nblocks wc = (w', r) ->
  xfer_outcome w w' r (l ++ stop_calls (priv w)) (to_int cfg nblocks).
Proof.
  intros Acc H. unfold mmcsd_readmultiple_wait in H.
  repeat xstep Acc H no_fin.
Qed.

Ltac fin_readmultiple Acc H :=
  resolve_goal;
  lazymatch type of Acc with
  | emits ?w ?wc ?l => exact (readmultiple_wait_spec w wc _ _ l _ Acc H)
  end.

Lemma readmultiple_xfer_spec (fuel : nat) (nbytes startblock nblocks : Z)
      (w w' : world) (r : option Z) :
  mmcsd_readmultiple_xfer cfg fuel nbytes startblock nblocks w = (w', r) ->
  xfer_outcome w w' r (readmultiple_calls (priv w) startblock nblocks)
    (to_int cfg nblocks).
Proof.
  intros H. unfold mmcsd_readmultiple_xfer in H.
  pose proof (emits_refl w) as Acc.
  repeat xstep Acc H fin_readmultiple.
Qed.

Lemma writesingle_wait_spec (w wc w' : world) (r : option Z) (l : list call) :
  emits w wc l ->
  mmcsd_writesingle_wait cfg wc = (w', r) ->
  xfer_outcome w w' r l 1.
Proof.
  intros Acc H. unfold mmcsd_writesingle_wait in H.
  repeat xstep Acc H no_fin.
Qed.

Ltac fin_writesingle Acc H :=
  resolve_goal;
  lazymatch type of Acc with
  | emits ?w ?wc ?l => exact (writesingle_wait_spec w wc _ _ l Acc H)
  end.

Lemma writesingle_xfer_spec (fuel : nat) (startblock : Z) (w w' : world)
      (r : option Z) :
  mmcsd_writesingle_xfer cfg fuel startblock w = (w', r) ->
  xfer_outcome w w' r (writesingle_calls (priv w) startblock) 1.
Proof.
  intros H. unfold mmcsd_writesingle_xfer in H.
  pose proof (emits_refl w) as Acc.
  repeat xstep Acc H fin_writesingle.
Qed.

Lemma writemultiple_wait_spec (w wc w' : world) (r : option Z) (l : list call)
      (nblocks : Z) :
  emits w wc l ->
  mmcsd_writemultiple_wait cfg nblocks wc = (w', r) ->
  xfer_outcome w w' r (l ++ stop_calls (priv w)) (to_int cfg nblocks).
Proof.
  intros Acc H. unfold mmcsd_writemultiple_wait, mmcsd_writemultiple_done in H.
  repeat xstep Acc H no_fin.
Qed.

Ltac fin_writemultiple Acc H :=
  resolve_goal;
  lazymatch type of Acc with
  | emits ?w ?wc ?l => exact (writemultiple_wait_spec w wc _ _ l _ Acc H)
  end.

Lemma writemultiple_xfer_spec (fuel : nat) (nbytes startblock nblocks : Z)
      (w w' : world) (r : option Z) :
  mmcsd_writemultiple_xfer cfg fuel nbytes startblock nblocks w = (w', r) ->
  xfer_outcome w w' r (writemultiple_calls (priv w) startblock nblocks)
    (to_int cfg nblocks).
Proof.
  intros H. unfold mmcsd_writemultiple_xfer in H.
  pose proof (emits_refl w) as Acc.
  repeat xstep Acc H fin_writemultiple.
Qed.

End Transfers.

(** ** The transfer routines as wholes *)

Lemma transfer_calls_same_card (p q : mmcsd_state_s) (t : transfer) :
  same_card p q -> transfer_calls q t = transfer_calls p t.
Proof.
  intros [Hd Hc Ht Hr H23 Hbs Hbz Hp]. cbn in Hc, Ht, H23, Hbs, Hbz.
  destruct t; cbn [transfer_calls];
    unfold readsingle_calls, readmultiple_calls, writesingle_calls,
           writemultiple_calls, write_calls, stop_calls, stop_needed,
           data_arg, data_offset;
    rewrite ?Hc, ?Ht, ?H23, ?Hbs, ?Hbz; reflexivity.
Qed.

Lemma failed_not_ok (w : world) (r : option Z) :
  status_opt w r -> r <> Some OK -> failed w r.
Proof.
  intros S Hne v Hv. subst r. split.
  - intros E. apply Hne. now rewrite E.
  - intros He. specialize (S v eq_refl He).
    assert (v <> 0) by (intros E; apply Hne; now rewrite E). lia.
Qed.

Lemma failed_same_card (w w1 : world) (r : option Z) :
  dev (priv w1) = dev (priv w) -> failed w1 r -> failed w r.
Proof.
  intros E H v Hv. destruct (H v Hv) as (H1 & H2). split; [exact H1 |].
  now rewrite <- E.
Qed.

Section Wholes.

Variable cfg : config.

(** After the gate and the partition switch, the transfer part. *)
Lemma after_switch (part : Z) (t : transfer) (fuel : nat)
      (w wg w' : world) (r : option Z) (xfer : M Z) :
  emits w wg [] ->
  (forall w1 w2 r2, xfer w1 = (w2, r2) ->
     xfer_outcome w1 w2 r2 (transfer_calls (priv w1) t) (transfer_result cfg t)) ->
  (ret <- mmcsd_partswitch cfg fuel part ;;
   if negb (ret =? OK) then Ret ret else xfer) wg = (w', r) ->
  exists sw body, transfer_outcome cfg part t w w' r sw body.
Proof.
  intros Eg Hx H.
  assert (Hpn : partnum (priv wg) = partnum (priv w)) by (apply Eg).
  assert (Hsc : same_card (priv w) (priv wg)) by (apply frame_same_card, Eg).
  assert (Htg : trace wg = trace w).
  { destruct Eg as [_ T]. now rewrite app_nil_r in T. }
  mred H. mcall H partswitch_spec. destruct E as (Hc & S & Hcase).
  assert (Hsc1 : same_card (priv w) (priv w0)).
  { destruct Hsc, Hc. constructor; cbn in *; congruence. }
  assert (Hd1 : dev (priv w0) = dev (priv w)) by (apply same_card_dev; exact Hsc1).
  assert (Hdg : dev (priv wg) = dev (priv w)) by (apply Eg).
  apply (status_opt_frame w wg _ Hdg) in S.
  rewrite Hpn in Hcase.
  assert (Hfail : o <> Some OK -> (w0, o) = (w', r) ->
                  forall sw, trace w0 = trace w ++ sw ->
                  (sw = [] \/ (sw = [SDIO_SENDCMD MMCSD_CMD6 (part_switch_arg part)] /\
                               partnum (priv w) <> part)) ->
                  partnum (priv w0) = partnum (priv w) ->
                  exists sw body, transfer_outcome cfg part t w w' r sw body).
  { intros Hne Heq sw Ht Hsw Hp. inversion Heq; subst.
    exists sw, []. split; [exact Hsc1 |]. rewrite app_nil_r.
    split; [exact Ht |]. split.
    - destruct Hsw as [-> | Hsw]; [left | right]; auto.
    - split; [left; auto |]. right. split; [eexists; reflexivity |].
      apply failed_not_ok; assumption. }
  destruct o as [v |]; mred H.
  2:{ destruct Hcase as [(_ & _ & Ho) | [(_ & T & P & _) | (Hn & T & [(Ho & _) | (_ & _ & P)])]];
        try discriminate.
      - apply (Hfail ltac:(discriminate) H []); auto. rewrite app_nil_r. congruence.
      - apply (Hfail ltac:(discriminate) H _ ltac:(rewrite T, Htg; reflexivity)); auto. }
  mif H.
  { mred H.
    assert (Hne : Some v <> Some OK).
    { intros E. inversion E; subst. discriminate. }
    destruct Hcase as [(_ & _ & Ho) | [(_ & T & P & _) | (Hn & T & [(Ho & _) | (_ & _ & P)])]];
      try contradiction.
    - apply (Hfail Hne H []); auto. rewrite app_nil_r. congruence.
    - apply (Hfail Hne H _ ltac:(rewrite T, Htg; reflexivity)); auto. }
  apply negb_false_iff, Z.eqb_eq in Heqb. subst v.
  apply Hx in H. destruct H as (F & body & T2 & Hout).
  assert (Hsc' : same_card (priv w) (priv w')) by (eapply same_card_frame; eassumption).
  assert (Hp' : partnum (priv w') = partnum (priv w0)) by (apply F).
  rewrite (transfer_calls_same_card _ _ t Hsc1) in Hout.
  assert (Hout' : (body = transfer_calls (priv w) t /\ r = Some (transfer_result cfg t)) \/
                  (is_prefix body (transfer_calls (priv w) t) /\ failed w r)).
  { destruct Hout as [Ho | (Hp & Hf)]; [left; exact Ho | right].
    split; [exact Hp | exact (failed_same_card w w0 r Hd1 Hf)]. }
  destruct Hcase as [(Hn & -> & _) | [(_ & _ & _ & Hne) | (Hn & T & [(_ & P) | (Hne & _)])]];
    try (now elim Hne).
  - exists [], body. split; [exact Hsc' |]. cbn [app].
    split; [rewrite T2, Htg; reflexivity |].
    split; [left; auto |]. split; [left; split; [congruence | auto] |].
    destruct Hout' as [(Hb & Hr) | Hf]; [left | right; exact Hf].
    repeat split; congruence.
  - exists [SDIO_SENDCMD MMCSD_CMD6 (part_switch_arg part)], body.
    split; [exact Hsc' |].
    split; [rewrite T2, T, Htg, <- app_assoc; reflexivity |].
    split; [right; auto |]. split; [right; split; [congruence | discriminate] |].
    destruct Hout' as [(Hb & Hr) | Hf]; [left | right; exact Hf].
    repeat split; congruence.
Qed.

Lemma refused_outcome (part : Z) (t : transfer) (w w' : world) :
  emits w w' [] ->
  exists sw body, transfer_outcome cfg part t w w' (Some (- EPERM)) sw body.
Proof.
  intros [F T]. exists [], []. split; [apply frame_same_card; exact F |].
  split; [exact T |]. split; [left; auto |].
  split; [left; split; [apply F | auto] |].
  right. split; [eexists; reflexivity |].
  intros v Hv. inversion Hv; subst. unfold EPERM. split; [lia | intros _; lia].
Qed.

(** Every run of a transfer routine has an outcome. *)
Lemma transfer_spec (part : Z) (t : transfer) (fuel : nat) (w w' : world)
      (r : option Z) :
  run_transfer cfg fuel part t w = (w', r) ->
  exists sw body, transfer_outcome cfg part t w w' r sw body.
Proof.
  intros H. destruct t as [sb | sb n | sb | sb n]; cbn [run_transfer] in H.
  - unfold mmcsd_readsingle in H. mred H. mif H.
    + mred H. mleaf H. apply refused_outcome, emits_refl.
    + eapply (after_switch part (ReadSingle sb)); [apply emits_refl | | exact H].
      intros w1 w2 r2. apply readsingle_xfer_spec.
  - unfold mmcsd_readmultiple in H. mred H. mif H.
    + mred H. mleaf H. apply refused_outcome, emits_refl.
    + eapply (after_switch part (ReadMultiple sb n)); [apply emits_refl | | exact H].
      intros w1 w2 r2. apply readmultiple_xfer_spec.
  - unfold mmcsd_writesingle in H. mred H.
    mcall H wrprotected_spec. destruct E as (Eg & b & ->). mred H.
    destruct b.
    + mred H. mleaf H. apply refused_outcome. exact Eg.
    + eapply (after_switch part (WriteSingle sb)); [exact Eg | | exact H].
      intros w1 w2 r2. apply writesingle_xfer_spec.
  - unfold mmcsd_writemultiple in H. mred H.
    mcall H wrprotected_spec. destruct E as (Eg & b & ->). mred H.
    destruct b.
    + mred H. mleaf H. apply refused_outcome. exact Eg.
    + eapply (after_switch part (WriteMultiple sb n)); [exact Eg | | exact H].
      intros w1 w2 r2. apply writemultiple_xfer_spec.
Qed.

End Wholes.

(** ** C3: the address of a data command *)

Lemma in_prefix {A : Type} (x : A) (a b : list A) :
  is_prefix a b -> In x a -> In x b.
Proof. intros (c & ->) H. apply in_or_app. now left. Qed.

Lemma in_transfer_calls (p : mmcsd_state_s) (t : transfer) (cmd : sdio_cmd)
      (arg : Z) :
  In (SDIO_SENDCMD cmd arg) (transfer_calls p t) ->
  (cmd = transfer_cmd t /\ arg = data_arg p (transfer_start t)) \/
  (cmd = MMCSD_CMD12 /\ arg = 0).
Proof.
  destruct t; cbn [transfer_calls transfer_cmd transfer_start];
    unfold readsingle_calls, readmultiple_calls, writesingle_calls,
           writemultiple_calls, write_calls, stop_calls;
    repeat match goal with
           | |- context [if ?b then _ else _] => destruct b
           end;
    cbn [app In]; intros H;
    repeat match goal with
           | H : _ \/ _ |- _ => destruct H
           | H : False |- _ => destruct H
           | H : SDIO_BLOCKSETUP _ _ = SDIO_SENDCMD _ _ |- _ => discriminate H
           | H : SDIO_SENDCMD _ _ = SDIO_SENDCMD _ _ |- _ =>
               inversion H; subst; clear H
           end;
    auto.
Qed.

Lemma transfer_success (cfg : config) (part : Z) (t : transfer)
      (w w' : world) (r : option Z) (sw body : list call) :
  transfer_outcome cfg part t w w' r sw body ->
  errno_host (dev (priv w)) -> 0 < transfer_count t ->
  r = Some (transfer_count t) ->
  body = transfer_calls (priv w) t /\ partnum (priv w') = part.
Proof.
  intros (_ & _ & _ & _ & [(Hb & _ & Hp) | (_ & Hf)]) He Hn Hr; [auto |].
  destruct (Hf _ Hr) as (_ & Hlt). specialize (Hlt He). lia.
Qed.

Lemma data_cmd_in_calls (p : mmcsd_state_s) (t : transfer) :
  In (SDIO_SENDCMD (transfer_cmd t) (data_arg p (transfer_start t)))
     (transfer_calls p t).
Proof.
  destruct t; cbn [transfer_calls transfer_cmd transfer_start];
    unfold readsingle_calls, readmultiple_calls, writesingle_calls,
           writemultiple_calls, write_calls;
    repeat match goal with
           | |- context [if ?b then _ else _] => destruct b
           end;
    cbn [app In]; auto.
Qed.

(** C3.  In every run of a single- or multi-block read or write, each
    CMD17, CMD18, CMD24 or CMD25 put on the bus is the command of that
    routine and carries, as its 32-bit argument, startblock << blockshift
    on a byte-addressed card and startblock on a block-addressed one; a
    run that succeeds has issued that command. *)
Theorem C3_data_address (cfg : config) (fuel : nat) (part : Z) (t : transfer)
        (w w' : world) (r : option Z) :
  run_transfer cfg fuel part t w = (w', r) ->
  exists new, trace w' = trace w ++ new /\
    (forall cmd arg,
        In (SDIO_SENDCMD cmd arg) new -> is_data_cmd cmd = true ->
        cmd = transfer_cmd t /\
        arg = to_u32 (if IS_BLOCK (type (priv w)) then transfer_start t
                      else Z.shiftl (transfer_start t) (blockshift (priv w)))) /\
    (errno_host (dev (priv w)) -> 0 < transfer_count t ->
     r = Some (transfer_count t) ->
     In (SDIO_SENDCMD (transfer_cmd t)
           (to_u32 (if IS_BLOCK (type (priv w)) then transfer_start t
                    else Z.shiftl (transfer_start t) (blockshift (priv w))))) new).
Proof.
  intros H. apply transfer_spec in H. destruct H as (sw & body & Hout).
  pose proof Hout as (_ & T & Hsw & _ & Hb).
  exists (sw ++ body). split; [exact T |]. split.
  - intros cmd arg Hin Hd. apply in_app_or in Hin. destruct Hin as [Hin | Hin].
    + destruct Hsw as [(-> & _) | (-> & _)]; [destruct Hin |].
      destruct Hin as [E | []]. inversion E; subst. discriminate.
    + assert (Hin' : In (SDIO_SENDCMD cmd arg) (transfer_calls (priv w) t)).
      { destruct Hb as [(-> & _) | (Hp & _)]; [exact Hin |].
        eapply in_prefix; eassumption. }
      apply in_transfer_calls in Hin'.
      destruct Hin' as [(-> & ->) | (-> & _)]; [| discriminate].
      split; reflexivity.
  - intros He Hn Hr.
    destruct (transfer_success _ _ _ _ _ _ _ _ Hout He Hn Hr) as (-> & _).
    apply in_or_app. right. apply data_cmd_in_calls.
Qed.

Lemma C3_data_address_witness :
  In (SDIO_SENDCMD MMCSD_CMD17 51200)
     (trace (fst (run_transfer Scenario.cfg0 1 0 (ReadSingle 100)
                               Scenario.world_sd_byte))).
Proof.
  destruct (C3_data_address Scenario.cfg0 1 0 (ReadSingle 100)
              Scenario.world_sd_byte _ _ (surjective_pairing _))
    as (new & T & _ & Hin).
  rewrite T. apply in_or_app. right.
  apply Hin; [| reflexivity | reflexivity].
  intros c tr Hc. destruct c; try discriminate Hc; cbn; lia.
Defined.

(** ** C8: the partition switch *)

Lemma bind_eq {A B : Type} (m : M A) (k : A -> M B) (w w1 : world) (a : A) :
  m w = (w1, Some a) -> bind m k w = k a w1.
Proof. intros H. unfold bind. now rewrite H. Qed.

Lemma part_switch_arg_word (part : Z) :
  0 <= part < MMCSD_PART_COUNT -> part_switch_arg part = part_switch_word part.
Proof.
  unfold MMCSD_PART_COUNT. intros H.
  assert (Hc : part = 0 \/ part = 1 \/ part = 2 \/ part = 3 \/
               part = 4 \/ part = 5 \/ part = 6 \/ part = 7) by lia.
  repeat (destruct Hc as [-> | Hc]; [reflexivity |]). subst. reflexivity.
Qed.

Section Switch.

Variable cfg : config.

Lemma gate_emits (t : transfer) (w wg : world) (b : bool) :
  transfer_gate t w = (wg, Some b) -> emits w wg [].
Proof.
  destruct t; cbn [transfer_gate]; intros H;
    try (mred H; mleaf H; apply emits_refl);
    apply wrprotected_spec in H; apply H.
Qed.

Lemma run_transfer_gate (part : Z) (t : transfer) (fuel : nat) (w wg : world) :
  transfer_gate t w = (wg, Some false) ->
  run_transfer cfg fuel part t w =
  (ret <- mmcsd_partswitch cfg fuel part ;;
   if negb (ret =? OK) then Ret ret
   else transfer_xfer cfg fuel (priv w) t) wg.
Proof.
  destruct t; cbn [transfer_gate run_transfer transfer_xfer]; intros H.
  - mred H. inversion H as [[E1 E2]]. subst wg.
    unfold mmcsd_readsingle. cbv beta iota delta [bind get_priv] in *.
    now rewrite E2.
  - mred H. inversion H as [[E1 E2]]. subst wg.
    unfold mmcsd_readmultiple. cbv beta iota zeta delta [bind get_priv] in *.
    now rewrite E2.
  - unfold mmcsd_writesingle. cbv beta iota zeta delta [bind get_priv].
    rewrite H. reflexivity.
  - unfold mmcsd_writemultiple. cbv beta iota zeta delta [bind get_priv].
    rewrite H. reflexivity.
Qed.

Lemma transfer_xfer_spec (fuel : nat) (p0 : mmcsd_state_s) (t : transfer)
      (w w' : world) (r : option Z) :
  transfer_xfer cfg fuel p0 t w = (w', r) ->
  xfer_outcome w w' r (transfer_calls (priv w) t) (transfer_result cfg t).
Proof.
  destruct t; cbn [transfer_xfer transfer_calls transfer_result].
  - apply readsingle_xfer_spec.
  - apply readmultiple_xfer_spec.
  - apply writesingle_xfer_spec.
  - apply writemultiple_xfer_spec.
Qed.

(** Past the gate a routine runs the partition switch, and goes on only
    when the switch returned OK. *)
Lemma transfer_after_gate (part : Z) (t : transfer) (fuel : nat)
      (w wg w' : world) (r : option Z) :
  run_transfer cfg fuel part t w = (w', r) ->
  transfer_gate t w = (wg, Some false) ->
  exists w1 r1,
    mmcsd_partswitch cfg fuel part wg = (w1, r1) /\
    (exists rest, trace w' = trace w1 ++ rest) /\
    (r1 = Some OK -> partnum (priv w') = partnum (priv w1)) /\
    (r1 <> Some OK -> w' = w1 /\ r = r1).
Proof.
  intros H Hg. rewrite (run_transfer_gate part t fuel w wg Hg) in H.
  mred H. destruct (mmcsd_partswitch cfg fuel part wg) as [w1 r1] eqn:Hp.
  exists w1, r1. split; [reflexivity |].
  destruct r1 as [v |]; mred H.
  2:{ mleaf H. split; [exists []; now rewrite app_nil_r |].
      split; [discriminate | auto]. }
  mif H; mred H.
  - mleaf H. split; [exists []; now rewrite app_nil_r |].
    split; [| auto]. intros E. inversion E; subst. discriminate.
  - apply negb_false_iff, Z.eqb_eq in Heqb. subst v.
    apply transfer_xfer_spec in H. destruct H as (F & body & T & _).
    split; [exists body; exact T |]. split; [intros _; apply F |].
    intros Hne. now elim Hne.
Qed.

(** With the card ready the switch helper puts CMD6 on the bus. *)
Lemma partswitch_issues (fuel : nat) (part : Z) (wg w1 : world) :
  partnum (priv wg) <> part ->
  mmcsd_transferready cfg fuel wg = (w1, Some OK) ->
  exists w2 r2,
    mmcsd_partswitch cfg fuel part wg = (w2, r2) /\
    trace w2 = trace wg ++ [SDIO_SENDCMD MMCSD_CMD6 (part_switch_arg part)].
Proof.
  intros Hne Hr.
  destruct (mmcsd_partswitch cfg fuel part wg) as [w2 r2] eqn:H.
  exists w2, r2. split; [reflexivity |].
  unfold mmcsd_partswitch, mmcsd_switch in H. mred H.
  apply Z.eqb_neq in Hne. rewrite Hne in H. mred H.
  rewrite Hr in H. mred H.
  fold (part_switch_arg part) in H.
  pose proof (transferready_spec cfg _ _ _ _ Hr) as (E1 & _).
  mcall H sendcmdpoll_spec'. destruct E as (E2 & v & -> & _).
  cbn [is_obs] in E2. mred H.
  mcall H recv_r1_spec. destruct E as (E3 & v3 & -> & _). mred H.
  assert (T : trace w0 = trace wg ++ [SDIO_SENDCMD MMCSD_CMD6 (part_switch_arg part)]).
  { destruct E1 as [_ T1], E2 as [_ T2], E3 as [_ T3].
    rewrite trace_setpriv in T3. rewrite T3, T2, T1, !app_nil_r. reflexivity. }
  mif H; mred H; mleaf H; rewrite ?trace_setpriv; exact T.
Qed.

Lemma partswitch_ok (fuel : nat) (part : Z) (wg w1 : world) :
  mmcsd_partswitch cfg fuel part wg = (w1, Some OK) ->
  partnum (priv w1) = part.
Proof.
  intros H. apply partswitch_spec in H.
  destruct H as (_ & _ & [(Hp & -> & _) | [(_ & _ & _ & Hne) | (_ & _ & [(_ & Hp) | (Hne & _)])]]);
    auto; now elim Hne.
Qed.

End Switch.

(** C8, as amended.  In every run of a transfer routine a partition-switch
    CMD6 is issued only if the target index differs from partnum, and its
    argument is WRITE_BYTE in bits 25:24, PART_CONF = 179 in bits 23:16 and
    the index in bits 15:8.  It is issued whenever the indexes differ, the
    routine has passed its lock / write-protect check and the transfer-ready
    check of the switch helper returns OK.  partnum changes only to the
    index such a CMD6 carried, and equals the target index once the switch
    has returned OK. *)
Theorem C8_partition_switch (cfg : config) (fuel : nat) (part : Z)
        (t : transfer) (w w' : world) (r : option Z) :
  0 <= part < MMCSD_PART_COUNT ->
  run_transfer cfg fuel part t w = (w', r) ->
  exists new, trace w' = trace w ++ new /\
    (forall a, In (SDIO_SENDCMD MMCSD_CMD6 a) new ->
               partnum (priv w) <> part /\ a = part_switch_word part) /\
    (partnum (priv w') <> partnum (priv w) ->
     partnum (priv w') = part /\
     In (SDIO_SENDCMD MMCSD_CMD6 (part_switch_word part)) new) /\
    (forall wg w1,
        transfer_gate t w = (wg, Some false) ->
        partnum (priv w) <> part ->
        mmcsd_transferready cfg fuel wg = (w1, Some OK) ->
        In (SDIO_SENDCMD MMCSD_CMD6 (part_switch_word part)) new) /\
    (forall wg w1,
        transfer_gate t w = (wg, Some false) ->
        mmcsd_partswitch cfg fuel part wg = (w1, Some OK) ->
        partnum (priv w') = part).
Proof.
  intros Hpart H. rewrite <- (part_switch_arg_word part Hpart).
  pose proof (transfer_spec cfg _ _ _ _ _ _ H) as (sw & body & Hout).
  destruct Hout as (_ & T & Hsw & Hpn & Hb).
  exists (sw ++ body). split; [exact T |].
  split; [| split; [| split]].
  - intros a Hin. apply in_app_or in Hin. destruct Hin as [Hin | Hin].
    + destruct Hsw as [(-> & _) | (-> & Hne)]; [destruct Hin |].
      destruct Hin as [E | []]. inversion E; subst. auto.
    + assert (Hin' : In (SDIO_SENDCMD MMCSD_CMD6 a) (transfer_calls (priv w) t)).
      { destruct Hb as [(-> & _) | (Hp & _)]; [exact Hin |].
        eapply in_prefix; eassumption. }
      apply in_transfer_calls in Hin'.
      destruct Hin' as [(E & _) | (E & _)]; [destruct t |]; discriminate E.
  - intros Hne. destruct Hpn as [(E & _) | (E & Hs)]; [now elim Hne |].
    split; [exact E |].
    destruct Hsw as [(-> & _) | (-> & _)]; [now elim Hs |].
    apply in_or_app. left. left. reflexivity.
  - intros wg w1 Hg Hne Hr.
    pose proof (gate_emits _ _ _ _ Hg) as [Fg Tg]. rewrite app_nil_r in Tg.
    assert (Hne' : partnum (priv wg) <> part).
    { rewrite (frame_partnum _ _ Fg). exact Hne. }
    destruct (partswitch_issues cfg fuel part wg w1 Hne' Hr) as (w2 & r2 & Hp & T2).
    destruct (transfer_after_gate cfg part t fuel w wg w' r H Hg)
      as (w2' & r2' & Hp' & (rest & T') & _).
    rewrite Hp in Hp'. inversion Hp'; subst w2' r2'.
    rewrite T', T2, Tg, <- app_assoc in T. apply app_inv_head in T.
    rewrite <- T. apply in_or_app. left. left. reflexivity.
  - intros wg w1 Hg Hp.
    destruct (transfer_after_gate cfg part t fuel w wg w' r H Hg)
      as (w2' & r2' & Hp' & _ & Hok & _).
    rewrite Hp in Hp'. inversion Hp'; subst w2' r2'.
    rewrite (Hok eq_refl). eapply partswitch_ok. exact Hp.
Qed.

Lemma C8_partition_switch_witness :
  In (SDIO_SENDCMD MMCSD_CMD6 0x03B30100)
     (trace (fst (run_transfer Scenario.cfg0 1 1 (ReadSingle 0) Scenario.world_emmc))) /\
  partnum (priv (fst (run_transfer Scenario.cfg0 1 1 (ReadSingle 0)
                                   Scenario.world_emmc))) = 1.
Proof.
  destruct (C8_partition_switch Scenario.cfg0 1 1 (ReadSingle 0)
              Scenario.world_emmc _ _
              ltac:(unfold MMCSD_PART_COUNT; lia)
              (surjective_pairing _))
    as (new & T & _ & _ & Hissue & Hok).
  split.
  - rewrite T. apply in_or_app. right.
    eapply (Hissue Scenario.world_emmc); [reflexivity | discriminate | reflexivity].
  - eapply (Hok Scenario.world_emmc); reflexivity.
Defined.

(** C8 as stated fails: on a locked card a read of partition 1 with
    partnum = 0 returns -EPERM and puts no CMD6 on the bus; and when the
    R1 status of the CMD6 times out, the CMD6 for partition 1 went out and
    partnum is still 0. *)
Lemma C8_counterexample :
  partnum (priv Scenario.world_emmc_locked) <> 1 /\
  run_transfer Scenario.cfg0 1 1 (ReadSingle 0) Scenario.world_emmc_locked
  = (Scenario.world_emmc_locked, Some (- EPERM)) /\
  trace (fst (run_transfer Scenario.cfg0 1 1 (ReadSingle 0)
                           Scenario.world_emmc_locked)) = [] /\
  snd (run_transfer Scenario.cfg0 1 1 (ReadSingle 0)
                    Scenario.world_emmc_switch_fails) = Some (- ETIMEDOUT) /\
  trace (fst (run_transfer Scenario.cfg0 1 1 (ReadSingle 0)
                           Scenario.world_emmc_switch_fails))
  = [SDIO_SENDCMD MMCSD_CMD6 (part_switch_word 1)] /\
  partnum (priv (fst (run_transfer Scenario.cfg0 1 1 (ReadSingle 0)
                                   Scenario.world_emmc_switch_fails))) = 0.
Proof. repeat split; vm_compute; congruence. Qed.

(** ** C7: chunks of a read *)

Lemma chunks_fuel (limit : Z) (k1 k2 : nat) (sector remaining : Z) :
  1 <= limit ->
  (Z.to_nat remaining <= k1)%nat -> (Z.to_nat remaining <= k2)%nat ->
  chunks k1 sector remaining limit = chunks k2 sector remaining limit.
Proof.
  intros Hl. revert k2 sector remaining.
  induction k1 as [| k1 IH]; intros k2 sector remaining H1 H2.
  - destruct k2 as [| k2]; [reflexivity |]. cbn [chunks].
    destruct (Z.ltb_spec 0 remaining); [lia | reflexivity].
  - destruct k2 as [| k2]; cbn [chunks];
      destruct (Z.ltb_spec 0 remaining); try reflexivity; try lia.
    f_equal. apply IH; lia.
Qed.

Lemma chunks_cons (limit sector remaining : Z) :
  1 <= limit -> 0 < remaining ->
  read_chunks sector remaining limit =
  (sector, Z.min remaining limit) ::
  read_chunks (sector + Z.min remaining limit) (remaining - Z.min remaining limit) limit.
Proof.
  intros Hl Hr. unfold read_chunks.
  destruct (Z.to_nat remaining) as [| k] eqn:E; [lia |].
  cbn [chunks]. destruct (Z.ltb_spec 0 remaining); [| lia].
  f_equal. apply chunks_fuel; lia.
Qed.

Lemma chunks_nil (limit sector remaining : Z) :
  remaining <= 0 -> read_chunks sector remaining limit = [].
Proof.
  intros H. unfold read_chunks.
  replace (Z.to_nat remaining) with O by lia. reflexivity.
Qed.

(** A request of n sectors is cut in ceil(n / limit) chunks. *)
Lemma chunks_length (limit : Z) :
  1 <= limit ->
  forall (n : nat) (sector remaining : Z),
    remaining <= Z.of_nat n -> 0 <= remaining ->
    Z.of_nat (length (read_chunks sector remaining limit))
    = (remaining + limit - 1) / limit.
Proof.
  intros Hl. induction n as [| n IH]; intros sector remaining Hn H0.
  - assert (remaining = 0) by lia. subst.
    rewrite chunks_nil by lia. cbn [length].
    symmetry. apply Z.div_small. lia.
  - destruct (Z.eq_dec remaining 0) as [-> | Hne].
    + rewrite chunks_nil by lia. cbn [length].
      symmetry. apply Z.div_small. lia.
    + rewrite chunks_cons by lia. cbn [length].
      rewrite Nat2Z.inj_succ, IH by lia.
      destruct (Z.le_gt_cases remaining limit) as [Hle | Hgt].
      * rewrite Z.min_l by lia.
        replace (remaining - remaining + limit - 1) with (limit - 1) by lia.
        rewrite (Z.div_small (limit - 1)) by lia.
        replace (remaining + limit - 1) with ((remaining - 1) + 1 * limit) by lia.
        rewrite Z.div_add by lia. rewrite (Z.div_small (remaining - 1)) by lia.
        reflexivity.
      * rewrite Z.min_r by lia.
        replace (remaining + limit - 1) with ((remaining - limit + limit - 1) + 1 * limit) by lia.
        rewrite Z.div_add by lia. lia.
Qed.

Lemma filter_prefix {A : Type} (f : A -> bool) (a b : list A) :
  is_prefix a b -> is_prefix (filter f a) (filter f b).
Proof. intros (c & ->). exists (filter f c). apply filter_app. Qed.

Lemma prefix_app {A : Type} (a b c : list A) :
  is_prefix a b -> is_prefix a (b ++ c).
Proof. intros (d & ->). exists (d ++ c). now rewrite app_assoc. Qed.

Lemma prefix_app_same {A : Type} (a b c : list A) :
  is_prefix b c -> is_prefix (a ++ b) (a ++ c).
Proof. intros (d & ->). exists d. now rewrite app_assoc. Qed.

Lemma filter_data_xfers (l : list call) :
  filter is_data_call (xfers l) = filter is_data_call l.
Proof.
  unfold xfers. induction l as [| c l IH]; [reflexivity |].
  cbn [filter].
  destruct (is_xfer c) eqn:X; destruct (is_data_call c) eqn:D;
    cbn [filter]; rewrite ?D, ?IH; try reflexivity.
  destruct c; cbn [is_xfer is_data_call] in X, D; congruence.
Qed.

Section Reads.

Variable cfg : config.

Lemma lock_spec (w w' : world) (r : option Z) :
  mmcsd_lock cfg w = (w', r) -> emits w w' [] /\ exists v, r = Some v.
Proof.
  unfold mmcsd_lock. intros H. mred H.
  mif H; [mred H; mleaf H; split; [leaf_emits | eauto] |].
  mred H. mif H; [mred H; mleaf H; split; [leaf_emits | eauto] |].
  mred H. mif H; [mred H; mleaf H; split; [leaf_emits | eauto] |].
  destruct (CONFIG_SDIO_MUXBUS cfg); mred H; mleaf H;
    (split; [leaf_emits | eauto]).
Qed.

Lemma unlock_spec (w w' : world) (r : option unit) :
  mmcsd_unlock cfg w = (w', r) -> emits w w' [] /\ r = Some tt.
Proof.
  unfold mmcsd_unlock. intros H. mred H.
  mif H; [mred H; mleaf H; split; [leaf_emits | reflexivity] |].
  mred H. mif H; [mred H; mleaf H; split; [leaf_emits | reflexivity] |].
  destruct (CONFIG_SDIO_MUXBUS cfg); mred H; mleaf H;
    (split; [leaf_emits | reflexivity]).
Qed.

Lemma read_chunk_run (fuel : nat) (part sector endsector : Z) :
  1 <= MMCSD_MULTIBLOCK_LIMIT cfg -> sector < endsector ->
  endsector - sector <= SSIZE_MAX cfg ->
  mmcsd_read_chunk cfg fuel part sector endsector =
  run_transfer cfg fuel part
    (chunk_transfer (sector, Z.min (endsector - sector) (MMCSD_MULTIBLOCK_LIMIT cfg))).
Proof.
  intros Hl Hs Hm. unfold mmcsd_read_chunk, chunk_transfer. cbn [fst snd].
  unfold to_ssize, to_size. rewrite wrap_signed_small by lia.
  destruct (Z.eqb_spec (MMCSD_MULTIBLOCK_LIMIT cfg) 1) as [E1 | N1].
  - rewrite E1. rewrite Z.min_r by lia. reflexivity.
  - destruct (Z.ltb_spec (MMCSD_MULTIBLOCK_LIMIT cfg) (endsector - sector)).
    + rewrite Z.min_r by lia. rewrite wrap_unsigned_small by lia.
      destruct (Z.eqb_spec (MMCSD_MULTIBLOCK_LIMIT cfg) 1); [lia | reflexivity].
    + rewrite Z.min_l by lia. rewrite wrap_unsigned_small by lia.
      destruct (Z.eqb_spec (endsector - sector) 1); reflexivity.
Qed.

Lemma xfers_chunk (p : mmcsd_state_s) (ch : Z * Z) :
  xfers (transfer_calls p (chunk_transfer ch)) = chunk_calls p ch.
Proof.
  unfold chunk_transfer, chunk_calls.
  destruct (Z.eqb_spec (snd ch) 1) as [E | N]; cbn [transfer_calls].
  - rewrite E. reflexivity.
  - unfold readmultiple_calls, stop_calls.
    destruct (stop_needed p); reflexivity.
Qed.

Lemma chunk_count (ch : Z * Z) : transfer_count (chunk_transfer ch) = snd ch.
Proof.
  unfold chunk_transfer. destruct (Z.eqb_spec (snd ch) 1) as [E | N];
    cbn [transfer_count]; congruence.
Qed.

(** A chunk whose size is a value of int returns its size. *)
Lemma chunk_result (ch : Z * Z) :
  1 <= snd ch <= INT_MAX cfg ->
  transfer_result cfg (chunk_transfer ch) = snd ch.
Proof.
  intros H. unfold chunk_transfer. destruct (Z.eqb_spec (snd ch) 1) as [E | N];
    cbn [transfer_result]; [congruence |].
  unfold to_int. apply wrap_signed_small. lia.
Qed.

Lemma chunk_calls_same_card (p q : mmcsd_state_s) (ch : Z * Z) :
  same_card p q -> chunk_calls q ch = chunk_calls p ch.
Proof.
  intros H. rewrite <- !xfers_chunk. f_equal.
  now apply transfer_calls_same_card.
Qed.

Lemma read_calls_same_card (p q : mmcsd_state_s) (s n : Z) :
  same_card p q -> read_calls cfg q s n = read_calls cfg p s n.
Proof.
  intros H. unfold read_calls. apply flat_map_ext.
  intros ch. now apply chunk_calls_same_card.
Qed.

Lemma same_card_refl (p : mmcsd_state_s) : same_card p p.
Proof. apply frame_same_card, frame_refl. Qed.

Lemma same_card_trans (p q r : mmcsd_state_s) :
  same_card p q -> same_card q r -> same_card p r.
Proof.
  intros [a1 a2 a3 a4 a5 a6 a7 a8] [b1 b2 b3 b4 b5 b6 b7 b8].
  cbn in *. constructor; cbn; congruence.
Qed.

Lemma xfers_switch (sw body : list call) (part : Z) :
  sw = [] \/ sw = [SDIO_SENDCMD MMCSD_CMD6 (part_switch_arg part)] ->
  xfers (sw ++ body) = xfers body.
Proof. intros [-> | ->]; reflexivity. Qed.

(** A round of the loop of mmcsd_read. *)
Lemma read_chunk_spec (fuel : nat) (part sector endsector : Z)
      (w w' : world) (r : option Z) :
  1 <= MMCSD_MULTIBLOCK_LIMIT cfg -> sector < endsector ->
  endsector - sector <= SSIZE_MAX cfg ->
  Z.min (endsector - sector) (MMCSD_MULTIBLOCK_LIMIT cfg) <= INT_MAX cfg ->
  mmcsd_read_chunk cfg fuel part sector endsector w = (w', r) ->
  let ch := (sector, Z.min (endsector - sector) (MMCSD_MULTIBLOCK_LIMIT cfg)) in
  same_card (priv w) (priv w') /\
  exists new, trace w' = trace w ++ new /\
    ((xfers new = chunk_calls (priv w) ch /\ r = Some (snd ch)) \/
     (is_prefix (xfers new) (chunk_calls (priv w) ch) /\ failed w r)).
Proof.
  intros Hl Hs Hm Hi H ch. rewrite read_chunk_run in H by assumption.
  fold ch in H.
  destruct (transfer_spec cfg part _ fuel w w' r H)
    as (sw & body & Hc & Ht & Hsw & _ & Hr).
  split; [exact Hc |]. exists (sw ++ body). split; [exact Ht |].
  rewrite (xfers_switch sw body part) by tauto.
  rewrite <- xfers_chunk.
  destruct Hr as [(-> & -> & _) | (Hp & Hf)].
  - left. split; [reflexivity |]. rewrite chunk_result; [reflexivity |].
    unfold ch. cbn [snd]. lia.
  - right. split; [| exact Hf]. now apply filter_prefix.
Qed.

Lemma prefix_nil {A : Type} (l : list A) : is_prefix [] l.
Proof. exists l. reflexivity. Qed.

Lemma errno_same_card (p q : mmcsd_state_s) :
  same_card p q -> errno_host (dev p) -> errno_host (dev q).
Proof. intros H He. now rewrite (same_card_dev _ _ H). Qed.

(** The loop of mmcsd_read on sector numbers that are values of size_t,
    with a distance that is a value of ssize_t and chunks that are values
    of int: the rounds it runs are the chunks of the request, in order,
    and all of them when the count comes back. *)
Lemma read_loop_spec (fuel : nat) (part endsector ret : Z) :
  1 <= MMCSD_MULTIBLOCK_LIMIT cfg -> 0 < ret ->
  endsector <= 2 * SSIZE_MAX cfg + 1 ->
  forall (iter : nat) (sector : Z) (w w' : world) (r : option Z),
    0 <= sector -> endsector - sector <= SSIZE_MAX cfg ->
    Z.min (endsector - sector) (MMCSD_MULTIBLOCK_LIMIT cfg) <= INT_MAX cfg ->
    errno_host (dev (priv w)) ->
    mmcsd_read_loop cfg iter fuel part sector endsector ret w = (w', r) ->
    same_card (priv w) (priv w') /\
    exists new, trace w' = trace w ++ new /\
      is_prefix (xfers new) (read_calls cfg (priv w) sector (endsector - sector)) /\
      (r = Some ret ->
       xfers new = read_calls cfg (priv w) sector (endsector - sector)).
Proof.
  intros Hl Hret He0.
  induction iter as [| iter IH]; intros sector w w' r H0 Hm Hi He H;
    cbn [mmcsd_read_loop] in H;
    destruct (Z.ltb_spec sector endsector) as [Hs | Hs].
  - mred H. mleaf H. split; [apply same_card_refl |].
    exists []. rewrite app_nil_r. split; [reflexivity |].
    split; [apply prefix_nil | discriminate].
  - mred H. mleaf H. split; [apply same_card_refl |].
    exists []. rewrite app_nil_r. split; [reflexivity |].
    unfold read_calls. rewrite chunks_nil by lia.
    split; [apply prefix_nil | reflexivity].
  - mred H. mcall H read_chunk_spec; try assumption.
    cbn zeta in E. cbn [snd] in E.
    destruct E as (Hc & new1 & T1 & Hr).
    unfold read_calls. rewrite chunks_cons by lia. cbn [flat_map].
    set (n := Z.min (endsector - sector) (MMCSD_MULTIBLOCK_LIMIT cfg)) in *.
    assert (Hn : 1 <= n) by (unfold n; lia).
    assert (Hn' : n <= endsector - sector) by (unfold n; lia).
    destruct Hr as [(X1 & ->) | (P1 & F1)].
    + mred H. destruct (Z.ltb_spec n 0) as [Hneg | _]; [lia |].
      unfold to_size in H. rewrite wrap_unsigned_small in H by lia.
      apply IH in H; try lia; [| now apply (errno_same_card (priv w))].
      destruct H as (Hc2 & new2 & T2 & P2 & S2).
      rewrite (read_calls_same_card _ _ _ _ Hc) in P2, S2.
      replace (endsector - (sector + n)) with (endsector - sector - n) in P2, S2 by lia.
      split; [eapply same_card_trans; eassumption |].
      exists (new1 ++ new2). split; [rewrite T2, T1; now rewrite app_assoc |].
      unfold xfers in *. rewrite filter_app, X1.
      split; [now apply prefix_app_same |].
      intros Hr. now rewrite S2.
    + destruct o as [v |].
      * destruct (F1 v eq_refl) as (_ & Hv). specialize (Hv He).
        mred H. destruct (Z.ltb_spec v 0) as [_ | Hge]; [| lia].
        mred H. mleaf H. split; [exact Hc |].
        exists new1. split; [exact T1 |].
        split; [now apply prefix_app | intros Hr; inversion Hr; lia].
      * mred H. mleaf H. split; [exact Hc |].
        exists new1. split; [exact T1 |].
        split; [now apply prefix_app | discriminate].
  - mred H. mleaf H. split; [apply same_card_refl |].
    exists []. rewrite app_nil_r. split; [reflexivity |].
    unfold read_calls. rewrite chunks_nil by lia.
    split; [apply prefix_nil | reflexivity].
Qed.

(** The bound on the rounds of the loop is no restriction: on such sector
    numbers any bound of at least endsector - sector gives the same run. *)
Lemma read_loop_rounds (fuel : nat) (part endsector ret : Z) :
  1 <= MMCSD_MULTIBLOCK_LIMIT cfg ->
  endsector <= 2 * SSIZE_MAX cfg + 1 ->
  forall (iter iter' : nat) (sector : Z) (w : world),
    0 <= sector -> endsector - sector <= SSIZE_MAX cfg ->
    Z.min (endsector - sector) (MMCSD_MULTIBLOCK_LIMIT cfg) <= INT_MAX cfg ->
    errno_host (dev (priv w)) ->
    (Z.to_nat (endsector - sector) <= iter)%nat ->
    (Z.to_nat (endsector - sector) <= iter')%nat ->
    mmcsd_read_loop cfg iter fuel part sector endsector ret w =
    mmcsd_read_loop cfg iter' fuel part sector endsector ret w.
Proof.
  intros Hl He0.
  induction iter as [| iter IH]; intros iter' sector w H0 Hm Hi He Hb Hb';
    destruct iter' as [| iter']; cbn [mmcsd_read_loop];
    destruct (Z.ltb_spec sector endsector) as [Hs | Hs];
    try reflexivity; try lia.
  cbv beta delta [bind].
  destruct (mmcsd_read_chunk cfg fuel part sector endsector w)
    as [w1 [v |]] eqn:E; [| reflexivity].
  destruct (Z.ltb_spec v 0) as [Hv | Hv]; [reflexivity |].
  apply read_chunk_spec in E; try assumption.
  cbn zeta in E. cbn [snd] in E. destruct E as (Hc & new & _ & Hr).
  assert (Hn : v = Z.min (endsector - sector) (MMCSD_MULTIBLOCK_LIMIT cfg)).
  { destruct Hr as [(_ & Hr) | (_ & Hf)].
    - now inversion Hr.
    - destruct (Hf v eq_refl) as (_ & Hlt). specialize (Hlt He). lia. }
  unfold to_size. rewrite wrap_unsigned_small by lia.
  apply IH; try lia. now apply (errno_same_card (priv w)).
Qed.

End Reads.

(** ** C7: a read, chunk by chunk *)

Lemma data_calls_chunks (p : mmcsd_state_s) (l : list (Z * Z)) :
  length (filter is_data_call (flat_map (chunk_calls p) l)) = length l.
Proof.
  induction l as [| ch l IH]; [reflexivity |].
  cbn [flat_map]. rewrite filter_app, length_app, IH.
  unfold chunk_calls. destruct (snd ch =? 1); reflexivity.
Qed.

Lemma single_chunk_cmd17 (p : mmcsd_state_s) (l : list (Z * Z)) (s : Z) :
  In (s, 1) l ->
  In (SDIO_SENDCMD MMCSD_CMD17 (data_arg p s)) (flat_map (chunk_calls p) l).
Proof.
  intros H. apply in_flat_map. exists (s, 1). split; [exact H |].
  right. left. reflexivity.
Qed.

(** C7.  A read of n > 0 sectors, the sector numbers and the count being
    values of the types the loop keeps them in, runs the chunks of size
    min(remaining, MULTIBLOCK_LIMIT) in order: the block set-ups and data
    commands it puts on the bus are always a beginning of those of the
    chunks, a chunk of one block being CMD17 and any other CMD18; when the
    read returns n they are all there, ceil(n / LIMIT) data commands, and
    each chunk of one block went through CMD17. *)
Theorem C7_read_chunking (cfg : config) (fuel : nat)
        (part startsector nsectors : Z) (w w' : world) (r : option Z) :
  0 < nsectors -> 1 <= MMCSD_MULTIBLOCK_LIMIT cfg ->
  request_fits cfg startsector nsectors ->
  errno_host (dev (priv w)) ->
  mmcsd_read cfg fuel part startsector nsectors w = (w', r) ->
  exists new, trace w' = trace w ++ new /\
    is_prefix (xfers new) (read_calls cfg (priv w) startsector nsectors) /\
    (r = Some nsectors ->
     xfers new = read_calls cfg (priv w) startsector nsectors /\
     Z.of_nat (length (filter is_data_call new))
     = (nsectors + MMCSD_MULTIBLOCK_LIMIT cfg - 1) / MMCSD_MULTIBLOCK_LIMIT cfg /\
     forall s, In (s, 1) (read_chunks startsector nsectors
                                      (MMCSD_MULTIBLOCK_LIMIT cfg)) ->
               In (SDIO_SENDCMD MMCSD_CMD17 (data_arg (priv w) s)) new).
Proof.
  intros Hn Hl (Hf0 & Hfb & Hfs & Hfn & Hfi) He H. unfold mmcsd_read in H.
  destruct (Z.ltb_spec 0 nsectors) as [_ | ?]; [| lia].
  unfold to_blkcnt, to_size, to_ssize in H.
  rewrite (Z.mod_small (startsector + nsectors)) in H by lia.
  rewrite !wrap_unsigned_small, wrap_signed_small in H by lia.
  mred H. mcall H lock_spec. destruct E as (El & v & ->).
  mred H. destruct (Z.ltb_spec v 0) as [Hv | Hv].
  - mred H. mleaf H. exists []. split; [apply El |].
    split; [apply prefix_nil |]. intros Hr. inversion Hr. lia.
  - mred H. mcall H read_loop_spec; try assumption; try lia.
    2: { now rewrite (emits_dev _ _ _ El). }
    destruct E as (Hc & new & T & P & S).
    replace (startsector + nsectors - startsector) with nsectors in P, S by lia.
    assert (Hw : same_card (priv w) (priv w0))
      by (apply frame_same_card, El).
    rewrite (read_calls_same_card _ _ _ _ _ Hw) in P, S.
    assert (T0 : trace w0 = trace w)
      by (destruct El as [_ T0]; now rewrite app_nil_r in T0).
    assert (Hfin : forall w2, trace w2 = trace w1 ->
              exists new0, trace w2 = trace w ++ new0 /\
                is_prefix (xfers new0) (read_calls cfg (priv w) startsector nsectors) /\
                (o = Some nsectors ->
                 xfers new0 = read_calls cfg (priv w) startsector nsectors /\
                 Z.of_nat (length (filter is_data_call new0))
                 = (nsectors + MMCSD_MULTIBLOCK_LIMIT cfg - 1)
                   / MMCSD_MULTIBLOCK_LIMIT cfg /\
                 forall s, In (s, 1) (read_chunks startsector nsectors
                                                  (MMCSD_MULTIBLOCK_LIMIT cfg)) ->
                           In (SDIO_SENDCMD MMCSD_CMD17 (data_arg (priv w) s)) new0)).
    { intros w2 T2. exists new. split; [now rewrite T2, T, T0 |].
      split; [exact P |]. intros Hr. specialize (S Hr).
      split; [exact S |]. split.
      - rewrite <- filter_data_xfers, S. unfold read_calls.
        rewrite data_calls_chunks. apply (chunks_length _ Hl (Z.to_nat nsectors)); lia.
      - intros s Hs.
        assert (Hin : In (SDIO_SENDCMD MMCSD_CMD17 (data_arg (priv w) s)) (xfers new))
          by (rewrite S; now apply single_chunk_cmd17).
        unfold xfers in Hin. now apply filter_In in Hin. }
    destruct o as [v' |].
    + mred H. mcall H unlock_spec. destruct E as (Eu & ->).
      mred H. mleaf H. apply Hfin.
      destruct Eu as [_ Tu]. now rewrite app_nil_r in Tu.
    + mred H. mleaf H. destruct (Hfin w' eq_refl) as (new0 & A & B & _).
      exists new0. split; [exact A |]. split; [exact B | discriminate].
Qed.

(** A request that runs past the last sector number of blkcnt_t is not
    such a request: the sum wraps, the loop is not entered and the count
    comes back with nothing read. *)
Lemma read_past_last_sector :
  request_fits Scenario.cfg0 4294967295 2 -> False.
Proof. intros (_ & H & _). vm_compute in H. discriminate H. Qed.

Lemma read_past_last_sector_run :
  snd (mmcsd_read Scenario.cfg0 1 0 4294967295 2 Scenario.world_sd_byte)
  = Some 2 /\
  trace (fst (mmcsd_read Scenario.cfg0 1 0 4294967295 2
                Scenario.world_sd_byte)) = [].
Proof. split; reflexivity. Qed.

Lemma C7_read_chunking_witness :
  xfers (trace (fst (mmcsd_read Scenario.cfg0 1 0 0 5 Scenario.world_sd_byte)))
  = [SDIO_BLOCKSETUP 512 2; SDIO_SENDCMD MMCSD_CMD18 0;
     SDIO_BLOCKSETUP 512 2; SDIO_SENDCMD MMCSD_CMD18 1024;
     SDIO_BLOCKSETUP 512 1; SDIO_SENDCMD MMCSD_CMD17 2048].
Proof.
  destruct (C7_read_chunking Scenario.cfg0 1 0 0 5 Scenario.world_sd_byte _ _
              ltac:(lia) ltac:(vm_compute; congruence)
              ltac:(repeat split; vm_compute; congruence)
              ltac:(intros c tr Hc; destruct c; try discriminate Hc; cbn; lia)
              (surjective_pairing _))
    as (new & T & _ & S).
  rewrite T. destruct (S eq_refl) as (X & _). exact X.
Defined.

(** ** C2, C9: the STOP_TRANSMISSION of the multi-block routines *)

Lemma stop_needed_type (p q : mmcsd_state_s) :
  q = p -> stop_needed p = true ->
  IS_SD (type q) && negb (cmd23support q) = true.
Proof. intros -> H. exact H. Qed.

(** The end of mmcsd_writemultiple when the wait fails: CMD12, then the
    error of the wait through the __exit label. *)
Lemma writemultiple_wait_failure (cfg : config) (nblocks : Z)
      (w w1 w' : world) (ev : Z) (r : option Z) :
  stop_needed (priv w) = true ->
  mmcsd_eventwait SDIOWAIT_FAIL w = (w1, Some ev) -> ev <> OK ->
  mmcsd_writemultiple_wait cfg nblocks w = (w', r) ->
  r = Some ev /\
  trace w' = trace w ++ [SDIO_SENDCMD MMCSD_CMD12 0].
Proof.
  intros Hs Hev Hne H. unfold mmcsd_writemultiple_wait in H.
  rewrite (bind_eq _ _ _ _ _ Hev) in H.
  apply eventwait_spec in Hev. destruct Hev as (Hp & Ee & _).
  mred H. rewrite (stop_needed_type _ _ Hp Hs) in H.
  destruct (mmcsd_stoptransmission w1) as [ws rs] eqn:Est.
  pose proof (stoptransmission_spec _ _ _ Est) as (Es & v & -> & _).
  mred H. destruct (Z.eqb_spec ev OK) as [? | _]; [contradiction |].
  cbn [negb] in H.
  pose proof (exit_spec _ _ _ _ _ H) as (Ex & ->).
  split; [reflexivity |].
  destruct Ee as [_ T1], Es as [_ T2], Ex as [_ T3].
  rewrite T3, T2, T1. now rewrite !app_nil_r.
Qed.

(** The end of mmcsd_readmultiple when the wait succeeds: CMD12, its
    status dropped, then the count through the __exit label. *)
Lemma readmultiple_wait_stop (cfg : config) (nblocks : Z)
      (w w1 w' : world) (r : option Z) :
  stop_needed (priv w) = true ->
  mmcsd_eventwait SDIOWAIT_FAIL w = (w1, Some OK) ->
  mmcsd_readmultiple_wait cfg nblocks w = (w', r) ->
  r = Some (to_int cfg nblocks) /\
  trace w' = trace w ++ [SDIO_SENDCMD MMCSD_CMD12 0].
Proof.
  intros Hs Hev H. unfold mmcsd_readmultiple_wait in H.
  rewrite (bind_eq _ _ _ _ _ Hev) in H.
  apply eventwait_spec in Hev. destruct Hev as (Hp & Ee & _).
  mred H. rewrite (stop_needed_type _ _ Hp Hs) in H.
  destruct (mmcsd_stoptransmission w1) as [ws rs] eqn:Est.
  pose proof (stoptransmission_spec _ _ _ Est) as (Es & v & -> & _).
  mred H.
  pose proof (exit_spec _ _ _ _ _ H) as (Ex & ->).
  split; [reflexivity |].
  destruct Ee as [_ T1], Es as [_ T2], Ex as [_ T3].
  rewrite T3, T2, T1. now rewrite !app_nil_r.
Qed.

(** *** Where the wait of the data phase stands in the history *)

Lemma free_of_nil (P : call -> bool) : free_of P [].
Proof. reflexivity. Qed.

Lemma free_of_app (P : call -> bool) (l1 l2 : list call) :
  free_of P l1 -> free_of P l2 -> free_of P (l2 ++ l1).
Proof.
  unfold free_of. intros H1 H2. rewrite existsb_app, H1, H2. reflexivity.
Qed.

Lemma free_of_in (P : call -> bool) (l : list call) (c : call) :
  free_of P l -> In c l -> P c = false.
Proof.
  unfold free_of. intros H Hin. destruct (P c) eqn:E; [| reflexivity].
  assert (Ht : existsb P l = true) by (apply existsb_exists; eauto).
  congruence.
Qed.

Lemma phased_free_wait (l : list call) : free_of is_wait l -> phased l.
Proof.
  intros H. exists l, []. rewrite app_nil_r.
  split; [reflexivity |]. split; [exact H | apply free_of_nil].
Qed.

Lemma phased_free_data (l : list call) : free_of is_data_call l -> phased l.
Proof.
  intros H. exists [], l.
  split; [reflexivity |]. split; [apply free_of_nil | exact H].
Qed.

Lemma phased_app (l1 l2 : list call) :
  free_of is_data_call l1 -> phased l2 -> phased (l2 ++ l1).
Proof.
  intros H1 (B & A & -> & HB & HA). exists B, (A ++ l1).
  split; [now rewrite app_assoc |]. split; [exact HB |].
  apply free_of_app; assumption.
Qed.

(** In phased calls no wait stands after a data command. *)
Lemma phased_wait_first (l post mid : list call) (c : call) :
  phased l -> l = post ++ SDIO_EVENTWAIT :: mid ->
  In c mid -> is_data_call c = true -> False.
Proof.
  intros (B & A & -> & HB & HA) E Hin Hc.
  apply app_eq_app in E. destruct E as (l' & [(E1 & E2) | (E1 & E2)]).
  - subst B. destruct l' as [| d l'].
    + cbn [app] in E2. subst A.
      assert (Hf : is_data_call c = false)
        by (apply (free_of_in _ _ _ HA); right; exact Hin).
      congruence.
    + cbn [app] in E2. inversion E2; subst.
      assert (Hf : is_wait SDIO_EVENTWAIT = false).
      { apply (free_of_in _ _ _ HB). apply in_or_app. right. left. reflexivity. }
      discriminate Hf.
  - subst A.
    assert (Hf : is_data_call c = false).
    { apply (free_of_in _ _ _ HA). apply in_or_app. right. right. exact Hin. }
    congruence.
Qed.

(** The wait that follows the data command is the one the tail of the
    routine makes. *)
Lemma data_wait_unique (post post' mid new : list call) (c : call) :
  free_of is_wait post' -> phased new ->
  post ++ SDIO_EVENTWAIT :: mid = post' ++ SDIO_EVENTWAIT :: new ->
  In c mid -> is_data_call c = true ->
  post = post' /\ mid = new.
Proof.
  intros Hp Hn E Hin Hc.
  apply app_eq_app in E. destruct E as (l' & [(E1 & E2) | (E1 & E2)]).
  - destruct l' as [| d l'].
    + cbn [app] in E2. inversion E2; subst. now rewrite app_nil_r.
    + cbn [app] in E2. inversion E2; subst.
      exfalso. exact (phased_wait_first _ _ _ _ Hn eq_refl Hin Hc).
  - destruct l' as [| d l'].
    + cbn [app] in E2. inversion E2; subst. now rewrite app_nil_r.
    + cbn [app] in E2. inversion E2; subst.
      assert (Hf : is_wait SDIO_EVENTWAIT = false).
      { apply (free_of_in _ _ _ Hp). apply in_or_app. right. left. reflexivity. }
      discriminate Hf.
Qed.

(** The observed calls among calls added to the history. *)
Lemma trace_added (w w' : world) (new l : list call) :
  calls w' = new ++ calls w -> trace w' = trace w ++ l ->
  rev (filter is_obs new) = l.
Proof.
  unfold trace. intros E T. rewrite E, filter_app, rev_app_distr in T.
  now apply app_inv_head in T.
Qed.

Lemma adds_weaken {A : Type} (Q Q' : list call -> Prop) (m : M A) :
  (forall l, Q l -> Q' l) -> adds Q m -> adds Q' m.
Proof.
  intros HQ Hm w w' r H. destruct (Hm _ _ _ H) as (C & new & L & Hn).
  split; [exact C |]. exists new. split; [exact L | now apply HQ].
Qed.

Section Adds.

Variable P : call -> bool.

Lemma adds_ret {A : Type} (a : A) : adds (free_of P) (Ret a).
Proof.
  intros w w' r H. inversion H; subst. split; [reflexivity |].
  exists []. split; [reflexivity | apply free_of_nil].
Qed.

Lemma adds_out_of_fuel {A : Type} : adds (free_of P) (@out_of_fuel A).
Proof.
  intros w w' r H. inversion H; subst. split; [reflexivity |].
  exists []. split; [reflexivity | apply free_of_nil].
Qed.

Lemma adds_get_priv : adds (free_of P) get_priv.
Proof.
  intros w w' r H. inversion H; subst. split; [reflexivity |].
  exists []. split; [reflexivity | apply free_of_nil].
Qed.

Lemma adds_response : adds (free_of P) response.
Proof.
  intros w w' r H. inversion H; subst. split; [reflexivity |].
  exists []. split; [reflexivity | apply free_of_nil].
Qed.

Lemma adds_host (c : call) : P c = false -> adds (free_of P) (host c).
Proof.
  intros Hc w w' r H. inversion H; subst. split; [reflexivity |].
  exists [c]. split; [reflexivity |]. unfold free_of. cbn [existsb].
  now rewrite Hc.
Qed.

Lemma adds_modify (f : mmcsd_state_s -> mmcsd_state_s) :
  (forall p, card_obs (f p) = card_obs p) -> adds (free_of P) (modify f).
Proof.
  intros Hf w w' r H. inversion H; subst. split; [apply Hf |].
  exists []. split; [reflexivity | apply free_of_nil].
Qed.

Lemma adds_bind {A B : Type} (m : M A) (k : A -> M B) :
  adds (free_of P) m -> (forall a, adds (free_of P) (k a)) ->
  adds (free_of P) (bind m k).
Proof.
  intros Hm Hk w w' r H. unfold bind in H.
  destruct (m w) as [w1 [a |]] eqn:E.
  - destruct (Hm _ _ _ E) as (C1 & l1 & L1 & Q1).
    destruct (Hk a _ _ _ H) as (C2 & l2 & L2 & Q2).
    split; [congruence |]. exists (l2 ++ l1).
    split; [now rewrite L2, L1, app_assoc | now apply free_of_app].
  - inversion H; subst. exact (Hm _ _ _ E).
Qed.

Lemma adds_host_ (c : call) : P c = false -> adds (free_of P) (host_ c).
Proof.
  intros Hc. unfold host_. apply adds_bind; [now apply adds_host |].
  intros a. apply adds_ret.
Qed.

End Adds.

Lemma leads_adds (Q : list call -> Prop) (T m : M Z) :
  adds Q m -> leads Q T m.
Proof.
  intros Hm w w' r H. left. destruct (Hm _ _ _ H) as (_ & new & L & Hn).
  exists new. split; assumption.
Qed.

Lemma leads_self (Q : list call -> Prop) (T : M Z) : Q [] -> leads Q T T.
Proof.
  intros Hq w w' r H. right. exists w, [].
  split; [reflexivity |]. split; [exact Hq |]. split; [reflexivity | exact H].
Qed.

Lemma leads_weaken (Q Q' : list call -> Prop) (T m : M Z) :
  (forall l, Q l -> Q' l) -> leads Q T m -> leads Q' T m.
Proof.
  intros HQ Hm w w' r H.
  destruct (Hm _ _ _ H) as [(new & L & Hn) | (w1 & new & L & Hn & C & HT)].
  - left. exists new. split; [exact L | now apply HQ].
  - right. exists w1, new. split; [exact L |]. split; [now apply HQ |].
    split; assumption.
Qed.

Lemma leads_bind {A : Type} (Q1 Q2 Q : list call -> Prop) (T : M Z)
      (m : M A) (k : A -> M Z) :
  Q2 [] -> (forall l1 l2, Q1 l1 -> Q2 l2 -> Q (l2 ++ l1)) ->
  adds Q1 m -> (forall a, leads Q2 T (k a)) -> leads Q T (bind m k).
Proof.
  intros Hnil Hc Hm Hk w w' r H. unfold bind in H.
  destruct (m w) as [w1 [a |]] eqn:E;
    destruct (Hm _ _ _ E) as (C1 & l1 & L1 & H1).
  - destruct (Hk a _ _ _ H) as [(l2 & L2 & H2) | (w2 & l2 & L2 & H2 & C2 & HT)].
    + left. exists (l2 ++ l1). split; [now rewrite L2, L1, app_assoc |].
      now apply Hc.
    + right. exists w2, (l2 ++ l1). split; [now rewrite L2, L1, app_assoc |].
      split; [now apply Hc |]. split; [congruence | exact HT].
  - inversion H; subst. left. exists l1. split; [exact L1 |].
    exact (Hc _ _ H1 Hnil).
Qed.

Lemma leads_bind_wait {A : Type} (T : M Z) (m : M A) (k : A -> M Z) :
  adds (free_of is_wait) m -> (forall a, leads (free_of is_wait) T (k a)) ->
  leads (free_of is_wait) T (bind m k).
Proof.
  apply leads_bind; [apply free_of_nil |].
  intros l1 l2. apply free_of_app.
Qed.

Lemma leads_bind_phased {A : Type} (T : M Z) (m : M A) (k : A -> M Z) :
  adds (free_of is_data_call) m -> (forall a, leads phased T (k a)) ->
  leads phased T (bind m k).
Proof.
  apply leads_bind; [apply phased_free_wait, free_of_nil |].
  intros l1 l2. apply phased_app.
Qed.

Lemma leads_adds_phased (T m : M Z) :
  adds (free_of is_data_call) m -> leads phased T m.
Proof.
  intros H. apply leads_adds. revert H. apply adds_weaken.
  exact phased_free_data.
Qed.

Lemma leads_wait_phased (T m : M Z) :
  leads (free_of is_wait) T m -> leads phased T m.
Proof. apply leads_weaken. exact phased_free_wait. Qed.

Create HintDb adds.

#[local] Hint Resolve adds_ret adds_out_of_fuel adds_get_priv adds_response
  adds_host adds_host_ adds_modify : adds.
#[local] Hint Extern 1 (_ = false) => reflexivity : adds.
#[local] Hint Extern 1 (forall p, card_obs (_ p) = card_obs p) =>
  intros ?; reflexivity : adds.

(** Prove [adds] of a routine from its parts. *)
Ltac adds_go :=
  repeat first
    [ solve [auto 3 with adds]
    | progress cbv zeta
    | apply adds_bind; [| intros ?]
    | match goal with
      | |- adds _ (if ?b then _ else _) => destruct b
      | |- adds _ (match ?x with _ => _ end) => destruct x
      end ].

(** The part of a routine that makes no wait, down to its tail. *)
Ltac leads_go :=
  repeat first
    [ progress cbv zeta
    | match goal with
      | |- leads _ _ (if ?b then _ else _) => destruct b
      | |- leads _ ?T ?T => apply leads_self; apply free_of_nil
      end
    | apply leads_bind_wait; [solve [adds_go] | intros ?]
    | apply leads_adds; solve [adds_go] ].

(** The part of a routine that sends no data command. *)
Ltac leads_phase :=
  repeat first
    [ progress cbv zeta
    | match goal with
      | |- leads _ _ (if ?b then _ else _) => destruct b
      end
    | apply leads_bind_phased; [solve [adds_go] | intros ?]
    | apply leads_adds_phased; solve [adds_go] ].

Lemma eventwait_total (failevents : Z) (w : world) :
  exists ev, mmcsd_eventwait failevents w = (logcall SDIO_EVENTWAIT w, Some ev).
Proof.
  unfold mmcsd_eventwait. cbv beta iota delta [bind host Ret].
  fold (logcall SDIO_EVENTWAIT w).
  match goal with |- context [if ?b then _ else _] => destruct b end;
    eexists; reflexivity.
Qed.

(** The wait answers from the host and the history alone. *)
Lemma wait_result_here (w w1 : world) (before : list call) :
  dev (priv w1) = dev (priv w) -> calls w1 = before ->
  snd (mmcsd_eventwait SDIOWAIT_FAIL w1) = wait_result w before.
Proof.
  intros Hd Hc. unfold wait_result, mmcsd_eventwait.
  cbv beta iota delta [bind host Ret]. cbn [priv calls]. rewrite Hd, Hc.
  match goal with |- context [if ?b then _ else _] => destruct b end;
    reflexivity.
Qed.

(** A wait and what follows it, when that makes no other wait. *)
Lemma after_wait {A : Type} (k : Z -> M A) (w w' : world) (r : option A) :
  bind (mmcsd_eventwait SDIOWAIT_FAIL) k w = (w', r) ->
  (forall a, adds (free_of is_wait) (k a)) ->
  exists post, calls w' = post ++ SDIO_EVENTWAIT :: calls w /\
               free_of is_wait post.
Proof.
  intros H Hk. destruct (eventwait_total SDIOWAIT_FAIL w) as (ev & E).
  rewrite (bind_eq _ _ _ _ _ E) in H.
  destruct (Hk _ _ _ _ H) as (_ & new & L & Hn).
  exists new. split; [exact L | exact Hn].
Qed.

(** A run of a routine in whose history a wait follows a data command
    went through the tail of the routine, which made that wait. *)
Lemma data_wait_found (T m : M Z) (w w' : world) (r : option Z)
      (post mid : list call) (c : call) :
  leads phased T m ->
  (forall w1 w2 r2, T w1 = (w2, r2) ->
     exists post', calls w2 = post' ++ SDIO_EVENTWAIT :: calls w1 /\
                   free_of is_wait post') ->
  m w = (w', r) ->
  calls w' = post ++ SDIO_EVENTWAIT :: mid ++ calls w ->
  In c mid -> is_data_call c = true ->
  exists w1, T w1 = (w', r) /\ calls w1 = mid ++ calls w /\
             card_obs (priv w1) = card_obs (priv w) /\
             calls w' = post ++ SDIO_EVENTWAIT :: calls w1.
Proof.
  intros Hl HT H E Hin Hc.
  destruct (Hl _ _ _ H) as [(new & L & Hn) | (w1 & new & L & Hn & C & Ht)].
  - exfalso. rewrite L in E.
    change (post ++ SDIO_EVENTWAIT :: mid ++ calls w)
      with (post ++ (SDIO_EVENTWAIT :: mid) ++ calls w) in E.
    rewrite app_assoc in E. apply app_inv_tail in E.
    exact (phased_wait_first _ _ _ _ Hn E Hin Hc).
  - destruct (HT _ _ _ Ht) as (post' & L' & Hp).
    assert (E' : post ++ SDIO_EVENTWAIT :: mid = post' ++ SDIO_EVENTWAIT :: new).
    { rewrite L', L in E.
      change (post' ++ SDIO_EVENTWAIT :: new ++ calls w)
        with (post' ++ (SDIO_EVENTWAIT :: new) ++ calls w) in E.
      change (post ++ SDIO_EVENTWAIT :: mid ++ calls w)
        with (post ++ (SDIO_EVENTWAIT :: mid) ++ calls w) in E.
      rewrite !app_assoc in E. apply app_inv_tail in E. now symmetry. }
    destruct (data_wait_unique _ _ _ _ _ Hp Hn E' Hin Hc) as (-> & ->).
    exists w1. split; [exact Ht |]. split; [exact L |].
    split; [exact C | exact L'].
Qed.

Lemma stop_needed_card (p q : mmcsd_state_s) :
  card_obs q = card_obs p -> stop_needed q = stop_needed p.
Proof.
  unfold card_obs, stop_needed. intros E. inversion E. congruence.
Qed.

Lemma card_obs_dev (p q : mmcsd_state_s) :
  card_obs q = card_obs p -> dev q = dev p.
Proof. unfold card_obs. intros E. now inversion E. Qed.

Section DataPhase.

Variable cfg : config.

Lemma wait_free_sendcmdpoll (cmd : sdio_cmd) (arg : Z) :
  adds (free_of is_wait) (mmcsd_sendcmdpoll cmd arg).
Proof. unfold mmcsd_sendcmdpoll. adds_go. Qed.

Lemma wait_free_recv_r1 (cmd : sdio_cmd) :
  adds (free_of is_wait) (mmcsd_recv_r1 cmd).
Proof. unfold mmcsd_recv_r1, recvr1. adds_go. Qed.

#[local] Hint Resolve wait_free_sendcmdpoll wait_free_recv_r1 : adds.

Lemma wait_free_stoptransmission :
  adds (free_of is_wait) mmcsd_stoptransmission.
Proof. unfold mmcsd_stoptransmission. adds_go. Qed.

Lemma wait_free_setblocklen (blocklen : Z) :
  adds (free_of is_wait) (mmcsd_setblocklen blocklen).
Proof. unfold mmcsd_setblocklen. adds_go. Qed.

Lemma wait_free_setblockcount (nblocks : Z) :
  adds (free_of is_wait) (mmcsd_setblockcount nblocks).
Proof. unfold mmcsd_setblockcount. adds_go. Qed.

Lemma wait_free_exit (ret : Z) : adds (free_of is_wait) (mmcsd_exit cfg ret).
Proof. unfold mmcsd_exit, dma_supported. adds_go. Qed.

Lemma wait_free_recv_setup (nbytes : Z) :
  adds (free_of is_wait) (recv_setup cfg nbytes).
Proof. unfold recv_setup, dma_supported. adds_go. Qed.

Lemma wait_free_send_setup (nbytes : Z) :
  adds (free_of is_wait) (send_setup cfg nbytes).
Proof. unfold send_setup, dma_supported. adds_go. Qed.

#[local] Hint Resolve wait_free_stoptransmission wait_free_setblocklen
  wait_free_setblockcount wait_free_exit wait_free_recv_setup
  wait_free_send_setup : adds.

Lemma data_free_get_r1 : adds (free_of is_data_call) mmcsd_get_r1.
Proof. unfold mmcsd_get_r1, mmcsd_sendcmdpoll, recvr1. adds_go. Qed.

#[local] Hint Resolve data_free_get_r1 : adds.

Lemma data_free_poll (fuel : nat) (starttime : Z) :
  adds (free_of is_data_call) (transferready_poll cfg fuel starttime).
Proof.
  induction fuel as [| fuel IH]; cbn [transferready_poll];
    unfold transferready_pause, MMCSD_USLEEP; adds_go.
Qed.

#[local] Hint Resolve data_free_poll : adds.

Lemma data_free_transferready (fuel : nat) :
  adds (free_of is_data_call) (mmcsd_transferready cfg fuel).
Proof.
  unfold mmcsd_transferready, transferready_wrcomplete, mmcsd_eventwait.
  adds_go.
Qed.

#[local] Hint Resolve data_free_transferready : adds.

Lemma data_free_partswitch (fuel : nat) (part : Z) :
  adds (free_of is_data_call) (mmcsd_partswitch cfg fuel part).
Proof.
  unfold mmcsd_partswitch, mmcsd_switch, mmcsd_sendcmdpoll, mmcsd_recv_r1,
         recvr1.
  adds_go.
Qed.

Lemma data_free_wrprotected : adds (free_of is_data_call) mmcsd_wrprotected.
Proof. unfold mmcsd_wrprotected. adds_go. Qed.

Lemma data_free_dma_preflight (nbytes : Z) :
  adds (free_of is_data_call) (dma_preflight cfg nbytes).
Proof. unfold dma_preflight, dma_supported. adds_go. Qed.

Lemma data_free_exit (ret : Z) :
  adds (free_of is_data_call) (mmcsd_exit cfg ret).
Proof. unfold mmcsd_exit, dma_supported. adds_go. Qed.

#[local] Hint Resolve data_free_partswitch data_free_wrprotected
  data_free_dma_preflight data_free_exit : adds.

(** mmcsd_writemultiple sends no data command and then makes no wait
    until it comes to the wait of the data phase. *)
Lemma writemultiple_leads (fuel : nat) (part startblock nblocks : Z) :
  leads phased (mmcsd_writemultiple_wait cfg nblocks)
        (mmcsd_writemultiple cfg fuel part startblock nblocks).
Proof.
  unfold mmcsd_writemultiple, mmcsd_writemultiple_xfer.
  leads_phase; apply leads_wait_phased; leads_go.
Qed.

Lemma readmultiple_leads (fuel : nat) (part startblock nblocks : Z) :
  leads phased (mmcsd_readmultiple_wait cfg nblocks)
        (mmcsd_readmultiple cfg fuel part startblock nblocks).
Proof.
  unfold mmcsd_readmultiple, mmcsd_readmultiple_xfer.
  leads_phase; apply leads_wait_phased; leads_go.
Qed.

Lemma writemultiple_wait_calls (nblocks : Z) (w1 w2 : world) (r2 : option Z) :
  mmcsd_writemultiple_wait cfg nblocks w1 = (w2, r2) ->
  exists post, calls w2 = post ++ SDIO_EVENTWAIT :: calls w1 /\
               free_of is_wait post.
Proof.
  unfold mmcsd_writemultiple_wait. intros H. apply after_wait in H.
  - exact H.
  - intros a. unfold mmcsd_writemultiple_done. adds_go.
Qed.

Lemma readmultiple_wait_calls (nblocks : Z) (w1 w2 : world) (r2 : option Z) :
  mmcsd_readmultiple_wait cfg nblocks w1 = (w2, r2) ->
  exists post, calls w2 = post ++ SDIO_EVENTWAIT :: calls w1 /\
               free_of is_wait post.
Proof.
  unfold mmcsd_readmultiple_wait. intros H. apply after_wait in H.
  - exact H.
  - intros a. adds_go.
Qed.

End DataPhase.

(** The STOP command among the calls made after the wait. *)
Lemma stop_after_wait (w1 w' : world) (post : list call) :
  calls w' = post ++ SDIO_EVENTWAIT :: calls w1 ->
  trace w' = trace w1 ++ [SDIO_SENDCMD MMCSD_CMD12 0] ->
  In (SDIO_SENDCMD MMCSD_CMD12 0) post.
Proof.
  intros L T.
  change (post ++ SDIO_EVENTWAIT :: calls w1)
    with (post ++ [SDIO_EVENTWAIT] ++ calls w1) in L.
  rewrite app_assoc in L.
  pose proof (trace_added _ _ _ _ L T) as E.
  rewrite filter_app in E. cbn [filter is_obs] in E. rewrite app_nil_r in E.
  assert (Hin : In (SDIO_SENDCMD MMCSD_CMD12 0) (rev (filter is_obs post)))
    by (rewrite E; left; reflexivity).
  apply in_rev in Hin. now apply filter_In in Hin.
Qed.

(** C2.  In a run of mmcsd_writemultiple on a card that needs the STOP
    command (an SD card without CMD23), when the wait that follows CMD25,
    the wait of the data phase, ends on an error, CMD12 is sent after
    that wait and the routine returns the error of the wait, whatever the
    status of CMD12.  [post] are the calls made after the wait and [mid]
    those made before it, newest first. *)
Theorem C2_write_stop_after_failure (cfg : config) (fuel : nat)
        (part startblock nblocks : Z) (w w' : world) (r : option Z)
        (post mid : list call) (arg ev : Z) :
  stop_needed (priv w) = true ->
  mmcsd_writemultiple cfg fuel part startblock nblocks w = (w', r) ->
  calls w' = post ++ SDIO_EVENTWAIT :: mid ++ calls w ->
  In (SDIO_SENDCMD MMCSD_CMD25 arg) mid ->
  wait_result w (mid ++ calls w) = Some ev -> ev <> OK ->
  r = Some ev /\ In (SDIO_SENDCMD MMCSD_CMD12 0) post.
Proof.
  intros Hs H E Hin Hev Hne.
  destruct (data_wait_found _ _ _ _ _ _ _ _
              (writemultiple_leads cfg fuel part startblock nblocks)
              (writemultiple_wait_calls cfg nblocks) H E Hin eq_refl)
    as (w1 & Ht & L & C & L').
  pose proof (wait_result_here w w1 _ (card_obs_dev _ _ C) L) as Hw.
  rewrite Hev in Hw.
  assert (Hs1 : stop_needed (priv w1) = true)
    by (rewrite (stop_needed_card _ _ C); exact Hs).
  destruct (mmcsd_eventwait SDIOWAIT_FAIL w1) as [wq o] eqn:Eq.
  cbn [snd] in Hw. subst o.
  destruct (writemultiple_wait_failure cfg nblocks w1 wq w' ev r Hs1 Eq Hne Ht)
    as (Hr & T).
  split; [exact Hr |]. exact (stop_after_wait _ _ _ L' T).
Qed.

Lemma C2_write_stop_after_failure_witness :
  calls (fst (mmcsd_writemultiple Scenario.cfg0 1 0 8 4
                Scenario.world_sd_data_fails))
  = [SDIO_RECVR1 MMCSD_CMD12; SDIO_WAITRESPONSE MMCSD_CMD12;
     SDIO_SENDCMD MMCSD_CMD12 0]
    ++ SDIO_EVENTWAIT :: Scenario.write_until_wait /\
  snd (mmcsd_stoptransmission
         {| priv := priv Scenario.world_sd_data_fails;
            calls := SDIO_EVENTWAIT :: Scenario.write_until_wait |})
  = Some (- ETIMEDOUT) /\
  snd (mmcsd_writemultiple Scenario.cfg0 1 0 8 4 Scenario.world_sd_data_fails)
  = Some (- EIO).
Proof.
  split; [reflexivity |]. split; [reflexivity |].
  exact (proj1 (C2_write_stop_after_failure Scenario.cfg0 1 0 8 4
                  Scenario.world_sd_data_fails _ _
                  [SDIO_RECVR1 MMCSD_CMD12; SDIO_WAITRESPONSE MMCSD_CMD12;
                   SDIO_SENDCMD MMCSD_CMD12 0]
                  Scenario.write_until_wait 4096 (- EIO)
                  eq_refl (surjective_pairing _) eq_refl
                  ltac:(vm_compute; tauto) eq_refl ltac:(discriminate))).
Defined.

(** C9.  In a run of mmcsd_readmultiple on an SD card without CMD23, when
    the wait that follows CMD18, the wait of the data phase, succeeds,
    CMD12 is sent after that wait and the routine returns nblocks, as the
    int it goes back through, whatever the status of CMD12: nblocks itself
    for every count an int holds. *)
Theorem C9_read_stop_failure_discarded (cfg : config) (fuel : nat)
        (part startblock nblocks : Z) (w w' : world) (r : option Z)
        (post mid : list call) (arg : Z) :
  stop_needed (priv w) = true ->
  mmcsd_readmultiple cfg fuel part startblock nblocks w = (w', r) ->
  calls w' = post ++ SDIO_EVENTWAIT :: mid ++ calls w ->
  In (SDIO_SENDCMD MMCSD_CMD18 arg) mid ->
  wait_result w (mid ++ calls w) = Some OK ->
  r = Some (to_int cfg nblocks) /\
  (- (INT_MAX cfg + 1) <= nblocks <= INT_MAX cfg -> r = Some nblocks) /\
  In (SDIO_SENDCMD MMCSD_CMD12 0) post.
Proof.
  intros Hs H E Hin Hev.
  destruct (data_wait_found _ _ _ _ _ _ _ _
              (readmultiple_leads cfg fuel part startblock nblocks)
              (readmultiple_wait_calls cfg nblocks) H E Hin eq_refl)
    as (w1 & Ht & L & C & L').
  pose proof (wait_result_here w w1 _ (card_obs_dev _ _ C) L) as Hw.
  rewrite Hev in Hw.
  assert (Hs1 : stop_needed (priv w1) = true)
    by (rewrite (stop_needed_card _ _ C); exact Hs).
  destruct (mmcsd_eventwait SDIOWAIT_FAIL w1) as [wq o] eqn:Eq.
  cbn [snd] in Hw. subst o.
  destruct (readmultiple_wait_stop cfg nblocks w1 wq w' r Hs1 Eq Ht)
    as (Hr & T).
  split; [exact Hr |]. split.
  - intros Hn. rewrite Hr. unfold to_int. now rewrite wrap_signed_small.
  - exact (stop_after_wait _ _ _ L' T).
Qed.

Lemma C9_read_stop_failure_discarded_witness :
  calls (fst (mmcsd_readmultiple Scenario.cfg0 1 0 8 4
                Scenario.world_sd_stop_fails))
  = [SDIO_RECVR1 MMCSD_CMD12; SDIO_WAITRESPONSE MMCSD_CMD12;
     SDIO_SENDCMD MMCSD_CMD12 0]
    ++ SDIO_EVENTWAIT :: Scenario.read_until_wait /\
  snd (mmcsd_stoptransmission
         {| priv := priv Scenario.world_sd_stop_fails;
            calls := SDIO_EVENTWAIT :: Scenario.read_until_wait |})
  = Some (- ETIMEDOUT) /\
  snd (mmcsd_readmultiple Scenario.cfg0 1 0 8 4 Scenario.world_sd_stop_fails)
  = Some 4.
Proof.
  split; [reflexivity |]. split; [reflexivity |].
  destruct (C9_read_stop_failure_discarded Scenario.cfg0 1 0 8 4
              Scenario.world_sd_stop_fails _ _
              [SDIO_RECVR1 MMCSD_CMD12; SDIO_WAITRESPONSE MMCSD_CMD12;
               SDIO_SENDCMD MMCSD_CMD12 0]
              Scenario.read_until_wait 4096
              eq_refl (surjective_pairing _) eq_refl
              ltac:(vm_compute; tauto) eq_refl)
    as (_ & Hr & _).
  apply Hr. vm_compute. split; discriminate.
Defined.


(** ** C10: wrbusy across the CMD6 switch *)

Lemma recv_r1_wrbusy (cmd : sdio_cmd) (w w' : world) (r : option Z) :
  mmcsd_recv_r1 cmd w = (w', r) ->
  wrbusy (priv w') = wrbusy (priv w) /\ exists v, r = Some v.
Proof.
  unfold mmcsd_recv_r1, recvr1. intros H. mred H.
  mif H; [mif H |]; mred H; mleaf H; (split; [reflexivity | eauto]).
Qed.

(** C10.  A call of mmcsd_switch whose transfer-ready check passes sends
    CMD6, stores wrbusy = true and only then reads the R1 status: the
    status is read in a state where wrbusy is already true, and wrbusy is
    true on return whatever the status. *)
Theorem C10_switch_sets_wrbusy (cfg : config) (fuel : nat) (arg : Z)
        (w w1 w' : world) (r : option Z) :
  mmcsd_transferready cfg fuel w = (w1, Some OK) ->
  mmcsd_switch cfg fuel arg w = (w', r) ->
  exists w2 rc,
    mmcsd_sendcmdpoll MMCSD_CMD6 arg w1 = (w2, rc) /\
    mmcsd_recv_r1 MMCSD_CMD6 (setpriv (set_wrbusy true) w2) = (w', r) /\
    wrbusy (priv (setpriv (set_wrbusy true) w2)) = true /\
    wrbusy (priv w') = true /\
    (exists v, r = Some v) /\
    trace w' = trace w ++ [SDIO_SENDCMD MMCSD_CMD6 (to_u32 arg)].
Proof.
  intros Hready H. unfold mmcsd_switch in H.
  rewrite (bind_eq _ _ _ _ _ Hready) in H.
  apply transferready_spec in Hready. destruct Hready as ([_ T1] & _).
  mred H.
  destruct (mmcsd_sendcmdpoll MMCSD_CMD6 arg w1) as [w2 rc] eqn:Ecmd.
  pose proof (sendcmdpoll_spec _ _ _ _ _ Ecmd) as (_ & [_ T2] & v & -> & _).
  cbn [is_obs] in T2. mred H.
  pose proof (recv_r1_wrbusy _ _ _ _ H) as (Hb & Hv).
  pose proof (recv_r1_spec _ _ _ _ H) as ([_ T3] & _).
  exists w2, (Some v). split; [reflexivity |].
  split; [exact H |]. split; [reflexivity |]. split; [rewrite Hb; reflexivity |].
  split; [exact Hv |].
  rewrite T3, trace_setpriv, T2, T1. now rewrite !app_nil_r.
Qed.

Lemma C10_switch_sets_wrbusy_witness :
  wrbusy (priv Scenario.world_emmc_switch_fails) = false /\
  snd (mmcsd_switch Scenario.cfg0 1 0x03B30100 Scenario.world_emmc_switch_fails)
  = Some (- ETIMEDOUT) /\
  wrbusy (priv (fst (mmcsd_switch Scenario.cfg0 1 0x03B30100
                                  Scenario.world_emmc_switch_fails))) = true.
Proof.
  split; [reflexivity |]. split; [reflexivity |].
  destruct (C10_switch_sets_wrbusy Scenario.cfg0 1 0x03B30100
              Scenario.world_emmc_switch_fails _ _ _
              eq_refl (surjective_pairing _))
    as (w2 & rc & _ & _ & _ & Hb & _).
  exact Hb.
Defined.


(** ** C4: the contract of mmcsd_transferready *)

Section Ready.

Variable cfg : config.

Lemma pause_total (w : world) :
  exists w2, transferready_pause cfg w = (w2, Some tt).
Proof.
  unfold transferready_pause.
  destruct (CONFIG_MMCSD_CHECK_READY_STATUS_WITHOUT_SLEEP cfg).
  - eexists. reflexivity.
  - destruct (MMCSD_USLEEP cfg 1000 w) as [w2 r] eqn:E.
    destruct (usleep_spec _ _ _ _ _ E) as (_ & ->). eauto.
Qed.

Lemma get_r1_total (w : world) :
  exists w1 ret r1, mmcsd_get_r1 w = (w1, Some (ret, r1)).
Proof.
  destruct (mmcsd_get_r1 w) as [w1 r] eqn:E.
  destruct (get_r1_spec _ _ _ E) as (_ & v & r1 & -> & _). eauto.
Qed.

(** One round of the loop, after its get_r1. *)
Lemma poll_round (fuel : nat) (start : Z) (w w1 : world) (ret r1 : Z) :
  mmcsd_get_r1 w = (w1, Some (ret, r1)) ->
  transferready_poll cfg (S fuel) start w =
  if negb (ret =? OK) then (w1, Some ret)
  else if IS_STATE r1 MMCSD_R1_STATE_TRAN
       then (setpriv (set_wrbusy false) w1, Some OK)
  else if negb (IS_STATE r1 MMCSD_R1_STATE_PRG) &&
          negb (IS_STATE r1 MMCSD_R1_STATE_RCV)
       then (w1, Some (- EINVAL))
  else match transferready_pause cfg w1 with
       | (w2, Some _) =>
           if elapsed cfg start w2 <? TICK_PER_SEC cfg
           then transferready_poll cfg fuel start (logcall clock_systime_ticks w2)
           else (logcall clock_systime_ticks w2, Some (- ETIMEDOUT))
       | (w2, None) => (w2, None)
       end.
Proof.
  intros G. cbn [transferready_poll]. rewrite (bind_eq _ _ _ _ _ G).
  cbn beta zeta iota delta [fst snd].
  destruct (negb (ret =? OK)); [reflexivity |].
  destruct (IS_STATE r1 MMCSD_R1_STATE_TRAN); [reflexivity |].
  destruct (negb (IS_STATE r1 MMCSD_R1_STATE_PRG) &&
            negb (IS_STATE r1 MMCSD_R1_STATE_RCV)); [reflexivity |].
  unfold bind at 1.
  destruct (transferready_pause cfg w1) as [w2 [[] |]]; [| reflexivity].
  unfold bind, host, elapsed.
  destruct (_ <? _); reflexivity.
Qed.

Lemma poll_polls (fuel : nat) (start : Z) (w w' : world) (v : Z) :
  transferready_poll cfg fuel start w = (w', Some v) -> polls cfg start w w' v.
Proof.
  revert w. induction fuel as [| fuel IH]; intros w H; [discriminate H |].
  destruct (get_r1_total w) as (w1 & ret & r1 & G).
  rewrite (poll_round _ _ _ _ _ _ G) in H.
  destruct (Z.eqb_spec ret OK) as [-> | Hne]; cbn [negb] in H.
  2: { inversion H; subst. eapply polls_error; eassumption. }
  destruct (IS_STATE r1 MMCSD_R1_STATE_TRAN) eqn:Ht.
  { inversion H; subst. eapply polls_tran; eassumption. }
  destruct (IS_STATE r1 MMCSD_R1_STATE_PRG) eqn:Hp;
    [| destruct (IS_STATE r1 MMCSD_R1_STATE_RCV) eqn:Hr];
    cbn [negb andb] in H.
  3: { inversion H; subst. eapply polls_other; eassumption. }
  all: destruct (transferready_pause cfg w1) as [w2 [[] |]] eqn:P;
    [| discriminate H];
    destruct (Z.ltb_spec (elapsed cfg start w2) (TICK_PER_SEC cfg));
    [ eapply polls_retry; try eassumption;
      [rewrite Hp, ?Hr; reflexivity | now apply IH]
    | inversion H; subst; eapply polls_timeout; try eassumption;
      rewrite Hp, ?Hr; reflexivity ].
Qed.

Lemma polls_poll (start : Z) (w w' : world) (v : Z) :
  polls cfg start w w' v ->
  exists fuel, transferready_poll cfg fuel start w = (w', Some v).
Proof.
  induction 1 as [w w1 ret r1 G Hne | w w1 r1 G Ht | w w1 r1 G Ht Hp Hr
                  | w w1 w2 r1 G Ht Hpr P Hel
                  | w w1 w2 w' r1 v G Ht Hpr P Hel _ (fuel & IH)].
  - exists 1%nat. rewrite (poll_round _ _ _ _ _ _ G).
    destruct (Z.eqb_spec ret OK); [contradiction | reflexivity].
  - exists 1%nat. rewrite (poll_round _ _ _ _ _ _ G), Ht. reflexivity.
  - exists 1%nat. rewrite (poll_round _ _ _ _ _ _ G), Ht, Hp, Hr. reflexivity.
  - exists 1%nat. rewrite (poll_round _ _ _ _ _ _ G), Ht, P.
    apply orb_true_iff in Hpr.
    replace (negb (IS_STATE r1 MMCSD_R1_STATE_PRG) &&
             negb (IS_STATE r1 MMCSD_R1_STATE_RCV)) with false
      by (destruct Hpr as [-> | ->]; cbn; now rewrite ?andb_false_r).
    cbn [negb Z.eqb OK].
    destruct (Z.ltb_spec (elapsed cfg start w2) (TICK_PER_SEC cfg)); [lia | reflexivity].
  - exists (S fuel). rewrite (poll_round _ _ _ _ _ _ G), Ht, P.
    apply orb_true_iff in Hpr.
    replace (negb (IS_STATE r1 MMCSD_R1_STATE_PRG) &&
             negb (IS_STATE r1 MMCSD_R1_STATE_RCV)) with false
      by (destruct Hpr as [-> | ->]; cbn; now rewrite ?andb_false_r).
    cbn [negb Z.eqb OK].
    destruct (Z.ltb_spec (elapsed cfg start w2) (TICK_PER_SEC cfg)); [exact IH | lia].
Qed.

Lemma wrcomplete_total (w : world) :
  exists w1, transferready_wrcomplete cfg w = (w1, Some tt).
Proof.
  unfold transferready_wrcomplete.
  destruct (CONFIG_MMCSD_SDIOWAIT_WRCOMPLETE cfg); [| eexists; reflexivity].
  destruct (mmcsd_eventwait (Z.lor SDIOWAIT_TIMEOUT SDIOWAIT_ERROR) w)
    as [w1 r] eqn:E.
  destruct (eventwait_spec _ _ _ _ E) as (_ & _ & v & -> & _).
  exists w1. unfold bind. rewrite E. reflexivity.
Qed.

(** mmcsd_transferready, case by case. *)
Lemma transferready_cases (fuel : nat) (w : world) :
  mmcsd_transferready cfg fuel w =
  if type (priv w) =? MMCSD_CARDTYPE_UNKNOWN then (w, Some (- ENODEV))
  else if present w =? 0 then (logcall SDIO_PRESENT w, Some (- ENODEV))
  else if negb (wrbusy (priv w)) then (logcall SDIO_PRESENT w, Some OK)
  else match transferready_wrcomplete cfg (logcall SDIO_PRESENT w) with
       | (w1, Some _) =>
           transferready_poll cfg fuel
             (to_clock cfg
                (sdio_ret (dev (priv w1)) (clock_systime_ticks :: calls w1)))
             (logcall clock_systime_ticks w1)
       | (w1, None) => (w1, None)
       end.
Proof.
  unfold mmcsd_transferready, present.
  cbv beta iota zeta delta [bind get_priv].
  destruct (type (priv w) =? MMCSD_CARDTYPE_UNKNOWN); [reflexivity |].
  cbv beta iota zeta delta [bind host Ret].
  destruct (_ =? 0); [reflexivity |].
  destruct (negb (wrbusy (priv w))); [reflexivity |].
  destruct (transferready_wrcomplete cfg (logcall SDIO_PRESENT w))
    as [w1 [[] |]]; reflexivity.
Qed.

End Ready.

(** C4.  mmcsd_transferready is the transfer_ready of the spec: -ENODEV
    when the card type is unknown or the host reports the slot empty; OK
    at once when wrbusy is false; otherwise it polls the R1 status, which
    ends with OK and wrbusy cleared when the card is in the TRAN state,
    goes on after a pause while the card is in PRG or RCV and less than
    TICK_PER_SEC ticks went by, ends with -ETIMEDOUT when they did, with
    -EINVAL on any other state, and with the error of get_r1 when that
    fails.  Every such outcome is reached with enough polls, and the
    routine has no other. *)
Theorem C4_transferready_contract (cfg : config) (w w' : world) (v : Z) :
  (exists fuel, mmcsd_transferready cfg fuel w = (w', Some v)) <->
  transfer_ready cfg w w' v.
Proof.
  split.
  - intros (fuel & H). rewrite transferready_cases in H.
    destruct (Z.eqb_spec (type (priv w)) MMCSD_CARDTYPE_UNKNOWN) as [Ht | Ht].
    { inversion H; subst. now apply ready_unknown. }
    destruct (Z.eqb_spec (present w) 0) as [Hp | Hp].
    { inversion H; subst. now apply ready_absent. }
    destruct (wrbusy (priv w)) eqn:Hb; cbn [negb] in H.
    2: { inversion H; subst. now apply ready_idle. }
    destruct (wrcomplete_total cfg (logcall SDIO_PRESENT w)) as (w1 & E).
    rewrite E in H. apply poll_polls in H.
    eapply ready_polled; eassumption.
  - intros H. destruct H as [w Ht | w Ht Hp | w Ht Hp Hb | w w1 w' v Ht Hp Hb E P].
    + exists O. rewrite transferready_cases, Ht. reflexivity.
    + exists O. rewrite transferready_cases, Hp.
      destruct (Z.eqb_spec (type (priv w)) MMCSD_CARDTYPE_UNKNOWN);
        [contradiction | reflexivity].
    + exists O. rewrite transferready_cases, Hb.
      destruct (Z.eqb_spec (type (priv w)) MMCSD_CARDTYPE_UNKNOWN);
        [contradiction |].
      destruct (Z.eqb_spec (present w) 0); [contradiction | reflexivity].
    + destruct (polls_poll _ _ _ _ _ P) as (fuel & Hf).
      exists fuel. rewrite transferready_cases, Hb, E.
      destruct (Z.eqb_spec (type (priv w)) MMCSD_CARDTYPE_UNKNOWN);
        [contradiction |].
      destruct (Z.eqb_spec (present w) 0); [contradiction | exact Hf].
Qed.

Lemma C4_transferready_contract_witness :
  transfer_ready Scenario.cfg0 Scenario.world_sd_busy
    (fst (mmcsd_transferready Scenario.cfg0 2 Scenario.world_sd_busy)) OK /\
  wrbusy (priv (fst (mmcsd_transferready Scenario.cfg0 2 Scenario.world_sd_busy)))
  = false.
Proof.
  split; [| reflexivity].
  apply (proj1 (C4_transferready_contract Scenario.cfg0 Scenario.world_sd_busy _ OK)).
  exists 2%nat. reflexivity.
Defined.


(** ** C1: the result of the CMD56 read *)

(** C1.  mmcsd_general_cmd_read past its lock check and DMA set-up returns
    OK whatever value its variable ret holds on reaching the __exit label:
    the error of the transfer-ready check, of the CMD16 set-up, of the R1
    status of CMD56 or of the wait for the data is lost, and the CMD56
    read of mmcsd_iocmd returns OK as well. *)
Theorem C1_general_cmd_read_returns_ok (cfg : config) (fuel : nat)
        (part startblock nblocks : Z) (w w1 wr : world) (v : Z) :
  locked (priv w) = false ->
  dma_preflight cfg (blocksize (priv w)) w = (w1, Some OK) ->
  mmcsd_general_cmd_read_ret cfg fuel startblock w1 = (wr, Some v) ->
  snd (mmcsd_general_cmd_read cfg fuel startblock w) = Some OK /\
  snd (mmcsd_iocmd cfg fuel part
         {| write_flag := 0; opcode := 56; arg := startblock;
            blocks := nblocks |} w) = Some OK.
Proof.
  intros Hl Hpre Hret.
  assert (H : snd (mmcsd_general_cmd_read cfg fuel startblock w) = Some OK).
  { unfold mmcsd_general_cmd_read.
    cbv beta iota zeta delta [bind get_priv]. rewrite Hl, Hpre.
    cbn [negb Z.eqb OK]. rewrite Hret.
    unfold dma_supported. cbv beta iota zeta delta [bind get_priv Ret host_ host].
    destruct (_ && _); reflexivity. }
  split; [exact H |]. exact H.
Qed.

Lemma C1_general_cmd_read_returns_ok_witness :
  snd (mmcsd_general_cmd_read_ret Scenario.cfg0 1 0 Scenario.world_empty)
  = Some (- ENODEV) /\
  snd (mmcsd_general_cmd_read Scenario.cfg0 1 0 Scenario.world_empty) = Some OK /\
  snd (mmcsd_iocmd Scenario.cfg0 1 0
         {| write_flag := 0; opcode := 56; arg := 0; blocks := 1 |}
         Scenario.world_empty) = Some OK.
Proof.
  split; [reflexivity |].
  exact (C1_general_cmd_read_returns_ok Scenario.cfg0 1 0 0 1
           Scenario.world_empty _ _ (- ENODEV) eq_refl eq_refl eq_refl).
Defined.

(** The write of CMD56 on the same slot does return its error. *)
Lemma general_cmd_write_returns_error :
  snd (mmcsd_general_cmd_write Scenario.cfg0 1 0 Scenario.world_empty)
  = Some (- ENODEV).
Proof. reflexivity. Qed.

(** * More properties of the driver *)

(** ** CSD decoding *)

(** X1.  For every card whose block count is taken from the CSD (a
    byte-addressed card, or a block-addressed MMC card whose C_SIZE is not
    0xFFF), decoding keeps the capacity in bytes: nblocks * blocksize is
    (C_SIZE + 1) * 2^(C_SIZE_MULT + 2) * 2^READ_BL_LEN, whether or not the
    block size was brought down to 512. *)
Theorem X1_decode_csd_capacity (cfg : config) (priv : mmcsd_state_s)
        (csd : list Z) :
  IS_BLOCK (type priv) && negb (CONFIG_MMCSD_MMCSUPPORT cfg && IS_MMC (type priv))
  = false ->
  IS_BLOCK (type priv) = false \/ csd_csize csd <> MMCSD_CSD_CSIZE_THRESHOLD ->
  let priv' := mmcsd_decode_csd cfg priv csd in
  nblocks_of priv' 0 * blocksize priv'
  = (csd_csize csd + 1) * 2 ^ (csd_csizemult csd + 2) * 2 ^ csd_readbllen csd.
Proof.
  intros Hsd Hfrom priv'.
  destruct (decode_csd_native cfg priv csd Hsd) as (Hs & _ & Hn).
  fold priv' in Hs, Hn. rewrite Hs, Hn.
  pose proof (csd_readbllen_range csd) as Hr.
  replace (negb (IS_BLOCK (type priv)) ||
           negb (csd_csize csd =? MMCSD_CSD_CSIZE_THRESHOLD)) with true.
  2: { destruct Hfrom as [-> | Hc]; [reflexivity |].
       apply Z.eqb_neq in Hc. rewrite Hc. now rewrite orb_true_r. }
  destruct (Z.ltb_spec 9 (csd_readbllen csd)) as [H9 | H9]; [| reflexivity].
  assert (E : 2 ^ csd_readbllen csd = 2 ^ (csd_readbllen csd - 9) * 512).
  { change 512 with (2 ^ 9). rewrite <- Z.pow_add_r by lia. f_equal. lia. }
  rewrite E. ring.
Qed.

Lemma X1_decode_csd_capacity_witness :
  nblocks_of (mmcsd_decode_csd Scenario.cfg0 Scenario.slot_sdv1 Scenario.csd_2gb) 0
  * blocksize (mmcsd_decode_csd Scenario.cfg0 Scenario.slot_sdv1 Scenario.csd_2gb)
  = 2147483648.
Proof.
  rewrite (X1_decode_csd_capacity Scenario.cfg0 Scenario.slot_sdv1
             Scenario.csd_2gb eq_refl (or_introl eq_refl)).
  reflexivity.
Defined.

Lemma decode_csd_keeps (cfg : config) (priv : mmcsd_state_s) (csd : list Z) :
  let priv' := mmcsd_decode_csd cfg priv csd in
  dev priv' = dev priv /\ caps priv' = caps priv /\ type priv' = type priv /\
  rca priv' = rca priv /\ wrbusy priv' = wrbusy priv /\
  locked priv' = locked priv /\ cmd23support priv' = cmd23support priv /\
  selblocklen priv' = selblocklen priv /\ partnum priv' = partnum priv /\
  forall i, i <> O -> nblocks_of priv' i = nblocks_of priv i.
Proof.
  unfold mmcsd_decode_csd. cbv zeta.
  repeat match goal with
         | |- context [if ?b then _ else _] => destruct b
         end;
    cbn; repeat split; try reflexivity;
    intros [| i] Hi; try congruence; reflexivity.
Qed.

(** X2.  Decoding a CSD writes dsrimp, wrprotect, blocksize, blockshift and
    the block count of partition 0 and nothing else: the card type, the
    RCA, the selected partition, the lock and busy flags, the cached block
    length and the block counts of the other partitions are as before. *)
Theorem X2_decode_csd_frame (cfg : config) (priv : mmcsd_state_s)
        (csd : list Z) :
  let priv' := mmcsd_decode_csd cfg priv csd in
  dev priv' = dev priv /\ caps priv' = caps priv /\ type priv' = type priv /\
  rca priv' = rca priv /\ wrbusy priv' = wrbusy priv /\
  locked priv' = locked priv /\ cmd23support priv' = cmd23support priv /\
  selblocklen priv' = selblocklen priv /\ partnum priv' = partnum priv /\
  forall i, i <> O -> nblocks_of priv' i = nblocks_of priv i.
Proof. exact (decode_csd_keeps cfg priv csd). Qed.

(** ** The cached block length *)

(** Close a branch whose tests contradict each other. *)
Ltac contra_eqb :=
  exfalso; cbn [priv logcall calls setpriv] in *;
  try match goal with
      | Hb : (- _ =? OK) = true |- _ => vm_compute in Hb; discriminate Hb
      end;
  repeat match goal with
         | Hb : (_ =? _) = false |- _ => apply Z.eqb_neq in Hb
         | Hb : (_ =? _) = true |- _ => apply Z.eqb_eq in Hb
         end;
  congruence.

Lemma sendcmdpoll_priv (cmd : sdio_cmd) (arg : Z) (w w' : world) (r : option Z) :
  mmcsd_sendcmdpoll cmd arg w = (w', r) -> priv w' = priv w.
Proof. intros H. now apply sendcmdpoll_spec in H. Qed.

Lemma setblocklen_ok_len (blocklen : Z) (w w' : world) :
  mmcsd_setblocklen blocklen w = (w', Some OK) ->
  selblocklen (priv w') = to_u32 blocklen.
Proof.
  intros H. unfold mmcsd_setblocklen in H. mred H.
  destruct (Z.eqb_spec (selblocklen (priv w)) (to_u32 blocklen)) as [E | E];
    cbn [negb] in H; mred H.
  - mleaf H. exact E.
  - unfold mmcsd_sendcmdpoll, mmcsd_recv_r1, recvr1 in H. mred H.
    repeat (mif H; mred H); mleaf H; try discriminate; try reflexivity;
      contra_eqb.
Qed.

(** X3.  A block length that CMD16 has selected is remembered: when
    mmcsd_setblocklen returns OK, selblocklen holds the length as a 32-bit
    value, and asking for the same length again returns OK without a call
    on the host. *)
Theorem X3_setblocklen_cached (blocklen : Z) (w w' : world) :
  mmcsd_setblocklen blocklen w = (w', Some OK) ->
  selblocklen (priv w') = to_u32 blocklen /\
  mmcsd_setblocklen blocklen w' = (w', Some OK).
Proof.
  intros H. pose proof (setblocklen_ok_len _ _ _ H) as Hs.
  split; [exact Hs |].
  unfold mmcsd_setblocklen. cbv beta iota zeta delta [bind get_priv].
  rewrite Hs, Z.eqb_refl. reflexivity.
Qed.

Lemma X3_setblocklen_cached_witness :
  selblocklen (priv (fst (mmcsd_setblocklen 512 Scenario.world_sd_byte))) = 512 /\
  calls (fst (mmcsd_setblocklen 512
                (fst (mmcsd_setblocklen 512 Scenario.world_sd_byte))))
  = calls (fst (mmcsd_setblocklen 512 Scenario.world_sd_byte)).
Proof.
  destruct (X3_setblocklen_cached 512 Scenario.world_sd_byte _ eq_refl)
    as (Hs & Hagain).
  split; [exact Hs |]. exact (f_equal (fun x => calls (fst x)) Hagain).
Defined.

(** X4.  A CMD16 that fails is not remembered: when mmcsd_setblocklen
    returns anything but OK, selblocklen is what it was, so the next
    transfer sends CMD16 again. *)
Theorem X4_setblocklen_failure (blocklen : Z) (w w' : world) (v : Z) :
  mmcsd_setblocklen blocklen w = (w', Some v) -> v <> OK ->
  selblocklen (priv w') = selblocklen (priv w) /\
  selblocklen (priv w') <> to_u32 blocklen /\
  In (SDIO_SENDCMD MMCSD_CMD16 (to_u32 blocklen)) (calls w').
Proof.
  intros H Hne. unfold mmcsd_setblocklen in H. mred H.
  destruct (Z.eqb_spec (selblocklen (priv w)) (to_u32 blocklen)) as [E | E];
    cbn [negb] in H; mred H.
  - mleaf H. now elim Hne.
  - unfold mmcsd_sendcmdpoll, mmcsd_recv_r1, recvr1 in H. mred H.
    repeat (mif H; mred H); mleaf H;
      first [ solve [contra_eqb]
            | rewrite ?priv_setpriv, ?priv_logcall, ?calls_setpriv, ?calls_logcall;
              cbn [selblocklen set_locked calls logcall];
              (split; [reflexivity | split; [exact E | cbn; tauto]]) ].
Qed.

Lemma X4_setblocklen_failure_witness :
  selblocklen (priv (fst (mmcsd_setblocklen 512 Examples.world_sd_cmd16_fails)))
  = 0.
Proof.
  destruct (X4_setblocklen_failure 512 Examples.world_sd_cmd16_fails _
              (- ETIMEDOUT) eq_refl ltac:(discriminate)) as (Hs & _).
  exact Hs.
Defined.

(** ** The busy flag *)

Lemma recvr1_priv (cmd : sdio_cmd) (w w' : world) (r : option (Z * Z)) :
  recvr1 cmd w = (w', r) -> priv w' = priv w /\ exists v, r = Some v.
Proof.
  unfold recvr1. intros H. mred H. mleaf H. split; [reflexivity | eauto].
Qed.

Lemma get_r1_busy (w w' : world) (r : option (Z * Z)) :
  mmcsd_get_r1 w = (w', r) -> wrbusy (priv w') = wrbusy (priv w).
Proof.
  unfold mmcsd_get_r1, mmcsd_sendcmdpoll, recvr1. intros H. mred H.
  repeat (mif H; mred H); mleaf H; reflexivity.
Qed.

Lemma pause_priv (cfg : config) (w w' : world) (r : option unit) :
  transferready_pause cfg w = (w', r) -> priv w' = priv w.
Proof.
  unfold transferready_pause, MMCSD_USLEEP. intros H.
  destruct (CONFIG_MMCSD_CHECK_READY_STATUS_WITHOUT_SLEEP cfg); mred H;
    [mleaf H; reflexivity |].
  destruct (CONFIG_BOARD_COREDUMP_BLKDEV cfg); mred H;
    [mif H; mred H |]; mleaf H; reflexivity.
Qed.

Lemma wrcomplete_priv (cfg : config) (w w' : world) (r : option unit) :
  transferready_wrcomplete cfg w = (w', r) -> priv w' = priv w.
Proof.
  unfold transferready_wrcomplete, mmcsd_eventwait. intros H.
  destruct (CONFIG_MMCSD_SDIOWAIT_WRCOMPLETE cfg); mred H;
    [mif H; mred H |]; mleaf H; reflexivity.
Qed.

(** The polling loop only ever clears wrbusy, and has cleared it when it
    ends with OK. *)
Lemma poll_busy (cfg : config) (fuel : nat) (start : Z) (w w' : world)
      (r : option Z) :
  transferready_poll cfg fuel start w = (w', r) ->
  (r = Some OK -> wrbusy (priv w') = false) /\
  (wrbusy (priv w') = true -> wrbusy (priv w) = true).
Proof.
  revert w. induction fuel as [| fuel IH]; intros w H.
  - inversion H; subst. split; [discriminate | auto].
  - destruct (get_r1_total w) as (w1 & ret & r1 & G).
    pose proof (get_r1_busy _ _ _ G) as B1.
    rewrite (poll_round _ _ _ _ _ _ _ G) in H.
    destruct (Z.eqb_spec ret OK) as [-> | Hne]; cbn [negb] in H.
    2: { inversion H; subst. split; [congruence | now rewrite B1]. }
    destruct (IS_STATE r1 MMCSD_R1_STATE_TRAN).
    { inversion H; subst. rewrite priv_setpriv. cbn [wrbusy set_wrbusy].
      split; [reflexivity | discriminate]. }
    destruct (negb (IS_STATE r1 MMCSD_R1_STATE_PRG) &&
              negb (IS_STATE r1 MMCSD_R1_STATE_RCV)).
    { inversion H; subst. split; [discriminate | now rewrite B1]. }
    destruct (transferready_pause cfg w1) as [w2 [[] |]] eqn:P.
    2: { inversion H; subst. split; [discriminate |].
         rewrite (pause_priv _ _ _ _ P). now rewrite B1. }
    pose proof (pause_priv _ _ _ _ P) as B2.
    destruct (elapsed cfg start w2 <? TICK_PER_SEC cfg).
    + apply IH in H. destruct H as (H1 & H2). split; [exact H1 |].
      intros Hb. specialize (H2 Hb). rewrite priv_logcall, B2, B1 in H2.
      exact H2.
    + inversion H; subst. split; [discriminate |].
      rewrite priv_logcall, B2, B1. auto.
Qed.

Lemma transferready_busy (cfg : config) (fuel : nat) (w w' : world)
      (r : option Z) :
  mmcsd_transferready cfg fuel w = (w', r) ->
  (r = Some OK -> wrbusy (priv w') = false) /\
  (wrbusy (priv w') = true -> wrbusy (priv w) = true).
Proof.
  intros H. rewrite transferready_cases in H.
  destruct (type (priv w) =? MMCSD_CARDTYPE_UNKNOWN).
  { inversion H; subst. split; [discriminate | auto]. }
  destruct (present w =? 0).
  { inversion H; subst. split; [discriminate | auto]. }
  destruct (wrbusy (priv w)) eqn:Hb; cbn [negb] in H.
  2: { inversion H; subst. rewrite priv_logcall. split; [auto | congruence]. }
  destruct (transferready_wrcomplete cfg (logcall SDIO_PRESENT w))
    as [w1 [[] |]] eqn:E.
  2: { inversion H; subst. split; [discriminate | auto]. }
  apply poll_busy in H. destruct H as (H1 & _). split; [exact H1 | auto].
Qed.

(** X5.  mmcsd_transferready returns OK only for a card of a known type
    that the host reports present, and then wrbusy is false: after an OK
    no write is pending on the card.  It never sets wrbusy. *)
Theorem X5_transferready_ok (cfg : config) (fuel : nat) (w w' : world)
        (r : option Z) :
  mmcsd_transferready cfg fuel w = (w', r) ->
  (r = Some OK ->
   wrbusy (priv w') = false /\
   type (priv w) <> MMCSD_CARDTYPE_UNKNOWN /\ present w <> 0) /\
  (wrbusy (priv w') = true -> wrbusy (priv w) = true).
Proof.
  intros H. destruct (transferready_busy _ _ _ _ _ H) as (H1 & H2).
  split; [| exact H2]. intros Hr. split; [exact (H1 Hr) |].
  subst r. rewrite transferready_cases in H.
  destruct (Z.eqb_spec (type (priv w)) MMCSD_CARDTYPE_UNKNOWN) as [E | E];
    [discriminate H |].
  destruct (Z.eqb_spec (present w) 0) as [P | P]; [discriminate H |].
  split; assumption.
Qed.

Lemma X5_transferready_ok_witness :
  wrbusy (priv Scenario.world_sd_busy) = true /\
  wrbusy (priv (fst (mmcsd_transferready Scenario.cfg0 2 Scenario.world_sd_busy)))
  = false.
Proof.
  split; [reflexivity |].
  destruct (X5_transferready_ok Scenario.cfg0 2 Scenario.world_sd_busy _ _
              (surjective_pairing _)) as (H & _).
  destruct (H eq_refl) as (Hb & _). exact Hb.
Defined.

(** ** Refused transfers *)

(** X6.  On a locked card every data routine refuses at once: the four
    block transfers, the EXT_CSD read and the two CMD56 routines return
    -EPERM and make no call on the host and no change to the slot. *)
Theorem X6_locked_refuses (cfg : config) (fuel : nat) (part startblock : Z)
        (t : transfer) (w : world) :
  locked (priv w) = true ->
  run_transfer cfg fuel part t w = (w, Some (- EPERM)) /\
  mmcsd_read_extcsd cfg fuel w = (w, Some (- EPERM)) /\
  mmcsd_general_cmd_read cfg fuel startblock w = (w, Some (- EPERM)) /\
  mmcsd_general_cmd_write cfg fuel startblock w = (w, Some (- EPERM)).
Proof.
  intros Hl. repeat split.
  - destruct t; cbn [run_transfer];
      unfold mmcsd_readsingle, mmcsd_readmultiple, mmcsd_writesingle,
             mmcsd_writemultiple, mmcsd_wrprotected;
      cbv beta iota zeta delta [bind get_priv Ret];
      rewrite Hl, ?orb_true_r; reflexivity.
  - unfold mmcsd_read_extcsd. cbv beta iota zeta delta [bind get_priv Ret].
    rewrite Hl. reflexivity.
  - unfold mmcsd_general_cmd_read. cbv beta iota zeta delta [bind get_priv Ret].
    rewrite Hl. reflexivity.
  - unfold mmcsd_general_cmd_write, mmcsd_wrprotected.
    cbv beta iota zeta delta [bind get_priv Ret].
    rewrite Hl, ?orb_true_r. reflexivity.
Qed.

Lemma X6_locked_refuses_witness :
  run_transfer Scenario.cfg0 1 0 (WriteMultiple 0 4) Scenario.world_emmc_locked
  = (Scenario.world_emmc_locked, Some (- EPERM)).
Proof.
  exact (proj1 (X6_locked_refuses Scenario.cfg0 1 0 0 (WriteMultiple 0 4)
                  Scenario.world_emmc_locked eq_refl)).
Defined.

(** X7.  A write to a write-protected card is refused before anything
    else is done: with the write-protect bit of the CSD set the write
    routines return -EPERM without a call on the host, and with the bit
    clear but the host reporting its switch closed they return -EPERM
    after that one query; either way no partition switch is made. *)
Theorem X7_write_protected (cfg : config) (fuel : nat) (part : Z)
        (t : transfer) (w : world) :
  transfer_cmd t = MMCSD_CMD24 \/ transfer_cmd t = MMCSD_CMD25 ->
  (wrprotect (priv w) = true ->
   run_transfer cfg fuel part t w = (w, Some (- EPERM))) /\
  (wrprotect (priv w) = false -> locked (priv w) = false ->
   sdio_ret (dev (priv w)) (SDIO_WRPROTECTED :: calls w) <> 0 ->
   run_transfer cfg fuel part t w
   = (logcall SDIO_WRPROTECTED w, Some (- EPERM))).
Proof.
  intros Ht. split.
  - intros Hw.
    destruct t; cbn [transfer_cmd] in Ht; try (destruct Ht; discriminate);
      cbn [run_transfer];
      unfold mmcsd_writesingle, mmcsd_writemultiple, mmcsd_wrprotected;
      cbv beta iota zeta delta [bind get_priv Ret];
      rewrite Hw; reflexivity.
  - intros Hw Hl Hs. apply Z.eqb_neq in Hs.
    destruct t; cbn [transfer_cmd] in Ht; try (destruct Ht; discriminate);
      cbn [run_transfer];
      unfold mmcsd_writesingle, mmcsd_writemultiple, mmcsd_wrprotected;
      cbv beta iota zeta delta [bind get_priv Ret host];
      rewrite Hw, Hl; cbn [orb]; rewrite Hs; reflexivity.
Qed.

Lemma X7_write_protected_witness :
  run_transfer Scenario.cfg0 1 0 (WriteSingle 7) Examples.world_sd_switch_closed
  = (logcall SDIO_WRPROTECTED Examples.world_sd_switch_closed, Some (- EPERM)).
Proof.
  exact (proj2 (X7_write_protected Scenario.cfg0 1 0 (WriteSingle 7)
                  Examples.world_sd_switch_closed (or_introl eq_refl))
               eq_refl eq_refl ltac:(discriminate)).
Defined.

(** ** The busy flag across a transfer *)

Section Busy.

Variable cfg : config.

Lemma exit_priv (ret : Z) (w w' : world) (r : option Z) :
  mmcsd_exit cfg ret w = (w', r) -> priv w' = priv w /\ r = Some ret.
Proof.
  unfold mmcsd_exit, dma_supported. intros H. mred H.
  mif H; mred H; mleaf H; (split; reflexivity).
Qed.

Lemma exit_busy (ret : Z) (w w' : world) (r : option Z) :
  mmcsd_exit cfg ret w = (w', r) -> wrbusy (priv w') = wrbusy (priv w).
Proof. intros H. apply exit_priv in H. destruct H as (-> & _). reflexivity. Qed.

Lemma preflight_busy (nbytes : Z) (w w' : world) (r : option Z) :
  dma_preflight cfg nbytes w = (w', r) -> wrbusy (priv w') = wrbusy (priv w).
Proof.
  unfold dma_preflight, dma_supported. intros H. mred H.
  mif H; mred H; [mif H; mred H |]; mleaf H; reflexivity.
Qed.

Lemma recv_setup_busy (nbytes : Z) (w w' : world) (r : option Z) :
  recv_setup cfg nbytes w = (w', r) -> wrbusy (priv w') = wrbusy (priv w).
Proof.
  unfold recv_setup, dma_supported. intros H. mred H.
  mif H; mred H; [mif H; mred H |]; mleaf H; reflexivity.
Qed.

Lemma send_setup_busy (nbytes : Z) (w w' : world) (r : option Z) :
  send_setup cfg nbytes w = (w', r) -> wrbusy (priv w') = wrbusy (priv w).
Proof.
  unfold send_setup, dma_supported. intros H. mred H.
  mif H; mred H; [mif H; mred H |]; mleaf H; reflexivity.
Qed.

Lemma sendcmdpoll_busy (cmd : sdio_cmd) (arg : Z) (w w' : world) (r : option Z) :
  mmcsd_sendcmdpoll cmd arg w = (w', r) -> wrbusy (priv w') = wrbusy (priv w).
Proof. intros H. now rewrite (sendcmdpoll_priv _ _ _ _ _ H). Qed.

Lemma recv_r1_busy (cmd : sdio_cmd) (w w' : world) (r : option Z) :
  mmcsd_recv_r1 cmd w = (w', r) -> wrbusy (priv w') = wrbusy (priv w).
Proof. intros H. now apply recv_r1_wrbusy in H. Qed.

Lemma eventwait_busy (ev : Z) (w w' : world) (r : option Z) :
  mmcsd_eventwait ev w = (w', r) -> wrbusy (priv w') = wrbusy (priv w).
Proof. intros H. apply eventwait_spec in H. destruct H as (-> & _). reflexivity. Qed.

Lemma stoptransmission_busy (w w' : world) (r : option Z) :
  mmcsd_stoptransmission w = (w', r) -> wrbusy (priv w') = wrbusy (priv w).
Proof.
  unfold mmcsd_stoptransmission. intros H. mred H.
  destruct (mmcsd_sendcmdpoll MMCSD_CMD12 0 w) as [w1 o] eqn:E.
  pose proof (sendcmdpoll_busy _ _ _ _ _ E) as B.
  destruct o; mred H; [| mleaf H; exact B].
  apply recv_r1_busy in H. congruence.
Qed.

Lemma setblocklen_busy (blocklen : Z) (w w' : world) (r : option Z) :
  mmcsd_setblocklen blocklen w = (w', r) -> wrbusy (priv w') = wrbusy (priv w).
Proof.
  unfold mmcsd_setblocklen, mmcsd_sendcmdpoll, mmcsd_recv_r1, recvr1.
  intros H. mred H. repeat (mif H; mred H); mleaf H; reflexivity.
Qed.

Lemma setblockcount_busy (nblocks : Z) (w w' : world) (r : option Z) :
  mmcsd_setblockcount nblocks w = (w', r) -> wrbusy (priv w') = wrbusy (priv w).
Proof.
  unfold mmcsd_setblockcount, mmcsd_sendcmdpoll, mmcsd_recv_r1, recvr1.
  intros H. mred H. repeat (mif H; mred H); mleaf H; reflexivity.
Qed.

End Busy.

(** Split on the helper call [H] is stuck on, keeping what the helper does
    to wrbusy beside its status. *)
Ltac bcall H :=
  lazymatch type of H with
  | ?L = _ =>
    let Y := scrut L in
    let w1 := fresh "w" in
    let o := fresh "o" in
    let E := fresh "E" in
    let B := fresh "B" in
    destruct Y as [w1 o] eqn:E;
    pose proof E as B;
    lazymatch type of E with
    | dma_preflight _ _ _ = _ =>
        apply preflight_busy in B; apply dma_preflight_spec in E
    | mmcsd_transferready _ _ _ = _ =>
        apply transferready_busy in B; apply transferready_spec in E
    | mmcsd_setblocklen _ _ = _ =>
        apply setblocklen_busy in B; apply setblocklen_spec in E
    | mmcsd_setblockcount _ _ = _ =>
        apply setblockcount_busy in B; apply setblockcount_spec in E
    | recv_setup _ _ _ = _ =>
        apply recv_setup_busy in B; apply recv_setup_spec in E
    | send_setup _ _ _ = _ =>
        apply send_setup_busy in B; apply send_setup_spec in E
    | mmcsd_sendcmdpoll _ _ _ = _ =>
        apply sendcmdpoll_busy in B; apply sendcmdpoll_spec' in E
    | mmcsd_recv_r1 _ _ = _ =>
        apply recv_r1_busy in B; apply recv_r1_spec in E
    | mmcsd_eventwait _ _ = _ =>
        apply eventwait_busy in B; apply eventwait_spec' in E
    | mmcsd_stoptransmission _ = _ =>
        apply stoptransmission_busy in B; apply stoptransmission_spec in E
    end
  end.

(** A status of the host cannot be the positive count of a success. *)
Ltac not_positive He :=
  exfalso;
  repeat match goal with
         | S : status _ (Some _) |- _ =>
           let v' := fresh "v" in
           let E := fresh "E" in
           let Hle := fresh "Hle" in
           destruct S as (v' & E & Hle); inversion E; subst; clear E
         end;
  repeat match goal with
         | Hs : errno_host _ -> _ <= 0 |- _ => specialize (Hs He)
         end;
  lia.

(** wrbusy at the end of the run, from what each helper did to it. *)
Ltac busy_chain :=
  repeat first
    [ rewrite priv_logcall
    | rewrite priv_setpriv
    | progress cbn [wrbusy set_wrbusy set_locked set_selblocklen set_partnum]
    | match goal with
      | B : wrbusy (priv ?x) = _ |- context [wrbusy (priv ?x)] => rewrite B
      end ];
  first
    [ reflexivity
    | assumption
    | match goal with
      | T : (Some ?v = Some OK -> wrbusy (priv ?x) = false) /\ _
        |- wrbusy (priv ?x) = false =>
          apply (proj1 T); f_equal; apply Z.eqb_eq, negb_false_iff; assumption
      end ].

(** A leaf of the run: the result and the end world are known; [close]
    proves the goal there. *)
Ltac bleaf close H :=
  lazymatch type of H with
  | (_, _) = (_, _) => inversion H; subst; clear H; solve [close]
  | mmcsd_exit _ _ _ = _ =>
      let P := fresh "P" in
      let R := fresh "R" in
      pose proof H as P; apply exit_priv in P; destruct P as (P & R);
      inversion R; subst; clear R; rewrite ?P; solve [close]
  end.

(** One step of a routine made of helper calls and tests. *)
Ltac bstep close Acc H :=
  mred H;
  lazymatch type of H with
  | (_, _) = (_, _) => bleaf close H
  | mmcsd_exit _ _ _ = _ => bleaf close H
  | _ =>
    first [ bcall H;
            lazymatch goal with E : emits _ _ _ /\ _ |- _ => advance Acc E end
          | mif H ]
  end.

Section BusyTransfers.

Variable cfg : config.

Lemma readsingle_xfer_busy (fuel : nat) (startblock : Z) (w w' : world) (v : Z) :
  errno_host (dev (priv w)) -> 0 < v ->
  mmcsd_readsingle_xfer cfg fuel startblock w = (w', Some v) ->
  wrbusy (priv w') = false.
Proof.
  intros He Hv H. unfold mmcsd_readsingle_xfer, mmcsd_readsingle_wait in H.
  pose proof (emits_refl w) as Acc.
  repeat bstep ltac:(first [ solve [not_positive He] | solve [busy_chain] ]) Acc H.
Qed.

Lemma readmultiple_xfer_busy (fuel : nat) (nbytes startblock nblocks : Z)
      (w w' : world) (v : Z) :
  errno_host (dev (priv w)) -> 0 < v ->
  mmcsd_readmultiple_xfer cfg fuel nbytes startblock nblocks w = (w', Some v) ->
  wrbusy (priv w') = false.
Proof.
  intros He Hv H. unfold mmcsd_readmultiple_xfer, mmcsd_readmultiple_wait in H.
  pose proof (emits_refl w) as Acc.
  repeat bstep ltac:(first [ solve [not_positive He] | solve [busy_chain] ]) Acc H.
Qed.

Lemma writesingle_xfer_busy (fuel : nat) (startblock : Z) (w w' : world) (v : Z) :
  errno_host (dev (priv w)) -> 0 < v ->
  mmcsd_writesingle_xfer cfg fuel startblock w = (w', Some v) ->
  wrbusy (priv w') = true.
Proof.
  intros He Hv H. unfold mmcsd_writesingle_xfer, mmcsd_writesingle_wait in H.
  pose proof (emits_refl w) as Acc.
  repeat bstep ltac:(first [ solve [not_positive He] | solve [busy_chain] ]) Acc H.
Qed.

Lemma writemultiple_xfer_busy (fuel : nat) (nbytes startblock nblocks : Z)
      (w w' : world) (v : Z) :
  errno_host (dev (priv w)) -> 0 < v ->
  mmcsd_writemultiple_xfer cfg fuel nbytes startblock nblocks w = (w', Some v) ->
  wrbusy (priv w') = true.
Proof.
  intros He Hv H.
  unfold mmcsd_writemultiple_xfer, mmcsd_writemultiple_wait,
         mmcsd_writemultiple_done in H.
  pose proof (emits_refl w) as Acc.
  repeat bstep ltac:(first [ solve [not_positive He] | solve [busy_chain] ]) Acc H.
Qed.

End BusyTransfers.

(** A transfer routine that returns a positive count has passed its
    check, switched the partition with OK and run its transfer part. *)
Lemma transfer_positive (cfg : config) (fuel : nat) (part : Z) (t : transfer)
      (w w' : world) (v : Z) :
  errno_host (dev (priv w)) -> 0 < v ->
  run_transfer cfg fuel part t w = (w', Some v) ->
  exists w1, dev (priv w1) = dev (priv w) /\
             transfer_xfer cfg fuel (priv w) t w1 = (w', Some v).
Proof.
  intros He Hv H.
  assert (Hgo : forall (wg : world) (xfer : M Z),
             dev (priv wg) = dev (priv w) ->
             (ret <- mmcsd_partswitch cfg fuel part ;;
              if negb (ret =? OK) then Ret ret else xfer) wg = (w', Some v) ->
             exists w1, dev (priv w1) = dev (priv w) /\ xfer w1 = (w', Some v)).
  { intros wg xfer Hd Hx. mred Hx. mcall Hx partswitch_spec.
    destruct E as (Hc & S & _).
    destruct o as [v0 |]; mred Hx; [| discriminate Hx].
    mif Hx; mred Hx.
    - inversion Hx; subst. exfalso.
      assert (v <= 0); [| lia].
      apply (S v eq_refl). now rewrite Hd.
    - exists w0. split; [| exact Hx].
      rewrite (same_card_dev _ _ Hc). exact Hd. }
  destruct t; cbn [run_transfer transfer_xfer] in *.
  - unfold mmcsd_readsingle in H. mred H. mif H; mred H.
    + inversion H; subst. unfold EPERM in Hv. lia.
    + apply (Hgo w _ eq_refl H).
  - unfold mmcsd_readmultiple in H. mred H. mif H; mred H.
    + inversion H; subst. unfold EPERM in Hv. lia.
    + apply (Hgo w _ eq_refl H).
  - unfold mmcsd_writesingle in H. mred H. mcall H wrprotected_spec.
    destruct E as (Eg & b & ->). mred H. destruct b; mred H.
    + inversion H; subst. unfold EPERM in Hv. lia.
    + apply (Hgo w0 _ (emits_dev _ _ _ Eg) H).
  - unfold mmcsd_writemultiple in H. mred H. mcall H wrprotected_spec.
    destruct E as (Eg & b & ->). mred H. destruct b; mred H.
    + inversion H; subst. unfold EPERM in Hv. lia.
    + apply (Hgo w0 _ (emits_dev _ _ _ Eg) H).
Qed.

(** X8.  A write that returns a positive count leaves wrbusy set, so the
    next transfer polls the card before it starts (statuses of the host
    being OK or negative). *)
Theorem X8_write_sets_busy (cfg : config) (fuel : nat) (part : Z) (t : transfer)
        (w w' : world) (v : Z) :
  transfer_cmd t = MMCSD_CMD24 \/ transfer_cmd t = MMCSD_CMD25 ->
  errno_host (dev (priv w)) -> 0 < v ->
  run_transfer cfg fuel part t w = (w', Some v) ->
  wrbusy (priv w') = true.
Proof.
  intros Ht He Hv H.
  destruct (transfer_positive cfg fuel part t w w' v He Hv H) as (w1 & Hd & Hx).
  rewrite <- Hd in He.
  destruct t; cbn [transfer_cmd] in Ht; try (destruct Ht; discriminate);
    cbn [transfer_xfer] in Hx.
  - eapply writesingle_xfer_busy; eassumption.
  - eapply writemultiple_xfer_busy; eassumption.
Qed.

Lemma X8_write_sets_busy_witness :
  wrbusy (priv Scenario.world_sd_byte) = false /\
  wrbusy (priv (fst (run_transfer Scenario.cfg0 1 0 (WriteMultiple 8 4)
                                  Scenario.world_sd_byte))) = true.
Proof.
  split; [reflexivity |].
  apply (X8_write_sets_busy Scenario.cfg0 1 0 (WriteMultiple 8 4)
           Scenario.world_sd_byte _ 4 (or_intror eq_refl)).
  - intros c tr Hc. destruct c; try discriminate Hc; cbn; lia.
  - lia.
  - reflexivity.
Defined.

(** X9.  A read that returns a positive count leaves wrbusy clear, also
    when it began with a partition switch, which sets it: the card was
    seen in the transfer state before the read started (statuses of the
    host being OK or negative). *)
Theorem X9_read_clears_busy (cfg : config) (fuel : nat) (part : Z)
        (t : transfer) (w w' : world) (v : Z) :
  transfer_cmd t = MMCSD_CMD17 \/ transfer_cmd t = MMCSD_CMD18 ->
  errno_host (dev (priv w)) -> 0 < v ->
  run_transfer cfg fuel part t w = (w', Some v) ->
  wrbusy (priv w') = false.
Proof.
  intros Ht He Hv H.
  destruct (transfer_positive cfg fuel part t w w' v He Hv H) as (w1 & Hd & Hx).
  rewrite <- Hd in He.
  destruct t; cbn [transfer_cmd] in Ht; try (destruct Ht; discriminate);
    cbn [transfer_xfer] in Hx.
  - eapply readsingle_xfer_busy; eassumption.
  - eapply readmultiple_xfer_busy; eassumption.
Qed.

Lemma X9_read_clears_busy_witness :
  wrbusy (priv (fst (run_transfer Scenario.cfg0 1 1 (ReadSingle 0)
                                  Scenario.world_emmc))) = false /\
  partnum (priv (fst (run_transfer Scenario.cfg0 1 1 (ReadSingle 0)
                                   Scenario.world_emmc))) = 1.
Proof.
  split; [| reflexivity].
  apply (X9_read_clears_busy Scenario.cfg0 1 1 (ReadSingle 0)
           Scenario.world_emmc _ 1 (or_introl eq_refl)).
  - intros c tr Hc. destruct c; try discriminate Hc; cbn; lia.
  - lia.
  - reflexivity.
Defined.

(** ** The block-device read and write *)

Section Blocks.

Variable cfg : config.

(** The loop of mmcsd_read ends with the count it was given or with the
    negative status of the chunk that failed. *)
Lemma read_loop_result (fuel : nat) (part endsector ret : Z) :
  forall (iter : nat) (sector : Z) (w w' : world) (v : Z),
    mmcsd_read_loop cfg iter fuel part sector endsector ret w = (w', Some v) ->
    v = ret \/ v < 0.
Proof.
  induction iter as [| iter IH]; intros sector w w' v H;
    cbn [mmcsd_read_loop] in H;
    destruct (Z.ltb_spec sector endsector) as [Hs | Hs];
    try (inversion H; subst; now left); try discriminate H.
  mred H.
  destruct (mmcsd_read_chunk cfg fuel part sector endsector w)
    as [w1 [n |]] eqn:E; mred H; [| discriminate H].
  destruct (Z.ltb_spec n 0) as [Hn | Hn]; mred H.
  - inversion H; subst. now right.
  - eapply IH. exact H.
Qed.

Lemma read_count_or_error (fuel : nat) (part startsector nsectors : Z)
      (w w' : world) (v : Z) :
  mmcsd_read cfg fuel part startsector nsectors w = (w', Some v) ->
  v = to_ssize cfg nsectors \/ v < 0.
Proof.
  intros H. unfold mmcsd_read in H.
  destruct (Z.ltb_spec 0 nsectors) as [Hn | Hn];
    [| inversion H; subst; now left].
  mred H. mcall H lock_spec. destruct E as (El & v0 & ->). mred H.
  destruct (Z.ltb_spec v0 0) as [Hv | Hv]; mred H.
  - inversion H; subst. now right.
  - lazymatch type of H with
    | (match ?X with _ => _ end) = _ =>
        destruct X as [w1 [v1 |]] eqn:E; mred H; [| discriminate H]
    end.
    apply read_loop_result in E.
    mcall H unlock_spec. destruct E0 as (_ & ->). mred H.
    inversion H; subst. exact E.
Qed.

(** X10.  mmcsd_read is all or nothing in what it returns: the count it
    was asked for, as the ssize_t it goes back through, or a negative
    status, never the count of the sectors read before a chunk failed.
    For every count that is a value of the unsigned type as wide as
    ssize_t this is the count itself or a negative value. *)
Theorem X10_read_all_or_error (fuel : nat) (part startsector nsectors : Z)
        (w w' : world) (v : Z) :
  mmcsd_read cfg fuel part startsector nsectors w = (w', Some v) ->
  (v = to_ssize cfg nsectors \/ v < 0) /\
  (0 <= nsectors <= 2 * SSIZE_MAX cfg + 1 -> v = nsectors \/ v < 0).
Proof.
  intros H. apply read_count_or_error in H. split; [exact H |].
  intros Hn. destruct H as [-> | Hv]; [| now right].
  exact (wrap_signed_unsigned_range _ _ Hn).
Qed.

End Blocks.

Lemma X10_read_all_or_error_witness :
  snd (mmcsd_read Scenario.cfg0 1 0 0 5 Examples.world_sd_third_fails)
  = Some (- ETIMEDOUT) /\
  xfers (trace (fst (mmcsd_read Scenario.cfg0 1 0 0 5
                                Examples.world_sd_third_fails)))
  = [SDIO_BLOCKSETUP 512 2; SDIO_SENDCMD MMCSD_CMD18 0;
     SDIO_BLOCKSETUP 512 2; SDIO_SENDCMD MMCSD_CMD18 1024;
     SDIO_BLOCKSETUP 512 1; SDIO_SENDCMD MMCSD_CMD17 2048].
Proof.
  split; [| reflexivity].
  destruct (X10_read_all_or_error Scenario.cfg0 1 0 0 5 Examples.world_sd_third_fails _
              (- ETIMEDOUT) eq_refl) as ([E | _] & _);
    [discriminate E | reflexivity].
Defined.

Section Writes.

Variable cfg : config.

Lemma write_chunk_run (fuel : nat) (part sector endsector : Z) :
  1 <= MMCSD_MULTIBLOCK_LIMIT cfg -> sector < endsector ->
  endsector - sector <= SSIZE_MAX cfg ->
  mmcsd_write_chunk cfg fuel part sector endsector =
  run_transfer cfg fuel part
    (write_chunk_transfer
       (sector, Z.min (endsector - sector) (MMCSD_MULTIBLOCK_LIMIT cfg))).
Proof.
  intros Hl Hs Hm. unfold mmcsd_write_chunk, write_chunk_transfer.
  cbn [fst snd].
  unfold to_ssize, to_size. rewrite wrap_signed_small by lia.
  destruct (Z.eqb_spec (MMCSD_MULTIBLOCK_LIMIT cfg) 1) as [E1 | N1].
  - rewrite E1. rewrite Z.min_r by lia. reflexivity.
  - destruct (Z.ltb_spec (MMCSD_MULTIBLOCK_LIMIT cfg) (endsector - sector)).
    + rewrite Z.min_r by lia. rewrite wrap_unsigned_small by lia.
      destruct (Z.eqb_spec (MMCSD_MULTIBLOCK_LIMIT cfg) 1); [lia | reflexivity].
    + rewrite Z.min_l by lia. rewrite wrap_unsigned_small by lia.
      destruct (Z.eqb_spec (endsector - sector) 1); reflexivity.
Qed.

Lemma xfers_write_chunk (p : mmcsd_state_s) (ch : Z * Z) :
  xfers (transfer_calls p (write_chunk_transfer ch)) = write_chunk_calls p ch.
Proof.
  unfold write_chunk_transfer, write_chunk_calls.
  destruct (Z.eqb_spec (snd ch) 1) as [E | N]; cbn [transfer_calls].
  - rewrite E. unfold writesingle_calls, write_calls.
    destruct (_ =? 0); reflexivity.
  - unfold writemultiple_calls, write_calls, stop_calls.
    destruct (_ =? 0); destruct (stop_needed p); reflexivity.
Qed.

Lemma write_chunk_count (ch : Z * Z) :
  transfer_count (write_chunk_transfer ch) = snd ch.
Proof.
  unfold write_chunk_transfer. destruct (Z.eqb_spec (snd ch) 1) as [E | N];
    cbn [transfer_count]; congruence.
Qed.

(** A chunk whose size is a value of int returns its size. *)
Lemma write_chunk_result (ch : Z * Z) :
  1 <= snd ch <= INT_MAX cfg ->
  transfer_result cfg (write_chunk_transfer ch) = snd ch.
Proof.
  intros H. unfold write_chunk_transfer.
  destruct (Z.eqb_spec (snd ch) 1) as [E | N];
    cbn [transfer_result]; [congruence |].
  unfold to_int. apply wrap_signed_small. lia.
Qed.

Lemma written_calls_same_card (p q : mmcsd_state_s) (s n : Z) :
  same_card p q -> written_calls cfg q s n = written_calls cfg p s n.
Proof.
  intros H. unfold written_calls. apply flat_map_ext. intros ch.
  rewrite <- !xfers_write_chunk. f_equal. now apply transfer_calls_same_card.
Qed.

Lemma data_calls_write_chunks (p : mmcsd_state_s) (l : list (Z * Z)) :
  length (filter is_data_call (flat_map (write_chunk_calls p) l)) = length l.
Proof.
  induction l as [| ch l IH]; [reflexivity |].
  cbn [flat_map]. rewrite filter_app, length_app, IH.
  unfold write_chunk_calls, write_calls.
  destruct (_ =? 0); destruct (snd ch =? 1); reflexivity.
Qed.

(** A round of the loop of mmcsd_write. *)
Lemma write_chunk_spec (fuel : nat) (part sector endsector : Z)
      (w w' : world) (r : option Z) :
  1 <= MMCSD_MULTIBLOCK_LIMIT cfg -> sector < endsector ->
  endsector - sector <= SSIZE_MAX cfg ->
  Z.min (endsector - sector) (MMCSD_MULTIBLOCK_LIMIT cfg) <= INT_MAX cfg ->
  mmcsd_write_chunk cfg fuel part sector endsector w = (w', r) ->
  let ch := (sector, Z.min (endsector - sector) (MMCSD_MULTIBLOCK_LIMIT cfg)) in
  same_card (priv w) (priv w') /\
  exists new, trace w' = trace w ++ new /\
    ((xfers new = write_chunk_calls (priv w) ch /\ r = Some (snd ch)) \/
     (is_prefix (xfers new) (write_chunk_calls (priv w) ch) /\ failed w r)).
Proof.
  intros Hl Hs Hm Hi H ch. rewrite write_chunk_run in H by assumption.
  fold ch in H.
  destruct (transfer_spec cfg part _ fuel w w' r H)
    as (sw & body & Hc & Ht & Hsw & _ & Hr).
  split; [exact Hc |]. exists (sw ++ body). split; [exact Ht |].
  rewrite (xfers_switch sw body part) by tauto.
  rewrite <- xfers_write_chunk.
  destruct Hr as [(-> & -> & _) | (Hp & Hf)].
  - left. split; [reflexivity |]. rewrite write_chunk_result; [reflexivity |].
    unfold ch. cbn [snd]. lia.
  - right. split; [| exact Hf]. now apply filter_prefix.
Qed.

(** The loop of mmcsd_write on sector numbers that are values of size_t,
    with a distance that is a value of ssize_t and chunks that are values
    of int: its rounds are the chunks of the request, in order; it ends
    with the count it was given, all chunks written, or with the negative
    status of the chunk that failed. *)
Lemma write_loop_spec (fuel : nat) (part endsector ret : Z) :
  1 <= MMCSD_MULTIBLOCK_LIMIT cfg -> 0 < ret ->
  endsector <= 2 * SSIZE_MAX cfg + 1 ->
  forall (iter : nat) (sector : Z) (w w' : world) (r : option Z),
    0 <= sector -> endsector - sector <= SSIZE_MAX cfg ->
    Z.min (endsector - sector) (MMCSD_MULTIBLOCK_LIMIT cfg) <= INT_MAX cfg ->
    errno_host (dev (priv w)) ->
    mmcsd_write_loop cfg iter fuel part sector endsector ret w = (w', r) ->
    same_card (priv w) (priv w') /\
    (forall v, r = Some v -> v = ret \/ v < 0) /\
    exists new, trace w' = trace w ++ new /\
      is_prefix (xfers new)
                (written_calls cfg (priv w) sector (endsector - sector)) /\
      (r = Some ret ->
       xfers new = written_calls cfg (priv w) sector (endsector - sector)).
Proof.
  intros Hl Hret He0.
  induction iter as [| iter IH]; intros sector w w' r H0 Hm Hi He H;
    cbn [mmcsd_write_loop] in H;
    destruct (Z.ltb_spec sector endsector) as [Hs | Hs].
  - mred H. mleaf H. split; [apply same_card_refl |].
    split; [discriminate |].
    exists []. rewrite app_nil_r. split; [reflexivity |].
    split; [apply prefix_nil | discriminate].
  - mred H. mleaf H. split; [apply same_card_refl |].
    split; [intros v Hv; inversion Hv; now left |].
    exists []. rewrite app_nil_r. split; [reflexivity |].
    unfold written_calls. rewrite chunks_nil by lia.
    split; [apply prefix_nil | reflexivity].
  - mred H. mcall H write_chunk_spec; try assumption.
    cbn zeta in E. cbn [snd] in E.
    destruct E as (Hc & new1 & T1 & Hr).
    unfold written_calls. rewrite chunks_cons by lia. cbn [flat_map].
    set (n := Z.min (endsector - sector) (MMCSD_MULTIBLOCK_LIMIT cfg)) in *.
    assert (Hn : 1 <= n) by (unfold n; lia).
    assert (Hn' : n <= endsector - sector) by (unfold n; lia).
    destruct Hr as [(X1 & ->) | (P1 & F1)].
    + mred H. destruct (Z.ltb_spec n 0) as [Hneg | _]; [lia |].
      unfold to_size in H. rewrite wrap_unsigned_small in H by lia.
      apply IH in H; try lia; [| now apply (errno_same_card (priv w))].
      destruct H as (Hc2 & Hres & new2 & T2 & P2 & S2).
      rewrite (written_calls_same_card _ _ _ _ Hc) in P2, S2.
      replace (endsector - (sector + n)) with (endsector - sector - n)
        in P2, S2 by lia.
      split; [eapply same_card_trans; eassumption |].
      split; [exact Hres |].
      exists (new1 ++ new2). split; [rewrite T2, T1; now rewrite app_assoc |].
      unfold xfers in *. rewrite filter_app, X1.
      split; [now apply prefix_app_same |].
      intros Hr. now rewrite S2.
    + destruct o as [v |].
      * destruct (F1 v eq_refl) as (_ & Hv). specialize (Hv He).
        mred H. destruct (Z.ltb_spec v 0) as [_ | Hge]; [| lia].
        mred H. mleaf H. split; [exact Hc |].
        split; [intros v' Hv'; inversion Hv'; subst; now right |].
        exists new1. split; [exact T1 |].
        split; [now apply prefix_app | intros Hr; inversion Hr; lia].
      * mred H. mleaf H. split; [exact Hc |].
        split; [discriminate |].
        exists new1. split; [exact T1 |].
        split; [now apply prefix_app | discriminate].
  - mred H. mleaf H. split; [apply same_card_refl |].
    split; [intros v Hv; inversion Hv; now left |].
    exists []. rewrite app_nil_r. split; [reflexivity |].
    unfold written_calls. rewrite chunks_nil by lia.
    split; [apply prefix_nil | reflexivity].
Qed.

(** X11.  A write of n > 0 sectors, the sector numbers and the count being
    values of the types the loop keeps them in, is cut like a read: the
    block set-ups and data commands it puts on the bus are a beginning of
    those of the chunks of size min(remaining, MULTIBLOCK_LIMIT), one
    block through CMD24 and more through CMD25; it returns n, and then
    every chunk was written, or the negative status of the chunk that
    failed (statuses of the host being OK or negative). *)
Theorem X11_write_chunking (fuel : nat) (part startsector nsectors : Z)
        (w w' : world) (r : option Z) :
  0 < nsectors -> 1 <= MMCSD_MULTIBLOCK_LIMIT cfg ->
  request_fits cfg startsector nsectors ->
  errno_host (dev (priv w)) ->
  mmcsd_write cfg fuel part startsector nsectors w = (w', r) ->
  (forall v, r = Some v -> v = nsectors \/ v < 0) /\
  exists new, trace w' = trace w ++ new /\
    is_prefix (xfers new) (written_calls cfg (priv w) startsector nsectors) /\
    (r = Some nsectors ->
     xfers new = written_calls cfg (priv w) startsector nsectors /\
     Z.of_nat (length (filter is_data_call new))
     = (nsectors + MMCSD_MULTIBLOCK_LIMIT cfg - 1) / MMCSD_MULTIBLOCK_LIMIT cfg).
Proof.
  intros Hn Hl (Hf0 & Hfb & Hfs & Hfn & Hfi) He H. unfold mmcsd_write in H.
  destruct (Z.ltb_spec 0 nsectors) as [_ | ?]; [| lia].
  unfold to_blkcnt, to_size, to_ssize in H.
  rewrite (Z.mod_small (startsector + nsectors)) in H by lia.
  rewrite !wrap_unsigned_small, wrap_signed_small in H by lia.
  mred H. mcall H lock_spec. destruct E as (El & v & ->).
  mred H. destruct (Z.ltb_spec v 0) as [Hv | Hv].
  - mred H. mleaf H.
    split; [intros v' Hv'; inversion Hv'; subst; now right |].
    exists []. split; [apply El |].
    split; [apply prefix_nil |]. intros Hr. inversion Hr. lia.
  - mred H. mcall H write_loop_spec; try assumption; try lia.
    2: { now rewrite (emits_dev _ _ _ El). }
    destruct E as (Hc & Hres & new & T & P & S).
    replace (startsector + nsectors - startsector) with nsectors in P, S by lia.
    assert (Hw : same_card (priv w) (priv w0))
      by (apply frame_same_card, El).
    rewrite (written_calls_same_card _ _ _ _ Hw) in P, S.
    assert (T0 : trace w0 = trace w)
      by (destruct El as [_ T0]; now rewrite app_nil_r in T0).
    assert (Hcount : o = Some nsectors ->
              Z.of_nat (length (filter is_data_call new))
              = (nsectors + MMCSD_MULTIBLOCK_LIMIT cfg - 1)
                / MMCSD_MULTIBLOCK_LIMIT cfg).
    { intros Hr. rewrite <- filter_data_xfers, (S Hr). unfold written_calls.
      rewrite data_calls_write_chunks.
      apply (chunks_length _ Hl (Z.to_nat nsectors)); lia. }
    destruct o as [v' |].
    + mred H. mcall H unlock_spec. destruct E as ([_ Tu] & ->).
      rewrite app_nil_r in Tu. mred H. mleaf H.
      split; [exact Hres |].
      exists new. split; [now rewrite Tu, T, T0 |].
      split; [exact P |]. intros Hr. split; [exact (S Hr) | exact (Hcount Hr)].
    + mred H. mleaf H. split; [discriminate |].
      exists new. split; [now rewrite T, T0 |].
      split; [exact P | discriminate].
Qed.

End Writes.

Lemma X11_write_chunking_witness :
  xfers (trace (fst (mmcsd_write Scenario.cfg0 1 0 0 3 Scenario.world_sd_byte)))
  = [SDIO_SENDCMD MMCSD_CMD25 0; SDIO_BLOCKSETUP 512 2;
     SDIO_SENDCMD MMCSD_CMD24 1024; SDIO_BLOCKSETUP 512 1].
Proof.
  destruct (X11_write_chunking Scenario.cfg0 1 0 0 3 Scenario.world_sd_byte _ _
              ltac:(lia) ltac:(vm_compute; congruence)
              ltac:(repeat split; vm_compute; congruence)
              ltac:(intros c tr Hc; destruct c; try discriminate Hc; cbn; lia)
              (surjective_pairing _))
    as (_ & new & T & _ & S).
  rewrite T. destruct (S eq_refl) as (X & _). exact X.
Defined.

(** ** EXT_CSD decoding *)

Lemma extcsd_byte_range (extcsd : list Z) (i : Z) :
  0 <= extcsd_byte extcsd i < 256.
Proof. unfold extcsd_byte, to_u8. apply Z.mod_pos_bound. lia. Qed.

(** Bytes put side by side by shifts and ors add up. *)
Lemma lor_bytes (a b c d : Z) :
  0 <= a < 256 -> 0 <= b < 256 -> 0 <= c < 256 -> 0 <= d < 256 ->
  Z.lor (Z.lor (Z.lor (Z.shiftl d 24) (Z.shiftl c 16)) (Z.shiftl b 8)) a
  = a + 256 * b + 65536 * c + 16777216 * d.
Proof.
  intros Ha Hb Hc Hd.
  assert (Hlor : forall x y k, 0 <= k -> 0 <= y < 2 ^ k ->
                   Z.lor (Z.shiftl x k) y = x * 2 ^ k + y).
  { intros x y k Hk Hy.
    assert (Hland : Z.land (Z.shiftl x k) y = 0).
    { apply Z.bits_inj'. intros n Hn. rewrite Z.land_spec, Z.bits_0.
      destruct (Z.lt_ge_cases n k).
      - rewrite Z.shiftl_spec_low by lia. reflexivity.
      - destruct (Z.eq_dec y 0) as [-> | Hy0];
          [rewrite Z.bits_0; apply andb_false_r |].
        rewrite (Z.bits_above_log2 y n), andb_false_r; [reflexivity | lia |].
        apply Z.lt_le_trans with k; [apply Z.log2_lt_pow2; lia | lia]. }
    rewrite <- Z.lxor_lor by exact Hland.
    rewrite <- Z.add_nocarry_lxor by exact Hland.
    rewrite Z.shiftl_mul_pow2 by lia. reflexivity. }
  replace (Z.lor (Z.shiftl d 24) (Z.shiftl c 16))
    with (Z.shiftl (Z.lor (Z.shiftl d 8) c) 16)
    by (rewrite Z.shiftl_lor, Z.shiftl_shiftl by lia; reflexivity).
  replace (Z.lor (Z.shiftl (Z.lor (Z.shiftl d 8) c) 16) (Z.shiftl b 8))
    with (Z.shiftl (Z.lor (Z.shiftl (Z.lor (Z.shiftl d 8) c) 8) b) 8)
    by (rewrite (Z.shiftl_lor _ b), Z.shiftl_shiftl by lia; reflexivity).
  rewrite (Hlor d c 8) by lia.
  rewrite (Hlor _ b 8) by (change (2 ^ 8) with 256; lia).
  rewrite (Hlor _ a 8) by (change (2 ^ 8) with 256; lia).
  change (2 ^ 8) with 256. lia.
Qed.

Lemma set_nblocks_same (i : nat) (v : Z) (p : mmcsd_state_s) :
  nblocks_of (set_nblocks i v p) i = v.
Proof. unfold nblocks_of, set_nblocks. cbn. now rewrite Nat.eqb_refl. Qed.

Lemma set_nblocks_other (i j : nat) (v : Z) (p : mmcsd_state_s) :
  j <> i -> nblocks_of (set_nblocks i v p) j = nblocks_of p j.
Proof.
  intros H. unfold nblocks_of, set_nblocks. cbn.
  destruct (Nat.eqb_spec j i); [contradiction | reflexivity].
Qed.

(** The loop over the general-purpose partitions, partition by partition. *)
Lemma decode_extcsd_gp_spec (extcsd : list Z) (e wp : Z) :
  forall (n idx : nat) (priv : mmcsd_state_s) (j : nat),
    nblocks_of (decode_extcsd_gp n idx extcsd e wp priv) j =
    if (extcsd_byte extcsd MMCSD_EXTCSD_PARTITION_SETTING_COMPLETED =? 0)
       || negb ((MMCSD_PART_GENP0 + idx <=? j)%nat
                && (j <? MMCSD_PART_GENP0 + idx + n)%nat)
       || gp_unset extcsd (j - MMCSD_PART_GENP0)
    then nblocks_of priv j
    else gp_size_mult extcsd (Z.of_nat (j - MMCSD_PART_GENP0)) * e * wp
         * MCSD_SZ_512K / MCSD_SZ_512.
Proof.
  induction n as [| n IH]; intros idx priv j; cbn [decode_extcsd_gp].
  - replace ((MMCSD_PART_GENP0 + idx <=? j)%nat
             && (j <? MMCSD_PART_GENP0 + idx + 0)%nat) with false.
    + cbn [negb]. now rewrite orb_true_r.
    + symmetry. apply andb_false_iff.
      destruct (Nat.leb_spec (MMCSD_PART_GENP0 + idx) j); [right | now left].
      apply Nat.ltb_ge. lia.
  - fold (gp_unset extcsd idx).
    destruct (extcsd_byte extcsd MMCSD_EXTCSD_PARTITION_SETTING_COMPLETED =? 0)
      eqn:Hc; cbn [orb].
    + destruct (gp_unset extcsd idx); [| reflexivity].
      rewrite IH. reflexivity.
    + destruct (Nat.eq_dec j (MMCSD_PART_GENP0 + idx)) as [-> | Hj].
      * replace (MMCSD_PART_GENP0 + idx - MMCSD_PART_GENP0)%nat with idx by lia.
        replace ((MMCSD_PART_GENP0 + idx <=? MMCSD_PART_GENP0 + idx)%nat
                 && (MMCSD_PART_GENP0 + idx <? MMCSD_PART_GENP0 + idx + S n)%nat)
          with true
          by (symmetry; apply andb_true_iff; split;
              [apply Nat.leb_le | apply Nat.ltb_lt]; lia).
        cbn [negb orb].
        destruct (gp_unset extcsd idx) eqn:Hu; rewrite IH; cbn [orb];
          replace ((MMCSD_PART_GENP0 + S idx <=? MMCSD_PART_GENP0 + idx)%nat)
            with false by (symmetry; apply Nat.leb_gt; lia);
          cbn [andb negb orb]; [reflexivity |].
        apply set_nblocks_same.
      * assert (Hsame :
          (MMCSD_PART_GENP0 + S idx <=? j)%nat
          && (j <? MMCSD_PART_GENP0 + S idx + n)%nat
          = (MMCSD_PART_GENP0 + idx <=? j)%nat
            && (j <? MMCSD_PART_GENP0 + idx + S n)%nat).
        { destruct (Nat.leb_spec (MMCSD_PART_GENP0 + S idx) j);
            destruct (Nat.leb_spec (MMCSD_PART_GENP0 + idx) j); try lia;
            cbn [andb]; try reflexivity.
          destruct (Nat.ltb_spec j (MMCSD_PART_GENP0 + S idx + n));
            destruct (Nat.ltb_spec j (MMCSD_PART_GENP0 + idx + S n));
            try lia; reflexivity. }
        destruct (gp_unset extcsd idx); rewrite IH, Hsame; cbn [orb];
          [reflexivity |].
        rewrite set_nblocks_other by exact Hj. reflexivity.
Qed.

Lemma decode_extcsd_gp_frame (extcsd : list Z) (e wp : Z) (q : nat -> Z) :
  forall (n idx : nat) (priv : mmcsd_state_s),
    set_part q (decode_extcsd_gp n idx extcsd e wp priv) = set_part q priv.
Proof.
  induction n as [| n IH]; intros idx priv; cbn [decode_extcsd_gp];
    [reflexivity |].
  repeat match goal with
         | |- context [if ?b then _ else _] => destruct b
         end;
    try reflexivity; rewrite IH; reflexivity.
Qed.

(** What mmcsd_decode_extcsd leaves in partition 0, and that it writes
    block counts only. *)
Lemma decode_extcsd_user (priv : mmcsd_state_s) (extcsd : list Z) :
  let priv' := mmcsd_decode_extcsd priv extcsd in
  nblocks_of priv' 0 = extcsd_sec_count extcsd /\
  forall q, set_part q priv' = set_part q priv.
Proof.
  unfold mmcsd_decode_extcsd. cbv zeta.
  assert (Hu : Z.lor (Z.lor (Z.lor (Z.shiftl (extcsd_byte extcsd 215) 24)
                                   (Z.shiftl (extcsd_byte extcsd 214) 16))
                            (Z.shiftl (extcsd_byte extcsd 213) 8))
                     (extcsd_byte extcsd 212) = extcsd_sec_count extcsd).
  { unfold extcsd_sec_count. apply lor_bytes; apply extcsd_byte_range. }
  rewrite Hu.
  destruct (negb _).
  - split.
    + rewrite decode_extcsd_gp_spec.
      replace ((MMCSD_PART_GENP0 + 0 <=? 0)%nat) with false by reflexivity.
      cbn [andb negb orb]. rewrite orb_true_r. cbn [orb].
      rewrite !set_nblocks_other by (unfold MMCSD_PART_BOOT0, MMCSD_PART_BOOT1,
                                     MMCSD_PART_RPMB; cbn; lia).
      apply set_nblocks_same.
    + intros q. rewrite decode_extcsd_gp_frame. reflexivity.
  - split; [apply set_nblocks_same | reflexivity].
Qed.

(** X12.  Decoding an EXT_CSD sets the block count of the user partition
    to SEC_COUNT, the little-endian value of bytes 212 to 215 (its top
    byte below 128, so that the shift fits an int), and writes nothing of
    the slot but block counts. *)
Theorem X12_extcsd_sec_count (priv : mmcsd_state_s) (extcsd : list Z) :
  extcsd_byte extcsd 215 < 128 ->
  let priv' := mmcsd_decode_extcsd priv extcsd in
  nblocks_of priv' 0 = extcsd_sec_count extcsd /\
  nblocks_of priv' 0 < 2 ^ 31 /\
  type priv' = type priv /\ blocksize priv' = blocksize priv /\
  blockshift priv' = blockshift priv /\ partnum priv' = partnum priv /\
  wrprotect priv' = wrprotect priv /\ locked priv' = locked priv /\
  wrbusy priv' = wrbusy priv /\ selblocklen priv' = selblocklen priv.
Proof.
  intros H215 priv'.
  destruct (decode_extcsd_user priv extcsd) as (Hn & Hf). fold priv' in Hn, Hf.
  split; [exact Hn |]. split.
  - rewrite Hn. unfold extcsd_sec_count.
    pose proof (extcsd_byte_range extcsd 212).
    pose proof (extcsd_byte_range extcsd 213).
    pose proof (extcsd_byte_range extcsd 214).
    pose proof (extcsd_byte_range extcsd 215).
    change (2 ^ 31) with 2147483648. lia.
  - specialize (Hf (fun _ => 0)).
    repeat split;
      [ exact (f_equal type Hf) | exact (f_equal blocksize Hf)
      | exact (f_equal blockshift Hf) | exact (f_equal partnum Hf)
      | exact (f_equal wrprotect Hf) | exact (f_equal locked Hf)
      | exact (f_equal wrbusy Hf) | exact (f_equal selblocklen Hf) ].
Qed.

Lemma X12_extcsd_sec_count_witness :
  nblocks_of (mmcsd_decode_extcsd (priv Scenario.world_emmc) Examples.extcsd_emmc) 0
  = 15466496.
Proof.
  destruct (X12_extcsd_sec_count (priv Scenario.world_emmc) Examples.extcsd_emmc
              ltac:(vm_compute; reflexivity)) as (Hn & _).
  rewrite Hn. reflexivity.
Defined.

(** X13.  With the PARTITIONING_EN bit of PARTITION_SUPPORT clear the
    EXT_CSD decoder leaves every partition but the user partition as it
    was; with the bit set both boot partitions get 256 blocks for each
    unit of BOOT_SIZE_MULT and the RPMB 256 blocks for each unit of
    RPMB_SIZE_MULT (128 KiB in blocks of 512 bytes). *)
Theorem X13_extcsd_boot_rpmb (priv : mmcsd_state_s) (extcsd : list Z) :
  let priv' := mmcsd_decode_extcsd priv extcsd in
  let en := negb (Z.land (extcsd_byte extcsd MMCSD_EXTCSD_PARTITION_SUPPORT)
                         MMCSD_PART_SUPPORT_PART_EN =? 0) in
  (en = false -> forall i, i <> O -> nblocks_of priv' i = nblocks_of priv i) /\
  (en = true ->
   nblocks_of priv' MMCSD_PART_BOOT0
   = 256 * extcsd_byte extcsd MMCSD_EXTCSD_BOOT_SIZE_MULT /\
   nblocks_of priv' MMCSD_PART_BOOT1
   = 256 * extcsd_byte extcsd MMCSD_EXTCSD_BOOT_SIZE_MULT /\
   nblocks_of priv' (Z.to_nat MMCSD_PART_RPMB)
   = 256 * extcsd_byte extcsd MMCSD_EXTCSD_RPMB_SIZE_MULT).
Proof.
  intros priv' en. subst priv' en. unfold mmcsd_decode_extcsd. cbv zeta.
  assert (Hdiv : forall x, x * MCSD_SZ_128K / MCSD_SZ_512 = 256 * x).
  { intros x. unfold MCSD_SZ_128K, MCSD_SZ_512.
    replace (x * 131072) with (256 * x * 512) by lia.
    apply Z.div_mul. lia. }
  destruct (negb _); split; intros He; try discriminate He.
  - rewrite !decode_extcsd_gp_spec.
    replace ((MMCSD_PART_GENP0 + 0 <=? MMCSD_PART_BOOT0)%nat) with false
      by reflexivity.
    replace ((MMCSD_PART_GENP0 + 0 <=? MMCSD_PART_BOOT1)%nat) with false
      by reflexivity.
    replace ((MMCSD_PART_GENP0 + 0 <=? Z.to_nat MMCSD_PART_RPMB)%nat) with false
      by reflexivity.
    cbn [andb negb orb]. rewrite !orb_true_r. cbn [orb].
    repeat split.
    + rewrite !set_nblocks_other
        by (unfold MMCSD_PART_BOOT0, MMCSD_PART_BOOT1, MMCSD_PART_RPMB; cbn; lia).
      rewrite set_nblocks_same. apply Hdiv.
    + rewrite set_nblocks_other
        by (unfold MMCSD_PART_BOOT0, MMCSD_PART_BOOT1, MMCSD_PART_RPMB; cbn; lia).
      rewrite set_nblocks_same. apply Hdiv.
    + rewrite set_nblocks_same. apply Hdiv.
  - intros i Hi. apply set_nblocks_other. exact Hi.
Qed.

Lemma X13_extcsd_boot_rpmb_witness :
  nblocks_of (mmcsd_decode_extcsd (priv Scenario.world_emmc) Examples.extcsd_emmc) 1
  = 8192 /\
  nblocks_of (mmcsd_decode_extcsd (priv Scenario.world_emmc) Examples.extcsd_emmc) 3
  = 1024.
Proof.
  pose proof (X13_extcsd_boot_rpmb (priv Scenario.world_emmc)
                Examples.extcsd_emmc) as H.
  cbv zeta in H. destruct H as (_ & H).
  destruct (H eq_refl) as (H0 & _ & H3). split; [exact H0 | exact H3].
Defined.

(** X14.  With partitioning enabled, general-purpose partition idx gets a
    size only when its three-byte multiplier is not zero and
    PARTITION_SETTING_COMPLETED is not zero: then it is multiplier *
    HC_ERASE_GRP_SIZE * HC_WP_GRP_SIZE * 1024 blocks (the product times
    512 KiB fitting 32 bits); otherwise the partition keeps the block
    count it had before the decoding. *)
Theorem X14_extcsd_general_purpose (priv : mmcsd_state_s) (extcsd : list Z)
        (idx : nat) :
  negb (Z.land (extcsd_byte extcsd MMCSD_EXTCSD_PARTITION_SUPPORT)
               MMCSD_PART_SUPPORT_PART_EN =? 0) = true ->
  (idx < 4)%nat ->
  let priv' := mmcsd_decode_extcsd priv extcsd in
  let size := gp_size_mult extcsd (Z.of_nat idx)
              * extcsd_byte extcsd MMCSD_EXTCSD_HC_ERASE_GRP_SIZE
              * extcsd_byte extcsd MMCSD_EXTCSD_HC_WP_GRP_SIZE in
  (extcsd_byte extcsd MMCSD_EXTCSD_PARTITION_SETTING_COMPLETED = 0 \/
   gp_unset extcsd idx = true ->
   nblocks_of priv' (MMCSD_PART_GENP0 + idx)
   = nblocks_of priv (MMCSD_PART_GENP0 + idx)) /\
  (extcsd_byte extcsd MMCSD_EXTCSD_PARTITION_SETTING_COMPLETED <> 0 ->
   gp_unset extcsd idx = false -> size * MCSD_SZ_512K < 2 ^ 32 ->
   nblocks_of priv' (MMCSD_PART_GENP0 + idx) = size * 1024).
Proof.
  intros Hen Hidx priv' size. subst priv' size.
  unfold mmcsd_decode_extcsd. cbv zeta. rewrite Hen.
  rewrite decode_extcsd_gp_spec.
  replace ((MMCSD_PART_GENP0 + 0 <=? MMCSD_PART_GENP0 + idx)%nat
           && (MMCSD_PART_GENP0 + idx <? MMCSD_PART_GENP0 + 0 + 4)%nat)
    with true
    by (symmetry; apply andb_true_iff; split;
        [apply Nat.leb_le | apply Nat.ltb_lt]; lia).
  replace (MMCSD_PART_GENP0 + idx - MMCSD_PART_GENP0)%nat with idx by lia.
  cbn [negb orb].
  assert (Hold : forall v1 v2 v3,
             nblocks_of (set_nblocks (Z.to_nat MMCSD_PART_RPMB) v3
                           (set_nblocks MMCSD_PART_BOOT1 v2
                              (set_nblocks MMCSD_PART_BOOT0 v1
                                 (set_nblocks 0
                                    (Z.lor (Z.lor (Z.lor
                                       (Z.shiftl (extcsd_byte extcsd 215) 24)
                                       (Z.shiftl (extcsd_byte extcsd 214) 16))
                                       (Z.shiftl (extcsd_byte extcsd 213) 8))
                                       (extcsd_byte extcsd 212)) priv))))
                        (MMCSD_PART_GENP0 + idx)
             = nblocks_of priv (MMCSD_PART_GENP0 + idx)).
  { intros v1 v2 v3.
    rewrite !set_nblocks_other
      by (unfold MMCSD_PART_GENP0, MMCSD_PART_BOOT0, MMCSD_PART_BOOT1,
                 MMCSD_PART_RPMB; cbn; lia).
    reflexivity. }
  split.
  - intros [Hc | Hu].
    + rewrite Hc. cbn [Z.eqb orb]. apply Hold.
    + rewrite Hu, orb_true_r. apply Hold.
  - intros Hc Hu _. apply Z.eqb_neq in Hc. rewrite Hc, Hu. cbn [orb].
    unfold MCSD_SZ_512K, MCSD_SZ_512.
    match goal with
    | |- ?x * 524288 / 512 = _ =>
        replace (x * 524288) with (x * 1024 * 512) by lia
    end.
    apply Z.div_mul. lia.
Qed.

Lemma X14_extcsd_general_purpose_witness :
  nblocks_of (mmcsd_decode_extcsd (priv Scenario.world_emmc) Examples.extcsd_emmc) 4
  = 32768 /\
  nblocks_of (mmcsd_decode_extcsd (priv Scenario.world_emmc)
                                  Examples.extcsd_unfinished) 4
  = nblocks_of (priv Scenario.world_emmc) 4.
Proof.
  split.
  - pose proof (X14_extcsd_general_purpose (priv Scenario.world_emmc)
                  Examples.extcsd_emmc 0 eq_refl ltac:(lia)) as H.
    cbv zeta in H. destruct H as (_ & H).
    exact (eq_trans (H ltac:(vm_compute; discriminate) eq_refl
                       ltac:(vm_compute; reflexivity)) eq_refl).
  - pose proof (X14_extcsd_general_purpose (priv Scenario.world_emmc)
                  Examples.extcsd_unfinished 0 eq_refl ltac:(lia)) as H.
    cbv zeta in H. destruct H as (H & _).
    exact (H (or_introl eq_refl)).
Defined.

(** X15.  mmcsd_mmcinitialize decodes the EXT_CSD of a block-addressed MMC
    card and then the CSD again.  When C_SIZE of the CSD is 0xFFF the
    count of the user partition is still SEC_COUNT of the EXT_CSD after
    that; when it is not, the count computed from the CSD replaces it.
    The other partitions keep the counts of the EXT_CSD either way. *)
Theorem X15_redecode_after_extcsd (cfg : config) (priv : mmcsd_state_s)
        (csd extcsd : list Z) :
  CONFIG_MMCSD_MMCSUPPORT cfg = true ->
  IS_MMC (type priv) = true -> IS_BLOCK (type priv) = true ->
  extcsd_byte extcsd 215 < 128 ->
  let priv1 := mmcsd_decode_extcsd priv extcsd in
  let priv2 := mmcsd_decode_csd cfg priv1 csd in
  let r := csd_readbllen csd in
  let n := (csd_csize csd + 1) * 2 ^ (csd_csizemult csd + 2) in
  (csd_csize csd = MMCSD_CSD_CSIZE_THRESHOLD ->
   nblocks_of priv2 0 = extcsd_sec_count extcsd) /\
  (csd_csize csd <> MMCSD_CSD_CSIZE_THRESHOLD ->
   nblocks_of priv2 0 = if 9 <? r then n * 2 ^ (r - 9) else n) /\
  (forall i, i <> O -> nblocks_of priv2 i = nblocks_of priv1 i).
Proof.
  intros Hc Hm Hb _ priv1 priv2 r n.
  destruct (decode_extcsd_user priv extcsd) as (Hn & Hf). fold priv1 in Hn, Hf.
  assert (Ht : type priv1 = type priv) by exact (f_equal type (Hf (fun _ => 0))).
  assert (Hsd : IS_BLOCK (type priv1)
                && negb (CONFIG_MMCSD_MMCSUPPORT cfg && IS_MMC (type priv1))
                = false) by (rewrite Ht, Hb, Hc, Hm; reflexivity).
  destruct (decode_csd_native cfg priv1 csd Hsd) as (_ & _ & H0).
  fold priv2 in H0. rewrite Ht, Hb in H0. cbn [negb orb] in H0.
  split; [| split].
  - intros E. apply Z.eqb_eq in E. rewrite E in H0. cbn [negb] in H0.
    now rewrite H0.
  - intros E. apply Z.eqb_neq in E. rewrite E in H0. cbn [negb] in H0.
    exact H0.
  - apply (decode_csd_keeps cfg priv1 csd).
Qed.

Lemma X15_redecode_after_extcsd_witness :
  nblocks_of
    (mmcsd_decode_csd Scenario.cfg0
       (mmcsd_decode_extcsd (priv Scenario.world_emmc) Examples.extcsd_emmc)
       Examples.csd_emmc) 0
  = 15466496.
Proof.
  pose proof (X15_redecode_after_extcsd Scenario.cfg0 (priv Scenario.world_emmc)
                Examples.csd_emmc Examples.extcsd_emmc
                eq_refl eq_refl eq_refl ltac:(vm_compute; reflexivity)) as H.
  cbv zeta in H. destruct H as (H & _).
  exact (eq_trans (H eq_refl) eq_refl).
Defined.

(** ** Geometry and reference counts *)

Lemma lock_priv (cfg : config) (w w' : world) (r : option Z) :
  mmcsd_lock cfg w = (w', r) -> priv w' = priv w /\ exists v, r = Some v.
Proof.
  unfold mmcsd_lock. intros H. mred H.
  mif H; [mred H; mleaf H; split; [reflexivity | eauto] |].
  mred H. mif H; [mred H; mleaf H; split; [reflexivity | eauto] |].
  mred H. mif H; [mred H; mleaf H; split; [reflexivity | eauto] |].
  destruct (CONFIG_SDIO_MUXBUS cfg); mred H; mleaf H;
    (split; [reflexivity | eauto]).
Qed.

Lemma unlock_priv (cfg : config) (w w' : world) (r : option unit) :
  mmcsd_unlock cfg w = (w', r) -> priv w' = priv w /\ r = Some tt.
Proof.
  unfold mmcsd_unlock. intros H. mred H.
  mif H; [mred H; mleaf H; split; reflexivity |].
  mred H. mif H; [mred H; mleaf H; split; reflexivity |].
  destruct (CONFIG_SDIO_MUXBUS cfg); mred H; mleaf H; (split; reflexivity).
Qed.

Lemma wrprotected_priv (w w' : world) (r : option bool) :
  mmcsd_wrprotected w = (w', r) ->
  priv w' = priv w /\
  exists b, r = Some b /\
            (b = false -> wrprotect (priv w) = false /\ locked (priv w) = false).
Proof.
  unfold mmcsd_wrprotected. intros H. mred H.
  destruct (wrprotect (priv w) || locked (priv w)) eqn:E; mred H; mleaf H.
  - split; [reflexivity |]. exists true. split; [reflexivity | discriminate].
  - split; [reflexivity |]. eexists. split; [reflexivity |].
    intros _. now apply orb_false_iff in E.
Qed.

(** X16.  mmcsd_geometry reads the media-changed flag and clears it: a
    call that returns OK reports the flag as it was and leaves it false,
    so the next call reports no change.  It returns OK only for a card of
    a known type, with the block count of the partition and the block
    size of the slot, and reports the medium writable only when neither
    the write-protect bits of the CSD nor the lock are set. *)
Theorem X16_geometry_reads_and_clears (cfg : config) (x x' : mmcsd_more_s)
        (part : nat) (geo go : option geometry) (w w' : world) :
  mmcsd_geometry cfg x part geo w = (w', Some (x', go, OK)) ->
  mediachanged x' = false /\ crefs x' = crefs x /\
  type (priv w) <> MMCSD_CARDTYPE_UNKNOWN /\ priv w' = priv w /\
  exists g, go = Some g /\
    geo_available g = true /\ geo_mediachanged g = mediachanged x /\
    geo_nsectors g = nblocks_of (priv w) part /\
    geo_sectorsize g = blocksize (priv w) /\
    (geo_writeenabled g = true ->
     wrprotect (priv w) = false /\ locked (priv w) = false).
Proof.
  intros H. unfold mmcsd_geometry in H.
  destruct geo as [g0 |]; [| inversion H; discriminate].
  mred H. destruct (mmcsd_lock cfg w) as [w1 o] eqn:El.
  destruct (lock_priv _ _ _ _ El) as (P1 & v & ->). mred H.
  destruct (Z.ltb_spec v 0) as [Hv | Hv]; mred H.
  { inversion H; subst. unfold OK in Hv. lia. }
  destruct (Z.eqb_spec (type (priv w1)) MMCSD_CARDTYPE_UNKNOWN) as [Ht | Ht];
    mred H.
  { destruct (mmcsd_unlock cfg w1) as [w2 o2] eqn:Eu.
    destruct (unlock_priv _ _ _ _ Eu) as (_ & ->). mred H.
    inversion H. }
  destruct (mmcsd_wrprotected w1) as [w2 o2] eqn:Ep.
  destruct (wrprotected_priv _ _ _ Ep) as (P2 & b & -> & Hb). mred H.
  destruct (mmcsd_unlock cfg w2) as [w3 o3] eqn:Eu.
  destruct (unlock_priv _ _ _ _ Eu) as (P3 & ->). mred H.
  inversion H; subst. rewrite P1 in *.
  repeat split; try reflexivity; try assumption.
  - congruence.
  - eexists. split; [reflexivity |]. cbn. rewrite ?P2, ?P1.
    repeat (split; [reflexivity |]).
    intros Hw. apply Hb. now apply negb_true_iff.
Qed.

Lemma X16_geometry_reads_and_clears_witness :
  snd (mmcsd_geometry Scenario.cfg0 Examples.slot_changed 0
         (Some geometry_zero) Scenario.world_emmc)
  = Some (set_mediachanged false Examples.slot_changed,
          Some {| geo_available := true; geo_mediachanged := true;
                  geo_writeenabled := true; geo_nsectors := 15466496;
                  geo_sectorsize := 512 |}, OK) /\
  mediachanged (set_mediachanged false Examples.slot_changed) = false.
Proof.
  split; [reflexivity |].
  exact (proj1 (X16_geometry_reads_and_clears Scenario.cfg0
                  Examples.slot_changed _ 0 (Some geometry_zero) _
                  Scenario.world_emmc _ eq_refl)).
Defined.

(** X17.  A mmcsd_geometry that does not return OK changes neither the
    media-changed flag nor the slot: with a NULL pointer it returns
    -EINVAL without a call on the host, and otherwise it leaves the
    structure zeroed, returning -ENODEV for an empty slot once it holds
    the lock. *)
Theorem X17_geometry_failure (cfg : config) (x x' : mmcsd_more_s) (part : nat)
        (geo go : option geometry) (w w' : world) (v : Z) :
  mmcsd_geometry cfg x part geo w = (w', Some (x', go, v)) -> v <> OK ->
  x' = x /\ priv w' = priv w /\
  (geo = None -> w' = w /\ go = None /\ v = - EINVAL) /\
  (geo <> None ->
   go = Some geometry_zero /\
   ((type (priv w) = MMCSD_CARDTYPE_UNKNOWN /\ v = - ENODEV) \/
    (mmcsd_lock cfg w = (w', Some v) /\ v < 0))).
Proof.
  intros H Hne. unfold mmcsd_geometry in H.
  destruct geo as [g0 |].
  2: { inversion H; subst. split; [reflexivity |]. split; [reflexivity |].
       split; [intros _; repeat split | intros E; now elim E]. }
  mred H. destruct (mmcsd_lock cfg w) as [w1 o] eqn:El.
  destruct (lock_priv _ _ _ _ El) as (P1 & v0 & ->). mred H.
  destruct (Z.ltb_spec v0 0) as [Hv | Hv]; mred H.
  { inversion H; subst. split; [reflexivity |]. split; [assumption |].
    split; [discriminate |]. intros _. split; [reflexivity |].
    right. split; [reflexivity | assumption]. }
  destruct (Z.eqb_spec (type (priv w1)) MMCSD_CARDTYPE_UNKNOWN) as [Ht | Ht];
    mred H.
  { destruct (mmcsd_unlock cfg w1) as [w2 o2] eqn:Eu.
    destruct (unlock_priv _ _ _ _ Eu) as (P2 & ->). mred H.
    inversion H; subst. split; [reflexivity |]. split; [congruence |].
    split; [discriminate |]. intros _. split; [reflexivity |].
    left. split; [congruence | reflexivity]. }
  destruct (mmcsd_wrprotected w1) as [w2 o2] eqn:Ep.
  destruct (wrprotected_priv _ _ _ Ep) as (P2 & b & -> & Hb). mred H.
  destruct (mmcsd_unlock cfg w2) as [w3 o3] eqn:Eu.
  destruct (unlock_priv _ _ _ _ Eu) as (P3 & ->). mred H.
  inversion H; subst. now elim Hne.
Qed.

Lemma X17_geometry_failure_witness :
  snd (mmcsd_geometry Scenario.cfg0 Examples.slot_changed 0
         (Some geometry_zero) Scenario.world_empty)
  = Some (Examples.slot_changed, Some geometry_zero, - ENODEV).
Proof.
  destruct (X17_geometry_failure Scenario.cfg0 Examples.slot_changed _ 0
              (Some geometry_zero) _ Scenario.world_empty _ (- ENODEV)
              (surjective_pairing _) ltac:(discriminate)) as (_ & _ & _ & _).
  reflexivity.
Defined.

(** ** The raw command pass-through *)

(** The device of the end world is the device of the start. *)
Ltac dev_chain :=
  rewrite ?priv_logcall, ?priv_setpriv;
  cbn [dev set_wrbusy set_locked set_selblocklen set_partnum];
  first [ reflexivity
        | match goal with
          | A : emits ?w ?wk _ |- dev (priv ?wk) = dev (priv ?w) =>
              exact (emits_dev _ _ _ A)
          end ].

(** The result of a leaf is OK, a negated errno of the driver or a status
    of the host. *)
Ltac status_leaf He :=
  repeat match goal with
         | S : status _ (Some _) |- _ =>
           let v' := fresh "v" in
           let E := fresh "E" in
           let Hle := fresh "Hle" in
           destruct S as (v' & E & Hle); inversion E; subst; clear E
         end;
  repeat match goal with
         | Hs : errno_host _ -> _ <= 0 |- _ => specialize (Hs He)
         end;
  first [ assumption
        | apply He; reflexivity
        | unfold OK, EIO, EPERM, ENODEV, EINVAL, ETIMEDOUT; lia ].

Ltac status_close He := split; [status_leaf He | dev_chain].

Section PassThrough.

Variable cfg : config.

Lemma read_extcsd_status (fuel : nat) (w w' : world) (v : Z) :
  errno_host (dev (priv w)) ->
  mmcsd_read_extcsd cfg fuel w = (w', Some v) ->
  v <= 0 /\ dev (priv w') = dev (priv w).
Proof.
  intros He H. unfold mmcsd_read_extcsd, dma_supported in H.
  pose proof (emits_refl w) as Acc.
  repeat bstep ltac:(status_close He) Acc H.
Qed.

Lemma general_cmd_write_status (fuel : nat) (startblock : Z) (w w' : world)
      (v : Z) :
  errno_host (dev (priv w)) ->
  mmcsd_general_cmd_write cfg fuel startblock w = (w', Some v) ->
  v <= 0 /\ dev (priv w') = dev (priv w).
Proof.
  intros He H. unfold mmcsd_general_cmd_write, mmcsd_wrprotected in H.
  pose proof (emits_refl w) as Acc.
  repeat bstep ltac:(status_close He) Acc H.
Qed.

Lemma general_cmd_read_status (fuel : nat) (startblock : Z) (w w' : world)
      (v : Z) :
  errno_host (dev (priv w)) ->
  mmcsd_general_cmd_read cfg fuel startblock w = (w', Some v) ->
  v <= 0 /\ dev (priv w') = dev (priv w).
Proof.
  intros He H.
  unfold mmcsd_general_cmd_read, mmcsd_general_cmd_read_ret, dma_supported in H.
  pose proof (emits_refl w) as Acc.
  repeat bstep ltac:(status_close He) Acc H.
Qed.

End PassThrough.

Lemma iocmd_status (cfg : config) (fuel : nat) (part : Z) (ic_ptr : mmc_ioc_cmd)
      (w w' : world) (v : Z) :
  errno_host (dev (priv w)) ->
  mmcsd_iocmd cfg fuel part ic_ptr w = (w', Some v) ->
  v <= 0 /\ dev (priv w') = dev (priv w).
Proof.
  intros He H. unfold mmcsd_iocmd in H. cbv zeta in H.
  assert (Hxfer : forall (t : transfer) (w1 : world) (r : Z),
            transfer_result cfg t = to_int cfg (to_uint cfg (blocks ic_ptr)) ->
            (ret <- run_transfer cfg fuel part t ;;
             if negb (to_uint cfg ret =? to_uint cfg (blocks ic_ptr))
             then Ret ret else Ret OK) w
            = (w1, Some r) ->
            r <= 0 /\ dev (priv w1) = dev (priv w)).
  { intros t w1 r Hn Hr. mred Hr.
    destruct (run_transfer cfg fuel part t w) as [w2 o] eqn:Et.
    destruct (transfer_spec cfg part t fuel _ _ _ Et)
      as (sw & body & Hsame & _ & _ & _ & Hres).
    assert (Hd : dev (priv w2) = dev (priv w)).
    { destruct Hsame as [Hd _ _ _ _ _ _ _]. exact Hd. }
    destruct o as [x |]; mred Hr; [| discriminate].
    destruct (Z.eqb_spec (to_uint cfg x) (to_uint cfg (blocks ic_ptr)))
      as [Hx | Hx]; mred Hr; inversion Hr; subst.
    - split; [unfold OK; lia | exact Hd].
    - split; [| exact Hd].
      destruct Hres as [(_ & Hs & _) | (_ & Hf)].
      + inversion Hs; subst. exfalso. apply Hx. rewrite Hn.
        unfold to_uint, to_int. rewrite wrap_unsigned_signed.
        apply wrap_unsigned_idem.
      + destruct (Hf _ eq_refl) as (_ & Hlt). specialize (Hlt He). lia. }
  repeat match type of H with
         | (if ?b then _ else _) _ = _ => destruct b eqn:?
         end.
  - mred H. mcall H sendcmdpoll_spec'. destruct E as (E1 & _ & -> & _).
    mred H. mcall H usleep_spec. destruct E as (E2 & ->). mred H. mleaf H.
    split; [unfold OK; lia |].
    rewrite (emits_dev _ _ _ E2). exact (emits_dev _ _ _ E1).
  - mred H. mleaf H. split; [unfold OK; lia | reflexivity].
  - pose proof (switch_spec cfg _ _ _ _ _ H) as (S & E).
    split; [exact (S _ eq_refl He) |].
    destruct E as [(E & _) | (E & _)]; exact (emits_dev _ _ _ E).
  - eapply read_extcsd_status; eassumption.
  - mred H. mcall H get_r1_spec. destruct E as (E & r0 & r1 & -> & Hle).
    mred H. mleaf H. split; [exact (Hle He) | exact (emits_dev _ _ _ E)].
  - exact (Hxfer (ReadMultiple (arg ic_ptr) (to_uint cfg (blocks ic_ptr)))
                  _ _ eq_refl H).
  - mred H. mleaf H. split; [unfold OK; lia | reflexivity].
  - pose proof (setblockcount_spec _ _ _ _ H) as (E & v0 & Hv & Hle).
    inversion Hv; subst. split; [exact (Hle He) | exact (emits_dev _ _ _ E)].
  - exact (Hxfer (WriteMultiple (arg ic_ptr) (to_uint cfg (blocks ic_ptr)))
                  _ _ eq_refl H).
  - mred H. mleaf H. split; [unfold OK; lia | reflexivity].
  - eapply general_cmd_write_status; eassumption.
  - eapply general_cmd_read_status; eassumption.
  - mred H. mleaf H. split; [unfold EINVAL; lia | reflexivity].
Qed.

(** X18.  On a host whose status calls return OK or a negated errno,
    mmcsd_iocmd never returns a positive value: the block count that a
    CMD18 or CMD25 transfer returns is turned into OK.  An opcode whose
    index is none of 0, 2, 6, 8, 13, 18, 23, 25 and 56 gives -EINVAL
    without a call on the host. *)
Theorem X18_iocmd_result (cfg : config) (fuel : nat) (part : Z)
        (ic_ptr : mmc_ioc_cmd) (w w' : world) (v : Z) :
  errno_host (dev (priv w)) ->
  mmcsd_iocmd cfg fuel part ic_ptr w = (w', Some v) ->
  v <= 0 /\
  (~ In (Z.land (to_u32 (opcode ic_ptr)) MMCSD_CMDIDX_MASK) iocmd_indices ->
   v = - EINVAL /\ w' = w).
Proof.
  intros He H. split; [exact (proj1 (iocmd_status _ _ _ _ _ _ _ He H)) |].
  intros Hn. unfold mmcsd_iocmd in H. cbv zeta in H.
  assert (Hf : forall k, In k iocmd_indices ->
            (Z.land (to_u32 (opcode ic_ptr)) MMCSD_CMDIDX_MASK =? k) = false).
  { intros k Hk. apply Z.eqb_neq. intros E. apply Hn. now rewrite E. }
  rewrite !Hf in H by (unfold iocmd_indices; cbn; tauto).
  cbn [andb] in H. inversion H. split; reflexivity.
Qed.

Lemma X18_iocmd_result_witness :
  snd (mmcsd_iocmd Scenario.cfg0 1 0
         {| write_flag := 0; opcode := 7; arg := 0; blocks := 0 |}
         Scenario.world_sd_byte) = Some (- EINVAL) /\
  - EINVAL <= 0.
Proof.
  split; [reflexivity |].
  refine (proj1 (X18_iocmd_result Scenario.cfg0 1 0
                   {| write_flag := 0; opcode := 7; arg := 0; blocks := 0 |}
                   Scenario.world_sd_byte _ _ _ eq_refl)).
  intros c tr Hc. destruct c; try discriminate Hc; cbn; lia.
Defined.

Lemma multi_iocmd_loop_spec (cfg : config) (fuel : nat) (part : Z)
      (imc_ptr : mmc_ioc_multi_cmd) (w0 : world) (n : nat) :
  forall (i : nat) (w w' : world) (v : Z),
    w = batch_world cfg fuel part imc_ptr i w0 ->
    errno_host (dev (priv w)) ->
    multi_iocmd_loop cfg n fuel part imc_ptr i w = (w', Some v) ->
    v <= 0 /\
    exists k : nat,
      (i <= k <= i + n)%nat /\
      (forall j : nat, (i <= j < k)%nat ->
         snd (mmcsd_iocmd cfg fuel part (cmds imc_ptr j)
                (batch_world cfg fuel part imc_ptr j w0)) = Some OK) /\
      ((v = OK /\ k = (i + n)%nat /\
        w' = batch_world cfg fuel part imc_ptr k w0) \/
       (v <> OK /\ (k < i + n)%nat /\
        mmcsd_iocmd cfg fuel part (cmds imc_ptr k)
          (batch_world cfg fuel part imc_ptr k w0) = (w', Some v))).
Proof.
  induction n as [| n IH]; intros i w w' v Hw He H; cbn [multi_iocmd_loop] in H.
  - inversion H; subst. split; [unfold OK; lia |]. exists i.
    split; [lia |]. split; [intros j Hj; lia |]. left.
    repeat split. lia.
  - mred H.
    destruct (mmcsd_iocmd cfg fuel part (cmds imc_ptr i) w) as [w1 o] eqn:Ei.
    destruct o as [r |]; mred H; [| discriminate].
    destruct (iocmd_status _ _ _ _ _ _ _ He Ei) as (Hr & Hd).
    destruct (Z.eqb_spec r OK) as [Hok | Hne]; mred H.
    + subst r.
      assert (Hw1 : w1 = batch_world cfg fuel part imc_ptr (S i) w0).
      { cbn [batch_world]. rewrite <- Hw, Ei. reflexivity. }
      assert (He1 : errno_host (dev (priv w1))) by (now rewrite Hd).
      destruct (IH (S i) w1 w' v Hw1 He1 H) as (Hv & k & Hk & Hpre & Hend).
      split; [exact Hv |]. exists k. split; [lia |]. split.
      * intros j Hj. destruct (Nat.eq_dec j i) as [-> | Hji].
        -- rewrite <- Hw, Ei. reflexivity.
        -- apply Hpre. lia.
      * destruct Hend as [(Hv0 & Hk0 & Hw0) | (Hv0 & Hk0 & Hw0)].
        -- left. repeat split; [exact Hv0 | lia | exact Hw0].
        -- right. repeat split; [exact Hv0 | lia | exact Hw0].
    + inversion H; subst. split; [exact Hr |]. exists i.
      split; [lia |]. split; [intros j Hj; lia |]. right.
      split; [exact Hne |]. split; [lia | exact Ei].
Qed.

(** X19.  mmcsd_multi_iocmd refuses a batch of more than MMC_IOC_MAX_CMDS
    commands with -EINVAL before any call on the host.  Otherwise it runs
    the commands in order, each from the world the one before left, and
    stops at the first that does not return OK: it returns that result
    with the later commands not run, or OK when all of them returned OK.
    On a host whose status calls return OK or a negated errno the result
    is never positive. *)
Theorem X19_multi_iocmd_first_failure (cfg : config) (fuel : nat) (part : Z)
        (imc_ptr : mmc_ioc_multi_cmd) (w w' : world) (v : Z) :
  errno_host (dev (priv w)) ->
  mmcsd_multi_iocmd cfg fuel part imc_ptr w = (w', Some v) ->
  v <= 0 /\
  (MMC_IOC_MAX_CMDS < num_of_cmds imc_ptr -> v = - EINVAL /\ w' = w) /\
  (num_of_cmds imc_ptr <= MMC_IOC_MAX_CMDS ->
   exists k : nat,
     (k <= Z.to_nat (num_of_cmds imc_ptr))%nat /\
     (forall j : nat, (j < k)%nat ->
        snd (mmcsd_iocmd cfg fuel part (cmds imc_ptr j)
               (batch_world cfg fuel part imc_ptr j w)) = Some OK) /\
     ((v = OK /\ k = Z.to_nat (num_of_cmds imc_ptr) /\
       w' = batch_world cfg fuel part imc_ptr k w) \/
      (v <> OK /\ (k < Z.to_nat (num_of_cmds imc_ptr))%nat /\
       mmcsd_iocmd cfg fuel part (cmds imc_ptr k)
         (batch_world cfg fuel part imc_ptr k w) = (w', Some v)))).
Proof.
  intros He H. unfold mmcsd_multi_iocmd in H.
  destruct (Z.ltb_spec MMC_IOC_MAX_CMDS (num_of_cmds imc_ptr)) as [Hgt | Hle].
  - inversion H; subst. split; [unfold EINVAL; lia |].
    split; [intros _; split; reflexivity | intros Hc; lia].
  - destruct (multi_iocmd_loop_spec cfg fuel part imc_ptr w _ O w w' v
                eq_refl He H) as (Hv & k & Hk & Hpre & Hend).
    split; [exact Hv |]. split; [intros Hc; lia |]. intros _.
    exists k. split; [lia |]. split.
    + intros j Hj. apply Hpre. lia.
    + exact Hend.
Qed.

Lemma X19_multi_iocmd_first_failure_witness :
  snd (mmcsd_multi_iocmd Scenario.cfg0 1 0 Examples.batch_bad_second
         Scenario.world_sd_byte) = Some (- EINVAL) /\
  - EINVAL <= 0.
Proof.
  split; [reflexivity |].
  refine (proj1 (X19_multi_iocmd_first_failure Scenario.cfg0 1 0
                   Examples.batch_bad_second Scenario.world_sd_byte _ _ _
                   (surjective_pairing _))).
  intros c tr Hc. destruct c; try discriminate Hc; cbn; lia.
Defined.

(** ** Open and close *)

Lemma set_crefs_back (x : mmcsd_more_s) (c : Z) :
  set_crefs (crefs x) (set_crefs c x) = x.
Proof. destruct x. reflexivity. Qed.

(** X20.  mmcsd_open and mmcsd_close count the references under the
    lock: below MAX_CREFS an open that returns OK adds one reference, and
    a close that then returns OK gives back the slot as it was before the
    open.  An open whose lock fails returns the negative result of the
    lock and leaves the count alone.  Neither touches the card state. *)
Theorem X20_open_close_round_trip (cfg : config) (x x1 : mmcsd_more_s)
        (w w1 : world) (r1 : Z) :
  0 <= crefs x < MAX_CREFS ->
  mmcsd_open cfg x w = (w1, Some (x1, r1)) ->
  priv w1 = priv w /\
  ((r1 = OK /\ crefs x1 = crefs x + 1 /\
    forall (w2 : world) (x2 : mmcsd_more_s) (r2 : Z),
      mmcsd_close cfg x1 w1 = (w2, Some (x2, r2)) ->
      priv w2 = priv w /\
      ((r2 = OK /\ x2 = x) \/ (r2 < 0 /\ x2 = x1))) \/
   (r1 < 0 /\ x1 = x /\ mmcsd_lock cfg w = (w1, Some r1))).
Proof.
  intros Hc H. unfold mmcsd_open in H. mred H.
  destruct (mmcsd_lock cfg w) as [wl o] eqn:El.
  destruct (lock_priv _ _ _ _ El) as (Pl & v & ->). mred H.
  destruct (Z.ltb_spec v 0) as [Hv | Hv]; mred H.
  { inversion H; subst. split; [exact Pl |]. right. auto. }
  destruct (mmcsd_unlock cfg wl) as [wu ou] eqn:Eu.
  destruct (unlock_priv _ _ _ _ Eu) as (Pu & ->). mred H.
  inversion H; subst. clear H. split; [congruence |]. left.
  assert (Hx : to_u8 (crefs x + 1) = crefs x + 1).
  { unfold to_u8. apply Z.mod_small. unfold MAX_CREFS in Hc. lia. }
  split; [reflexivity |]. split; [cbn [crefs set_crefs]; exact Hx |].
  intros w2 x2 r2 H. unfold mmcsd_close in H. mred H.
  destruct (mmcsd_lock cfg w1) as [wl2 o2] eqn:El2.
  destruct (lock_priv _ _ _ _ El2) as (Pl2 & v2 & ->). mred H.
  destruct (Z.ltb_spec v2 0) as [Hv2 | Hv2]; mred H.
  { inversion H; subst. split; [congruence |]. right. auto. }
  destruct (mmcsd_unlock cfg wl2) as [wu2 ou2] eqn:Eu2.
  destruct (unlock_priv _ _ _ _ Eu2) as (Pu2 & ->). mred H.
  inversion H; subst. clear H. split; [congruence |]. left.
  split; [reflexivity |]. cbn [crefs set_crefs]. rewrite Hx.
  replace (crefs x + 1 - 1) with (crefs x) by lia.
  assert (Hx0 : to_u8 (crefs x) = crefs x).
  { unfold to_u8. apply Z.mod_small. unfold MAX_CREFS in Hc. lia. }
  rewrite Hx0. apply set_crefs_back.
Qed.

Lemma X20_open_close_round_trip_witness :
  snd (mmcsd_open Scenario.cfg0 Examples.slot_changed Scenario.world_emmc)
  = Some (set_crefs 2 Examples.slot_changed, OK) /\
  snd (mmcsd_close Scenario.cfg0 (set_crefs 2 Examples.slot_changed)
         (fst (mmcsd_open Scenario.cfg0 Examples.slot_changed
                 Scenario.world_emmc)))
  = Some (Examples.slot_changed, OK).
Proof.
  split; [reflexivity |].
  pose proof (X20_open_close_round_trip Scenario.cfg0 Examples.slot_changed _
                Scenario.world_emmc _ _ ltac:(vm_compute; split; congruence)
                (surjective_pairing _)) as H.
  reflexivity.
Defined.

(** ** The SCR *)

Lemma land_15 (a : Z) : Z.land a 15 = a mod 16.
Proof. change 15 with (Z.ones 4). rewrite Z.land_ones by lia. reflexivity. Qed.

Lemma land_1 (a : Z) : Z.land a 1 = a mod 2.
Proof. change 1 with (Z.ones 1). rewrite Z.land_ones by lia. reflexivity. Qed.

Lemma bit_of_shift (a k : Z) :
  0 <= k -> negb (Z.land (Z.shiftr a k) 1 =? 0) = Z.testbit a k.
Proof.
  intros Hk. rewrite land_1.
  rewrite <- (Z.add_0_l k) at 2. rewrite <- Z.shiftr_spec by lia.
  rewrite Z.bit0_eqb. change (2 ^ 1) with 2.
  pose proof (Z.mod_pos_bound (Z.shiftr a k) 2 ltac:(lia)) as Hm.
  destruct (Z.eqb_spec (Z.shiftr a k mod 2) 0) as [E | E];
    destruct (Z.eqb_spec (Z.shiftr a k mod 2) 1) as [E1 | E1];
    cbn [negb]; try reflexivity; lia.
Qed.

(** X21.  Both byte orders of mmcsd_decode_scr read the same two fields
    of the register the card sent: the bus widths are the low four bits
    of its second byte (SD_BUS_WIDTHS, bits 51:48) and the CMD23 support
    is bit 1 of its fourth byte (bit 33), whether the CPU holds the word
    big-endian or little-endian.  Nothing else of the slot changes. *)
Theorem X21_decode_scr_byte_order (big_endian : bool) (x : mmcsd_more_s)
        (priv : mmcsd_state_s) (b0 b1 b2 b3 : Z) (rest : list Z) :
  0 <= b0 < 256 -> 0 <= b1 < 256 -> 0 <= b2 < 256 -> 0 <= b3 < 256 ->
  mmcsd_decode_scr big_endian x priv (scr_word big_endian b0 b1 b2 b3 :: rest)
  = (set_buswidth (Z.land b1 15) x, set_cmd23support (Z.testbit b3 1) priv).
Proof.
  intros H0 H1 H2 H3. unfold mmcsd_decode_scr, scr_word. cbn [nth].
  destruct big_endian; rewrite lor_bytes by assumption.
  - rewrite to_u32_small by lia. rewrite bit_of_shift by lia.
    rewrite !land_15, Z.shiftr_div_pow2 by lia. f_equal.
    + f_equal. change (2 ^ 16) with 65536.
      Z.div_mod_to_equations. lia.
    + f_equal.
      rewrite <- (bit_of_shift b3 1) by lia.
      rewrite <- (bit_of_shift (b3 + 256 * b2 + 65536 * b1 + 16777216 * b0) 1)
        by lia.
      do 2 f_equal. rewrite !land_1, !Z.shiftr_div_pow2 by lia.
      change (2 ^ 1) with 2. Z.div_mod_to_equations. lia.
  - rewrite to_u32_small by lia. rewrite bit_of_shift by lia.
    rewrite !land_15, Z.shiftr_div_pow2 by lia. f_equal.
    + f_equal. change (2 ^ 8) with 256.
      Z.div_mod_to_equations. lia.
    + f_equal.
      rewrite <- (bit_of_shift b3 1) by lia.
      rewrite <- (bit_of_shift (b0 + 256 * b1 + 65536 * b2 + 16777216 * b3) 25)
        by lia.
      do 2 f_equal. rewrite !land_1, !Z.shiftr_div_pow2 by lia.
      change (2 ^ 1) with 2. change (2 ^ 25) with 33554432.
      Z.div_mod_to_equations. lia.
Qed.

Lemma X21_decode_scr_byte_order_witness :
  mmcsd_decode_scr false Examples.slot_changed (priv Scenario.world_sd_byte)
    [0x03803502; 0]
  = (set_buswidth 5 Examples.slot_changed,
     set_cmd23support true (priv Scenario.world_sd_byte)) /\
  mmcsd_decode_scr true Examples.slot_changed (priv Scenario.world_sd_byte)
    [0x02358003; 0]
  = (set_buswidth 5 Examples.slot_changed,
     set_cmd23support true (priv Scenario.world_sd_byte)).
Proof.
  split.
  - exact (X21_decode_scr_byte_order false Examples.slot_changed
             (priv Scenario.world_sd_byte) 0x02 0x35 0x80 0x03 [0]
             ltac:(lia) ltac:(lia) ltac:(lia) ltac:(lia)).
  - exact (X21_decode_scr_byte_order true Examples.slot_changed
             (priv Scenario.world_sd_byte) 0x02 0x35 0x80 0x03 [0]
             ltac:(lia) ltac:(lia) ltac:(lia) ltac:(lia)).
Defined.

(** ** The state of the card *)

(** X25.  mmcsd_verifystate returns OK only when the R1 word that the
    card gave to CMD13 has no error bit set and shows the state asked
    for: an R1 with an error bit never verifies, whatever its state
    field.  With OK the busy flag is cleared and the lock flag is as it
    was; with any other result the busy flag is as it was. *)
Theorem X25_verifystate_ok (state : Z) (w w' : world) (v : Z) :
  mmcsd_verifystate state w = (w', Some v) ->
  let r1 := to_u32 (sdio_resp (dev (priv w)) (calls w')) in
  (v = OK ->
   hd_error (calls w') = Some (SDIO_RECVR1 MMCSD_CMD13) /\
   Z.land r1 MMCSD_R1_ERRORMASK = 0 /\ IS_STATE r1 state = true /\
   wrbusy (priv w') = false /\ locked (priv w') = locked (priv w)) /\
  (v <> OK -> wrbusy (priv w') = wrbusy (priv w)).
Proof.
  intros H r1. subst r1.
  unfold mmcsd_verifystate, mmcsd_get_r1 in H. mred H.
  destruct (mmcsd_sendcmdpoll MMCSD_CMD13
              (Z.shiftl (to_u32 (rca (priv w))) 16) w) as [w1 o] eqn:E1.
  pose proof (sendcmdpoll_priv _ _ _ _ _ E1) as P1.
  destruct o as [v0 |]; mred H; [| discriminate H].
  unfold recvr1 in H. mred H. rewrite priv_logcall, calls_logcall, P1 in H.
  set (ret := sdio_ret (dev (priv w)) (SDIO_RECVR1 MMCSD_CMD13 :: calls w1))
    in H.
  set (r1 := to_u32 (sdio_resp (dev (priv w))
                       (SDIO_RECVR1 MMCSD_CMD13 :: calls w1))) in H.
  assert (Hbad : - EIO <> OK) by (unfold EIO, OK; lia).
  assert (Hinv : - EINVAL <> OK) by (unfold EINVAL, OK; lia).
  destruct (Z.eqb_spec ret OK) as [Hret | Hret]; mred H.
  - destruct (Z.eqb_spec (Z.land r1 MMCSD_R1_ERRORMASK) 0) as [Herr | Herr];
      cbn [negb] in H; mred H.
    + rewrite Hret in H. change (OK =? OK) with true in H. cbn [negb] in H.
      destruct (IS_STATE r1 state) eqn:Hst; mred H; inversion H; subst;
        rewrite ?priv_setpriv, ?priv_logcall, ?calls_setpriv, ?calls_logcall,
                ?P1;
        cbn [wrbusy locked set_wrbusy hd_error].
      * split; [intros _ | intros Hv; now elim Hv].
        fold r1. repeat split; assumption.
      * split; [intros Hv; now elim Hinv | reflexivity].
    + destruct (Z.eqb_spec (- EIO) OK) as [E | _]; [now elim Hbad |].
      cbn [negb] in H. inversion H; subst.
      rewrite ?priv_setpriv, ?priv_logcall, P1. cbn [wrbusy set_locked].
      split; [intros Hv; now elim Hbad | reflexivity].
  - destruct (Z.eqb_spec ret OK) as [E | _]; [now elim Hret |].
    cbn [negb] in H. inversion H; subst.
    rewrite ?priv_logcall, P1.
    split; [intros Hv; now elim Hret | reflexivity].
Qed.

Lemma X25_verifystate_ok_witness :
  snd (mmcsd_verifystate MMCSD_R1_STATE_TRAN Examples.world_sd_written)
  = Some OK /\
  wrbusy (priv Examples.world_sd_written) = true /\
  wrbusy (priv (fst (mmcsd_verifystate MMCSD_R1_STATE_TRAN
                       Examples.world_sd_written))) = false.
Proof.
  split; [reflexivity |]. split; [reflexivity |].
  pose proof (X25_verifystate_ok MMCSD_R1_STATE_TRAN
                Examples.world_sd_written _ OK
                (surjective_pairing _)) as H.
  cbv zeta in H. destruct H as (H & _).
  destruct (H eq_refl) as (_ & _ & _ & Hb & _). exact Hb.
Defined.

(** ** Transfers with a block count set in advance *)

(** X22.  On a card that is not an SD card, or whose SCR announces CMD23,
    no transfer routine puts a STOP_TRANSMISSION (CMD12) on the bus,
    whether it succeeds or fails: what it adds to the observed calls is
    at most the partition switch, the block set-up and the data
    command. *)
Theorem X22_no_stop_with_cmd23 (cfg : config) (fuel : nat) (part : Z)
        (t : transfer) (w w' : world) (r : option Z) :
  IS_SD (type (priv w)) = false \/ cmd23support (priv w) = true ->
  run_transfer cfg fuel part t w = (w', r) ->
  exists new : list call,
    trace w' = trace w ++ new /\
    (forall a : Z, ~ In (SDIO_SENDCMD MMCSD_CMD12 a) new) /\
    (length new <= 3)%nat.
Proof.
  intros Hc H.
  destruct (transfer_spec cfg part t fuel _ _ _ H)
    as (sw & body & _ & Ht & Hsw & _ & Hres).
  assert (Hstop : stop_calls (priv w) = []).
  { unfold stop_calls, stop_needed.
    destruct Hc as [-> | ->]; [reflexivity | now rewrite andb_false_r]. }
  assert (Hfull : (forall a, ~ In (SDIO_SENDCMD MMCSD_CMD12 a)
                               (transfer_calls (priv w) t)) /\
                  length (transfer_calls (priv w) t) = 2%nat).
  { destruct t; cbn [transfer_calls];
      unfold readsingle_calls, readmultiple_calls, writesingle_calls,
             writemultiple_calls, write_calls;
      rewrite ?Hstop;
      try destruct (Z.land (caps (priv w)) SDIO_CAPS_DMABEFOREWRITE =? 0);
      (split; [intros a [E | [E | []]]; discriminate E | reflexivity]). }
  destruct Hfull as (Hno & Hlen).
  assert (Hbody : (forall a, ~ In (SDIO_SENDCMD MMCSD_CMD12 a) body) /\
                  (length body <= 2)%nat).
  { destruct Hres as [(-> & _) | ((c & Hp) & _)].
    - split; [exact Hno | lia].
    - split.
      + intros a Hin. apply (Hno a). rewrite Hp. apply in_or_app. now left.
      + rewrite Hp, length_app in Hlen. lia. }
  exists (sw ++ body). split; [exact Ht |]. split.
  - intros a Hin. apply in_app_or in Hin. destruct Hin as [Hin | Hin].
    + destruct Hsw as [(-> & _) | (-> & _)]; [destruct Hin |].
      destruct Hin as [E | []]. discriminate E.
    + exact (proj1 Hbody a Hin).
  - rewrite length_app.
    destruct Hsw as [(-> & _) | (-> & _)]; cbn [length]; lia.
Qed.

Lemma X22_no_stop_with_cmd23_witness :
  trace (fst (run_transfer Scenario.cfg0 1 1 (WriteMultiple 8 4)
                Scenario.world_emmc))
  = [SDIO_SENDCMD MMCSD_CMD6 (part_switch_arg 1);
     SDIO_SENDCMD MMCSD_CMD25 8; SDIO_BLOCKSETUP 512 4] /\
  exists new : list call,
    trace (fst (run_transfer Scenario.cfg0 1 1 (WriteMultiple 8 4)
                  Scenario.world_emmc))
    = trace Scenario.world_emmc ++ new /\
    (forall a : Z, ~ In (SDIO_SENDCMD MMCSD_CMD12 a) new) /\
    (length new <= 3)%nat.
Proof.
  split; [reflexivity |].
  exact (X22_no_stop_with_cmd23 Scenario.cfg0 1 1 (WriteMultiple 8 4)
           Scenario.world_emmc _ _ (or_introl eq_refl)
           (surjective_pairing _)).
Defined.

(** ** What the routines leave alone: the mutex, the host, the block length *)

Lemma mutex_logcall (c : call) (w : world) :
  mutex_calls (logcall c w)
  = mutex_calls w ++ (if is_mutex c then [c] else []).
Proof.
  unfold mutex_calls, logcall. cbn [calls rev]. rewrite filter_app.
  cbn [filter]. destruct (is_mutex c); reflexivity.
Qed.

Lemma mutex_obs_logcall (c : call) (w : world) :
  is_mutex c = false -> mutex_obs (logcall c w) = mutex_obs w.
Proof.
  intros Hc. unfold mutex_obs. rewrite mutex_logcall, Hc, app_nil_r.
  reflexivity.
Qed.

Section Keeps.

Context {X : Type} (obs : world -> X).

Lemma keeps_ret {A : Type} (a : A) : keeps obs (Ret a).
Proof. intros w w' r H. inversion H. reflexivity. Qed.

Lemma keeps_out_of_fuel {A : Type} : keeps obs (@out_of_fuel A).
Proof. intros w w' r H. inversion H. reflexivity. Qed.

Lemma keeps_get_priv : keeps obs get_priv.
Proof. intros w w' r H. inversion H. reflexivity. Qed.

Lemma keeps_response : keeps obs response.
Proof. intros w w' r H. inversion H. reflexivity. Qed.

Lemma keeps_host (c : call) :
  (forall w, obs (logcall c w) = obs w) -> keeps obs (host c).
Proof. intros Hc w w' r H. inversion H. apply Hc. Qed.

Lemma keeps_modify (f : mmcsd_state_s -> mmcsd_state_s) :
  (forall w, obs (setpriv f w) = obs w) -> keeps obs (modify f).
Proof. intros Hf w w' r H. inversion H. apply Hf. Qed.

Lemma keeps_bind {A B : Type} (m : M A) (k : A -> M B) :
  keeps obs m -> (forall a, keeps obs (k a)) -> keeps obs (bind m k).
Proof.
  intros Hm Hk w w' r H. unfold bind in H.
  destruct (m w) as [w1 [a |]] eqn:E.
  - rewrite (Hk a _ _ _ H). exact (Hm _ _ _ E).
  - inversion H; subst. exact (Hm _ _ _ E).
Qed.

Lemma keeps_host_ (c : call) :
  (forall w, obs (logcall c w) = obs w) -> keeps obs (host_ c).
Proof.
  intros Hc. unfold host_. apply keeps_bind; [now apply keeps_host |].
  intros a. apply keeps_ret.
Qed.

End Keeps.

Lemma quiet_inv {A : Type} (m : M A) (w w' : world) (r : option A) :
  quiet m -> m w = (w', r) ->
  mutex_calls w' = mutex_calls w /\ dev (priv w') = dev (priv w).
Proof.
  intros Hq H. pose proof (Hq _ _ _ H) as E. unfold mutex_obs in E.
  inversion E. split; reflexivity.
Qed.

Lemma slot_obs_logcall (c : call) (w : world) :
  is_mutex c = false -> slot_obs (logcall c w) = slot_obs w.
Proof.
  intros Hc. unfold slot_obs. rewrite mutex_logcall, Hc, app_nil_r.
  reflexivity.
Qed.

Lemma slot_inv {A : Type} (m : M A) (w w' : world) (r : option A) :
  keeps slot_obs m -> m w = (w', r) ->
  selblocklen (priv w') = selblocklen (priv w) /\
  blocksize (priv w') = blocksize (priv w).
Proof.
  intros Hq H. pose proof (Hq _ _ _ H) as E. unfold slot_obs in E.
  inversion E. split; reflexivity.
Qed.

Lemma keeps_slot_quiet {A : Type} (m : M A) : keeps slot_obs m -> quiet m.
Proof.
  intros Hq w w' r H. pose proof (Hq _ _ _ H) as E.
  unfold slot_obs in E. unfold mutex_obs. inversion E. reflexivity.
Qed.

Create HintDb keeps.

#[local] Hint Resolve keeps_ret keeps_out_of_fuel keeps_get_priv keeps_response
  keeps_host keeps_host_ keeps_modify : keeps.
#[local] Hint Extern 1 (forall w, mutex_obs (logcall _ w) = mutex_obs w) =>
  intros ?; apply mutex_obs_logcall; reflexivity : keeps.
#[local] Hint Extern 1 (forall w, mutex_obs (setpriv _ w) = mutex_obs w) =>
  intros ?; reflexivity : keeps.
#[local] Hint Extern 1 (forall w, slot_obs (logcall _ w) = slot_obs w) =>
  intros ?; apply slot_obs_logcall; reflexivity : keeps.
#[local] Hint Extern 1 (forall w, slot_obs (setpriv _ w) = slot_obs w) =>
  intros ?; reflexivity : keeps.
#[local] Hint Resolve keeps_slot_quiet : keeps.

(** Prove [keeps] of a routine from its parts. *)
Ltac keeps_go :=
  repeat first
    [ solve [auto 3 with keeps]
    | progress cbv zeta
    | apply keeps_bind; [| intros ?]
    | match goal with
      | |- keeps _ (if ?b then _ else _) => destruct b
      | |- keeps _ (match ?x with _ => _ end) => destruct x
      end ].

Section Kept.

Variable cfg : config.

Lemma calm_sendcmdpoll (cmd : sdio_cmd) (arg : Z) :
  keeps slot_obs (mmcsd_sendcmdpoll cmd arg).
Proof. unfold mmcsd_sendcmdpoll. keeps_go. Qed.
#[local] Hint Resolve calm_sendcmdpoll : keeps.

Lemma calm_recvr1 (cmd : sdio_cmd) : keeps slot_obs (recvr1 cmd).
Proof. unfold recvr1. keeps_go. Qed.
#[local] Hint Resolve calm_recvr1 : keeps.

Lemma calm_recv_r1 (cmd : sdio_cmd) : keeps slot_obs (mmcsd_recv_r1 cmd).
Proof. unfold mmcsd_recv_r1. keeps_go. Qed.
#[local] Hint Resolve calm_recv_r1 : keeps.

Lemma calm_get_r1 : keeps slot_obs mmcsd_get_r1.
Proof. unfold mmcsd_get_r1. keeps_go. Qed.
#[local] Hint Resolve calm_get_r1 : keeps.

Lemma calm_wrprotected : keeps slot_obs mmcsd_wrprotected.
Proof. unfold mmcsd_wrprotected. keeps_go. Qed.
#[local] Hint Resolve calm_wrprotected : keeps.

Lemma calm_eventwait (failevents : Z) : keeps slot_obs (mmcsd_eventwait failevents).
Proof. unfold mmcsd_eventwait. keeps_go. Qed.
#[local] Hint Resolve calm_eventwait : keeps.

Lemma calm_usleep (usec : Z) : keeps slot_obs (MMCSD_USLEEP cfg usec).
Proof. unfold MMCSD_USLEEP. keeps_go. Qed.
#[local] Hint Resolve calm_usleep : keeps.

Lemma calm_pause : keeps slot_obs (transferready_pause cfg).
Proof. unfold transferready_pause. keeps_go. Qed.
#[local] Hint Resolve calm_pause : keeps.

Lemma calm_wrcomplete : keeps slot_obs (transferready_wrcomplete cfg).
Proof. unfold transferready_wrcomplete. keeps_go. Qed.
#[local] Hint Resolve calm_wrcomplete : keeps.

Lemma calm_poll (fuel : nat) (starttime : Z) :
  keeps slot_obs (transferready_poll cfg fuel starttime).
Proof.
  induction fuel as [| fuel IH]; cbn [transferready_poll]; keeps_go.
Qed.
#[local] Hint Resolve calm_poll : keeps.

Lemma calm_transferready (fuel : nat) : keeps slot_obs (mmcsd_transferready cfg fuel).
Proof. unfold mmcsd_transferready. keeps_go. Qed.
#[local] Hint Resolve calm_transferready : keeps.

Lemma calm_switch (fuel : nat) (arg : Z) : keeps slot_obs (mmcsd_switch cfg fuel arg).
Proof. unfold mmcsd_switch. keeps_go. Qed.
#[local] Hint Resolve calm_switch : keeps.

Lemma calm_stoptransmission : keeps slot_obs mmcsd_stoptransmission.
Proof. unfold mmcsd_stoptransmission. keeps_go. Qed.
#[local] Hint Resolve calm_stoptransmission : keeps.

Lemma quiet_setblocklen (blocklen : Z) : quiet (mmcsd_setblocklen blocklen).
Proof. unfold mmcsd_setblocklen. keeps_go. Qed.
#[local] Hint Resolve quiet_setblocklen : keeps.

Lemma calm_setblockcount (nblocks : Z) : keeps slot_obs (mmcsd_setblockcount nblocks).
Proof. unfold mmcsd_setblockcount. keeps_go. Qed.
#[local] Hint Resolve calm_setblockcount : keeps.

Lemma calm_partswitch (fuel : nat) (part : Z) :
  keeps slot_obs (mmcsd_partswitch cfg fuel part).
Proof. unfold mmcsd_partswitch. keeps_go. Qed.
#[local] Hint Resolve calm_partswitch : keeps.

Lemma calm_dma_supported : keeps slot_obs (dma_supported cfg).
Proof. unfold dma_supported. keeps_go. Qed.
#[local] Hint Resolve calm_dma_supported : keeps.

Lemma calm_dma_preflight (nbytes : Z) : keeps slot_obs (dma_preflight cfg nbytes).
Proof. unfold dma_preflight. keeps_go. Qed.
#[local] Hint Resolve calm_dma_preflight : keeps.

Lemma calm_exit (ret : Z) : keeps slot_obs (mmcsd_exit cfg ret).
Proof. unfold mmcsd_exit. keeps_go. Qed.
#[local] Hint Resolve calm_exit : keeps.

Lemma calm_recv_setup (nbytes : Z) : keeps slot_obs (recv_setup cfg nbytes).
Proof. unfold recv_setup. keeps_go. Qed.
#[local] Hint Resolve calm_recv_setup : keeps.

Lemma calm_send_setup (nbytes : Z) : keeps slot_obs (send_setup cfg nbytes).
Proof. unfold send_setup. keeps_go. Qed.
#[local] Hint Resolve calm_send_setup : keeps.

Lemma quiet_transfer (fuel : nat) (part : Z) (t : transfer) :
  quiet (run_transfer cfg fuel part t).
Proof.
  destruct t; cbn [run_transfer];
    unfold mmcsd_readsingle, mmcsd_readsingle_xfer, mmcsd_readsingle_wait,
           mmcsd_readmultiple, mmcsd_readmultiple_xfer, mmcsd_readmultiple_wait,
           mmcsd_writesingle, mmcsd_writesingle_xfer, mmcsd_writesingle_wait,
           mmcsd_writemultiple, mmcsd_writemultiple_xfer,
           mmcsd_writemultiple_wait, mmcsd_writemultiple_done;
    keeps_go.
Qed.

Lemma quiet_read_loop (iter fuel : nat) (part sector endsector ret : Z) :
  quiet (mmcsd_read_loop cfg iter fuel part sector endsector ret).
Proof.
  revert sector. induction iter as [| iter IH]; intros sector;
    cbn [mmcsd_read_loop]; unfold mmcsd_read_chunk;
    pose proof (fun s => quiet_transfer fuel part (ReadSingle s)) as Q1;
    pose proof (fun s n => quiet_transfer fuel part (ReadMultiple s n)) as Qn;
    cbn [run_transfer] in Q1, Qn; keeps_go.
Qed.

Lemma quiet_write_loop (iter fuel : nat) (part sector endsector ret : Z) :
  quiet (mmcsd_write_loop cfg iter fuel part sector endsector ret).
Proof.
  revert sector. induction iter as [| iter IH]; intros sector;
    cbn [mmcsd_write_loop]; unfold mmcsd_write_chunk;
    pose proof (fun s => quiet_transfer fuel part (WriteSingle s)) as Q1;
    pose proof (fun s n => quiet_transfer fuel part (WriteMultiple s n)) as Qn;
    cbn [run_transfer] in Q1, Qn; keeps_go.
Qed.

Lemma lock_mutex (w w1 : world) (r : option Z) :
  thread_context (dev (priv w)) ->
  mmcsd_lock cfg w = (w1, r) ->
  exists ret, r = Some ret /\ dev (priv w1) = dev (priv w) /\
              mutex_calls w1 = mutex_calls w ++ [nxmutex_lock].
Proof.
  intros Hc H. unfold mmcsd_lock in H. mred H.
  rewrite (proj1 (Hc _)) in H. cbn [Z.eqb negb] in H.
  rewrite priv_logcall in H. rewrite (proj2 (Hc _)) in H.
  cbn [Z.eqb negb] in H. rewrite !priv_logcall in H.
  match type of H with
  | context [sdio_ret ?d (nxmutex_lock :: ?tr)] =>
      set (ret := sdio_ret d (nxmutex_lock :: tr)) in *
  end.
  destruct (ret <? 0); [| destruct (CONFIG_SDIO_MUXBUS cfg)]; mred H;
    inversion H; subst; exists ret;
    rewrite ?priv_logcall, !mutex_logcall; cbn [is_mutex];
    rewrite ?app_nil_r; repeat split; reflexivity.
Qed.

Lemma unlock_mutex (w w1 : world) (r : option unit) :
  thread_context (dev (priv w)) ->
  mmcsd_unlock cfg w = (w1, r) ->
  r = Some tt /\ dev (priv w1) = dev (priv w) /\
  mutex_calls w1 = mutex_calls w ++ [nxmutex_unlock].
Proof.
  intros Hc H. unfold mmcsd_unlock in H. mred H.
  rewrite (proj1 (Hc _)) in H. cbn [Z.eqb negb] in H.
  rewrite priv_logcall in H. rewrite (proj2 (Hc _)) in H.
  cbn [Z.eqb negb] in H.
  destruct (CONFIG_SDIO_MUXBUS cfg); mred H; inversion H; subst;
    rewrite ?priv_logcall, !mutex_logcall; cbn [is_mutex];
    rewrite ?app_nil_r; repeat split; reflexivity.
Qed.

(** A body that leaves the mutex alone, run between mmcsd_lock and
    mmcsd_unlock. *)
Lemma locked_body {A B : Type} (body : M A) (fail : Z -> B) (done : A -> B)
      (val : B -> Z) (w w' : world) (b : B) :
  thread_context (dev (priv w)) -> quiet body ->
  (forall ret, val (fail ret) = ret) ->
  (ret <- mmcsd_lock cfg ;;
   if ret <? 0 then Ret (fail ret) else
   a <- body ;; mmcsd_unlock cfg ;; Ret (done a)) w = (w', Some b) ->
  balanced w w' (val b).
Proof.
  intros Hc Hq Hval H. mred H.
  destruct (mmcsd_lock cfg w) as [w1 o] eqn:El.
  destruct (lock_mutex _ _ _ Hc El) as (ret & -> & D1 & M1). mred H.
  destruct (Z.ltb_spec ret 0) as [Hr | Hr]; mred H.
  { inversion H; subst. split; [exact D1 |]. right.
    split; [exact M1 | now rewrite Hval]. }
  destruct (body w1) as [w2 o2] eqn:Eb.
  destruct (quiet_inv _ _ _ _ Hq Eb) as (M2 & D2).
  destruct o2 as [a |]; mred H; [| discriminate].
  destruct (mmcsd_unlock cfg w2) as [w3 o3] eqn:Eu.
  assert (Hc2 : thread_context (dev (priv w2))) by (now rewrite D2, D1).
  destruct (unlock_mutex _ _ _ Hc2 Eu) as (-> & D3 & M3). mred H.
  inversion H; subst. split; [congruence |]. left.
  rewrite M3, M2, M1, <- app_assoc. reflexivity.
Qed.

(** X23.  In a thread that is not the idle task every block-device
    method that takes the mutex gives it back before it returns: what
    mmcsd_read, mmcsd_write, mmcsd_geometry, mmcsd_open and mmcsd_close
    add to the calls on the mutex is one nxmutex_lock followed by one
    nxmutex_unlock, or the nxmutex_lock alone when it failed, whose
    negative result they then return.  The transfers in between, with
    their error paths, never touch the mutex. *)
Theorem X23_methods_release_mutex (fuel : nat) (w w' : world) (v : Z) :
  thread_context (dev (priv w)) ->
  (forall part startsector nsectors : Z,
     0 < nsectors ->
     mmcsd_read cfg fuel part startsector nsectors w = (w', Some v) ->
     balanced w w' v) /\
  (forall part startsector nsectors : Z,
     0 < nsectors ->
     mmcsd_write cfg fuel part startsector nsectors w = (w', Some v) ->
     balanced w w' v) /\
  (forall (x x' : mmcsd_more_s) (part : nat) (g : geometry)
          (go : option geometry),
     mmcsd_geometry cfg x part (Some g) w = (w', Some (x', go, v)) ->
     balanced w w' v) /\
  (forall x x' : mmcsd_more_s,
     mmcsd_open cfg x w = (w', Some (x', v)) -> balanced w w' v) /\
  (forall x x' : mmcsd_more_s,
     mmcsd_close cfg x w = (w', Some (x', v)) -> balanced w w' v).
Proof.
  intros Hc. split; [| split; [| split; [| split]]].
  - intros part s n Hn H. unfold mmcsd_read in H.
    rewrite (proj2 (Z.ltb_lt 0 n) Hn) in H.
    refine (locked_body _ (fun ret => ret) (fun a => a) (fun b => b)
              _ _ _ Hc (quiet_read_loop _ _ _ _ _ _) (fun _ => eq_refl) H).
  - intros part s n Hn H. unfold mmcsd_write in H.
    rewrite (proj2 (Z.ltb_lt 0 n) Hn) in H.
    refine (locked_body _ (fun ret => ret) (fun a => a) (fun b => b)
              _ _ _ Hc (quiet_write_loop _ _ _ _ _ _) (fun _ => eq_refl) H).
  - intros x x' part g go H. unfold mmcsd_geometry in H.
    refine (locked_body _ (fun ret => (x, Some geometry_zero, ret))
              (fun a => a) (fun b => snd b) _ _ _ Hc _ (fun _ => eq_refl) H).
    intros w0 w1 r0 E.
    destruct (type (priv w0) =? MMCSD_CARDTYPE_UNKNOWN);
      [exact (keeps_ret mutex_obs _ _ _ _ E) |].
    revert w1 r0 E. revert w0.
    apply (keeps_bind mutex_obs); [apply keeps_slot_quiet, calm_wrprotected |].
    intros wp.
    apply (keeps_bind mutex_obs); [apply keeps_get_priv |]. intros p.
    apply keeps_ret.
  - intros x x' H. unfold mmcsd_open in H.
    refine (locked_body (Ret tt) (fun ret => (x, ret))
              (fun _ => (set_crefs (to_u8 (crefs x + 1)) x, OK))
              (fun b => snd b) _ _ _ Hc (keeps_ret mutex_obs tt) (fun _ => eq_refl) H).
  - intros x x' H. unfold mmcsd_close in H.
    refine (locked_body (Ret tt) (fun ret => (x, ret))
              (fun _ => (set_crefs (to_u8 (crefs x - 1)) x, OK))
              (fun b => snd b) _ _ _ Hc (keeps_ret mutex_obs tt) (fun _ => eq_refl) H).
Qed.

(** *** The block length after a transfer *)

Lemma setblocklen_len (blocklen : Z) (w w' : world) (r : option Z) :
  mmcsd_setblocklen blocklen w = (w', r) ->
  (r = Some OK -> selblocklen (priv w') = to_u32 blocklen) /\
  blocksize (priv w') = blocksize (priv w).
Proof.
  intros H. split.
  - intros ->. exact (setblocklen_ok_len _ _ _ H).
  - unfold mmcsd_setblocklen, mmcsd_sendcmdpoll, mmcsd_recv_r1, recvr1 in H.
    mred H. repeat (mif H; mred H); mleaf H; reflexivity.
Qed.

(** Split on the helper call [H] is stuck on, keeping what the helper
    does to the block length beside its status. *)
Ltac scall H :=
  lazymatch type of H with
  | ?L = _ =>
    let Y := scrut L in
    let w1 := fresh "w" in
    let o := fresh "o" in
    let E := fresh "E" in
    let B := fresh "B" in
    destruct Y as [w1 o] eqn:E;
    pose proof E as B;
    lazymatch type of E with
    | mmcsd_setblocklen _ _ = _ => apply setblocklen_len in B
    | _ =>
        eapply slot_inv in B; [| solve [auto with keeps]];
        let B1 := fresh "L" in
        let B2 := fresh "L" in
        destruct B as (B1 & B2)
    end;
    lazymatch type of E with
    | dma_preflight _ _ _ = _ => apply dma_preflight_spec in E
    | mmcsd_transferready _ _ _ = _ => apply transferready_spec in E
    | mmcsd_setblocklen _ _ = _ => apply setblocklen_spec in E
    | mmcsd_setblockcount _ _ = _ => apply setblockcount_spec in E
    | recv_setup _ _ _ = _ => apply recv_setup_spec in E
    | send_setup _ _ _ = _ => apply send_setup_spec in E
    | mmcsd_sendcmdpoll _ _ _ = _ => apply sendcmdpoll_spec' in E
    | mmcsd_recv_r1 _ _ = _ => apply recv_r1_spec in E
    | mmcsd_eventwait _ _ = _ => apply eventwait_spec' in E
    | mmcsd_stoptransmission _ = _ => apply stoptransmission_spec in E
    end
  end.

(** The block length at the end of the run, from what each helper did to
    it. *)
Ltac len_chain :=
  repeat first
    [ rewrite priv_logcall
    | rewrite priv_setpriv
    | progress cbn [selblocklen blocksize set_wrbusy set_locked set_partnum]
    | match goal with
      | B : selblocklen (priv ?x) = _ |- context [selblocklen (priv ?x)] =>
          rewrite B
      | B : blocksize (priv ?x) = _ |- context [blocksize (priv ?x)] =>
          rewrite B
      | T : (Some ?v = Some OK -> selblocklen (priv ?x) = _) /\ _,
        Hb : negb (?v =? OK) = false
        |- context [selblocklen (priv ?x)] =>
          rewrite (proj1 T (f_equal Some
                     (proj1 (Z.eqb_eq _ _) (proj1 (negb_false_iff _) Hb))))
      | T : _ /\ blocksize (priv ?x) = _ |- context [blocksize (priv ?x)] =>
          rewrite (proj2 T)
      end ];
  reflexivity.

Ltac sstep close Acc H :=
  mred H;
  lazymatch type of H with
  | (_, _) = (_, _) => bleaf close H
  | mmcsd_exit _ _ _ = _ => bleaf close H
  | _ =>
    first [ scall H;
            lazymatch goal with E : emits _ _ _ /\ _ |- _ => advance Acc E end
          | mif H ]
  end.

Lemma xfer_len (fuel : nat) (p0 : mmcsd_state_s) (t : transfer)
      (w w' : world) (v : Z) :
  errno_host (dev (priv w)) -> 0 < v ->
  transfer_xfer cfg fuel p0 t w = (w', Some v) ->
  selblocklen (priv w') = to_u32 (blocksize (priv w')).
Proof.
  intros He Hv H. pose proof (emits_refl w) as Acc.
  destruct t; cbn [transfer_xfer] in H;
    unfold mmcsd_readsingle_xfer, mmcsd_readsingle_wait,
           mmcsd_readmultiple_xfer, mmcsd_readmultiple_wait,
           mmcsd_writesingle_xfer, mmcsd_writesingle_wait,
           mmcsd_writemultiple_xfer, mmcsd_writemultiple_wait,
           mmcsd_writemultiple_done in H;
    repeat sstep ltac:(first [ solve [not_positive He] | solve [len_chain] ])
           Acc H.
Qed.

(** X24.  A transfer that returns a positive count leaves the block
    length selected on the card equal to the block size of the slot, so
    the CMD16 of the next transfer is skipped: mmcsd_setblocklen for the
    block size then returns OK without a call on the host. *)
Theorem X24_transfer_caches_block_length (fuel : nat) (part : Z) (t : transfer)
        (w w' : world) (v : Z) :
  errno_host (dev (priv w)) -> 0 < v ->
  run_transfer cfg fuel part t w = (w', Some v) ->
  selblocklen (priv w') = to_u32 (blocksize (priv w')) /\
  mmcsd_setblocklen (blocksize (priv w')) w' = (w', Some OK).
Proof.
  intros He Hv H.
  destruct (transfer_positive cfg fuel part t w w' v He Hv H) as (w1 & Hd & Hx).
  rewrite <- Hd in He.
  pose proof (xfer_len _ _ _ _ _ _ He Hv Hx) as Hs.
  split; [exact Hs |].
  unfold mmcsd_setblocklen. cbv beta iota zeta delta [bind get_priv].
  rewrite Hs, Z.eqb_refl. reflexivity.
Qed.

End Kept.

Lemma X24_transfer_caches_block_length_witness :
  selblocklen (priv Scenario.world_sd_byte) = 0 /\
  selblocklen (priv (fst (run_transfer Scenario.cfg0 1 0 (ReadMultiple 8 4)
                            Scenario.world_sd_byte))) = 512.
Proof.
  split; [reflexivity |].
  refine (proj1 (X24_transfer_caches_block_length Scenario.cfg0 1 0
                   (ReadMultiple 8 4) Scenario.world_sd_byte _ 4 _ _ eq_refl)).
  - intros c tr Hc. destruct c; try discriminate Hc; cbn; lia.
  - lia.
Defined.

Lemma X23_methods_release_mutex_witness :
  mutex_calls (fst (mmcsd_read Scenario.cfg0 1 0 0 5
                      Examples.world_sd_third_fails))
  = [nxmutex_lock; nxmutex_unlock] /\
  balanced Examples.world_sd_third_fails
           (fst (mmcsd_read Scenario.cfg0 1 0 0 5 Examples.world_sd_third_fails))
           (- ETIMEDOUT).
Proof.
  split; [reflexivity |].
  refine (proj1 (X23_methods_release_mutex Scenario.cfg0 1
                   Examples.world_sd_third_fails _ (- ETIMEDOUT) _)
            0 0 5 ltac:(lia) eq_refl).
  intros tr. split; destruct tr as [| []]; reflexivity.
Defined.
